(* ===== verification/_CoqProject ===== *)
-Q . S2P
Prelude.v
Bytes.v
Crypto.v
Host.v
RouterTypes.v
Identifiers.v
CoreCommitment.v
Ics24Host.v
Interfaces.v
IbcStore.v
PortRouter.v
Ics02Client.v
PacketHandler.v
Router.v
Transfer.v
TransferSpec.v
LcMock.v
LcAttestation.v
LcTendermint.v
System.v
Smt.v
Prost.v
WasmTypes.v
MerkleProof.v
Conversion.v
GatewayState.v
WasmLightClient.v
EndToEnd.v
Xdr.v
ContractValues.v
EventAttributes.v
Text.v
Json.v
TendermintStates.v
ApiTypes.v
GatewayMsg.v
GatewayQuery.v
LedgerEntries.v
Rpc.v
ApiService.v
ApiClient.v
ApiStack.v
ApiStorage.v
GatewayStack.v
StackDemo.v
ConfigText.v
Configuration.v
Cli.v
CosmosSigner.v
WasmUpload.v
CliTx.v
CliDemo.v
CliStack.v
Deployment.v
DeploymentDemo.v
CliQuery.v
CliQueryDemo.v
CliMain.v
CliFlows.v
CliFlowsDemo.v
Startup.v
Bridge.v
BridgeDemo.v
