(* ===== verification/Prelude.v ===== *)
(** * A verification library for the Stellar IBC v2 (Eureka) stack

    The repository connects Stellar to Cosmos chains with IBC v2.  A Soroban contract, the router,
    keeps clients, ports and packet commitments on Stellar; light-client contracts verify the
    counterparty for it and application contracts exchange packets through it.  Off chain, a gateway
    replays Stellar's ledgers into a sparse Merkle tree over the router's provable entries and serves
    roots and proofs; a CosmWasm light client on the Cosmos side checks them.  A relayer talks to the
    gateway; the gateway talks to an HTTP service in front of Stellar's RPC server.

    ** The parts and their files

    On Stellar, [contracts/soroban]:
    - [Host]: the Soroban host as the contracts use it (addresses, [Env], [require_auth], typed storage
      with its time to live, checked arithmetic, failures).
    - [RouterTypes]: [ibc-router/src/{types,errors,events}.rs].  [RouterState] is the router's storage
      and event log; [World X] pairs it with the state [X] of all other contracts.
    - [Identifiers]: [identifiers.rs].  [Ics24Host]: [ics24_host.rs], paths and commitments in fixed
      buffers.  [IbcStore]: [ibc_store.rs].  [PortRouter]: [port_router.rs].  [Ics02Client]:
      [ics02_client.rs].  [PacketHandler]: [packet_handler.rs].
    - [Router]: [lib.rs].  [Call] has a constructor per entry point and [exec] runs it; [step] is one
      transaction of a ledger, [deployed] the router after its constructor, and [action] with [enabled]
      and [writes] an abstract router on the persistent entries.
    - [Interfaces]: the classes [LightClients] and [IbcApps], what the router calls.  The router's
      theorems hold for every instance.
    - [LcMock], [LcAttestation], [LcTendermint]: [light-clients/{mock,attestation,tendermint}/src/lib.rs].
    - [Transfer], [TransferSpec]: [ibc-transfer/src/lib.rs], its definitions and its theorems.
    - [System]: the repository's own contracts as instances of the interfaces, and a ledger executed
      with them on which the theorems are instantiated.

    Off chain, [crates/core]:
    - [CoreCommitment]: [ibc/commitment.rs].  [Smt]: [ibc/smt.rs] (module [CoreSmt]) and the verifier
      of the CosmWasm contract, [light-client/src/smt.rs] (module [WasmSmt]).  [Conversion]:
      [conversion.rs].  [GatewayState]: [ibc/state.rs].
    - [MerkleProof]: [ibc/proof.rs] and its decoder [light-client/src/merkle.rs].
    - [Xdr], [ContractValues]: Soroban values as bytes, and the contracts' structs, events and calls as
      Soroban values.  [TendermintStates]: [ibc/{client_state,consensus_state,soroban}.rs].
      [EventAttributes]: [ibc/event.rs].  [ApiTypes]: [types.rs] and the class [Api], what the gateway
      asks of the service.  [ApiClient]: [api_client.rs], its implementation over HTTP.

    The services, [crates/gateway] and [crates/api]:
    - [GatewayMsg], [GatewayQuery]: [gateway/src/{msg,query}.rs], a definition per gRPC handler.
    - [Rpc]: [api/src/rpc.rs].  [ApiService]: [api/src/{state,runner}.rs] and [api/src/services], the
      handlers, the extractors and the route table.  [Text], [Json], [LedgerEntries]: hexadecimal and
      decimal text, JSON and HTTP requests, and the contracts' storage as ledger entries.
    - [ApiStack], [ApiStorage], [GatewayStack]: client, service and RPC server composed, then with the
      contracts' storage behind them, then with the gateway's handlers in front.  [StackDemo]: all of it
      on the ledger of [System].
    - [Startup]: what the two services are given when they start ([gateway/src/runner.rs],
      [api/src/{lib,runner,state}.rs]).

    On Cosmos, [contracts/cosmwasm/light-client]:
    - [Prost]: what the derive macro of protocol-buffer messages does with a schema.  [WasmTypes]:
      [src/{error,types,msg}.rs].  [WasmLightClient]: [src/{store,entrypoint}.rs].
    - [EndToEnd]: the gateway and the light client together.  [Bridge]: the router's ledgers in front of
      them; [reports] says what the metadata of a transaction tells of the entries it changes.
      [BridgeDemo]: a packet of the ledger of [System] on its way to Cosmos.

    The command-line tool, [interstellar], and the settings of all programs:
    - [ConfigText]: the texts that are rewritten line by line ([shared.rs], [services/hermes/mod.rs]) and
      the variables that are cleaned.  [Configuration]: the records read from the environment, of the
      tool and of the services.
    - [Cli]: what the tool does to the outside ([run.rs], [tools.rs], [probe.rs]) as the class [World] and
      the monad [IO], which keeps the outside on errors too.  [CosmosSigner]: [services/cosmos/tx.rs].
      [WasmUpload]: [tx/contracts/wasm.rs].  [CliTx]: [tx/{clients,contracts,transfer}].  [CliStack]:
      [services/mod.rs], [services/hermes/keys.rs], [accounts/mod.rs], [stack.rs], [start.rs].  [CliDemo]:
      a small node the upload runs against.
    - [CliQuery]: [tx/query], what the queries print, and [logger.rs].  [CliMain]: [main.rs], [repo.rs],
      [check.rs], [install.rs], the dispatch of [tx/mod.rs] and the flows of [tests/], which run the tool's
      own commands and reload the configuration between them.  [CliFlows]: their theorems.
    - [Deployment]: the tool's deployment over the ledger of the router; the class [StellarNet] says which
      router a contract id names.  [DeploymentDemo], [CliQueryDemo] and [CliFlowsDemo] run these commands on
      small networks and machines.

    [Prelude], [Bytes] and [Crypto] hold what all of these share: results, the state monad with
    failure and its inversion tactic [minv], machine integers, labelled executions; byte strings,
    big-endian and decimal codecs, fixed buffers; SHA-256 and Ed25519 as classes.

    ** What the theorems show

    - Ledgers ([Router]): whatever transactions run, in any order and with failures between them, a
      packet is received at most once and resolved (acknowledged or timed out) at most once, what is
      resolved was sent, sequences grow strictly, bindings are permanent, a frozen client rejects
      updates, the published events determine the provable store, and the stored values have the types
      they are read at.  [router_refines_abstract] shows every transaction to be one enabled action of
      the abstract router.
    - Handlers ([PacketHandler], [Ics02Client], [Identifiers]): each packet operation succeeds exactly
      under its guards and then has exactly its effect, and the guards fail with their own error codes.
      The other operations have the same lemmas, used by the refinement.
    - Commitments ([Ics24Host], [CoreCommitment]): on-chain and off-chain code compute the same bytes;
      commitments bind packets and acknowledgements.
    - Transfer ([TransferSpec]): conservation of supply, authorisation and escrow of a transfer within
      the daily cap, injectivity of the ICS-20 text, the round trip of addresses; and that the refund of
      the application's own packets never happens.
    - Light clients ([LcAttestation], [LcTendermint], [WasmLightClient]): what is accepted, exactly;
      histories of the CosmWasm client keep consensus states and trust parameters.
    - Proofs ([Smt], [MerkleProof], [GatewayState], [EndToEnd]): proofs the tree generates verify, a
      proof that verifies shows what the tree holds; proofs survive serialisation, except that
      non-membership proofs cannot be read by the light client; the gateway's tree is the router's
      store; a gateway proof is accepted on Cosmos and only the router's writes are; and the gateway
      answers from every state as soon as the service has the ledgers left to replay.
    - Both sides of the bridge ([Bridge]): every packet the router sent and has not resolved, and every
      acknowledgement it wrote, gets from the gateway a proof the Cosmos light client accepts, and the
      light client accepts no other packet or acknowledgement; a gateway first asked after the router's
      first entries denies them.
    - Services ([TendermintStates], [EventAttributes], [GatewayMsg], [GatewayQuery], [ApiStack],
      [ApiStorage], [GatewayStack]): Tendermint states and headers cross between the gateway and the
      contract unchanged; a prepared transaction calls the router as the relayer's message means; the
      queries answer with what the router, the light clients and the transfer application store; the API
      client returns what the RPC client reads.  The exceptions are theorems too: heights cut to 32
      bits, states of mock clients and balances of denominations with a slash that cannot be asked for,
      clients of other types that are not listed, acknowledgement events without their packet.
    - The command-line tool ([WasmUpload], [CliTx], [ConfigText], [Configuration]): the relayer's
      configuration only ever gets the checksum of code the chain lists after a proposal and a vote of the
      tool; clients and contracts that were created are assigned in the environment file, errors leave it
      alone, and writing twice changes nothing; invocations are retried at most six times and only for a
      stale sequence; a transfer invokes the application with a timeout of 64 bits; starting the whole stack
      replaces and deletes no key ([CliStack.start_keeps_keys], over the record of commands of [logged]);
      the services and the tool agree on the settings they share.
    - The tool over the stack ([Deployment], [CliQuery], [CliFlows], [Startup]): a deployment that reports
      success has wired a reachable router to the contracts the environment file names, whoever else uses
      the network meanwhile; the query of the clients prints what the router stores; a flow finds in its
      configuration the clients the flow before it created; queries never fail and the flows succeed exactly
      when each does; the services started from one environment work for the same router if the environment
      names it, but a router named in [.env] only is the service's and not the gateway's, and without a router
      the gateway replays everybody's writes.
    - Loops ([digit_loops_terminate], [wait_for_tx_result], [wait_http_answers]): the digit loops on chain
      stop inside their buffers; the polling loops of the tool end with an answer or after their timeout.

    Statements that rest on SHA-256 being collision free say so for the finite list of messages hashed
    in the situation at hand ([Core.no_collision], [sound_hashes]), never for all messages, so their
    hypotheses hold and are checked by evaluation in the instances.  The tree places a leaf by 64 bits
    of a hash; the theorems on the gateway's tree ask that the paths of the replayed ledgers have
    different places ([GatewayState.no_collision]).

    ** Parameters

    Code outside the repository is an argument: [Sha256] and [Ed25519] (only the digest length is a
    law; [fips_sha256] is SHA-256 itself and evaluates the repository's test vectors), the XDR codecs
    of the Soroban SDK ([Xdr], [AttXdr], [TmXdr], with the laws of [XdrLaws] where used), the
    byte-level protocol-buffer format ([ProstWire], with [ProstWireLaws]; [Protobuf.wire] is the
    published format), the numbers of the [ics23] crate ([Ics23Numbers], [Ics23Published]), the printing
    of XDR strings ([StringText]), the XDR of Soroban values and ledger entries ([ScvalXdr], [LedgerXdr]
    with their laws; [Rfc4506] and [LedgerFormat] are the published format), the [ibc] and [tendermint]
    crates ([IbcTendermint]), the [soroban_client] crate with the node behind it ([SorobanRpc]), the HTTP
    connection ([ApiStack.connected]: a request of plain segments reaches the route table), the ledger
    service and the decoder of its metadata (arguments of [GatewayState]'s operations), the programs, nodes
    and files around the command-line tool ([Cli.World], with [WorldLaws] where used), the keys, signatures
    and encodings of the [cosmrs] crate ([CosmosTx]), the account of a Stellar secret key, the network behind
    the [stellar] program ([StellarNet], with [NetLaws]) and the reader of environment files ([dotenv], with
    [DotenvLaws], and [preserves_variables] for the one of the service).

    ** Bounds, fuel and approximations

    - Loops over a list are structural.  Loops with fuel: [write_u32] has 11 iterations for at most 10
      digits of a [u32], [append_decimal] 41 for at most 40 bytes of an [i128], [dec] prints with as
      many digits as the type needs, a varint is written with as much fuel as it has bits; in each case a
      lemma shows that the result is complete.  The polling loops of the tool have one round per five
      seconds of their timeout and two more, or one per two seconds and four more for the doubling delays;
      they never run out.  The tree has its source's depth, 64.
    - Integers are [Z] within the ranges of their Rust types; additions that can overflow trap as the
      workspace's [overflow-checks] make them.  Buffers trap out of range.
    - A failing transaction leaves no write, so failed contract runs carry no state.  The gateway's
      methods are different: they keep what they wrote before an error, and so does their model.
    - Reading XDR on chain has three outcomes ([xdr_read]): a value, bytes that are none, which trap in the
      host, and a value of another type, which is the error the contract handles.  In the concrete codecs of
      [TendermintStates] a struct with other keys counts as a value of another type.
    - [require_auth] succeeds for an address in the set of signers of the invocation or for the calling
      contract; the tree of sub-invocations that a signature covers is not modelled.
    - The host forbids re-entrance, so a callee is a function on the other contracts' state.
    - Time to live is recorded on writes; entries do not expire by themselves.
    - Logging and the JSON text of CosmWasm answers are left out.
    - An HTTP handler reads the RPC server as it is at one moment.  Errors of the services keep their
      status and the constant part of their text.  JSON numbers are the integers the services send.

    ** Not modelled

    Of [interstellar]: the parsing of the command line by [clap] and the progress bar of [run.rs] and
    [logger.rs].  The listeners, the health and reflection services, the OpenAPI page and the logging of the
    services, and generated code, are outside: they hold no state of the program. *)

From Stdlib Require Import ZArith Lia.
From stdpp Require Import base option list gmap strings numbers.

Open Scope Z_scope.

(** ** Results *)

(** Rust's [Result<A, E>]; a Soroban trap or [panic_with_error!] is an [Err] too,
    since it aborts the whole transaction and discards every write. *)
Inductive result (E A : Type) : Type :=
| Ok (a : A)
| Err (e : E).
Arguments Ok {E A} a.
Arguments Err {E A} e.

#[export] Instance result_ret {E} : MRet (result E) := fun A a => Ok a.
#[export] Instance result_bind {E} : MBind (result E) :=
  fun A B f r => match r with Ok a => f a | Err e => Err e end.

Definition is_ok {E A} (r : result E A) : bool :=
  match r with Ok _ => true | Err _ => false end.

(** [option::ok_or]. *)
Definition ok_or {E A} (e : E) (o : option A) : result E A :=
  match o with Some a => Ok a | None => Err e end.

(** [Result::ok]. *)
Definition result_ok {E A} (r : result E A) : option A :=
  match r with Ok a => Some a | Err _ => None end.

(** [iter().map(f).collect::<Result<Vec<_>, _>>()]: stops at the first error. *)
Fixpoint collect {E A B} (f : A -> result E B) (l : list A) : result E (list B) :=
  match l with
  | [] => Ok []
  | x :: xs => y ← f x; ys ← collect f xs; Ok (y :: ys)
  end.

(** ** A state monad with failure *)

Definition M (E S A : Type) : Type := S -> result E (S * A).

#[export] Instance M_ret {E S} : MRet (M E S) := fun A a s => Ok (s, a).
#[export] Instance M_bind {E S} : MBind (M E S) :=
  fun A B f m s => match m s with Ok (s', a) => f a s' | Err e => Err e end.

Definition fail {E S A} (e : E) : M E S A := fun _ => Err e.
Definition lift {E S A} (r : result E A) : M E S A :=
  fun s => match r with Ok a => Ok (s, a) | Err e => Err e end.
Definition gets {E S A} (f : S -> A) : M E S A := fun s => Ok (s, f s).
Definition modify {E S} (f : S -> S) : M E S unit := fun s => Ok (f s, tt).

(** [if b { panic_with_error!(e) }]. *)
Definition fail_if {E S} (b : bool) (e : E) : M E S unit :=
  if b then fail e else mret tt.

(** [o.unwrap_or_else(|| panic_with_error!(e))]. *)
Definition unwrap_or_fail {E S A} (e : E) (o : option A) : M E S A :=
  match o with Some a => mret a | None => fail e end.

(** [for x in l { f(x) }] with the state threaded through. *)
Fixpoint for_each {E S A} (f : A -> M E S unit) (l : list A) : M E S unit :=
  match l with
  | [] => mret tt
  | x :: xs => _ ← f x; for_each f xs
  end.

(** [for x in l { acc.push_back(f(x)) }]. *)
Fixpoint map_each {E S A B} (f : A -> M E S B) (l : list A) : M E S (list B) :=
  match l with
  | [] => mret []
  | x :: xs => y ← f x; ys ← map_each f xs; mret (y :: ys)
  end.

(** The value and the state a run ends with, for evaluating examples. *)
Definition run_value {E S A} (r : result E (S * A)) : option A :=
  match r with Ok (_, a) => Some a | Err _ => None end.
Definition run_state {E S A} (s0 : S) (r : result E (S * A)) : S :=
  match r with Ok (s, _) => s | Err _ => s0 end.

Lemma run_value_Ok {E S A} (s0 : S) (r : result E (S * A)) a :
  run_value r = Some a -> r = Ok (run_state s0 r, a).
Proof. destruct r as [[s b]|e]; simpl; [|done]. by intros [= ->]. Qed.

(** ** Inversion of monadic runs *)

Lemma result_bind_Ok {E A B} (r : result E A) (f : A -> result E B) b :
  (r ≫= f) = Ok b <-> exists a, r = Ok a /\ f a = Ok b.
Proof. destruct r; simpl; naive_solver. Qed.

Lemma Ok_inj {E A} (a b : A) : Ok (E:=E) a = Ok b -> a = b.
Proof. by intros [= ->]. Qed.

Lemma M_bind_Ok {E S A B} (m : M E S A) (f : A -> M E S B) s s2 b :
  (m ≫= f) s = Ok (s2, b) <-> exists s1 a, m s = Ok (s1, a) /\ f a s1 = Ok (s2, b).
Proof.
  unfold mbind, M_bind. destruct (m s) as [[s1 a]|e]; naive_solver.
Qed.

Lemma M_bind_run {E S A B} (m : M E S A) (f : A -> M E S B) s s1 a :
  m s = Ok (s1, a) -> (m ≫= f) s = f a s1.
Proof. unfold mbind, M_bind. by intros ->. Qed.

Lemma M_bind_fails {E S A B} (m : M E S A) (f : A -> M E S B) s e :
  m s = Err e -> (m ≫= f) s = Err e.
Proof. unfold mbind, M_bind. by intros ->. Qed.

Lemma M_ret_Ok {E S A} (a b : A) (s s' : S) :
  (mret a : M E S A) s = Ok (s', b) <-> s' = s /\ b = a.
Proof. unfold mret, M_ret. naive_solver. Qed.

Lemma lift_Ok {E S A} (r : result E A) (s s' : S) a :
  lift r s = Ok (s', a) <-> s' = s /\ r = Ok a.
Proof. unfold lift. destruct r; naive_solver. Qed.

Lemma gets_Ok {E S A} (f : S -> A) (s s' : S) a :
  (gets f : M E S A) s = Ok (s', a) <-> s' = s /\ a = f s.
Proof. unfold gets. naive_solver. Qed.

Lemma modify_Ok {E S} (f : S -> S) (s s' : S) u :
  (modify f : M E S unit) s = Ok (s', u) <-> s' = f s /\ u = tt.
Proof. unfold modify. destruct u. naive_solver. Qed.

Lemma fail_if_Ok {E S} b (e : E) (s s' : S) u :
  fail_if b e s = Ok (s', u) <-> b = false /\ s' = s /\ u = tt.
Proof. unfold fail_if, fail, mret, M_ret. destruct b, u; naive_solver. Qed.

Lemma unwrap_or_fail_Ok {E S A} (e : E) (o : option A) (s s' : S) a :
  unwrap_or_fail e o s = Ok (s', a) <-> o = Some a /\ s' = s.
Proof. unfold unwrap_or_fail, fail, mret, M_ret. destruct o; naive_solver. Qed.

Lemma ok_or_Ok {E A} (e : E) (o : option A) a : ok_or e o = Ok a <-> o = Some a.
Proof. destruct o; naive_solver. Qed.

(** A loop preserves every invariant its body preserves. *)
Lemma for_each_preserves {E S A} (I : S -> Prop) (f : A -> M E S unit) l :
  (forall x s s' u, x ∈ l -> I s -> f x s = Ok (s', u) -> I s') ->
  forall s s' u, I s -> for_each f l s = Ok (s', u) -> I s'.
Proof.
  induction l as [|x l IH]; intros Hf s s' u HI; simpl.
  - intros [-> _]%M_ret_Ok. done.
  - intros (s1 & u1 & H1 & H2)%M_bind_Ok.
    eapply IH; [|eapply Hf; [left|exact HI|exact H1]|exact H2].
    intros; eapply Hf; [right|..]; eauto.
Qed.

Lemma for_each_ext {E S A} (f g : A -> M E S unit) l s :
  (forall a s, f a s = g a s) -> for_each f l s = for_each g l s.
Proof.
  intros Hfg. revert s. induction l as [|a l IH]; intros s; simpl; [done|].
  unfold mbind, M_bind. rewrite Hfg. destruct (g a s) as [[s1 []]|e]; auto.
Qed.

Lemma map_each_preserves {E S A B} (I : S -> Prop) (f : A -> M E S B) l :
  (forall x s s' b, x ∈ l -> I s -> f x s = Ok (s', b) -> I s') ->
  forall s s' bs, I s -> map_each f l s = Ok (s', bs) -> I s'.
Proof.
  induction l as [|x l IH]; intros Hf s s' bs HI; simpl.
  - intros [-> _]%M_ret_Ok. done.
  - intros (s1 & b1 & H1 & (s2 & bs2 & H2 & H3)%M_bind_Ok)%M_bind_Ok.
    apply M_ret_Ok in H3 as [-> _].
    eapply IH; [|eapply Hf; [left|exact HI|exact H1]|exact H2].
    intros; eapply Hf; [right|..]; eauto.
Qed.

Lemma map_each_length {E S A B} (f : A -> M E S B) l s s' bs :
  map_each f l s = Ok (s', bs) -> length bs = length l.
Proof.
  revert s bs. induction l as [|x l IH]; intros s bs; simpl.
  - by intros [_ ->]%M_ret_Ok.
  - intros (s1 & b1 & H1 & (s2 & bs2 & H2 & H3)%M_bind_Ok)%M_bind_Ok.
    apply M_ret_Ok in H3 as [-> ->]. simpl. f_equal. by eapply IH.
Qed.

Lemma collect_Ok {E A B} (f : A -> result E B) l l' :
  collect f l = Ok l' <-> Forall2 (fun x y => f x = Ok y) l l'.
Proof.
  revert l'. induction l as [|x l IH]; intros l'; simpl.
  - split; [intros [= <-]; constructor|by inversion 1].
  - rewrite result_bind_Ok. setoid_rewrite result_bind_Ok. split.
    + intros (y & Hy & ys & Hys & [= <-]). constructor; [done|]. by apply IH.
    + inversion 1 as [|? y ? ys Hy Hys]; subst.
      exists y. split; [done|]. exists ys. split; [by apply IH|done].
Qed.

(** [minv H] inverts a successful run [H : m s = Ok (s', a)] into the runs of its parts. *)
Ltac minv_step H :=
  lazymatch type of H with
  | (_ ≫= _) _ = Ok (_, _) =>
      let s := fresh "st" in let a := fresh "v" in let H1 := fresh "Hrun" in
      apply M_bind_Ok in H as (s & a & H1 & H); minv_step H1; minv_step H
  | (mret _) _ = Ok (_, _) =>
      let Ha := fresh "Hs" in let Hb := fresh "Hv" in
      apply M_ret_Ok in H as [Ha Hb]; try subst
  | lift _ _ = Ok (_, _) =>
      let Ha := fresh "Hs" in apply lift_Ok in H as [Ha H]; try subst
  | gets _ _ = Ok (_, _) =>
      let Ha := fresh "Hs" in apply gets_Ok in H as [Ha H]; try subst
  | modify _ _ = Ok (_, _) =>
      let Ha := fresh "Hs" in apply modify_Ok in H as [H Ha]; try subst
  | fail_if _ _ _ = Ok (_, _) =>
      let Ha := fresh "Hs" in let Hb := fresh "Hu" in
      apply fail_if_Ok in H as (H & Ha & Hb); try subst
  | unwrap_or_fail _ _ _ = Ok (_, _) =>
      let Ha := fresh "Hs" in apply unwrap_or_fail_Ok in H as [H Ha]; try subst
  | _ => idtac
  end.
Ltac minv H := minv_step H.

(** ** Machine integers *)

Definition u32_max : Z := 2 ^ 32 - 1.
Definition u64_max : Z := 2 ^ 64 - 1.
Definition i128_max : Z := 2 ^ 127 - 1.
Definition i128_min : Z := - 2 ^ 127.

Definition in_u32 (z : Z) : Prop := 0 <= z <= u32_max.
Definition in_u64 (z : Z) : Prop := 0 <= z <= u64_max.
Definition in_i128 (z : Z) : Prop := i128_min <= z <= i128_max.

#[export] Instance in_u32_dec z : Decision (in_u32 z).
Proof. unfold in_u32. apply _. Defined.
#[export] Instance in_u64_dec z : Decision (in_u64 z).
Proof. unfold in_u64. apply _. Defined.
#[export] Instance in_i128_dec z : Decision (in_i128 z).
Proof. unfold in_i128. apply _. Defined.

(** ** Reachability by finite sequences of steps *)

Section Sequences.
Context {S L : Type} (step : S -> L -> S -> Prop).

(** Labelled finite executions, oldest label first. *)
Inductive steps : S -> list L -> S -> Prop :=
| steps_nil s : steps s [] s
| steps_cons s l s1 ls s2 : step s l s1 -> steps s1 ls s2 -> steps s (l :: ls) s2.

Lemma steps_app s1 l1 s2 l2 s3 : steps s1 l1 s2 -> steps s2 l2 s3 -> steps s1 (l1 ++ l2) s3.
Proof. induction 1; simpl; [done|]. intros. econstructor; eauto. Qed.

Lemma steps_app_inv s1 l1 l2 s3 :
  steps s1 (l1 ++ l2) s3 -> exists s2, steps s1 l1 s2 /\ steps s2 l2 s3.
Proof.
  revert s1. induction l1 as [|l l1 IH]; simpl; intros s1 H.
  - exists s1. split; [constructor|done].
  - inversion H as [|? ? sm ? ? H1 H2]; subst. apply IH in H2 as (s2 & ? & ?).
    exists s2. split; [econstructor; eauto|done].
Qed.

Lemma steps_single s l s' : steps s [l] s' -> step s l s'.
Proof. inversion 1 as [|? ? s1 ? ? H1 H2]; subst. by inversion H2; subst. Qed.

Lemma steps_invariant (I : S -> Prop) :
  (forall s l s', I s -> step s l s' -> I s') ->
  forall s ls s', I s -> steps s ls s' -> I s'.
Proof. intros Hstep s ls s' HI Hsteps. induction Hsteps; eauto. Qed.

End Sequences.
