(* ===== verification/Bytes.v ===== *)
(** * Byte strings

    Soroban's [Bytes], [BytesN] and [String] and Rust's [Vec<u8>], [&[u8]] and [[u8; N]] are lists
    of 8-bit bytes.  This file holds the big-endian codec of [u64::to_be_bytes] and
    [u64::from_be_bytes], writes into fixed-size buffers with Rust's bounds checks, decimal
    printing, and the hexadecimal digits used by several components. *)

From Stdlib Require Import ZArith Lia Strings.Byte Strings.String.
From stdpp Require Import base option list gmap numbers.
From S2P Require Import Prelude.
Open Scope Z_scope.

Abbreviation bytes := (list byte).

#[export] Instance byte_eq_dec : EqDecision byte := Byte.byte_eq_dec.
#[export] Program Instance byte_countable : Countable byte :=
  inj_countable Byte.to_N Byte.of_N _.
Next Obligation. exact Byte.of_to_N. Qed.
#[export] Instance byte_inhabited : Inhabited byte := populate Byte.x00.

(** The bytes of a string literal. *)
Definition bstr (s : string) : bytes := String.list_byte_of_string s.

Definition Z_of_byte (b : byte) : Z := Z.of_N (Byte.to_N b).
(** [z as u8]. *)
Definition byte_of_Z (z : Z) : byte := default Byte.x00 (Byte.of_N (Z.to_N (z mod 256))).

Fixpoint of_be_bytes_acc (acc : Z) (bs : bytes) : Z :=
  match bs with
  | [] => acc
  | b :: bs => of_be_bytes_acc (acc * 256 + Z_of_byte b) bs
  end.
(** [u64::from_be_bytes] (of any width). *)
Definition of_be_bytes (bs : bytes) : Z := of_be_bytes_acc 0 bs.

Fixpoint le_bytes (n : nat) (z : Z) : bytes :=
  match n with
  | O => []
  | S n => byte_of_Z z :: le_bytes n (z / 256)
  end.
(** [u64::to_be_bytes] is [to_be_bytes 8]. *)
Definition to_be_bytes (n : nat) (z : Z) : bytes := rev (le_bytes n z).

(** [buf[off..off + src.len()].copy_from_slice(src)]: [None] is Rust's out-of-range panic. *)
Definition buf_write (buf : bytes) (off : nat) (src : bytes) : option bytes :=
  if decide (off + length src <= length buf)%nat
  then Some (take off buf ++ src ++ drop (off + length src)%nat buf)
  else None.

(** [&buf[..n]]. *)
Definition buf_prefix (buf : bytes) (n : nat) : option bytes :=
  if decide (n <= length buf)%nat then Some (take n buf) else None.

(** [[0u8; n]]. *)
Definition zeros (n : nat) : bytes := replicate n Byte.x00.

Definition ascii_0 : Z := 48.
Definition digit_byte (d : Z) : byte := byte_of_Z (ascii_0 + d).

(** The digits of a natural number, least significant first; the fuel bounds their number. *)
Fixpoint dec_digits (fuel : nat) (n : Z) : bytes :=
  match fuel with
  | O => []
  | S fuel => if n <=? 0 then [] else digit_byte (n mod 10) :: dec_digits fuel (n / 10)
  end.

(** Reference decimal printing, and reading back. *)
Definition dec (fuel : nat) (n : Z) : bytes :=
  if n <=? 0 then [digit_byte 0] else rev (dec_digits fuel n).
Fixpoint undec_acc (acc : Z) (bs : bytes) : Z :=
  match bs with
  | [] => acc
  | b :: bs => undec_acc (acc * 10 + (Z_of_byte b - ascii_0)) bs
  end.
Definition undec (bs : bytes) : Z := undec_acc 0 bs.

(** ** Bytes and integers *)

Lemma Z_of_byte_range b : 0 <= Z_of_byte b < 256.
Proof.
  unfold Z_of_byte. pose proof (Byte.to_N_bounded b) as H.
  apply N2Z.inj_le in H. simpl in H. lia.
Qed.

Lemma Z_of_byte_of_Z z : Z_of_byte (byte_of_Z z) = z mod 256.
Proof.
  unfold byte_of_Z, Z_of_byte. pose proof (Z.mod_pos_bound z 256 eq_refl) as Hz.
  destruct (Byte.of_N (Z.to_N (z mod 256))) as [b|] eqn:Hb; simpl.
  - apply Byte.to_of_N in Hb. rewrite Hb. lia.
  - apply Byte.of_N_None_iff in Hb. lia.
Qed.

Lemma byte_of_Z_of_byte b : byte_of_Z (Z_of_byte b) = b.
Proof.
  unfold byte_of_Z. rewrite Z.mod_small by apply Z_of_byte_range.
  unfold Z_of_byte. rewrite N2Z.id, Byte.of_to_N. done.
Qed.

Lemma Z_of_byte_inj b1 b2 : Z_of_byte b1 = Z_of_byte b2 -> b1 = b2.
Proof. intros H. by rewrite <-(byte_of_Z_of_byte b1), H, byte_of_Z_of_byte. Qed.

Lemma le_bytes_length n z : length (le_bytes n z) = n.
Proof. revert z. induction n; simpl; auto. Qed.

Lemma to_be_bytes_length n z : length (to_be_bytes n z) = n.
Proof. unfold to_be_bytes. by rewrite length_rev, le_bytes_length. Qed.

Lemma of_be_bytes_acc_app acc l1 l2 :
  of_be_bytes_acc acc (l1 ++ l2) = of_be_bytes_acc (of_be_bytes_acc acc l1) l2.
Proof. revert acc. induction l1; simpl; auto. Qed.

(** [from_be_bytes (to_be_bytes z)] is [z] modulo the width. *)
Lemma of_to_be_bytes n z :
  of_be_bytes (to_be_bytes n z) = z mod 256 ^ Z.of_nat n.
Proof.
  unfold of_be_bytes, to_be_bytes. revert z.
  induction n as [|n IH]; intros z.
  - simpl. by rewrite Z.mod_1_r.
  - cbn [le_bytes rev]. rewrite of_be_bytes_acc_app, IH. cbn [of_be_bytes_acc].
    rewrite Z_of_byte_of_Z, Nat2Z.inj_succ, Z.pow_succ_r by lia.
    rewrite Z.rem_mul_r by lia. lia.
Qed.

Lemma of_to_be_bytes_u64 z : in_u64 z -> of_be_bytes (to_be_bytes 8 z) = z.
Proof.
  unfold in_u64, u64_max. intros. rewrite of_to_be_bytes. apply Z.mod_small.
  change (256 ^ Z.of_nat 8) with (2 ^ 64). lia.
Qed.

Lemma to_be_bytes_u64_inj z1 z2 :
  in_u64 z1 -> in_u64 z2 -> to_be_bytes 8 z1 = to_be_bytes 8 z2 -> z1 = z2.
Proof.
  intros H1 H2 H. by rewrite <-(of_to_be_bytes_u64 z1), H, of_to_be_bytes_u64.
Qed.

Lemma of_be_bytes_acc_bound acc bs :
  0 <= acc ->
  0 <= of_be_bytes_acc acc bs < (acc + 1) * 256 ^ Z.of_nat (length bs).
Proof.
  revert acc. induction bs as [|b bs IH]; intros acc Hacc.
  - cbn [of_be_bytes_acc length]. change (256 ^ Z.of_nat 0) with 1. lia.
  - cbn [of_be_bytes_acc length]. pose proof (Z_of_byte_range b).
    specialize (IH (acc * 256 + Z_of_byte b) ltac:(lia)).
    rewrite Nat2Z.inj_succ, Z.pow_succ_r by lia. nia.
Qed.

Lemma of_be_bytes_u64 bs : length bs = 8%nat -> in_u64 (of_be_bytes bs).
Proof.
  intros H. pose proof (of_be_bytes_acc_bound 0 bs ltac:(lia)) as Hb.
  rewrite H in Hb. change (256 ^ Z.of_nat 8) with (2 ^ 64) in Hb.
  unfold in_u64, u64_max, of_be_bytes. lia.
Qed.

(** ** Buffers *)

Lemma zeros_length n : length (zeros n) = n.
Proof. apply length_replicate. Qed.

Lemma buf_write_length buf off src buf' :
  buf_write buf off src = Some buf' -> length buf' = length buf.
Proof.
  unfold buf_write. case_decide; [|done]. intros [= <-].
  rewrite !length_app, length_take, length_drop. lia.
Qed.

(** Filling a buffer from the left: the prefix written so far grows by [src]. *)
Lemma buf_write_prefix buf p src :
  take (length p) buf = p ->
  (length p + length src <= length buf)%nat ->
  exists buf', buf_write buf (length p) src = Some buf' /\
    length buf' = length buf /\ take (length (p ++ src)) buf' = p ++ src.
Proof.
  intros Hp Hlen. unfold buf_write. rewrite decide_True by done.
  eexists. split; [done|]. split.
  - rewrite !length_app, length_take, length_drop. lia.
  - rewrite Hp, app_assoc, take_app_length. done.
Qed.

Lemma buf_write_start buf src :
  (length src <= length buf)%nat ->
  exists buf', buf_write buf 0 src = Some buf' /\
    length buf' = length buf /\ take (length src) buf' = src.
Proof. intros Hlen. by apply (buf_write_prefix buf []). Qed.

Lemma buf_write_overflow buf off src :
  (length buf < off + length src)%nat -> buf_write buf off src = None.
Proof. intros. unfold buf_write. rewrite decide_False by lia. done. Qed.

Lemma buf_prefix_Some buf n p :
  (n <= length buf)%nat -> take n buf = p -> buf_prefix buf n = Some p.
Proof. intros ? <-. unfold buf_prefix. by rewrite decide_True. Qed.

(** ** Decimal printing *)

Lemma digit_byte_value d : 0 <= d < 10 -> Z_of_byte (digit_byte d) = 48 + d.
Proof.
  intros. unfold digit_byte, ascii_0. rewrite Z_of_byte_of_Z. apply Z.mod_small. lia.
Qed.

Lemma undec_acc_app acc l1 l2 : undec_acc acc (l1 ++ l2) = undec_acc (undec_acc acc l1) l2.
Proof. revert acc. induction l1; simpl; auto. Qed.

Lemma dec_digits_value fuel n :
  0 <= n < 10 ^ Z.of_nat fuel -> undec (rev (dec_digits fuel n)) = n.
Proof.
  unfold undec. revert n. induction fuel as [|fuel IH]; intros n Hn.
  - change (10 ^ Z.of_nat 0) with 1 in Hn. simpl. lia.
  - cbn [dec_digits]. destruct (Z.leb_spec n 0) as [Hle|Hgt]; [simpl; lia|].
    cbn [rev]. rewrite undec_acc_app, IH.
    + cbn [undec_acc]. rewrite digit_byte_value by (apply Z.mod_pos_bound; lia).
      unfold ascii_0. pose proof (Z.div_mod n 10). lia.
    + rewrite Nat2Z.inj_succ, Z.pow_succ_r in Hn by lia.
      split; [apply Z.div_pos; lia|apply Z.div_lt_upper_bound; lia].
Qed.

(** Printing then reading a number that fits the fuel gives it back. *)
Lemma undec_dec fuel n : 0 <= n < 10 ^ Z.of_nat fuel -> undec (dec fuel n) = n.
Proof.
  intros Hn. unfold dec. destruct (Z.leb_spec n 0).
  - assert (n = 0) as -> by lia. reflexivity.
  - by apply dec_digits_value.
Qed.

Lemma dec_digits_length fuel n : (length (dec_digits fuel n) <= fuel)%nat.
Proof.
  revert n. induction fuel as [|fuel IH]; intros n; simpl; [lia|].
  destruct (n <=? 0); simpl; [lia|]. specialize (IH (n / 10)). lia.
Qed.

Definition is_digit (b : byte) : Prop := 48 <= Z_of_byte b < 58.

Lemma dec_digits_digits fuel n : Forall is_digit (dec_digits fuel n).
Proof.
  revert n. induction fuel as [|fuel IH]; intros n; simpl; [constructor|].
  destruct (n <=? 0); constructor; [|done].
  unfold is_digit. pose proof (Z.mod_pos_bound n 10 ltac:(lia)).
  rewrite digit_byte_value; lia.
Qed.

Lemma dec_all_digits fuel n : Forall is_digit (dec fuel n).
Proof.
  unfold dec. destruct (n <=? 0).
  - constructor; [|constructor]. unfold is_digit. rewrite digit_byte_value; lia.
  - apply Forall_rev, dec_digits_digits.
Qed.

Lemma rev_lookup {A} (l : list A) i :
  (i < length l)%nat -> rev l !! i = l !! (length l - 1 - i)%nat.
Proof.
  intros Hi. rewrite rev_alt. change (rev_append l []) with (reverse l).
  rewrite reverse_lookup by done. f_equal. lia.
Qed.

(** A separator that does not occur in either suffix splits a string in one way only. *)
Lemma app_sep_inj {A} (sep : A) p1 p2 s1 s2 :
  sep ∉ s1 -> sep ∉ s2 -> p1 ++ sep :: s1 = p2 ++ sep :: s2 -> p1 = p2 /\ s1 = s2.
Proof.
  revert p2. induction p1 as [|x p1 IH]; intros [|y p2] H1 H2 Heq; simplify_eq/=.
  - done.
  - exfalso. apply H1. set_solver.
  - exfalso. apply H2. set_solver.
  - destruct (IH p2) as [-> ->]; auto.
Qed.

(** Equal concatenations with suffixes of equal length split equally. *)
Lemma app_inj_suffix {A} (l1 l2 k1 k2 : list A) :
  length k1 = length k2 -> l1 ++ k1 = l2 ++ k2 -> l1 = l2 /\ k1 = k2.
Proof.
  intros Hlen Heq. apply app_inj_2 in Heq; auto.
Qed.

Arguments to_be_bytes : simpl never.
Arguments of_be_bytes : simpl never.
Arguments zeros : simpl never.
Arguments buf_write : simpl never.
Arguments buf_prefix : simpl never.
