(* ===== verification/Crypto.v ===== *)
(** * Cryptographic primitives as interfaces

    SHA-256 and Ed25519 come from crates and host functions outside the repository
    ([sha2::Sha256], [env.crypto().sha256], [env.crypto().ed25519_verify],
    [deps.api.ed25519_verify]).  Every component takes them as an instance of the classes below;
    the only law assumed is the documented digest length.  [fips_sha256] is FIPS 180-4 SHA-256
    itself: it shows that the interface is inhabited and lets the test vectors of the repository
    be evaluated. *)

From Stdlib Require Import ZArith Lia Strings.Byte Strings.String.
From stdpp Require Import base option list numbers.
From S2P Require Import Prelude Bytes.
Open Scope Z_scope.

Class Sha256 := {
  sha256 : bytes -> bytes;
  sha256_length : forall m, length (sha256 m) = 32%nat;
}.

(** [ed25519_verify public_key message signature]. *)
Class Ed25519 := {
  ed25519_verify : bytes -> bytes -> bytes -> bool;
}.

Module Fips.

Definition wmask : Z := 2 ^ 32 - 1.
Definition w32 (z : Z) : Z := Z.land z wmask.
Definition rotr (x n : Z) : Z := Z.lor (Z.shiftr x n) (w32 (Z.shiftl x (32 - n))).
Definition bsig0 x := Z.lxor (Z.lxor (rotr x 2) (rotr x 13)) (rotr x 22).
Definition bsig1 x := Z.lxor (Z.lxor (rotr x 6) (rotr x 11)) (rotr x 25).
Definition ssig0 x := Z.lxor (Z.lxor (rotr x 7) (rotr x 18)) (Z.shiftr x 3).
Definition ssig1 x := Z.lxor (Z.lxor (rotr x 17) (rotr x 19)) (Z.shiftr x 10).
Definition ch x y z := Z.lxor (Z.land x y) (Z.land (Z.lxor x wmask) z).
Definition maj x y z := Z.lxor (Z.lxor (Z.land x y) (Z.land x z)) (Z.land y z).

(** The constants are the first 32 fractional bits of roots of the first primes: cube roots of
    sixty-four primes for the rounds, square roots of eight for the initial state. *)
Definition is_prime (p : Z) : bool :=
  forallb (fun d => negb (p mod d =? 0)) (seqZ 2 (Z.sqrt p - 1)).

Definition primes : list Z := filter (fun p => is_prime p = true) (seqZ 2 310).

(** The integer cube root, bit by bit from bit [i]. *)
Fixpoint cube_root (i : nat) (r n : Z) : Z :=
  let r' := r + 2 ^ Z.of_nat i in
  let r := if r' ^ 3 <=? n then r' else r in
  match i with O => r | S i => cube_root i r n end.

Definition round_constants : list Z :=
  Eval vm_compute in (fun p => w32 (cube_root 36 0 (p * 2 ^ 96))) <$> primes.

Record hash_state := HS { ha : Z; hb : Z; hc : Z; hd : Z; he : Z; hf : Z; hg : Z; hh : Z }.

Definition initial_state : hash_state :=
  Eval vm_compute in
  match (fun p => w32 (Z.sqrt (p * 2 ^ 64))) <$> take 8 primes with
  | [a; b; c; d; e; f; g; h] => HS a b c d e f g h
  | _ => HS 0 0 0 0 0 0 0 0
  end.

(** The message schedule as a sliding window of sixteen words. *)
Definition next_word (w : list Z) : Z :=
  match w with
  | w0 :: w1 :: _ :: _ :: _ :: _ :: _ :: _ :: _ :: w9 :: _ :: _ :: _ :: _ :: w14 :: _ =>
      w32 (ssig1 w14 + w9 + ssig0 w1 + w0)
  | _ => 0
  end.

Fixpoint rounds (ks : list Z) (w : list Z) (s : hash_state) : hash_state :=
  match ks, w with
  | k :: ks, w0 :: wt =>
      let t1 := hh s + bsig1 (he s) + ch (he s) (hf s) (hg s) + k + w0 in
      let t2 := bsig0 (ha s) + maj (ha s) (hb s) (hc s) in
      rounds ks (wt ++ [next_word w])
        (HS (w32 (t1 + t2)) (ha s) (hb s) (hc s) (w32 (hd s + t1)) (he s) (hf s) (hg s))
  | _, _ => s
  end.

Definition compress (s : hash_state) (block : list Z) : hash_state :=
  let r := rounds round_constants block s in
  HS (w32 (ha s + ha r)) (w32 (hb s + hb r)) (w32 (hc s + hc r)) (w32 (hd s + hd r))
     (w32 (he s + he r)) (w32 (hf s + hf r)) (w32 (hg s + hg r)) (w32 (hh s + hh r)).

Definition pad (m : bytes) : bytes :=
  let l := length m in
  m ++ [Byte.x80] ++ zeros ((119 - l mod 64) mod 64) ++ to_be_bytes 8 (8 * Z.of_nat l).

Fixpoint words (bs : bytes) : list Z :=
  match bs with
  | a :: b :: c :: d :: bs => of_be_bytes [a; b; c; d] :: words bs
  | _ => []
  end.

Fixpoint blocks (fuel : nat) (ws : list Z) (s : hash_state) : hash_state :=
  match fuel with
  | O => s
  | S fuel => match ws with [] => s | _ => blocks fuel (drop 16 ws) (compress s (take 16 ws)) end
  end.

Definition digest (m : bytes) : bytes :=
  let p := pad m in
  let s := blocks (S (length p / 64)) (words p) initial_state in
  to_be_bytes 4 (ha s) ++ to_be_bytes 4 (hb s) ++ to_be_bytes 4 (hc s) ++ to_be_bytes 4 (hd s) ++
  to_be_bytes 4 (he s) ++ to_be_bytes 4 (hf s) ++ to_be_bytes 4 (hg s) ++ to_be_bytes 4 (hh s).

Lemma digest_length m : length (digest m) = 32%nat.
Proof. unfold digest. by rewrite !length_app, !to_be_bytes_length. Qed.

End Fips.

Definition fips_sha256 : Sha256 := {| sha256 := Fips.digest; sha256_length := Fips.digest_length |}.

Lemma sha256_nonempty `{Sha256} m : sha256 m <> [].
Proof. intros H1. pose proof (sha256_length m) as H2. rewrite H1 in H2. done. Qed.

(** The FIPS 180-4 test vector for the three-byte message abc. *)
Example fips_abc :
  of_be_bytes (Fips.digest (bstr "abc")) =
  0xba7816bf8f01cfea414140de5dae2223b00361a396177a9cb410ff61f20015ad.
Proof. vm_compute. reflexivity. Qed.

Example fips_two_blocks :
  of_be_bytes (Fips.digest (bstr "abcdbcdecdefdefgefghfghighijhijkijkljklmklmnlmnomnopnopq")) =
  0x248d6a61d20638b8e5c026930c3e6039a33ce45964ff2167f6ecedd419db06c1.
Proof. vm_compute. reflexivity. Qed.

(** A cheap stand-in with the same interface, for examples that hash many messages: the message,
    cut in blocks of 32 bytes, mixed byte by byte. *)
Definition toy_mix (x y : byte) : byte := byte_of_Z (5 * (Z_of_byte x + Z_of_byte y) + 7).
Fixpoint toy_blocks (fuel : nat) (acc m : bytes) : bytes :=
  match fuel, m with
  | S fuel, _ :: _ => toy_blocks fuel (zip_with toy_mix acc (take 32 (m ++ zeros 32))) (drop 32 m)
  | _, _ => acc
  end.
Definition toy_digest (m : bytes) : bytes := toy_blocks (length m) (zeros 32) m.

Lemma toy_blocks_length fuel acc m : length acc = 32%nat -> length (toy_blocks fuel acc m) = 32%nat.
Proof.
  revert acc m. induction fuel as [|fuel IH]; intros acc [|b m] Ha; simpl; try done.
  apply IH. rewrite length_zip_with. cbn [length take]. rewrite length_take, length_app, zeros_length. lia.
Qed.

Definition toy_sha256 : Sha256 :=
  {| sha256 := toy_digest;
     sha256_length := fun m => toy_blocks_length (length m) (zeros 32) m (zeros_length 32) |}.
