(* ===== verification/Host.v ===== *)
(** * The Soroban host, as the contracts use it

    The contracts of [contracts/soroban] run inside the Soroban host.  This file models what they
    use of it: addresses, the invocation environment, [require_auth], [panic_with_error!], the
    typed instance and persistent storage with its time-to-live, checked machine arithmetic
    (the workspace compiles with [overflow-checks = true]) and bounds-checked buffers.

    A failure aborts the whole transaction, so failed runs carry no state.  The host refuses
    re-entrant calls: while a contract is on the call stack nobody can call it, which is why a
    callee is a function on the state of the other contracts only. *)

From Stdlib Require Import ZArith Lia Strings.Byte.
From stdpp Require Import base option list gmap numbers.
From S2P Require Import Prelude Bytes.
Open Scope Z_scope.

(** ** Addresses *)

(** [ScAddress]: an account (Ed25519 key) or a contract (hash). *)
Inductive Address : Type :=
| AccountAddress (id : bytes)
| ContractAddress (id : bytes).

#[export] Instance Address_eq_dec : EqDecision Address.
Proof. solve_decision. Defined.
#[export] Program Instance Address_countable : Countable Address :=
  inj_countable' (fun a => match a with
                           | AccountAddress i => inl i
                           | ContractAddress i => inr i
                           end)
                 (fun s => match s with inl i => AccountAddress i | inr i => ContractAddress i end) _.
Next Obligation. by intros []. Qed.

(** Account keys and contract hashes have 32 bytes. *)
Definition address_ok (a : Address) : Prop :=
  match a with AccountAddress i | ContractAddress i => length i = 32%nat end.
#[export] Instance address_ok_dec a : Decision (address_ok a).
Proof. destruct a; apply _. Defined.

(** ** Failures *)

Inductive contract_kind : Type := KRouter | KTransfer | KMock | KAttestation | KTendermint.

Inductive failure : Type :=
| ContractError (c : contract_kind) (code : Z)  (* panic_with_error! with a #[contracterror] code *)
| AuthError (a : Address)                       (* require_auth of an address that did not authorise *)
| IndexOutOfBounds                              (* slice or array index out of range *)
| ArithmeticOverflow                            (* checked machine arithmetic *)
| ConversionError                               (* a stored value of another type than requested *)
| CryptoError                                   (* ed25519_verify of a bad signature traps *)
| MalformedXdr                                  (* deserialize_from_bytes of bytes that are no value traps *)
| MissingContract (a : Address).                (* invoke_contract of an address with no such contract *)

#[export] Instance contract_kind_eq_dec : EqDecision contract_kind.
Proof. solve_decision. Defined.
#[export] Instance failure_eq_dec : EqDecision failure.
Proof. solve_decision. Defined.

Abbreviation res := (result failure).
Abbreviation run := (M failure).

(** A contract's [#[contracterror]] enum: its contract and its [u32] codes. *)
Class ContractErr (E : Type) := {
  err_kind : contract_kind;
  err_code : E -> Z;
  err_code_inj : forall e1 e2, err_code e1 = err_code e2 -> e1 = e2;
}.

Definition error_of {E} `{ContractErr E} (e : E) : failure := ContractError err_kind (err_code e).

Lemma error_of_inj {E} `{ContractErr E} (e1 e2 : E) : error_of e1 = error_of e2 -> e1 = e2.
Proof. unfold error_of. intros [= Heq]. by apply err_code_inj. Qed.

(** ** [T::from_xdr(env, bytes)] *)

(** The host reads a value from the bytes and traps when they are none; the SDK converts the value and
    returns an error when it is not one of the type. *)
Inductive xdr_read (A : Type) : Type :=
| XdrMalformed
| XdrMistyped
| XdrValue (a : A).
Arguments XdrMalformed {A}.
Arguments XdrMistyped {A}.
Arguments XdrValue {A} _.

(** [.unwrap_or_else(|_| panic_with_error!(env, e))]. *)
Definition from_xdr_or {A} (e : failure) (r : xdr_read A) : res A :=
  match r with XdrMalformed => Err MalformedXdr | XdrMistyped => Err e | XdrValue a => Ok a end.

Lemma from_xdr_or_Ok {A} e (r : xdr_read A) a : from_xdr_or e r = Ok a <-> r = XdrValue a.
Proof. destruct r; naive_solver. Qed.

(** Codecs given by a partial reader of bytes and a partial conversion of what was read. *)
Definition xdr_typed {V A} (conv : V -> option A) (v : option V) : xdr_read A :=
  match v with
  | None => XdrMalformed
  | Some v => match conv v with None => XdrMistyped | Some a => XdrValue a end
  end.

(** ** The invocation environment *)

Record Env : Type := MkEnv {
  ledger_timestamp : Z;              (* env.ledger().timestamp(), seconds *)
  current_contract_address : Address;
  invoker : option Address;          (* the contract that called, if any *)
  signers : gset Address;            (* the addresses that authorised this invocation *)
  min_persistent_ttl : Z;            (* the network's TTL of a new persistent entry *)
}.

(** A contract that calls directly is authorised without a signature. *)
Definition authorized (env : Env) (a : Address) : bool :=
  bool_decide (a ∈ signers env) || bool_decide (invoker env = Some a).

Definition require_auth {S} (env : Env) (a : Address) : run S unit :=
  if authorized env a then mret tt else fail (AuthError a).

(** The environment of a callee. *)
Definition call_env (env : Env) (callee : Address) : Env :=
  MkEnv (ledger_timestamp env) callee (Some (current_contract_address env)) (signers env)
        (min_persistent_ttl env).

(** ** Checked arithmetic *)

Definition u32_add (a b : Z) : res Z :=
  if decide (in_u32 (a + b)) then Ok (a + b) else Err ArithmeticOverflow.
Definition u64_add (a b : Z) : res Z :=
  if decide (in_u64 (a + b)) then Ok (a + b) else Err ArithmeticOverflow.
Definition i128_add (a b : Z) : res Z :=
  if decide (in_i128 (a + b)) then Ok (a + b) else Err ArithmeticOverflow.
Definition i128_sub (a b : Z) : res Z :=
  if decide (in_i128 (a - b)) then Ok (a - b) else Err ArithmeticOverflow.

(** ** Storage *)

Section Storage.
Context {K V : Type} `{Countable K}.

Record Storage : Type := MkStorage {
  instance_data : gmap K V;    (* env.storage().instance() *)
  persistent_data : gmap K V;  (* env.storage().persistent() *)
  persistent_ttl : gmap K Z;   (* ledgers left to live of each persistent entry *)
}.

Definition empty_storage : Storage := MkStorage ∅ ∅ ∅.

Definition storage_set_instance (k : K) (v : V) (st : Storage) : Storage :=
  MkStorage (<[k := v]> (instance_data st)) (persistent_data st) (persistent_ttl st).

(** A fresh entry starts with the network's minimum time to live; a write keeps an old one's. *)
Definition storage_set (min_ttl : Z) (k : K) (v : V) (st : Storage) : Storage :=
  MkStorage (instance_data st) (<[k := v]> (persistent_data st))
    (match persistent_data st !! k with
     | None => <[k := min_ttl]> (persistent_ttl st)
     | Some _ => persistent_ttl st
     end).

Definition storage_remove (k : K) (st : Storage) : Storage :=
  MkStorage (instance_data st) (delete k (persistent_data st)) (delete k (persistent_ttl st)).

(** [extend_ttl(key, threshold, extend_to)]: only when less than [threshold] is left. *)
Definition storage_extend_ttl (k : K) (threshold extend_to : Z) (st : Storage) : Storage :=
  MkStorage (instance_data st) (persistent_data st)
    (if default 0 (persistent_ttl st !! k) <? threshold
     then <[k := extend_to]> (persistent_ttl st)
     else persistent_ttl st).

Definition typed_get {A} (of_val : V -> option A) (o : option V) : res (option A) :=
  match o with
  | None => Ok None
  | Some v => match of_val v with Some a => Ok (Some a) | None => Err ConversionError end
  end.

End Storage.
Arguments Storage K V {_ _}.

(** The part of a contract's state that is its own storage. *)
Class HasStorage (S K V : Type) `{Countable K} := {
  storage_of : S -> Storage K V;
  with_storage : Storage K V -> S -> S;
  storage_of_with : forall st s, storage_of (with_storage st s) = st;
}.

#[export] Instance Storage_HasStorage {K V} `{Countable K} : HasStorage (Storage K V) K V.
Proof.
  refine {| storage_of := fun s => s; with_storage := fun st _ => st |}. done.
Defined.

Section StorageOps.
Context {S K V : Type} `{HasStorage S K V}.

Definition instance_get {A} (of_val : V -> option A) (k : K) : run S (option A) :=
  fun s => lift (typed_get of_val (instance_data (storage_of s) !! k)) s.
Definition instance_set (k : K) (v : V) : run S unit :=
  modify (fun s => with_storage (storage_set_instance k v (storage_of s)) s).
Definition persistent_get {A} (of_val : V -> option A) (k : K) : run S (option A) :=
  fun s => lift (typed_get of_val (persistent_data (storage_of s) !! k)) s.
Definition persistent_has (k : K) : run S bool :=
  gets (fun s => bool_decide (is_Some (persistent_data (storage_of s) !! k))).
Definition persistent_set (env : Env) (k : K) (v : V) : run S unit :=
  modify (fun s => with_storage (storage_set (min_persistent_ttl env) k v (storage_of s)) s).
Definition persistent_remove (k : K) : run S unit :=
  modify (fun s => with_storage (storage_remove k (storage_of s)) s).
Definition extend_ttl (k : K) (threshold extend_to : Z) : run S unit :=
  modify (fun s => with_storage (storage_extend_ttl k threshold extend_to (storage_of s)) s).

(** ** Inversion lemmas *)

Lemma instance_get_Ok {A} (f : V -> option A) k (s s' : S) o :
  instance_get f k s = Ok (s', o) <->
  s' = s /\ typed_get f (instance_data (storage_of s) !! k) = Ok o.
Proof. unfold instance_get. apply lift_Ok. Qed.

Lemma persistent_get_Ok {A} (f : V -> option A) k (s s' : S) o :
  persistent_get f k s = Ok (s', o) <->
  s' = s /\ typed_get f (persistent_data (storage_of s) !! k) = Ok o.
Proof. unfold persistent_get. apply lift_Ok. Qed.

Lemma persistent_has_Ok k (s s' : S) b :
  persistent_has k s = Ok (s', b) <->
  s' = s /\ b = bool_decide (is_Some (persistent_data (storage_of s) !! k)).
Proof. unfold persistent_has, gets. naive_solver. Qed.

End StorageOps.

Lemma typed_get_Some {V A} (f : V -> option A) o a :
  typed_get f o = Ok (Some a) <-> exists v, o = Some v /\ f v = Some a.
Proof. unfold typed_get. destruct o as [v|]; [destruct (f v) eqn:?|]; naive_solver. Qed.

Lemma typed_get_None {V A} (f : V -> option A) o :
  typed_get f o = Ok None <-> o = None.
Proof. unfold typed_get. destruct o as [v|]; [destruct (f v) eqn:?|]; naive_solver. Qed.

Lemma require_auth_Ok {S} env a (s s' : S) u :
  require_auth env a s = Ok (s', u) <-> authorized env a = true /\ s' = s /\ u = tt.
Proof.
  unfold require_auth, fail, mret, M_ret. destruct (authorized env a), u; naive_solver.
Qed.

Lemma authorized_spec env a :
  authorized env a = true <-> a ∈ signers env \/ invoker env = Some a.
Proof. unfold authorized. rewrite orb_true_iff, !bool_decide_eq_true. done. Qed.

Lemma u32_add_Ok a b c : u32_add a b = Ok c <-> c = a + b /\ in_u32 (a + b).
Proof. unfold u32_add. case_decide; naive_solver. Qed.
Lemma u64_add_Ok a b c : u64_add a b = Ok c <-> c = a + b /\ in_u64 (a + b).
Proof. unfold u64_add. case_decide; naive_solver. Qed.
Lemma i128_add_Ok a b c : i128_add a b = Ok c <-> c = a + b /\ in_i128 (a + b).
Proof. unfold i128_add. case_decide; naive_solver. Qed.
Lemma i128_sub_Ok a b c : i128_sub a b = Ok c <-> c = a - b /\ in_i128 (a - b).
Proof. unfold i128_sub. case_decide; naive_solver. Qed.

(** ** Reads of a written storage *)

Section StorageLemmas.
Context {K V : Type} `{Countable K}.
Implicit Types st : Storage K V.

Lemma storage_set_lookup t k v st k' :
  persistent_data (storage_set t k v st) !! k' =
  if decide (k = k') then Some v else persistent_data st !! k'.
Proof. simpl. apply lookup_insert. Qed.

Lemma storage_remove_lookup k st k' :
  persistent_data (storage_remove k st) !! k' =
  if decide (k = k') then None else persistent_data st !! k'.
Proof. simpl. apply lookup_delete. Qed.

(** After [set] and [extend_ttl] the entry lives at least [threshold] ledgers. *)
Lemma extend_ttl_alive k thr ext st :
  thr <= ext -> thr <= default 0 (persistent_ttl (storage_extend_ttl k thr ext st) !! k).
Proof.
  intros Hle. simpl. destruct (Z.ltb_spec (default 0 (persistent_ttl st !! k)) thr).
  - by rewrite lookup_insert_eq.
  - done.
Qed.
End StorageLemmas.

(** [minv] with the host's operations. *)
Ltac hinv_step H :=
  lazymatch type of H with
  | (_ ≫= _) _ = Ok (_, _) =>
      let s := fresh "st" in let a := fresh "v" in let H1 := fresh "Hrun" in
      apply M_bind_Ok in H as (s & a & H1 & H); hinv_step H1; hinv_step H
  | instance_get _ _ _ = Ok (_, _) =>
      let Ha := fresh "Hs" in apply instance_get_Ok in H as [Ha H]; try subst
  | persistent_get _ _ _ = Ok (_, _) =>
      let Ha := fresh "Hs" in apply persistent_get_Ok in H as [Ha H]; try subst
  | persistent_has _ _ = Ok (_, _) =>
      let Ha := fresh "Hs" in apply persistent_has_Ok in H as [Ha H]; try subst
  | require_auth _ _ _ = Ok (_, _) =>
      let Ha := fresh "Hs" in let Hb := fresh "Hu" in
      apply require_auth_Ok in H as (H & Ha & Hb); try subst
  | instance_set _ _ _ = Ok (_, _) => unfold instance_set in H; minv_step H
  | persistent_set _ _ _ _ = Ok (_, _) => unfold persistent_set in H; minv_step H
  | persistent_remove _ _ = Ok (_, _) => unfold persistent_remove in H; minv_step H
  | extend_ttl _ _ _ _ = Ok (_, _) => unfold extend_ttl in H; minv_step H
  | _ => minv_step H
  end.
Ltac hinv H := hinv_step H.

Create HintDb host.
Create Rewrite HintDb host.
#[export] Hint Rewrite @storage_of_with @storage_set_lookup @storage_remove_lookup : host.
