(* ===== verification/RouterTypes.v ===== *)
(** * The router's data

    The contract types, errors, events and storage of [contracts/soroban/ibc-router]
    ([types.rs], [errors.rs], [events.rs]). *)

From Stdlib Require Import ZArith Lia Strings.Byte.
From stdpp Require Import base option list gmap numbers.
From S2P Require Import Prelude Bytes Host.
Open Scope Z_scope.

(** ** [types.rs] *)

Record Counterparty : Type := MkCounterparty {
  cp_client_id : bytes;
  commitment_prefix : list bytes;
}.

Record Height : Type := MkHeight {
  revision_number : Z;
  revision_height : Z;
}.

Record Payload : Type := MkPayload {
  source_port : bytes;
  dest_port : bytes;
  version : bytes;
  encoding : bytes;
  value : bytes;
}.

Record Packet : Type := MkPacket {
  sequence : Z;
  source_client : bytes;
  dest_client : bytes;
  timeout_timestamp : Z;
  payloads : list Payload;
}.

Inductive DataKey : Type :=
| Admin
| NextClientId (client_type : bytes)
| ClientTypeAddr (client_type : bytes)
| ClientType (client_id : bytes)
| ClientLcAddr (client_id : bytes)
| CounterpartyKey (client_id : bytes)
| Frozen (client_id : bytes)
| Port (port_id : bytes)
| NextSeqSend (client_id : bytes).

Record OnRecvPacketCallback : Type := MkOnRecv {
  orc_source_client : bytes;
  orc_dest_client : bytes;
  orc_sequence : Z;
  orc_payload : Payload;
}.

Record OnAcknowledgementPacketCallback : Type := MkOnAck {
  oac_source_client : bytes;
  oac_dest_client : bytes;
  oac_sequence : Z;
  oac_payload : Payload;
  oac_acknowledgement : bytes;
}.

Record OnTimeoutPacketCallback : Type := MkOnTimeout {
  otc_source_client : bytes;
  otc_dest_client : bytes;
  otc_sequence : Z;
  otc_payload : Payload;
}.

(** ** [errors.rs] *)

Inductive Error : Type :=
| AdminNotSet
| UnknownClientType
| ClientIdNotFound
| CounterpartyAlreadyRegistered
| ClientFrozen
| PortAlreadyRegistered
| InvalidIdentifierLength
| InvalidIdentifierPrefix
| InvalidIdentifierChar
| CounterpartyNotRegistered
| TimeoutAlreadyElapsed
| PortNotRegistered
| PayloadsEmpty
| ReceiptAlreadyExists
| PacketCounterpartyMismatch
| MembershipVerificationFailed
| NonMembershipVerificationFailed
| NoCommitmentForSequence
| CommitmentMismatch
| AckAlreadyExists
| NoReceiptForSequence
| TimeoutNotYetElapsed.

Definition Error_code (e : Error) : Z :=
  match e with
  | AdminNotSet => 1
  | UnknownClientType => 2
  | ClientIdNotFound => 3
  | CounterpartyAlreadyRegistered => 4
  | ClientFrozen => 5
  | PortAlreadyRegistered => 6
  | InvalidIdentifierLength => 7
  | InvalidIdentifierPrefix => 8
  | InvalidIdentifierChar => 9
  | CounterpartyNotRegistered => 10
  | TimeoutAlreadyElapsed => 11
  | PortNotRegistered => 12
  | PayloadsEmpty => 13
  | ReceiptAlreadyExists => 14
  | PacketCounterpartyMismatch => 15
  | MembershipVerificationFailed => 16
  | NonMembershipVerificationFailed => 17
  | NoCommitmentForSequence => 18
  | CommitmentMismatch => 19
  | AckAlreadyExists => 20
  | NoReceiptForSequence => 21
  | TimeoutNotYetElapsed => 22
  end.

#[export] Instance Error_ContractErr : ContractErr Error.
Proof.
  refine {| err_kind := KRouter; err_code := Error_code |}.
  by intros [] [].
Defined.

(** [panic_with_error!(env, Error::e)]. *)
Definition panic {S A} (e : Error) : run S A := fail (error_of e).
Definition panic_if {S} (b : bool) (e : Error) : run S unit := fail_if b (error_of e).
Definition expect_some {S A} (e : Error) (o : option A) : run S A := unwrap_or_fail (error_of e) o.

(** ** [events.rs] *)

Inductive Event : Type :=
| SendPacketEvent (client_id : bytes) (seq : Z) (packet : Packet)
| RecvPacketEvent (client_id : bytes) (seq : Z) (packet : Packet)
| WriteAckEvent (client_id : bytes) (seq : Z) (acknowledgements : list bytes)
| AckPacketEvent (client_id : bytes) (seq : Z) (packet : Packet) (acknowledgements : list bytes)
| TimeoutPacketEvent (client_id : bytes) (seq : Z) (packet : Packet).

(** ** Storage keys and values *)

#[export] Instance DataKey_eq_dec : EqDecision DataKey.
Proof. solve_decision. Defined.
#[export] Instance DataKey_countable : Countable DataKey.
Proof.
  refine (inj_countable
    (fun k => match k with
              | Admin => (0%nat, [])
              | NextClientId b => (1%nat, b)
              | ClientTypeAddr b => (2%nat, b)
              | ClientType b => (3%nat, b)
              | ClientLcAddr b => (4%nat, b)
              | CounterpartyKey b => (5%nat, b)
              | Frozen b => (6%nat, b)
              | Port b => (7%nat, b)
              | NextSeqSend b => (8%nat, b)
              end)
    (fun p => match p with
              | (0%nat, _) => Some Admin
              | (1%nat, b) => Some (NextClientId b)
              | (2%nat, b) => Some (ClientTypeAddr b)
              | (3%nat, b) => Some (ClientType b)
              | (4%nat, b) => Some (ClientLcAddr b)
              | (5%nat, b) => Some (CounterpartyKey b)
              | (6%nat, b) => Some (Frozen b)
              | (7%nat, b) => Some (Port b)
              | (8%nat, b) => Some (NextSeqSend b)
              | _ => None
              end) _).
  by intros [].
Defined.

(** A storage key is a [DataKey] or, for the provable entries, the raw path bytes. *)
Inductive RKey : Type :=
| KData (d : DataKey)
| KPath (path : bytes).

#[export] Instance RKey_eq_dec : EqDecision RKey.
Proof. solve_decision. Defined.
#[export] Program Instance RKey_countable : Countable RKey :=
  inj_countable' (fun k => match k with KData d => inl d | KPath p => inr p end)
                 (fun s => match s with inl d => KData d | inr p => KPath p end) _.
Next Obligation. by intros []. Qed.

Inductive RVal : Type :=
| RvU32 (n : Z)
| RvU64 (n : Z)
| RvBool (b : bool)
| RvAddress (a : Address)
| RvString (s : bytes)
| RvBytes (b : bytes)
| RvCounterparty (c : Counterparty).

Definition as_u32 (v : RVal) : option Z := match v with RvU32 n => Some n | _ => None end.
Definition as_u64 (v : RVal) : option Z := match v with RvU64 n => Some n | _ => None end.
Definition as_bool (v : RVal) : option bool := match v with RvBool b => Some b | _ => None end.
Definition as_address (v : RVal) : option Address :=
  match v with RvAddress a => Some a | _ => None end.
Definition as_string (v : RVal) : option bytes := match v with RvString s => Some s | _ => None end.
(** [BytesN<32>]: a byte string of exactly 32 bytes. *)
Definition as_bytes32 (v : RVal) : option bytes :=
  match v with
  | RvBytes b => if decide (length b = 32%nat) then Some b else None
  | _ => None
  end.
Definition as_counterparty (v : RVal) : option Counterparty :=
  match v with RvCounterparty c => Some c | _ => None end.

(** ** The router's state *)

Record RouterState : Type := MkRouter {
  r_storage : Storage RKey RVal;
  r_events : list Event;   (* published events, oldest first *)
}.

(** The router together with the other contracts of the ledger, of type [X], which it calls. *)
Record World (X : Type) : Type := MkWorld {
  w_router : RouterState;
  w_ext : X;
}.
Arguments MkWorld {X} _ _.
Arguments w_router {X} _.
Arguments w_ext {X} _.

#[export] Instance World_HasStorage {X} : HasStorage (World X) RKey RVal.
Proof.
  refine {| storage_of := fun w => r_storage (w_router w);
            with_storage := fun st w => MkWorld (MkRouter st (r_events (w_router w))) (w_ext w) |}.
  done.
Defined.

(** [Event.publish(env)]. *)
Definition publish {X} (e : Event) : run (World X) unit :=
  modify (fun w => MkWorld (MkRouter (r_storage (w_router w)) (r_events (w_router w) ++ [e])) (w_ext w)).

(** A cross-contract call made by the router: it runs on the other contracts' state. *)
Definition invoke {X A} (f : X -> res (X * A)) : run (World X) A :=
  fun w => match f (w_ext w) with
           | Ok (x, a) => Ok (MkWorld (w_router w) x, a)
           | Err e => Err e
           end.

Lemma invoke_Ok {X A} (f : X -> res (X * A)) w w' a :
  invoke f w = Ok (w', a) <-> exists x, f (w_ext w) = Ok (x, a) /\ w' = MkWorld (w_router w) x.
Proof. unfold invoke. destruct (f (w_ext w)) as [[x b]|e]; naive_solver. Qed.

(** The persistent entries, their time to live, and the instance entries of the router. *)
Definition rdata {X} (w : World X) : gmap RKey RVal := persistent_data (r_storage (w_router w)).
Definition rttl {X} (w : World X) : gmap RKey Z := persistent_ttl (r_storage (w_router w)).
Definition rinst {X} (w : World X) : gmap RKey RVal := instance_data (r_storage (w_router w)).
Definition revents {X} (w : World X) : list Event := r_events (w_router w).

(** ** Typed reads *)

(** A successful typed read that returns a value found it stored with that type. *)
Lemma get_u32_Some o n : typed_get as_u32 o = Ok (Some n) <-> o = Some (RvU32 n).
Proof. destruct o as [[]|]; naive_solver. Qed.
Lemma get_u64_Some o n : typed_get as_u64 o = Ok (Some n) <-> o = Some (RvU64 n).
Proof. destruct o as [[]|]; naive_solver. Qed.
Lemma get_bool_Some o b : typed_get as_bool o = Ok (Some b) <-> o = Some (RvBool b).
Proof. destruct o as [[]|]; naive_solver. Qed.
Lemma get_address_Some o a : typed_get as_address o = Ok (Some a) <-> o = Some (RvAddress a).
Proof. destruct o as [[]|]; naive_solver. Qed.
Lemma get_counterparty_Some o c :
  typed_get as_counterparty o = Ok (Some c) <-> o = Some (RvCounterparty c).
Proof. destruct o as [[]|]; naive_solver. Qed.
Lemma get_bytes32_Some o b :
  typed_get as_bytes32 o = Ok (Some b) <-> o = Some (RvBytes b) /\ length b = 32%nat.
Proof.
  destruct o as [[]|]; simpl; try naive_solver. case_decide; naive_solver.
Qed.

(** [hinv] for the router: typed reads and existence tests become lookups. *)
Ltac rnorm_hyp H :=
  lazymatch type of H with
  | typed_get as_u32 _ = Ok (Some _) => apply get_u32_Some in H
  | typed_get as_u64 _ = Ok (Some _) => apply get_u64_Some in H
  | typed_get as_bool _ = Ok (Some _) => apply get_bool_Some in H
  | typed_get as_address _ = Ok (Some _) => apply get_address_Some in H
  | typed_get as_counterparty _ = Ok (Some _) => apply get_counterparty_Some in H
  | typed_get as_bytes32 _ = Ok (Some _) => apply get_bytes32_Some in H as [H ?]
  | typed_get _ _ = Ok None => apply typed_get_None in H
  | bool_decide (is_Some _) = false => apply bool_decide_eq_false, eq_None_not_Some in H
  | bool_decide _ = false => apply bool_decide_eq_false in H
  | bool_decide _ = true => apply bool_decide_eq_true in H
  | negb _ = false => apply negb_false_iff in H; try rnorm_hyp H
  | false = _ => symmetry in H
  | true = _ => symmetry in H
  | (_ <=? _) = false => apply Z.leb_gt in H
  | invoke _ _ = Ok (_, _) =>
      let x := fresh "x" in let Hw := fresh "Hw" in
      apply invoke_Ok in H as (x & H & Hw); try subst
  | u32_add _ _ = Ok _ => let Hv := fresh "Hv" in apply u32_add_Ok in H as [Hv H]; try subst
  | u64_add _ _ = Ok _ => let Hv := fresh "Hv" in apply u64_add_Ok in H as [Hv H]; try subst
  end.
Ltac rfold :=
  repeat match goal with
  | H : context [persistent_data (storage_of ?w)] |- _ =>
      change (persistent_data (storage_of w)) with (rdata w) in H
  | H : context [instance_data (storage_of ?w)] |- _ =>
      change (instance_data (storage_of w)) with (rinst w) in H
  end.
Ltac rnorm := rfold; repeat match goal with H : _ = _ |- _ => rnorm_hyp H end; repeat match goal with u : unit |- _ => destruct u end.
Ltac rinv H := unfold expect_some, panic_if in H; hinv H; rnorm.
