(* ===== verification/Identifiers.v ===== *)
(** * Identifier validation ([ibc-router/src/identifiers.rs])

    Client types, counterparty client identifiers and port identifiers share one validator:
    4 to 128 bytes, none of the reserved prefixes, and an ICS-24 alphabet. *)

From Stdlib Require Import ZArith Lia Strings.Byte Strings.String.
From stdpp Require Import base option list gmap numbers.
From S2P Require Import Prelude Bytes Host RouterTypes.
Open Scope Z_scope.

Definition MIN_LEN : nat := 4.
Definition MAX_LEN : nat := 128.
Definition CHANNEL_PREFIX : bytes := bstr "channel-".
Definition CLIENT_PREFIX : bytes := bstr "client-".

Definition has_prefix (bz prefix : bytes) : bool :=
  (length prefix <=? length bz)%nat && bool_decide (take (length prefix) bz = prefix).

Definition is_allowed_char (c : byte) : bool :=
  let z := Z_of_byte c in
  ((97 <=? z) && (z <=? 122)) ||   (* a..=z *)
  ((65 <=? z) && (z <=? 90)) ||    (* A..=Z *)
  ((48 <=? z) && (z <=? 57)) ||    (* 0..=9 *)
  (z =? 46) || (z =? 95) || (z =? 43) || (z =? 45) || (z =? 35) ||   (* . _ + - # *)
  (z =? 91) || (z =? 93) || (z =? 60) || (z =? 62).                  (* [ ] < > *)

(** [for &c in bytes { if !is_allowed_char(c) { panic } }]. *)
Fixpoint check_chars (bz : bytes) : res unit :=
  match bz with
  | [] => Ok tt
  | c :: bz => if is_allowed_char c then check_chars bz else Err (error_of InvalidIdentifierChar)
  end.

Definition validate_custom_identifier (s : bytes) : res unit :=
  let len := length s in
  if negb ((MIN_LEN <=? len)%nat && (len <=? MAX_LEN)%nat)
  then Err (error_of InvalidIdentifierLength) else
  buf ← ok_or IndexOutOfBounds (buf_write (zeros MAX_LEN) 0 s);
  bz ← ok_or IndexOutOfBounds (buf_prefix buf len);
  if has_prefix bz CHANNEL_PREFIX || has_prefix bz CLIENT_PREFIX
  then Err (error_of InvalidIdentifierPrefix) else
  check_chars bz.

Definition validate_client_type (s : bytes) : res unit := validate_custom_identifier s.
Definition validate_counterparty_client_id (s : bytes) : res unit := validate_custom_identifier s.
Definition validate_port_id (s : bytes) : res unit := validate_custom_identifier s.

(** ** The specification *)

(** What ICS-24 allows as a custom identifier. *)
Definition valid_identifier (s : bytes) : Prop :=
  (MIN_LEN <= length s <= MAX_LEN)%nat /\
  ~ CHANNEL_PREFIX `prefix_of` s /\ ~ CLIENT_PREFIX `prefix_of` s /\
  Forall (fun c => is_allowed_char c = true) s.

Lemma has_prefix_spec bz p : has_prefix bz p = true <-> p `prefix_of` bz.
Proof.
  unfold has_prefix. rewrite andb_true_iff, Nat.leb_le, bool_decide_eq_true. split.
  - intros [_ Ht]. exists (drop (length p) bz). by rewrite <-Ht at 1; rewrite take_drop.
  - intros [k ->]. rewrite length_app, take_app_length. split; [lia|done].
Qed.

Lemma check_chars_spec bz :
  check_chars bz =
  if forallb is_allowed_char bz then Ok tt else Err (error_of InvalidIdentifierChar).
Proof. induction bz as [|c bz IH]; simpl; [done|]. by destruct (is_allowed_char c). Qed.

(** The 128-byte stack buffer holds every identifier whose length passed the check. *)
Lemma identifier_buffer s :
  (length s <= MAX_LEN)%nat ->
  exists buf, buf_write (zeros MAX_LEN) 0 s = Some buf /\ buf_prefix buf (length s) = Some s.
Proof.
  intros Hlen. destruct (buf_write_start (zeros MAX_LEN) s) as (buf & Hw & Hl & Ht).
  - by rewrite zeros_length.
  - exists buf. split; [exact Hw|]. apply buf_prefix_Some; [|exact Ht].
    by rewrite Hl, zeros_length.
Qed.

Lemma validate_unfold s :
  validate_custom_identifier s =
  if negb ((MIN_LEN <=? length s)%nat && (length s <=? MAX_LEN)%nat)
  then Err (error_of InvalidIdentifierLength) else
  if has_prefix s CHANNEL_PREFIX || has_prefix s CLIENT_PREFIX
  then Err (error_of InvalidIdentifierPrefix) else check_chars s.
Proof.
  unfold validate_custom_identifier.
  destruct (negb _) eqn:Hlen; [done|].
  apply negb_false_iff, andb_true_iff in Hlen as [_ Hmax%Nat.leb_le].
  destruct (identifier_buffer s Hmax) as (buf & -> & Hp). simpl. by rewrite Hp.
Qed.

Lemma forallb_Forall_chars s :
  forallb is_allowed_char s = true <-> Forall (fun c => is_allowed_char c = true) s.
Proof. rewrite forallb_forall, List.Forall_forall. done. Qed.

Lemma validate_identifier_iff s : validate_custom_identifier s = Ok tt <-> valid_identifier s.
Proof.
  rewrite validate_unfold. unfold valid_identifier.
  rewrite <-!has_prefix_spec, <-forallb_Forall_chars, check_chars_spec.
  destruct (Nat.leb_spec MIN_LEN (length s)), (Nat.leb_spec (length s) MAX_LEN); simpl;
    try (split; [done|lia]).
  destruct (has_prefix s CHANNEL_PREFIX), (has_prefix s CLIENT_PREFIX); simpl; [naive_solver..|].
  destruct (forallb is_allowed_char s); naive_solver.
Qed.

Lemma forallb_false_witness {A} (f : A -> bool) l :
  forallb f l = false -> exists x, x ∈ l /\ f x = false.
Proof.
  induction l as [|x l IH]; simpl; [done|]. intros [Hx|Hl]%andb_false_iff.
  - exists x. set_solver.
  - destruct (IH Hl) as (y & ? & ?). exists y. set_solver.
Qed.

(** The identifier validator accepts exactly the identifiers of 4 to 128 bytes that do not
    start with a reserved prefix and use only the ICS-24 alphabet; otherwise it aborts with the
    error of the first check that fails, and never with an out-of-range access to its buffer. *)
Theorem validate_custom_identifier_spec (s : bytes) :
  (validate_custom_identifier s = Ok tt <-> valid_identifier s) /\
  (validate_custom_identifier s = Ok tt \/
   (validate_custom_identifier s = Err (error_of InvalidIdentifierLength) /\
      ~ (MIN_LEN <= length s <= MAX_LEN)%nat) \/
   (validate_custom_identifier s = Err (error_of InvalidIdentifierPrefix) /\
      (MIN_LEN <= length s <= MAX_LEN)%nat /\
      (CHANNEL_PREFIX `prefix_of` s \/ CLIENT_PREFIX `prefix_of` s)) \/
   (validate_custom_identifier s = Err (error_of InvalidIdentifierChar) /\
      (MIN_LEN <= length s <= MAX_LEN)%nat /\
      ~ CHANNEL_PREFIX `prefix_of` s /\ ~ CLIENT_PREFIX `prefix_of` s /\
      exists c, c ∈ s /\ is_allowed_char c = false)).
Proof.
  split; [apply validate_identifier_iff|].
  rewrite validate_unfold, <-!has_prefix_spec, check_chars_spec.
  destruct (Nat.leb_spec MIN_LEN (length s)), (Nat.leb_spec (length s) MAX_LEN); simpl;
    try (right; left; split; [done|lia]).
  destruct (has_prefix s CHANNEL_PREFIX), (has_prefix s CLIENT_PREFIX); simpl; [naive_solver..|].
  destruct (forallb is_allowed_char s) eqn:Hc; [by left|].
  apply forallb_false_witness in Hc. naive_solver.
Qed.

(** The inputs of the repository's own unit tests. *)
Example accepts_typical_identifiers :
  map (fun s => is_ok (validate_custom_identifier (bstr s)))
    ["mock"; "transfer"; "10-stellar"; "07-tendermint-0"; "10-stellar-42";
     "ab"; "channel-0"; "client-0"; "ab cd"; "ab/cd"]%string =
  [true; true; true; true; true; false; false; false; false; false].
Proof. vm_compute. reflexivity. Qed.
