(* ===== verification/CoreCommitment.v ===== *)
(** * ICS-24 paths and packet commitments, off chain ([crates/core/src/ibc/commitment.rs])

    The library the gateway uses to recompute paths and commitments.  [Ics24Host] proves that the
    router contract computes the same bytes.  The commitments are binding: two packets (or two
    lists of acknowledgements) with equal commitments are equal unless two of the hashed messages
    collide. *)

From Stdlib Require Import ZArith Lia Strings.Byte Strings.String.
From stdpp Require Import base option list gmap numbers.
From S2P Require Import Prelude Bytes Crypto.
Open Scope Z_scope.

Module Core.

Definition PACKET_COMMITMENT_DISCRIMINATOR : byte := Byte.x01.
Definition PACKET_RECEIPT_DISCRIMINATOR : byte := Byte.x02.
Definition ACK_COMMITMENT_DISCRIMINATOR : byte := Byte.x03.
Definition RECEIPT_SENTINEL : bytes := [Byte.x01].
Definition COMMITMENT_VERSION_PREFIX : byte := Byte.x02.
Definition ERROR_ACK_PREIMAGE : bytes := bstr "UNIVERSAL_ERROR_ACKNOWLEDGEMENT".

Definition v2_path (client_id : bytes) (discriminator : byte) (seq : Z) : bytes :=
  client_id ++ [discriminator] ++ to_be_bytes 8 seq.

Definition packet_commitment_path (source_client_id : bytes) (seq : Z) : bytes :=
  v2_path source_client_id PACKET_COMMITMENT_DISCRIMINATOR seq.
Definition packet_receipt_path (dest_client_id : bytes) (seq : Z) : bytes :=
  v2_path dest_client_id PACKET_RECEIPT_DISCRIMINATOR seq.
Definition ack_commitment_path (dest_client_id : bytes) (seq : Z) : bytes :=
  v2_path dest_client_id ACK_COMMITMENT_DISCRIMINATOR seq.

Section Commitments.
Context `{Sha256}.

Definition error_ack_hash : bytes := sha256 ERROR_ACK_PREIMAGE.

Definition commit_payload (source_port dest_port version encoding app_data : bytes) : bytes :=
  let buf := sha256 source_port ++ sha256 dest_port ++ sha256 version ++ sha256 encoding
             ++ sha256 app_data in
  sha256 buf.

(** [for h in hs { out.extend_from_slice(h) }]. *)
Fixpoint extend_all (hs : list bytes) : bytes :=
  match hs with [] => [] | h :: hs => h ++ extend_all hs end.

Definition commit_v2_packet (dest_client_id : bytes) (timeout_timestamp : Z)
    (payload_hashes : list bytes) : bytes :=
  let app_bytes := extend_all payload_hashes in
  let timeout_be := to_be_bytes 8 timeout_timestamp in
  let buf := [COMMITMENT_VERSION_PREFIX] ++ sha256 dest_client_id ++ sha256 timeout_be
             ++ sha256 app_bytes in
  sha256 buf.

Definition commit_v2_acknowledgement (app_acks : list bytes) : bytes :=
  let concat := extend_all (map sha256 app_acks) in
  let buf := [COMMITMENT_VERSION_PREFIX] ++ concat in
  sha256 buf.

End Commitments.

(** ** Paths *)

Lemma v2_path_length cid d n : length (v2_path cid d n) = (length cid + 9)%nat.
Proof. unfold v2_path. rewrite !length_app, to_be_bytes_length. simpl. lia. Qed.

(** A path determines its client, its kind and its sequence: entries of different packets, and
    the commitment, receipt and acknowledgement of one packet, never share a key. *)
Lemma v2_path_inj c1 d1 n1 c2 d2 n2 :
  in_u64 n1 -> in_u64 n2 ->
  v2_path c1 d1 n1 = v2_path c2 d2 n2 -> c1 = c2 /\ d1 = d2 /\ n1 = n2.
Proof.
  intros Hn1 Hn2 Heq. unfold v2_path in Heq.
  apply app_inj_suffix in Heq as [-> Heq].
  2: { rewrite !length_app, !to_be_bytes_length. done. }
  apply app_inj_1 in Heq as [Hd Hbe]; [|done]. injection Hd as ->.
  apply to_be_bytes_u64_inj in Hbe; auto.
Qed.

(** ** Binding *)

Section Binding.
Context `{Sha256}.

(** No two of the listed messages collide. *)
Definition no_collision (ms : list bytes) : Prop :=
  forall x y, x ∈ ms -> y ∈ ms -> sha256 x = sha256 y -> x = y.

(** The executable check: digests are compared as numbers, messages only when those agree. *)
Definition no_collisionb (ms : list bytes) : bool :=
  let ds := map (fun x => (x, of_be_bytes (sha256 x))) ms in
  forallb (fun p => forallb (fun q =>
    if p.2 =? q.2 then bool_decide (p.1 = q.1) else true) ds) ds.

Lemma no_collisionb_spec ms : no_collisionb ms = true -> no_collision ms.
Proof.
  unfold no_collisionb, no_collision. rewrite forallb_forall. intros Hall x y Hx Hy Heq.
  apply list_elem_of_In, (in_map (fun x => (x, of_be_bytes (sha256 x)))) in Hx, Hy.
  specialize (Hall _ Hx). rewrite forallb_forall in Hall.
  specialize (Hall _ Hy). cbn [fst snd] in Hall. rewrite Heq, Z.eqb_refl in Hall.
  by apply bool_decide_eq_true in Hall.
Qed.

Lemma no_collision_sub ms ms' : ms' ⊆ ms -> no_collision ms -> no_collision ms'.
Proof. unfold no_collision. intros Hsub Hn x y Hx Hy. apply Hn; by apply Hsub. Qed.

(** Concatenated 32-byte digests split in one way only. *)
Lemma extend_all_inj (l1 l2 : list bytes) :
  Forall (fun b => length b = 32%nat) l1 -> Forall (fun b => length b = 32%nat) l2 ->
  extend_all l1 = extend_all l2 -> l1 = l2.
Proof.
  intros H1. revert l2. induction H1 as [|b1 l1 Hb1 _ IH]; intros l2 H2.
  - destruct H2 as [|b2 l2 Hb2 _]; [done|]. simpl. intros Heq.
    apply (f_equal length) in Heq. rewrite length_app in Heq. simpl in Heq. lia.
  - destruct H2 as [|b2 l2 Hb2 H2]; simpl; intros Heq.
    + apply (f_equal length) in Heq. rewrite length_app in Heq. simpl in Heq. lia.
    + apply app_inj_1 in Heq as [-> Heq]; [|congruence]. f_equal. by apply IH.
Qed.

Lemma Forall_sha256_length {A} (f : A -> bytes) (l : list A) :
  Forall (fun b => length b = 32%nat) (map (fun x => sha256 (f x)) l).
Proof. induction l; simpl; constructor; auto using sha256_length. Qed.

Definition packet_messages (dest : bytes) (timeout : Z) (hashes : list bytes) : list bytes :=
  [ [COMMITMENT_VERSION_PREFIX] ++ sha256 dest ++ sha256 (to_be_bytes 8 timeout)
      ++ sha256 (extend_all hashes);
    dest; to_be_bytes 8 timeout; extend_all hashes ].

Lemma commit_v2_packet_binding d1 t1 h1 d2 t2 h2 :
  in_u64 t1 -> in_u64 t2 ->
  Forall (fun b => length b = 32%nat) h1 -> Forall (fun b => length b = 32%nat) h2 ->
  no_collision (packet_messages d1 t1 h1 ++ packet_messages d2 t2 h2) ->
  commit_v2_packet d1 t1 h1 = commit_v2_packet d2 t2 h2 ->
  d1 = d2 /\ t1 = t2 /\ h1 = h2.
Proof.
  intros Ht1 Ht2 Hh1 Hh2 Hnc Heq. unfold commit_v2_packet in Heq.
  apply Hnc in Heq; [|unfold packet_messages; set_solver..].
  simpl in Heq. injection Heq as Heq.
  apply app_inj_1 in Heq as [Hd Heq]; [|by rewrite !sha256_length].
  apply app_inj_1 in Heq as [Ht Hh]; [|by rewrite !sha256_length].
  apply Hnc in Hd, Ht, Hh; [|unfold packet_messages; set_solver..].
  split; [done|]. split; [by apply to_be_bytes_u64_inj|by apply extend_all_inj].
Qed.

Definition payload_messages (sp dp v e a : bytes) : list bytes :=
  [ sha256 sp ++ sha256 dp ++ sha256 v ++ sha256 e ++ sha256 a; sp; dp; v; e; a ].

Lemma commit_payload_binding s1 d1 v1 e1 a1 s2 d2 v2 e2 a2 :
  no_collision (payload_messages s1 d1 v1 e1 a1 ++ payload_messages s2 d2 v2 e2 a2) ->
  commit_payload s1 d1 v1 e1 a1 = commit_payload s2 d2 v2 e2 a2 ->
  s1 = s2 /\ d1 = d2 /\ v1 = v2 /\ e1 = e2 /\ a1 = a2.
Proof.
  intros Hnc Heq. unfold commit_payload in Heq.
  apply Hnc in Heq; [|unfold payload_messages; set_solver..].
  apply app_inj_1 in Heq as [Hs Heq]; [|by rewrite !sha256_length].
  apply app_inj_1 in Heq as [Hd Heq]; [|by rewrite !sha256_length].
  apply app_inj_1 in Heq as [Hv Heq]; [|by rewrite !sha256_length].
  apply app_inj_1 in Heq as [He Ha]; [|by rewrite !sha256_length].
  apply Hnc in Hs, Hd, Hv, He, Ha; [|unfold payload_messages; set_solver..]. done.
Qed.

Definition ack_messages (acks : list bytes) : list bytes :=
  ([COMMITMENT_VERSION_PREFIX] ++ extend_all (map sha256 acks)) :: acks.

Lemma map_sha256_inj l1 l2 :
  no_collision (l1 ++ l2) -> map sha256 l1 = map sha256 l2 -> l1 = l2.
Proof.
  revert l2. induction l1 as [|x l1 IH]; intros [|y l2] Hnc; simpl; intros Heq; simplify_eq; auto.
  f_equal; [|apply IH; [|done]].
  - apply Hnc; [set_solver..|done].
  - eapply no_collision_sub; [|exact Hnc]. set_solver.
Qed.

Lemma commit_v2_acknowledgement_binding a1 a2 :
  no_collision (ack_messages a1 ++ ack_messages a2) ->
  commit_v2_acknowledgement a1 = commit_v2_acknowledgement a2 -> a1 = a2.
Proof.
  intros Hnc Heq. unfold commit_v2_acknowledgement in Heq.
  apply Hnc in Heq; [|unfold ack_messages; set_solver..].
  simpl in Heq. injection Heq as Heq.
  apply extend_all_inj in Heq; [|apply (Forall_sha256_length id)..].
  apply map_sha256_inj; [|done].
  eapply no_collision_sub; [|exact Hnc]. unfold ack_messages. set_solver.
Qed.

End Binding.

(** The layout the repository's unit test checks. *)
Example paths_have_clientid_disc_be64_layout :
  packet_commitment_path (bstr "10-stellar-0") 0x1234 =
  bstr "10-stellar-0" ++ [Byte.x01; Byte.x00; Byte.x00; Byte.x00; Byte.x00; Byte.x00; Byte.x00;
                          Byte.x12; Byte.x34].
Proof. vm_compute. reflexivity. Qed.

End Core.
