(* ===== verification/Ics24Host.v ===== *)
(** * ICS-24 paths and commitments, on chain ([ibc-router/src/ics24_host.rs])

    The contract has no heap: paths and hashed strings go through fixed stack buffers of 128 and
    256 bytes, so every function can trap on an oversized argument.  The theorems say when, and
    that otherwise the bytes are those of the off-chain library ([CoreCommitment]). *)

From Stdlib Require Import ZArith Lia Strings.Byte Strings.String.
From stdpp Require Import base option list gmap numbers.
From S2P Require Import Prelude Bytes Crypto Host RouterTypes CoreCommitment.
Open Scope Z_scope.

Definition PACKET_COMMITMENT_DISCRIMINATOR : byte := Byte.x01.
Definition PACKET_RECEIPT_DISCRIMINATOR : byte := Byte.x02.
Definition ACK_COMMITMENT_DISCRIMINATOR : byte := Byte.x03.
Definition RECEIPT_SENTINEL : byte := Byte.x01.
Definition COMMITMENT_VERSION_PREFIX : byte := Byte.x02.
Definition PROVABLE_TTL_THRESHOLD : Z := 17280.
Definition PROVABLE_TTL_EXTEND_TO : Z := 86400.
Definition ERROR_ACK_PREIMAGE : bytes := bstr "UNIVERSAL_ERROR_ACKNOWLEDGEMENT".

(** A bounds-checked access of Rust. *)
Definition checked {A} (o : option A) : res A := ok_or IndexOutOfBounds o.

(** [let mut buf = [0u8; 128]; ...; Bytes::from_slice(&buf[..id_len + 9])]. *)
Definition v2_path_key (client_id : bytes) (discriminator : byte) (seq : Z) : res bytes :=
  let id_len := length client_id in
  buf ← checked (buf_write (zeros 128) 0 client_id);
  buf ← checked (buf_write buf id_len [discriminator]);
  let seq_bytes := to_be_bytes 8 seq in
  buf ← checked (buf_write buf (id_len + 1) seq_bytes);
  checked (buf_prefix buf (id_len + 9)).

Definition packet_commitment_path (source_client_id : bytes) (seq : Z) : res bytes :=
  v2_path_key source_client_id PACKET_COMMITMENT_DISCRIMINATOR seq.
Definition packet_receipt_path (dest_client_id : bytes) (seq : Z) : res bytes :=
  v2_path_key dest_client_id PACKET_RECEIPT_DISCRIMINATOR seq.
Definition ack_commitment_path (dest_client_id : bytes) (seq : Z) : res bytes :=
  v2_path_key dest_client_id ACK_COMMITMENT_DISCRIMINATOR seq.

Section Commitments.
Context `{Sha256}.

Definition sha256_bytes (data : bytes) : bytes := sha256 data.

(** [let mut buf = [0u8; 256]; s.copy_into_slice(&mut buf[..len]); sha256(&buf[..len])]. *)
Definition sha256_string (s : bytes) : res bytes :=
  let len := length s in
  buf ← checked (buf_write (zeros 256) 0 s);
  data ← checked (buf_prefix buf len);
  Ok (sha256_bytes data).

Definition error_ack_hash : bytes := sha256_bytes ERROR_ACK_PREIMAGE.

Definition commit_payload (payload : Payload) : res bytes :=
  let buf := [] in
  h ← sha256_string (source_port payload); let buf := buf ++ h in
  h ← sha256_string (dest_port payload); let buf := buf ++ h in
  h ← sha256_string (version payload); let buf := buf ++ h in
  h ← sha256_string (encoding payload); let buf := buf ++ h in
  let buf := buf ++ sha256_bytes (value payload) in
  Ok (sha256_bytes buf).

(** [for p in payloads { payloads_concat.append(commit_payload(p)) }]. *)
Fixpoint append_payload_hashes (acc : bytes) (ps : list Payload) : res bytes :=
  match ps with
  | [] => Ok acc
  | p :: ps => h ← commit_payload p; append_payload_hashes (acc ++ h) ps
  end.

Definition commit_v2_packet (packet : Packet) : res bytes :=
  payloads_concat ← append_payload_hashes [] (payloads packet);
  let timeout_bytes := to_be_bytes 8 (timeout_timestamp packet) in
  let preimage := [COMMITMENT_VERSION_PREFIX] in
  h ← sha256_string (dest_client packet); let preimage := preimage ++ h in
  let preimage := preimage ++ sha256_bytes timeout_bytes in
  let preimage := preimage ++ sha256_bytes payloads_concat in
  Ok (sha256_bytes preimage).

(** [for ack in app_acks { concat.append(sha256(ack)) }]. *)
Fixpoint append_ack_hashes (acc : bytes) (acks : list bytes) : bytes :=
  match acks with
  | [] => acc
  | a :: acks => append_ack_hashes (acc ++ sha256_bytes a) acks
  end.

Definition commit_v2_acknowledgement (app_acks : list bytes) : bytes :=
  let concat := append_ack_hashes [] app_acks in
  let preimage := [COMMITMENT_VERSION_PREFIX] in
  let preimage := preimage ++ concat in
  sha256_bytes preimage.

End Commitments.

(** ** Paths *)

Lemma v2_path_key_eq cid d n :
  v2_path_key cid d n =
  if decide (length cid + 9 <= 128)%nat then Ok (Core.v2_path cid d n) else Err IndexOutOfBounds.
Proof.
  unfold v2_path_key, checked. case_decide as Hlen.
  - destruct (buf_write_start (zeros 128) cid) as (b1 & -> & Hl1 & Ht1);
      [rewrite zeros_length; lia|]. cbn [ok_or mbind result_bind].
    rewrite zeros_length in Hl1.
    destruct (buf_write_prefix b1 cid [d]) as (b2 & -> & Hl2 & Ht2);
      [done|simpl; lia|]. cbn [ok_or mbind result_bind].
    replace (length cid + 1)%nat with (length (cid ++ [d])) by (rewrite length_app; done).
    destruct (buf_write_prefix b2 (cid ++ [d]) (to_be_bytes 8 n)) as (b3 & -> & Hl3 & Ht3);
      [done|rewrite length_app, to_be_bytes_length; simpl; lia|]. cbn [ok_or mbind result_bind].
    rewrite (buf_prefix_Some b3 _ (Core.v2_path cid d n)); [done|lia|].
    unfold Core.v2_path. rewrite app_assoc, <-Ht3. f_equal.
    rewrite !length_app, to_be_bytes_length. simpl. lia.
  - destruct (buf_write (zeros 128) 0 cid) as [b1|] eqn:H1; [|done]. simpl.
    apply buf_write_length in H1. rewrite zeros_length in H1.
    destruct (buf_write b1 (length cid) [d]) as [b2|] eqn:H2; [|done]. simpl.
    apply buf_write_length in H2.
    rewrite buf_write_overflow; [done|]. rewrite to_be_bytes_length. lia.
Qed.

Lemma v2_path_key_Ok cid d n k : v2_path_key cid d n = Ok k -> k = Core.v2_path cid d n.
Proof. rewrite v2_path_key_eq. case_decide; [|done]. by intros [= <-]. Qed.

Lemma v2_path_key_fits cid d n :
  (length cid + 9 <= 128)%nat -> v2_path_key cid d n = Ok (Core.v2_path cid d n).
Proof. intros. rewrite v2_path_key_eq. by rewrite decide_True. Qed.

(** C26: On chain and off chain, the provable path of a packet entry is the same byte string
    [client_id || discriminator || be64 sequence], for each of the three kinds of entry; the
    contract traps exactly when the client identifier leaves no room in its 128-byte buffer; and
    paths are unambiguous: equal paths have equal kind, client and sequence. *)
Theorem router_paths_agree_with_core (cid : bytes) (n : Z) :
  (packet_commitment_path cid n =
     if decide (length cid + 9 <= 128)%nat then Ok (Core.packet_commitment_path cid n)
     else Err IndexOutOfBounds) /\
  (packet_receipt_path cid n =
     if decide (length cid + 9 <= 128)%nat then Ok (Core.packet_receipt_path cid n)
     else Err IndexOutOfBounds) /\
  (ack_commitment_path cid n =
     if decide (length cid + 9 <= 128)%nat then Ok (Core.ack_commitment_path cid n)
     else Err IndexOutOfBounds) /\
  (forall cid' d d' n' k, in_u64 n -> in_u64 n' ->
     v2_path_key cid d n = Ok k -> v2_path_key cid' d' n' = Ok k ->
     cid = cid' /\ d = d' /\ n = n').
Proof.
  split_and!; [apply v2_path_key_eq..|].
  intros cid' d d' n' k Hn Hn' ->%v2_path_key_Ok Heq%v2_path_key_Ok.
  by apply Core.v2_path_inj.
Qed.

(** ** Commitments *)

Section Agreement.
Context `{Sha256}.

Lemma sha256_string_eq s :
  sha256_string s = if decide (length s <= 256)%nat then Ok (sha256 s) else Err IndexOutOfBounds.
Proof.
  unfold sha256_string, checked. case_decide as Hlen.
  - destruct (buf_write_start (zeros 256) s) as (b1 & -> & Hl1 & Ht1);
      [by rewrite zeros_length|]. cbn [ok_or mbind result_bind].
    rewrite (buf_prefix_Some b1 _ s); [done|rewrite Hl1, zeros_length; lia|exact Ht1].
  - rewrite buf_write_overflow; [done|]. rewrite zeros_length. lia.
Qed.

(** Every string of the payload fits the 256-byte hashing buffer. *)
Definition payload_fits (p : Payload) : Prop :=
  (length (source_port p) <= 256 /\ length (dest_port p) <= 256 /\
   length (version p) <= 256 /\ length (encoding p) <= 256)%nat.
#[export] Instance payload_fits_dec p : Decision (payload_fits p).
Proof. unfold payload_fits. apply _. Defined.

Definition packet_fits (p : Packet) : Prop :=
  Forall payload_fits (payloads p) /\ (length (dest_client p) <= 256)%nat.
#[export] Instance packet_fits_dec p : Decision (packet_fits p).
Proof. unfold packet_fits. apply _. Defined.

Definition core_payload_hash (p : Payload) : bytes :=
  Core.commit_payload (source_port p) (dest_port p) (version p) (encoding p) (value p).

Lemma core_payload_hashes_length ps :
  Forall (fun b => length b = 32%nat) (map core_payload_hash ps).
Proof. induction ps; simpl; constructor; [apply sha256_length|done]. Qed.

Lemma commit_payload_eq p :
  commit_payload p = if decide (payload_fits p) then Ok (core_payload_hash p)
                     else Err IndexOutOfBounds.
Proof.
  unfold commit_payload, core_payload_hash, Core.commit_payload, payload_fits.
  rewrite !sha256_string_eq. unfold sha256_bytes.
  repeat case_decide; try (by exfalso; tauto); try done.
  simpl. by rewrite <-!app_assoc.
Qed.

Lemma append_payload_hashes_eq acc ps :
  append_payload_hashes acc ps =
  if decide (Forall payload_fits ps)
  then Ok (acc ++ Core.extend_all (map core_payload_hash ps)) else Err IndexOutOfBounds.
Proof.
  revert acc. induction ps as [|p ps IH]; intros acc;
    cbn [append_payload_hashes map Core.extend_all].
  - rewrite decide_True by constructor. by rewrite app_nil_r.
  - rewrite commit_payload_eq. destruct (decide (payload_fits p)) as [Hp|Hp];
      unfold mbind, result_bind.
    + rewrite IH. destruct (decide (Forall payload_fits ps)) as [Hps|Hps].
      * rewrite decide_True by (by constructor). by rewrite app_assoc.
      * rewrite decide_False; [done|]. by inversion 1.
    + rewrite decide_False; [done|]. by inversion 1.
Qed.

Definition core_packet_commitment (p : Packet) : bytes :=
  Core.commit_v2_packet (dest_client p) (timeout_timestamp p) (map core_payload_hash (payloads p)).

Lemma commit_v2_packet_eq p :
  commit_v2_packet p = if decide (packet_fits p) then Ok (core_packet_commitment p)
                       else Err IndexOutOfBounds.
Proof.
  unfold commit_v2_packet, core_packet_commitment, Core.commit_v2_packet, packet_fits.
  rewrite append_payload_hashes_eq, sha256_string_eq. unfold sha256_bytes.
  repeat case_decide; try (by exfalso; tauto); try done.
  simpl. by rewrite <-!app_assoc.
Qed.

Lemma commit_v2_packet_Ok p h : commit_v2_packet p = Ok h -> h = core_packet_commitment p.
Proof. rewrite commit_v2_packet_eq. case_decide; [|done]. by intros [= <-]. Qed.

Lemma append_ack_hashes_eq acc acks :
  append_ack_hashes acc acks = acc ++ Core.extend_all (map sha256 acks).
Proof.
  revert acc. induction acks as [|a acks IH]; intros acc; simpl; [by rewrite app_nil_r|].
  by rewrite IH, app_assoc.
Qed.

Lemma commit_v2_acknowledgement_eq acks :
  commit_v2_acknowledgement acks = Core.commit_v2_acknowledgement acks.
Proof.
  unfold commit_v2_acknowledgement, Core.commit_v2_acknowledgement.
  by rewrite append_ack_hashes_eq.
Qed.

Lemma commit_v2_packet_length p h : commit_v2_packet p = Ok h -> length h = 32%nat.
Proof. intros ->%commit_v2_packet_Ok. apply sha256_length. Qed.

Lemma commit_v2_acknowledgement_length acks : length (commit_v2_acknowledgement acks) = 32%nat.
Proof. apply sha256_length. Qed.

(** C25: The router's packet and acknowledgement commitments are those of the off-chain library
    over the per-payload hashes, whenever every hashed string fits the contract's 256-byte
    buffer, and the router traps otherwise. *)
Theorem router_commitments_agree_with_core (p : Packet) (acks : list bytes) :
  (commit_v2_packet p =
     if decide (packet_fits p)
     then Ok (Core.commit_v2_packet (dest_client p) (timeout_timestamp p)
                (map (fun q => Core.commit_payload (source_port q) (dest_port q) (version q)
                                 (encoding q) (value q)) (payloads p)))
     else Err IndexOutOfBounds) /\
  commit_v2_acknowledgement acks = Core.commit_v2_acknowledgement acks /\
  error_ack_hash = Core.error_ack_hash.
Proof.
  split_and!; [apply commit_v2_packet_eq|apply commit_v2_acknowledgement_eq|done].
Qed.

(** Every message the commitment of a packet hashes. *)
Definition packet_commitment_messages (p : Packet) : list bytes :=
  Core.packet_messages (dest_client p) (timeout_timestamp p) (map core_payload_hash (payloads p))
  ++ concat (map (fun q => Core.payload_messages (source_port q) (dest_port q) (version q)
                             (encoding q) (value q)) (payloads p)).

Lemma payload_hashes_inj ps qs ms :
  Core.no_collision ms ->
  (forall q, q ∈ ps ++ qs -> Core.payload_messages (source_port q) (dest_port q) (version q)
                          (encoding q) (value q) ⊆ ms) ->
  map core_payload_hash ps = map core_payload_hash qs -> ps = qs.
Proof.
  intros Hnc. revert qs. induction ps as [|p ps IH]; intros [|q qs] Hsub; simpl;
    intros Heq; simplify_eq; auto.
  f_equal; [|apply IH; [|done]; intros; apply Hsub; set_solver].
  assert (Core.no_collision
    (Core.payload_messages (source_port p) (dest_port p) (version p) (encoding p) (value p) ++
     Core.payload_messages (source_port q) (dest_port q) (version q) (encoding q) (value q)))
    as Hnc'.
  { eapply Core.no_collision_sub; [|exact Hnc]. apply list_subseteq_app_iff_l. split; apply Hsub;
      set_solver. }
  destruct (Core.commit_payload_binding _ _ _ _ _ _ _ _ _ _ Hnc' ltac:(eassumption))
    as (? & ? & ? & ? & ?). destruct p, q; simpl in *. congruence.
Qed.

Lemma core_packet_commitment_binding (p q : Packet) :
  in_u64 (timeout_timestamp p) -> in_u64 (timeout_timestamp q) ->
  Core.no_collision (packet_commitment_messages p ++ packet_commitment_messages q) ->
  core_packet_commitment p = core_packet_commitment q ->
  dest_client p = dest_client q /\ timeout_timestamp p = timeout_timestamp q /\
  payloads p = payloads q.
Proof.
  intros Hp Hq Hnc Heq.
  apply Core.commit_v2_packet_binding in Heq as (Hd & Ht & Hh); auto.
  - split_and!; [done..|]. eapply payload_hashes_inj; [exact Hnc| |exact Hh].
    intros r Hr. unfold packet_commitment_messages.
    intros m Hm. apply elem_of_app in Hr as [Hr|Hr];
      [apply elem_of_app; left|apply elem_of_app; right]; apply elem_of_app; right;
      apply list_elem_of_In, in_concat; eexists;
      (split; [apply in_map, list_elem_of_In, Hr|by apply list_elem_of_In]).
  - apply core_payload_hashes_length.
  - apply core_payload_hashes_length.
  - eapply Core.no_collision_sub; [|exact Hnc]. unfold packet_commitment_messages. set_solver.
Qed.

(** A packet commitment binds the destination client, the timeout and every payload: packets
    with equal commitments agree on them, unless two of the messages hashed for the two
    commitments collide under SHA-256.  (The sequence and the source client are bound by the
    path, not by the commitment.) *)
Theorem packet_commitment_binding (p q : Packet) (h : bytes) :
  in_u64 (timeout_timestamp p) -> in_u64 (timeout_timestamp q) ->
  Core.no_collision (packet_commitment_messages p ++ packet_commitment_messages q) ->
  commit_v2_packet p = Ok h -> commit_v2_packet q = Ok h ->
  dest_client p = dest_client q /\ timeout_timestamp p = timeout_timestamp q /\
  payloads p = payloads q.
Proof.
  intros Hp Hq Hnc ->%commit_v2_packet_Ok Heq%commit_v2_packet_Ok.
  by apply core_packet_commitment_binding.
Qed.

End Agreement.

(** A packet that the witnesses share. *)
Definition sample_payload : Payload :=
  MkPayload (bstr "transfer") (bstr "transfer") (bstr "ics20-1") (bstr "application/json")
    (bstr "hello").
Definition sample_packet : Packet :=
  MkPacket 1 (bstr "10-stellar-0") (bstr "07-tendermint-0") 1000 [sample_payload].

Lemma packet_commitment_binding_witness :
  let p := sample_packet in
  let q := MkPacket 2 (bstr "10-stellar-7") (bstr "07-tendermint-0") 1000 [sample_payload] in
  dest_client p = dest_client q /\ timeout_timestamp p = timeout_timestamp q /\
  payloads p = payloads q.
Proof.
  intros p q.
  destruct (@commit_v2_packet fips_sha256 p) as [h|] eqn:Hh; [|by vm_compute in Hh].
  apply (@packet_commitment_binding fips_sha256 p q h).
  - vm_compute. split; discriminate.
  - vm_compute. split; discriminate.
  - apply Core.no_collisionb_spec. vm_compute. reflexivity.
  - exact Hh.
  - rewrite <-Hh. vm_compute. reflexivity.
Defined.
