(* ===== verification/Interfaces.v ===== *)
(** * The interfaces between the contracts

    The router calls light-client contracts and application contracts by address with
    [env.invoke_contract]; the application calls the router.  Each interface is a class over the
    type [X] of the state of the other contracts.  A call gets the callee's environment and its
    address; the router's theorems are proved against these classes, and [System] provides the
    instance made of the repository's own contracts. *)

From Stdlib Require Import ZArith.
From stdpp Require Import base gmap.
From S2P Require Import Prelude Bytes Host RouterTypes.
Open Scope Z_scope.

(** The entry points the router invokes on a light-client contract. *)
Class LightClients (X : Type) := {
  lc_initialise : Env -> Address -> bytes -> bytes -> bytes -> Z -> X -> res (X * unit);
  lc_check_for_misbehaviour : Env -> Address -> bytes -> bytes -> X -> res (X * bool);
  lc_update_state : Env -> Address -> bytes -> bytes -> X -> res (X * Z);
  lc_update_state_on_misbehaviour : Env -> Address -> bytes -> bytes -> X -> res (X * unit);
  lc_verify_membership : Env -> Address -> bytes -> Z -> bytes -> bytes -> bytes -> X ->
    res (X * bool);
  lc_verify_non_membership : Env -> Address -> bytes -> Z -> bytes -> bytes -> X -> res (X * bool);
  lc_get_timestamp_at_height : Env -> Address -> bytes -> Z -> X -> res (X * Z);
}.

(** The entry points the router invokes on an application contract. *)
Class IbcApps (X : Type) := {
  app_on_recv_packet : Env -> Address -> OnRecvPacketCallback -> X -> res (X * bytes);
  app_on_acknowledgement_packet : Env -> Address -> OnAcknowledgementPacketCallback -> X ->
    res (X * unit);
  app_on_timeout_packet : Env -> Address -> OnTimeoutPacketCallback -> X -> res (X * unit);
}.
