(* ===== verification/IbcStore.v ===== *)
(** * The provable store ([ibc-router/src/ibc_store.rs])

    Packet commitments, receipts and acknowledgement commitments, kept in persistent storage under
    their raw ICS-24 path so that the gateway can mirror them. *)

From Stdlib Require Import ZArith Lia Strings.Byte.
From stdpp Require Import base option list gmap numbers.
From S2P Require Import Prelude Bytes Crypto Host RouterTypes CoreCommitment Ics24Host.
Open Scope Z_scope.

Section Store.
Context {X : Type}.

Definition set_packet_commitment (env : Env) (source_client_id : bytes) (seq : Z)
    (commitment : bytes) : run (World X) unit :=
  key ← lift (packet_commitment_path source_client_id seq);
  _ ← persistent_set env (KPath key) (RvBytes commitment);
  extend_ttl (KPath key) PROVABLE_TTL_THRESHOLD PROVABLE_TTL_EXTEND_TO.

Definition packet_commitment (source_client_id : bytes) (seq : Z) :
    run (World X) (option bytes) :=
  key ← lift (packet_commitment_path source_client_id seq);
  persistent_get as_bytes32 (KPath key).

Definition delete_packet_commitment (source_client_id : bytes) (seq : Z) : run (World X) unit :=
  key ← lift (packet_commitment_path source_client_id seq);
  persistent_remove (KPath key).

Definition set_packet_receipt (env : Env) (dest_client_id : bytes) (seq : Z) :
    run (World X) unit :=
  key ← lift (packet_receipt_path dest_client_id seq);
  _ ← persistent_set env (KPath key) (RvBytes [RECEIPT_SENTINEL]);
  extend_ttl (KPath key) PROVABLE_TTL_THRESHOLD PROVABLE_TTL_EXTEND_TO.

Definition has_packet_receipt (dest_client_id : bytes) (seq : Z) : run (World X) bool :=
  key ← lift (packet_receipt_path dest_client_id seq);
  persistent_has (KPath key).

Definition set_ack_commitment (env : Env) (dest_client_id : bytes) (seq : Z) (ack_hash : bytes) :
    run (World X) unit :=
  key ← lift (ack_commitment_path dest_client_id seq);
  _ ← persistent_set env (KPath key) (RvBytes ack_hash);
  extend_ttl (KPath key) PROVABLE_TTL_THRESHOLD PROVABLE_TTL_EXTEND_TO.

Definition acknowledgement (dest_client_id : bytes) (seq : Z) : run (World X) (option bytes) :=
  key ← lift (ack_commitment_path dest_client_id seq);
  persistent_get as_bytes32 (KPath key).

End Store.

(** ** Views of the world *)

Definition commitment_key (cid : bytes) (n : Z) : RKey := KPath (Core.packet_commitment_path cid n).
Definition receipt_key (cid : bytes) (n : Z) : RKey := KPath (Core.packet_receipt_path cid n).
Definition ack_key (cid : bytes) (n : Z) : RKey := KPath (Core.ack_commitment_path cid n).

(** [w'] differs from [w] in the router's persistent entries only, which become [m]. *)
Definition updates {X} (w w' : World X) (m : gmap RKey RVal) : Prop :=
  rdata w' = m /\ rinst w' = rinst w /\ revents w' = revents w /\ w_ext w' = w_ext w.

(** [w'] is [w] with the router's persistent entries replaced by [m], the events [evs] published
    and the other contracts in the state [x]; the instance entries stay. *)
Definition becomes {X} (w w' : World X) (m : gmap RKey RVal) (evs : list Event) (x : X) : Prop :=
  rdata w' = m /\ rinst w' = rinst w /\ revents w' = revents w ++ evs /\ w_ext w' = x.

Definition id_fits (cid : bytes) : Prop := (length cid + 9 <= 128)%nat.

Lemma updates_becomes {X} (w w' : World X) m : updates w w' m <-> becomes w w' m [] (w_ext w).
Proof. unfold updates, becomes. by rewrite app_nil_r. Qed.

Lemma becomes_trans {X} (w w1 w2 : World X) m1 m2 e1 e2 x1 x2 :
  becomes w w1 m1 e1 x1 -> becomes w1 w2 m2 e2 x2 -> becomes w w2 m2 (e1 ++ e2) x2.
Proof.
  intros (? & Hi & He & ?) (? & Hi' & He' & ?). unfold becomes.
  by rewrite Hi', Hi, He', He, app_assoc.
Qed.

Section StoreLemmas.
Context {X : Type}.
Implicit Types w : World X.

Lemma path_key_inv cid d n k : v2_path_key cid d n = Ok k ->
  id_fits cid /\ k = Core.v2_path cid d n.
Proof. rewrite v2_path_key_eq. case_decide; [|done]. by intros [= <-]. Qed.

Lemma set_packet_commitment_Ok env cid n h w w' u :
  set_packet_commitment env cid n h w = Ok (w', u) ->
  id_fits cid /\ updates w w' (<[commitment_key cid n := RvBytes h]> (rdata w)).
Proof.
  unfold set_packet_commitment. intros H. hinv H.
  apply path_key_inv in Hrun as [Hf ->]. done.
Qed.

Lemma delete_packet_commitment_Ok cid n w w' u :
  delete_packet_commitment cid n w = Ok (w', u) ->
  id_fits cid /\ updates w w' (delete (commitment_key cid n) (rdata w)).
Proof.
  unfold delete_packet_commitment. intros H. hinv H.
  apply path_key_inv in Hrun as [Hf ->]. done.
Qed.

Lemma set_packet_receipt_Ok env cid n w w' u :
  set_packet_receipt env cid n w = Ok (w', u) ->
  id_fits cid /\ updates w w' (<[receipt_key cid n := RvBytes [RECEIPT_SENTINEL]]> (rdata w)).
Proof.
  unfold set_packet_receipt. intros H. hinv H.
  apply path_key_inv in Hrun as [Hf ->]. done.
Qed.

Lemma set_ack_commitment_Ok env cid n h w w' u :
  set_ack_commitment env cid n h w = Ok (w', u) ->
  id_fits cid /\ updates w w' (<[ack_key cid n := RvBytes h]> (rdata w)).
Proof.
  unfold set_ack_commitment. intros H. hinv H.
  apply path_key_inv in Hrun as [Hf ->]. done.
Qed.

Lemma packet_commitment_Ok cid n w w' o :
  packet_commitment cid n w = Ok (w', o) ->
  id_fits cid /\ w' = w /\ typed_get as_bytes32 (rdata w !! commitment_key cid n) = Ok o.
Proof.
  unfold packet_commitment. intros H. hinv H. apply path_key_inv in Hrun as [Hf ->]. done.
Qed.

Lemma acknowledgement_Ok cid n w w' o :
  acknowledgement cid n w = Ok (w', o) ->
  id_fits cid /\ w' = w /\ typed_get as_bytes32 (rdata w !! ack_key cid n) = Ok o.
Proof.
  unfold acknowledgement. intros H. hinv H. apply path_key_inv in Hrun as [Hf ->]. done.
Qed.

Lemma has_packet_receipt_Ok cid n w w' b :
  has_packet_receipt cid n w = Ok (w', b) ->
  id_fits cid /\ w' = w /\ b = bool_decide (is_Some (rdata w !! receipt_key cid n)).
Proof.
  unfold has_packet_receipt. intros H. hinv H. apply path_key_inv in Hrun as [Hf ->]. done.
Qed.

(** The operations run whenever the client identifier fits. *)
Lemma set_packet_commitment_total env cid n h w :
  id_fits cid -> exists w', set_packet_commitment env cid n h w = Ok (w', tt).
Proof.
  intros Hf. unfold set_packet_commitment, packet_commitment_path.
  rewrite v2_path_key_fits by exact Hf. by eexists.
Qed.
Lemma set_packet_receipt_total env cid n w :
  id_fits cid -> exists w', set_packet_receipt env cid n w = Ok (w', tt).
Proof.
  intros Hf. unfold set_packet_receipt, packet_receipt_path.
  rewrite v2_path_key_fits by exact Hf. by eexists.
Qed.
Lemma set_ack_commitment_total env cid n h w :
  id_fits cid -> exists w', set_ack_commitment env cid n h w = Ok (w', tt).
Proof.
  intros Hf. unfold set_ack_commitment, ack_commitment_path.
  rewrite v2_path_key_fits by exact Hf. by eexists.
Qed.
Lemma delete_packet_commitment_total cid n w :
  id_fits cid -> exists w', delete_packet_commitment cid n w = Ok (w', tt).
Proof.
  intros Hf. unfold delete_packet_commitment, packet_commitment_path.
  rewrite v2_path_key_fits by exact Hf. by eexists.
Qed.
Lemma has_packet_receipt_run cid n w :
  id_fits cid ->
  has_packet_receipt cid n w = Ok (w, bool_decide (is_Some (rdata w !! receipt_key cid n))).
Proof.
  intros Hf. unfold has_packet_receipt, packet_receipt_path.
  by rewrite v2_path_key_fits by exact Hf.
Qed.
Lemma packet_commitment_run cid n w o :
  id_fits cid -> typed_get as_bytes32 (rdata w !! commitment_key cid n) = Ok o ->
  packet_commitment cid n w = Ok (w, o).
Proof.
  intros Hf Ho. unfold packet_commitment, packet_commitment_path.
  rewrite v2_path_key_fits by exact Hf. by apply lift_Ok.
Qed.
Lemma acknowledgement_run cid n w o :
  id_fits cid -> typed_get as_bytes32 (rdata w !! ack_key cid n) = Ok o ->
  acknowledgement cid n w = Ok (w, o).
Proof.
  intros Hf Ho. unfold acknowledgement, ack_commitment_path.
  rewrite v2_path_key_fits by exact Hf. by apply lift_Ok.
Qed.

(** Keys of different kinds or packets are different. *)
Lemma commitment_key_inj c1 n1 c2 n2 :
  in_u64 n1 -> in_u64 n2 -> commitment_key c1 n1 = commitment_key c2 n2 -> c1 = c2 /\ n1 = n2.
Proof. intros H1 H2 [= Heq]. apply Core.v2_path_inj in Heq; naive_solver. Qed.
Lemma receipt_key_inj c1 n1 c2 n2 :
  in_u64 n1 -> in_u64 n2 -> receipt_key c1 n1 = receipt_key c2 n2 -> c1 = c2 /\ n1 = n2.
Proof. intros H1 H2 [= Heq]. apply Core.v2_path_inj in Heq; naive_solver. Qed.

End StoreLemmas.

(** The ninth byte from the end of a path is its kind, whatever the sequence number. *)
Lemma v2_path_kind c1 d1 n1 c2 d2 n2 :
  Core.v2_path c1 d1 n1 = Core.v2_path c2 d2 n2 -> d1 = d2.
Proof.
  unfold Core.v2_path. intros Heq. apply app_inj_suffix in Heq as [_ Heq].
  2: { rewrite !length_app, !to_be_bytes_length. done. }
  apply app_inj_1 in Heq as [Hd _]; [|done]. by injection Hd.
Qed.

Lemma commitment_receipt_ne c1 n1 c2 n2 : commitment_key c1 n1 <> receipt_key c2 n2.
Proof. intros [= Heq]. by apply v2_path_kind in Heq. Qed.
Lemma commitment_ack_ne c1 n1 c2 n2 : commitment_key c1 n1 <> ack_key c2 n2.
Proof. intros [= Heq]. by apply v2_path_kind in Heq. Qed.
Lemma receipt_ack_ne c1 n1 c2 n2 : receipt_key c1 n1 <> ack_key c2 n2.
Proof. intros [= Heq]. by apply v2_path_kind in Heq. Qed.
#[export] Hint Resolve commitment_receipt_ne commitment_ack_ne receipt_ack_ne
  not_eq_sym : host.

(** Writing a provable entry keeps it alive: after each of the three writers the entry is
    there with its value and has at least the threshold number of ledgers left to live. *)
Theorem provable_writes_stay_alive {X} (env : Env) (cid h : bytes) (n : Z) (w w' : World X) u :
  (set_packet_commitment env cid n h w = Ok (w', u) ->
     rdata w' !! commitment_key cid n = Some (RvBytes h) /\
     PROVABLE_TTL_THRESHOLD <= default 0 (rttl w' !! commitment_key cid n)) /\
  (set_packet_receipt env cid n w = Ok (w', u) ->
     rdata w' !! receipt_key cid n = Some (RvBytes [RECEIPT_SENTINEL]) /\
     PROVABLE_TTL_THRESHOLD <= default 0 (rttl w' !! receipt_key cid n)) /\
  (set_ack_commitment env cid n h w = Ok (w', u) ->
     rdata w' !! ack_key cid n = Some (RvBytes h) /\
     PROVABLE_TTL_THRESHOLD <= default 0 (rttl w' !! ack_key cid n)).
Proof.
  split_and!; intros H.
  1: unfold set_packet_commitment in H. 2: unfold set_packet_receipt in H.
  3: unfold set_ack_commitment in H.
  all: hinv H; apply path_key_inv in Hrun as [_ ->]; split;
    [apply lookup_insert_eq|
     refine (extend_ttl_alive (V:=RVal) _ _ PROVABLE_TTL_EXTEND_TO (storage_set _ _ _ _) _); done].
Qed.
