(* ===== verification/PortRouter.v ===== *)
(** * The port table ([ibc-router/src/port_router.rs])

    The administrator binds a port to an application contract, once and for ever. *)

From Stdlib Require Import ZArith Lia Strings.Byte Strings.String.
From stdpp Require Import base option list gmap numbers.
From S2P Require Import Prelude Bytes Host RouterTypes Identifiers IbcStore.
Open Scope Z_scope.

Section Ports.
Context {X : Type}.

Definition register_port (env : Env) (port_id : bytes) (app_address : Address) :
    run (World X) unit :=
  o ← instance_get as_address (KData Admin);
  admin ← expect_some AdminNotSet o;
  _ ← require_auth env admin;
  _ ← lift (validate_port_id port_id);
  let key := KData (Port port_id) in
  taken ← persistent_has key;
  _ ← panic_if taken PortAlreadyRegistered;
  persistent_set env key (RvAddress app_address).

Definition port_app (port_id : bytes) : run (World X) (option Address) :=
  persistent_get as_address (KData (Port port_id)).

(** Whoever registers a port is the administrator, the port is a valid identifier that was free,
    and nothing else changes. *)
Lemma register_port_Ok env port app (w w' : World X) u :
  register_port env port app w = Ok (w', u) ->
  exists admin, rinst w !! KData Admin = Some (RvAddress admin) /\ authorized env admin = true /\
    is_ok (validate_port_id port) = true /\ rdata w !! KData (Port port) = None /\
    updates w w' (<[KData (Port port) := RvAddress app]> (rdata w)).
Proof.
  unfold register_port. intros H. rinv H.
  exists v0. split_and!; [done|done|by rewrite Hrun1|done|done].
Qed.

(** The application bound to a port. *)
Definition port_of (m : gmap RKey RVal) (port : bytes) : option Address :=
  match m !! KData (Port port) with Some (RvAddress a) => Some a | _ => None end.

Lemma port_app_expect port (w w1 : World X) app :
  (o ← port_app port; expect_some PortNotRegistered o) w = Ok (w1, app) <->
  w1 = w /\ port_of (rdata w) port = Some app.
Proof.
  unfold port_of, expect_some, port_app, persistent_get, mbind, M_bind, lift, rdata, typed_get.
  cbn [storage_of World_HasStorage].
  destruct (persistent_data (r_storage (w_router w)) !! KData (Port port)) as [[]|]; simpl;
    unfold fail, mret, M_ret; naive_solver.
Qed.

End Ports.
