(* ===== verification/Ics02Client.v ===== *)
(** * The client registry ([ibc-router/src/ics02_client.rs])

    Client types are bound to light-client contracts by the administrator; a client gets an
    identifier [{client_type}-{n}] from a counter, keeps its light client for ever, and has at most
    one counterparty.  [update_client] asks the light client about misbehaviour first and freezes
    the client when there is some. *)

From Stdlib Require Import ZArith Lia Strings.Byte Strings.String.
From stdpp Require Import base option list gmap numbers.
From S2P Require Import Prelude Bytes Host RouterTypes Identifiers Interfaces Ics24Host IbcStore.
Open Scope Z_scope.

(** ** Minting identifiers *)

(** [while n > 0 { tmp[i] = b'0' + (n % 10) as u8; n /= 10; i += 1; }].  The loop leaves [tmp] (10
    bytes) by a trap after at most ten rounds, so eleven units of fuel always suffice. *)
Fixpoint write_u32_digits (fuel : nat) (n : Z) (i : nat) (tmp : bytes) : res (bytes * nat) :=
  match fuel with
  | O => Err IndexOutOfBounds
  | S fuel =>
      if 0 <? n then
        tmp ← checked (buf_write tmp i [digit_byte (n mod 10)]);
        write_u32_digits fuel (n / 10) (i + 1) tmp
      else Ok (tmp, i)
  end.

(** [for j in 0..i { buf[j] = tmp[i - 1 - j]; }]. *)
Fixpoint copy_reversed (tmp : bytes) (i : nat) (js : list nat) (buf : bytes) : res bytes :=
  match js with
  | [] => Ok buf
  | j :: js =>
      c ← checked (tmp !! (i - 1 - j)%nat);
      buf ← checked (buf_write buf j [c]);
      copy_reversed tmp i js buf
  end.

Definition write_u32 (buf : bytes) (n : Z) : res (bytes * nat) :=
  if n =? 0 then
    buf ← checked (buf_write buf 0 [digit_byte 0]);
    Ok (buf, 1%nat)
  else
    '(tmp, i) ← write_u32_digits 11 n 0 (zeros 10);
    buf ← copy_reversed tmp i (seq 0 i) buf;
    Ok (buf, i).

(** The identifier built in the 64-byte buffer. *)
Definition format_client_id (client_type : bytes) (n : Z) : res bytes :=
  let prefix_len := length client_type in
  buf ← checked (buf_write (zeros 64) 0 client_type);
  let len := prefix_len in
  buf ← checked (buf_write buf len (bstr "-"));
  let len := (len + 1)%nat in
  '(tail, k) ← write_u32 (drop len buf) n;
  let buf := take len buf ++ tail in
  checked (buf_prefix buf (len + k)).

Section Clients.
Context {X : Type} `{LightClients X}.

Definition mint_client_id (env : Env) (client_type : bytes) : run (World X) bytes :=
  let key := KData (NextClientId client_type) in
  o ← persistent_get as_u32 key;
  let n := default 0 o in
  n1 ← lift (u32_add n 1);
  _ ← persistent_set env key (RvU32 n1);
  lift (format_client_id client_type n).

Definition register_client_type (env : Env) (client_type : bytes) (lc_address : Address) :
    run (World X) unit :=
  o ← instance_get as_address (KData Admin);
  admin ← expect_some AdminNotSet o;
  _ ← require_auth env admin;
  _ ← lift (validate_client_type client_type);
  persistent_set env (KData (ClientTypeAddr client_type)) (RvAddress lc_address).

Definition lc_address (client_type : bytes) : run (World X) (option Address) :=
  persistent_get as_address (KData (ClientTypeAddr client_type)).

Definition create_client (env : Env) (client_type client_state consensus_state : bytes)
    (height : Z) : run (World X) bytes :=
  o ← persistent_get as_address (KData (ClientTypeAddr client_type));
  lc_addr ← expect_some UnknownClientType o;
  client_id ← mint_client_id env client_type;
  _ ← invoke (lc_initialise (call_env env lc_addr) lc_addr client_id client_state
                consensus_state height);
  _ ← persistent_set env (KData (ClientType client_id)) (RvString client_type);
  _ ← persistent_set env (KData (ClientLcAddr client_id)) (RvAddress lc_addr);
  mret client_id.

Definition register_counterparty (env : Env) (client_id counterparty_client_id : bytes)
    (counterparty_commitment_prefix : list bytes) : run (World X) unit :=
  _ ← lift (validate_counterparty_client_id counterparty_client_id);
  known ← persistent_has (KData (ClientType client_id));
  _ ← panic_if (negb known) ClientIdNotFound;
  already ← persistent_has (KData (CounterpartyKey client_id));
  _ ← panic_if already CounterpartyAlreadyRegistered;
  let cp := MkCounterparty counterparty_client_id counterparty_commitment_prefix in
  persistent_set env (KData (CounterpartyKey client_id)) (RvCounterparty cp).

Definition counterparty (client_id : bytes) : run (World X) (option Counterparty) :=
  persistent_get as_counterparty (KData (CounterpartyKey client_id)).

Definition frozen (client_id : bytes) : run (World X) bool :=
  o ← persistent_get as_bool (KData (Frozen client_id));
  mret (default false o).

Definition update_client (env : Env) (client_id client_message : bytes) : run (World X) Z :=
  o ← persistent_get as_bool (KData (Frozen client_id));
  _ ← panic_if (default false o) ClientFrozen;
  o ← persistent_get as_address (KData (ClientLcAddr client_id));
  lc_addr ← expect_some ClientIdNotFound o;
  misbehaviour ← invoke (lc_check_for_misbehaviour (call_env env lc_addr) lc_addr client_id
                           client_message);
  if misbehaviour : bool then
    _ ← invoke (lc_update_state_on_misbehaviour (call_env env lc_addr) lc_addr client_id
                  client_message);
    _ ← persistent_set env (KData (Frozen client_id)) (RvBool true);
    mret 0
  else
    invoke (lc_update_state (call_env env lc_addr) lc_addr client_id client_message).

Definition client_lc_address (client_id : bytes) : run (World X) (option Address) :=
  persistent_get as_address (KData (ClientLcAddr client_id)).

End Clients.

(** ** Formatting is decimal printing *)

Definition client_id_of (client_type : bytes) (n : Z) : bytes :=
  client_type ++ bstr "-" ++ dec 10 n.

Lemma write_u32_digits_spec fuel n i p tmp :
  0 <= n < 10 ^ Z.of_nat fuel -> take i tmp = p -> length p = i ->
  (i + length (dec_digits fuel n) <= length tmp)%nat ->
  exists tmp', write_u32_digits (S fuel) n i tmp =
                 Ok (tmp', (i + length (dec_digits fuel n))%nat) /\
    take (i + length (dec_digits fuel n)) tmp' = p ++ dec_digits fuel n.
Proof.
  revert n i p tmp. induction fuel as [|fuel IH]; intros n i p tmp Hn Hp Hl Hfit.
  - change (10 ^ Z.of_nat 0) with 1 in Hn. assert (n = 0) as -> by lia. simpl.
    exists tmp. rewrite Nat.add_0_r, app_nil_r. done.
  - cbn [write_u32_digits dec_digits] in *.
    destruct (Z.ltb_spec 0 n), (Z.leb_spec n 0); try lia.
    2: { exists tmp. simpl. rewrite Nat.add_0_r, app_nil_r. done. }
    cbn [length] in *. rewrite <-Hl in *.
    destruct (buf_write_prefix tmp p [digit_byte (n mod 10)]) as (t1 & Hw & Hl1 & Ht1);
      [done|simpl; lia|]. rewrite Hw. cbn [checked ok_or mbind result_bind].
    rewrite length_app in Ht1. simpl in Ht1.
    destruct (IH (n / 10) (length p + 1)%nat (p ++ [digit_byte (n mod 10)]) t1) as (t2 & Hr & Ht2).
    + rewrite Nat2Z.inj_succ, Z.pow_succ_r in Hn by lia.
      split; [apply Z.div_pos; lia|apply Z.div_lt_upper_bound; lia].
    + done.
    + rewrite length_app. done.
    + lia.
    + exists t2. split.
      * etransitivity; [exact Hr|]. do 2 f_equal. lia.
      * rewrite <-app_assoc in Ht2. simpl in Ht2. rewrite <-Ht2. f_equal. lia.
Qed.

Lemma copy_reversed_spec tmp d j buf k :
  take (length d) tmp = d -> (j + k = length d)%nat -> (length d <= length buf)%nat ->
  take j buf = take j (rev d) ->
  exists buf', copy_reversed tmp (length d) (seq j k) buf = Ok buf' /\
    length buf' = length buf /\ take (length d) buf' = rev d.
Proof.
  intros Ht. revert j buf. induction k as [|k IH]; intros j buf Hj Hb Hpre; simpl.
  - exists buf. split_and!; [done..|]. replace (length d) with j by lia.
    rewrite Hpre. apply take_ge. rewrite length_rev. lia.
  - assert (exists c, rev d !! j = Some c) as [c Hc].
    { apply lookup_lt_is_Some_2. rewrite length_rev. lia. }
    assert (tmp !! (length d - 1 - j)%nat = Some c) as ->.
    { rewrite <-Hc, rev_lookup by lia.
      transitivity (take (length d) tmp !! (length d - 1 - j)%nat);
        [by rewrite lookup_take_lt by lia|by rewrite Ht]. }
    cbn [checked ok_or mbind result_bind].
    destruct (buf_write_prefix buf (take j buf) [c]) as (b1 & Hw & Hl1 & Ht1).
    { by rewrite length_take, Nat.min_l by lia. }
    { rewrite length_take. simpl. lia. }
    rewrite length_take, Nat.min_l in Hw by lia. rewrite Hw. cbn [checked ok_or mbind result_bind].
    rewrite length_app, length_take, Nat.min_l in Ht1 by lia. simpl in Ht1.
    destruct (IH (S j) b1) as (b2 & Hr & Hl2 & Ht2); [lia|lia| |].
    { replace (S j) with (j + 1)%nat by lia. rewrite Ht1, Hpre.
      symmetry. replace (j + 1)%nat with (S j) by lia. by apply take_S_r. }
    exists b2. split_and!; [exact Hr|lia|exact Ht2].
Qed.

Lemma copy_reversed_overflow tmp i js buf :
  (exists j, j ∈ js /\ (length buf <= j)%nat) -> copy_reversed tmp i js buf = Err IndexOutOfBounds.
Proof.
  revert buf. induction js as [|j js IH]; intros buf (j' & Hin & Hlen); [set_solver|]. simpl.
  destruct (tmp !! (i - 1 - j)%nat) as [c|]; [|done]. cbn [checked ok_or mbind result_bind].
  destruct (buf_write buf j [c]) as [b|] eqn:Hw; [|done]. cbn [checked ok_or mbind result_bind].
  apply elem_of_cons in Hin as [->|Hin].
  - rewrite buf_write_overflow in Hw; [done|]. simpl. lia.
  - apply IH. exists j'. split; [done|]. by rewrite (buf_write_length _ _ _ _ Hw).
Qed.

Lemma u32_lt_10_10 n : in_u32 n -> 0 <= n < 10 ^ Z.of_nat 10.
Proof. unfold in_u32, u32_max. change (10 ^ Z.of_nat 10) with 10000000000. lia. Qed.

Lemma write_u32_spec buf n :
  in_u32 n -> (length (dec 10 n) <= length buf)%nat ->
  exists buf', write_u32 buf n = Ok (buf', length (dec 10 n)) /\
    length buf' = length buf /\ take (length (dec 10 n)) buf' = dec 10 n.
Proof.
  intros Hn Hfit. unfold write_u32, dec in *. pose proof (u32_lt_10_10 n Hn) as Hlt.
  destruct (Z.eqb_spec n 0) as [->|Hne].
  { destruct (buf_write_start buf [digit_byte 0]) as (b & -> & Hl & Ht); [done|].
    exists b. done. }
  destruct (Z.leb_spec n 0); [lia|]. rewrite length_rev in *.
  destruct (write_u32_digits_spec 10 n 0 [] (zeros 10)) as (tmp & -> & Ht);
    [done..|rewrite zeros_length; apply (dec_digits_length 10)|].
  cbn [mbind result_bind Nat.add app] in *.
  destruct (copy_reversed_spec tmp (dec_digits 10 n) 0 buf (length (dec_digits 10 n)))
    as (b & -> & Hl & Htb); [done..|].
  exists b. done.
Qed.

Lemma write_u32_overflow buf n :
  in_u32 n -> (length buf < length (dec 10 n))%nat -> write_u32 buf n = Err IndexOutOfBounds.
Proof.
  intros Hn Hfit. unfold write_u32, dec in *. pose proof (u32_lt_10_10 n Hn) as Hlt.
  destruct (Z.eqb_spec n 0) as [->|Hne].
  { by rewrite buf_write_overflow. }
  destruct (Z.leb_spec n 0); [lia|]. rewrite length_rev in *.
  destruct (write_u32_digits_spec 10 n 0 [] (zeros 10)) as (tmp & -> & Ht);
    [done..|rewrite zeros_length; apply (dec_digits_length 10)|].
  cbn [mbind result_bind Nat.add]. rewrite copy_reversed_overflow; [done|].
  exists (length buf). split; [|done]. apply elem_of_seq. lia.
Qed.

(** The buffer arithmetic of [mint_client_id] prints [{client_type}-{n}], or traps when the
    identifier would be longer than 64 bytes. *)
Lemma format_client_id_eq ct n :
  in_u32 n ->
  format_client_id ct n =
  if decide (length (client_id_of ct n) <= 64)%nat then Ok (client_id_of ct n)
  else Err IndexOutOfBounds.
Proof.
  intros Hn. unfold format_client_id, client_id_of. rewrite !length_app.
  change (length (bstr "-")) with 1%nat.
  destruct (decide (length ct <= 64)%nat) as [H1|H1].
  2: { rewrite decide_False by lia. rewrite buf_write_overflow; [done|]. rewrite zeros_length. lia. }
  destruct (buf_write_start (zeros 64) ct) as (b1 & -> & Hl1 & Ht1); [by rewrite zeros_length|].
  rewrite zeros_length in Hl1. cbn [checked ok_or mbind result_bind].
  destruct (decide (length ct + 1 <= 64)%nat) as [H2|H2].
  2: { rewrite decide_False by lia. rewrite buf_write_overflow; [done|]. simpl. lia. }
  destruct (buf_write_prefix b1 ct (bstr "-")) as (b2 & -> & Hl2 & Ht2); [done|simpl; lia|].
  rewrite length_app in Ht2. change (length (bstr "-")) with 1%nat in Ht2.
  cbn [checked ok_or mbind result_bind].
  assert (length (drop (length ct + 1) b2) = 63 - length ct)%nat as Hld
    by (rewrite length_drop; lia).
  destruct (decide (length (dec 10 n) <= 63 - length ct)%nat) as [H3|H3].
  2: { rewrite decide_False by lia. rewrite write_u32_overflow; [done|done|lia]. }
  rewrite decide_True by lia.
  destruct (write_u32_spec (drop (length ct + 1) b2) n Hn) as (b3 & -> & Hl3 & Ht3); [lia|].
  cbn [mbind result_bind]. rewrite Ht2, <-app_assoc.
  rewrite (buf_prefix_Some _ _ (ct ++ bstr "-" ++ dec 10 n)); [done| |].
  - rewrite !length_app. change (length (bstr "-")) with 1%nat. lia.
  - rewrite app_assoc. replace (length ct + 1)%nat with (length (ct ++ bstr "-"))
      by (rewrite length_app; done).
    rewrite take_app_add, Ht3. by rewrite <-app_assoc.
Qed.

Lemma dash_not_digit b : is_digit b -> b <> Byte.x2d.
Proof. intros [H1 H2] ->. vm_compute in H1. congruence. Qed.

Lemma dash_not_in_dec n : ~ Byte.x2d ∈ dec 10 n.
Proof.
  intros Hin. pose proof (dec_all_digits 10 n) as Hall.
  eapply (proj1 (list.Forall_forall _ _)) in Hall; [|exact Hin]. by apply dash_not_digit in Hall.
Qed.

(** The identifier determines the client type and the counter it was minted from. *)
Lemma client_id_of_inj ct1 n1 ct2 n2 :
  in_u32 n1 -> in_u32 n2 -> client_id_of ct1 n1 = client_id_of ct2 n2 -> ct1 = ct2 /\ n1 = n2.
Proof.
  intros Hn1 Hn2 Heq. unfold client_id_of in Heq.
  apply (app_sep_inj Byte.x2d) in Heq as [-> Hd].
  - split; [done|]. rewrite <-(undec_dec 10 n1), Hd, undec_dec; auto using u32_lt_10_10.
  - apply dash_not_in_dec.
  - apply dash_not_in_dec.
Qed.

(** The identifier [create_client] mints for the [n]-th client of a type is the decimal
    [{client_type}-{n}], computed without a heap; the contract traps exactly when it would not
    fit 64 bytes; and different types or counters never give the same identifier. *)
Theorem minted_identifiers (ct : bytes) (n : Z) :
  in_u32 n ->
  (format_client_id ct n =
     if decide (length (ct ++ bstr "-" ++ dec 10 n) <= 64)%nat
     then Ok (ct ++ bstr "-" ++ dec 10 n) else Err IndexOutOfBounds) /\
  (forall ct' n' id, in_u32 n' ->
     format_client_id ct n = Ok id -> format_client_id ct' n' = Ok id -> ct = ct' /\ n = n').
Proof.
  intros Hn. split; [by apply format_client_id_eq|].
  intros ct' n' id Hn'. rewrite !format_client_id_eq by done.
  case_decide; [|done]. case_decide; [|done]. intros [= <-] [= Heq].
  by apply client_id_of_inj.
Qed.

Lemma minted_identifiers_witness :
  format_client_id (bstr "07-tendermint") 4294967295 = Ok (bstr "07-tendermint-4294967295").
Proof.
  destruct (minted_identifiers (bstr "07-tendermint") 4294967295) as [-> _].
  - vm_compute. split; discriminate.
  - vm_compute. reflexivity.
Defined.

(** ** What each operation does *)

Section ClientSpecs.
Context {X : Type} `{LightClients X}.
Implicit Types w : World X.

Lemma register_client_type_Ok env ct lc w w' u :
  register_client_type env ct lc w = Ok (w', u) ->
  exists admin, rinst w !! KData Admin = Some (RvAddress admin) /\ authorized env admin = true /\
    is_ok (validate_client_type ct) = true /\
    updates w w' (<[KData (ClientTypeAddr ct) := RvAddress lc]> (rdata w)).
Proof.
  unfold register_client_type. intros Hr. rinv Hr.
  exists v0. split_and!; [done|done|by rewrite Hrun1|done].
Qed.

(** The counter of a client type, absent before its first client. *)
Definition counter_of (m : gmap RKey RVal) (ct : bytes) (n : Z) : Prop :=
  m !! KData (NextClientId ct) = Some (RvU32 n) \/ (m !! KData (NextClientId ct) = None /\ n = 0).

Lemma counter_get m ct o :
  typed_get as_u32 (m !! KData (NextClientId ct)) = Ok o -> counter_of m ct (default 0 o).
Proof. destruct o as [n|]; intros Ho; rnorm; simpl; [by left|by right]. Qed.

Lemma create_client_Ok env ct cs cons h w w' id :
  create_client env ct cs cons h w = Ok (w', id) ->
  exists lc n x, rdata w !! KData (ClientTypeAddr ct) = Some (RvAddress lc) /\
    counter_of (rdata w) ct n /\ in_u32 (n + 1) /\ format_client_id ct n = Ok id /\
    lc_initialise (call_env env lc) lc id cs cons h (w_ext w) = Ok (x, tt) /\
    becomes w w' (<[KData (ClientLcAddr id) := RvAddress lc]>
                  (<[KData (ClientType id) := RvString ct]>
                   (<[KData (NextClientId ct) := RvU32 (n + 1)]> (rdata w)))) [] x.
Proof.
  unfold create_client, mint_client_id. intros Hr. rinv Hr.
  exists v0, (default 0 v1), x. split_and!; [done|by apply counter_get|done..|].
  unfold becomes. by rewrite app_nil_r.
Qed.

Lemma register_counterparty_Ok env id cid prefix w w' u :
  register_counterparty env id cid prefix w = Ok (w', u) ->
  is_ok (validate_counterparty_client_id cid) = true /\
  is_Some (rdata w !! KData (ClientType id)) /\ rdata w !! KData (CounterpartyKey id) = None /\
  updates w w' (<[KData (CounterpartyKey id) := RvCounterparty (MkCounterparty cid prefix)]> (rdata w)).
Proof.
  unfold register_counterparty. intros Hr. rinv Hr.
  split_and!; [by rewrite Hrun|done..].
Qed.

(** Whether a client is frozen. *)
Definition is_frozen (m : gmap RKey RVal) (id : bytes) : bool :=
  match m !! KData (Frozen id) with Some (RvBool b) => b | _ => false end.

Lemma frozen_get m id o :
  typed_get as_bool (m !! KData (Frozen id)) = Ok o -> default false o = is_frozen m id.
Proof. unfold is_frozen. destruct o as [b|]; intros Ho; rnorm; by rewrite Ho. Qed.

Lemma frozen_Ok id w w' b : frozen id w = Ok (w', b) -> w' = w /\ b = is_frozen (rdata w) id.
Proof. unfold frozen. intros Hr. rinv Hr. split; [done|]. by apply frozen_get. Qed.

Lemma update_client_Ok env id msg w w' height :
  update_client env id msg w = Ok (w', height) ->
  exists lc x1 mis, is_frozen (rdata w) id = false /\
    rdata w !! KData (ClientLcAddr id) = Some (RvAddress lc) /\
    lc_check_for_misbehaviour (call_env env lc) lc id msg (w_ext w) = Ok (x1, mis) /\
    if mis : bool then
      exists x2, lc_update_state_on_misbehaviour (call_env env lc) lc id msg x1 = Ok (x2, tt) /\
        becomes w w' (<[KData (Frozen id) := RvBool true]> (rdata w)) [] x2 /\ height = 0
    else
      exists x2, lc_update_state (call_env env lc) lc id msg x1 = Ok (x2, height) /\
        becomes w w' (rdata w) [] x2.
Proof.
  unfold update_client. intros Hr. rinv Hr.
  match goal with Hf : typed_get as_bool _ = _ |- _ => apply frozen_get in Hf as Hfr end.
  exists v1, x, v0. split_and!; [by etransitivity; [symmetry; exact Hfr|]|done..|]. destruct v0; rinv Hr.
  - exists x0. split_and!; [done| |done]. unfold becomes. by rewrite app_nil_r.
  - exists x0. split; [done|]. unfold becomes. by rewrite app_nil_r.
Qed.

End ClientSpecs.
