(* ===== verification/PacketHandler.v ===== *)
(** * The packet handler ([ibc-router/src/packet_handler.rs])

    The four packet messages of IBC v2 and [write_acknowledgement], with the callbacks into the
    applications and the proof checks by the light client.  Every handler is the whole function of
    the source, its guards in the order of the source. *)

From Stdlib Require Import ZArith Lia Strings.Byte Strings.String.
From stdpp Require Import base option list gmap numbers.
From S2P Require Import Prelude Bytes Crypto Host RouterTypes Identifiers CoreCommitment Ics24Host.
From S2P Require Import Interfaces IbcStore Ics02Client PortRouter.
Open Scope Z_scope.

(** ** Paths on the counterparty *)

(** [for chunk in prefix.iter() { out.append(&chunk); }]. *)
Fixpoint append_chunks (out : bytes) (prefix : list bytes) : bytes :=
  match prefix with
  | [] => out
  | chunk :: prefix => append_chunks (out ++ chunk) prefix
  end.

Definition counterparty_v2_path (prefix : list bytes) (client_id : bytes) (discriminator : byte)
    (seq : Z) : res bytes :=
  let out := append_chunks [] prefix in
  let id_len := length client_id in
  buf ← checked (buf_write (zeros 128) 0 client_id);
  buf ← checked (buf_write buf id_len [discriminator]);
  buf ← checked (buf_write buf (id_len + 1) (to_be_bytes 8 seq));
  key ← checked (buf_prefix buf (id_len + 9));
  Ok (out ++ key).

Definition counterparty_packet_commitment_path (prefix : list bytes) (source_client_id : bytes)
    (seq : Z) : res bytes :=
  counterparty_v2_path prefix source_client_id Byte.x01 seq.
Definition counterparty_packet_receipt_path (prefix : list bytes) (dest_client_id : bytes)
    (seq : Z) : res bytes :=
  counterparty_v2_path prefix dest_client_id Byte.x02 seq.
Definition counterparty_ack_commitment_path (prefix : list bytes) (dest_client_id : bytes)
    (seq : Z) : res bytes :=
  counterparty_v2_path prefix dest_client_id Byte.x03 seq.

Section Handlers.
Context {X : Type} `{Sha256} `{LightClients X} `{IbcApps X}.

(** ** Proof checks *)

Definition verify_membership (env : Env) (client_id : bytes) (proof_height : Z)
    (proof path value : bytes) : run (World X) unit :=
  o ← client_lc_address client_id;
  lc_addr ← expect_some ClientIdNotFound o;
  ok ← invoke (lc_verify_membership (call_env env lc_addr) lc_addr client_id proof_height proof
                 path value);
  panic_if (negb ok) MembershipVerificationFailed.

Definition verify_non_membership (env : Env) (client_id : bytes) (proof_height : Z)
    (proof path : bytes) : run (World X) unit :=
  o ← client_lc_address client_id;
  lc_addr ← expect_some ClientIdNotFound o;
  ok ← invoke (lc_verify_non_membership (call_env env lc_addr) lc_addr client_id proof_height
                 proof path);
  panic_if (negb ok) NonMembershipVerificationFailed.

(** ** Callbacks *)

Definition recv_callback (packet : Packet) (payload : Payload) : OnRecvPacketCallback :=
  MkOnRecv (source_client packet) (dest_client packet) (sequence packet) payload.
Definition ack_callback (packet : Packet) (payload : Payload) (ack : bytes) :
    OnAcknowledgementPacketCallback :=
  MkOnAck (source_client packet) (dest_client packet) (sequence packet) payload ack.
Definition timeout_callback (packet : Packet) (payload : Payload) : OnTimeoutPacketCallback :=
  MkOnTimeout (source_client packet) (dest_client packet) (sequence packet) payload.

Definition dispatch_recv_callbacks (env : Env) (packet : Packet) : run (World X) (list bytes) :=
  acks ← map_each (fun payload =>
      app ← (o ← port_app (dest_port payload); expect_some PortNotRegistered o);
      invoke (app_on_recv_packet (call_env env app) app (recv_callback packet payload)))
    (payloads packet);
  mret (if bool_decide (acks = []) then [error_ack_hash] else acks).

Definition dispatch_ack_callbacks (env : Env) (packet : Packet) (acks : list bytes) :
    run (World X) unit :=
  for_each (fun '(i, payload) =>
      let ack := default error_ack_hash (acks !! i) in
      app ← (o ← port_app (source_port payload); expect_some PortNotRegistered o);
      invoke (app_on_acknowledgement_packet (call_env env app) app
                (ack_callback packet payload ack)))
    (imap pair (payloads packet)).

Definition dispatch_timeout_callbacks (env : Env) (packet : Packet) : run (World X) unit :=
  for_each (fun payload =>
      app ← (o ← port_app (source_port payload); expect_some PortNotRegistered o);
      invoke (app_on_timeout_packet (call_env env app) app (timeout_callback packet payload)))
    (payloads packet).

(** ** The handlers *)

Definition send_packet (env : Env) (source_client_id : bytes) (timeout_timestamp : Z)
    (payloads : list Payload) : run (World X) Z :=
  _ ← panic_if (bool_decide (payloads = [])) PayloadsEmpty;
  o ← counterparty source_client_id;
  cp ← expect_some CounterpartyNotRegistered o;
  _ ← panic_if (timeout_timestamp <=? ledger_timestamp env) TimeoutAlreadyElapsed;
  _ ← for_each (fun payload =>
        app ← (o ← port_app (source_port payload); expect_some PortNotRegistered o);
        require_auth env app) payloads;
  let seq_key := KData (NextSeqSend source_client_id) in
  o ← persistent_get as_u64 seq_key;
  next ← lift (u64_add (default 0 o) 1);
  _ ← persistent_set env seq_key (RvU64 next);
  let packet := MkPacket next source_client_id (cp_client_id cp) timeout_timestamp payloads in
  hash ← lift (commit_v2_packet packet);
  _ ← set_packet_commitment env source_client_id next hash;
  _ ← publish (SendPacketEvent source_client_id next packet);
  mret next.

Definition recv_packet (env : Env) (packet : Packet) (proof : bytes) (proof_height : Z) :
    run (World X) unit :=
  o ← counterparty (dest_client packet);
  cp ← expect_some CounterpartyNotRegistered o;
  _ ← panic_if (negb (bool_decide (cp_client_id cp = source_client packet)))
        PacketCounterpartyMismatch;
  _ ← panic_if (timeout_timestamp packet <=? ledger_timestamp env) TimeoutAlreadyElapsed;
  received ← has_packet_receipt (dest_client packet) (sequence packet);
  _ ← panic_if received ReceiptAlreadyExists;
  expected_hash ← lift (commit_v2_packet packet);
  cp_path ← lift (counterparty_packet_commitment_path (commitment_prefix cp)
                    (source_client packet) (sequence packet));
  _ ← verify_membership env (dest_client packet) proof_height proof cp_path expected_hash;
  _ ← set_packet_receipt env (dest_client packet) (sequence packet);
  acks ← dispatch_recv_callbacks env packet;
  let ack_hash := commit_v2_acknowledgement acks in
  _ ← set_ack_commitment env (dest_client packet) (sequence packet) ack_hash;
  _ ← publish (RecvPacketEvent (dest_client packet) (sequence packet) packet);
  publish (WriteAckEvent (dest_client packet) (sequence packet) acks).

Definition write_acknowledgement (env : Env) (dest_client_id : bytes) (seq : Z)
    (acknowledgements : list bytes) : run (World X) unit :=
  received ← has_packet_receipt dest_client_id seq;
  _ ← panic_if (negb received) NoReceiptForSequence;
  o ← acknowledgement dest_client_id seq;
  _ ← panic_if (bool_decide (is_Some o)) AckAlreadyExists;
  let ack_hash := commit_v2_acknowledgement acknowledgements in
  _ ← set_ack_commitment env dest_client_id seq ack_hash;
  publish (WriteAckEvent dest_client_id seq acknowledgements).

Definition acknowledge_packet (env : Env) (packet : Packet) (acknowledgements : list bytes)
    (proof : bytes) (proof_height : Z) : run (World X) unit :=
  o ← packet_commitment (source_client packet) (sequence packet);
  stored ← expect_some NoCommitmentForSequence o;
  expected_hash ← lift (commit_v2_packet packet);
  _ ← panic_if (negb (bool_decide (stored = expected_hash))) CommitmentMismatch;
  o ← counterparty (source_client packet);
  cp ← expect_some CounterpartyNotRegistered o;
  _ ← panic_if (negb (bool_decide (cp_client_id cp = dest_client packet)))
        PacketCounterpartyMismatch;
  let ack_hash := commit_v2_acknowledgement acknowledgements in
  cp_path ← lift (counterparty_ack_commitment_path (commitment_prefix cp) (dest_client packet)
                    (sequence packet));
  _ ← verify_membership env (source_client packet) proof_height proof cp_path ack_hash;
  _ ← dispatch_ack_callbacks env packet acknowledgements;
  _ ← delete_packet_commitment (source_client packet) (sequence packet);
  publish (AckPacketEvent (source_client packet) (sequence packet) packet acknowledgements).

Definition timeout_packet (env : Env) (packet : Packet) (proof : bytes) (proof_height : Z) :
    run (World X) unit :=
  o ← packet_commitment (source_client packet) (sequence packet);
  stored ← expect_some NoCommitmentForSequence o;
  expected_hash ← lift (commit_v2_packet packet);
  _ ← panic_if (negb (bool_decide (stored = expected_hash))) CommitmentMismatch;
  o ← counterparty (source_client packet);
  cp ← expect_some CounterpartyNotRegistered o;
  _ ← panic_if (negb (bool_decide (cp_client_id cp = dest_client packet)))
        PacketCounterpartyMismatch;
  o ← client_lc_address (source_client packet);
  lc_addr ← expect_some ClientIdNotFound o;
  proof_ts ← invoke (lc_get_timestamp_at_height (call_env env lc_addr) lc_addr
                       (source_client packet) proof_height);
  _ ← panic_if (proof_ts <=? timeout_timestamp packet) TimeoutNotYetElapsed;
  cp_path ← lift (counterparty_packet_receipt_path (commitment_prefix cp) (dest_client packet)
                    (sequence packet));
  _ ← verify_non_membership env (source_client packet) proof_height proof cp_path;
  _ ← dispatch_timeout_callbacks env packet;
  _ ← delete_packet_commitment (source_client packet) (sequence packet);
  publish (TimeoutPacketEvent (source_client packet) (sequence packet) packet).

End Handlers.

(** ** Paths *)

Lemma append_chunks_eq out prefix : append_chunks out prefix = out ++ concat prefix.
Proof.
  revert out. induction prefix as [|c prefix IH]; intros out; simpl.
  - by rewrite app_nil_r.
  - by rewrite IH, app_assoc.
Qed.

(** The path on the counterparty is the commitment prefix followed by the ICS-24 v2 path. *)
Lemma counterparty_v2_path_eq prefix cid d n :
  counterparty_v2_path prefix cid d n =
  if decide (id_fits cid) then Ok (concat prefix ++ Core.v2_path cid d n) else Err IndexOutOfBounds.
Proof.
  transitivity (key ← v2_path_key cid d n; Ok (append_chunks [] prefix ++ key)).
  { unfold counterparty_v2_path, v2_path_key, mbind, result_bind.
    destruct (checked (buf_write (zeros 128) 0 cid)) as [b1|]; [|done].
    destruct (checked (buf_write b1 (length cid) [d])) as [b2|]; [|done].
    by destruct (checked (buf_write b2 _ _)). }
  rewrite v2_path_key_eq, append_chunks_eq. unfold id_fits. by case_decide.
Qed.

Lemma counterparty_v2_path_Ok prefix cid d n k :
  counterparty_v2_path prefix cid d n = Ok k <->
  id_fits cid /\ k = concat prefix ++ Core.v2_path cid d n.
Proof. rewrite counterparty_v2_path_eq. case_decide; naive_solver. Qed.

Lemma commit_v2_packet_iff `{Sha256} p h :
  commit_v2_packet p = Ok h <-> packet_fits p /\ h = core_packet_commitment p.
Proof. rewrite commit_v2_packet_eq. case_decide; naive_solver. Qed.

(** ** Callbacks as calls on the other contracts' state *)

(** [called port call l x rs x']: each element of [l] in turn is handed by [call] to the contract
    its port is bound to, which takes the state from [x] to [x'] and answers [rs]. *)
Inductive called {X A R} (port : A -> option Address) (call : A -> Address -> X -> res (X * R)) :
    list A -> X -> list R -> X -> Prop :=
| called_nil x : called port call [] x [] x
| called_cons a l app x x1 r rs x2 :
    port a = Some app -> call a app x = Ok (x1, r) -> called port call l x1 rs x2 ->
    called port call (a :: l) x (r :: rs) x2.

Section Called.
Context {X A R : Type}.
Implicit Types w : World X.

Lemma map_each_called (pt : A -> bytes) (call : A -> Address -> X -> res (X * R)) l w w' rs :
  map_each (fun a => app ← (o ← port_app (pt a); expect_some PortNotRegistered o);
                     invoke (call a app)) l w = Ok (w', rs) <->
  exists x, called (fun a => port_of (rdata w) (pt a)) call l (w_ext w) rs x /\
            w' = MkWorld (w_router w) x.
Proof.
  revert w rs. induction l as [|a l IH]; intros w rs; simpl.
  { rewrite M_ret_Ok. split.
    - intros [-> ->]. exists (w_ext w). split; [constructor|by destruct w].
    - intros (x & Hc & ->). inversion Hc; subst. by destruct w. }
  rewrite M_bind_Ok. split.
  - intros (w1 & r & H1 & (w2 & rs' & H2 & [-> ->]%M_ret_Ok)%M_bind_Ok).
    apply M_bind_Ok in H1 as (w0 & app & [-> Hp]%port_app_expect & (x1 & Hx & ->)%invoke_Ok).
    apply IH in H2 as (x & Hc & ->). exists x. split; [|done]. by econstructor.
  - intros (x & Hc & ->). inversion Hc as [|? ? app ? x1 r ? ? Hp Hx Hl]; subst.
    exists (MkWorld (w_router w) x1), r. split.
    + rewrite M_bind_Ok. exists w, app. rewrite port_app_expect, invoke_Ok. eauto.
    + rewrite M_bind_Ok. eexists _, _. rewrite M_ret_Ok. split; [|done].
      apply IH. by exists x.
Qed.

End Called.

Section CalledUnit.
Context {X A : Type}.
Implicit Types w : World X.

Lemma for_each_called (pt : A -> bytes) (call : A -> Address -> X -> res (X * unit)) l w w' u :
  for_each (fun a => app ← (o ← port_app (pt a); expect_some PortNotRegistered o);
                     invoke (call a app)) l w = Ok (w', u) <->
  exists rs x, called (fun a => port_of (rdata w) (pt a)) call l (w_ext w) rs x /\
               w' = MkWorld (w_router w) x.
Proof.
  destruct u. revert w. induction l as [|a l IH]; intros w; simpl.
  { rewrite M_ret_Ok. split.
    - intros [-> _]. exists [], (w_ext w). split; [constructor|by destruct w].
    - intros (rs & x & Hc & ->). inversion Hc; subst. by destruct w. }
  rewrite M_bind_Ok. split.
  - intros (w1 & r & H1 & H2).
    apply M_bind_Ok in H1 as (w0 & app & [-> Hp]%port_app_expect & (x1 & Hx & ->)%invoke_Ok).
    apply IH in H2 as (rs & x & Hc & ->). exists (r :: rs), x. split; [|done]. by econstructor.
  - intros (rs & x & Hc & ->). inversion Hc as [|? ? app ? x1 r ? ? Hp Hx Hl]; subst.
    exists (MkWorld (w_router w) x1), r. split.
    + rewrite M_bind_Ok. exists w, app. rewrite port_app_expect, invoke_Ok. eauto.
    + apply IH. by eexists _, x.
Qed.

(** The authorisation loop of [send_packet]: it reads only. *)
Lemma for_each_authorized env (pt : A -> bytes) l w w' u :
  for_each (fun a => app ← (o ← port_app (pt a); expect_some PortNotRegistered o);
                     require_auth env app) l w = Ok (w', u) <->
  w' = w /\ Forall (fun a => exists app, port_of (rdata w) (pt a) = Some app /\
                                         authorized env app = true) l.
Proof.
  destruct u. revert w. induction l as [|a l IH]; intros w; simpl.
  { rewrite M_ret_Ok. split; [intros [-> _]; by split; [|constructor]|by intros [-> _]]. }
  rewrite M_bind_Ok. split.
  - intros (w1 & r & H1 & [-> Hl]%IH).
    apply M_bind_Ok in H1 as (w0 & app & [-> Hp]%port_app_expect & (Ha & -> & _)%require_auth_Ok).
    split; [done|]. constructor; eauto.
  - intros [-> Hall]. inversion Hall as [|? ? (app & Hp & Ha) Hl]; subst.
    exists w, tt. split; [|by apply IH].
    rewrite M_bind_Ok. exists w, app. rewrite port_app_expect, require_auth_Ok. eauto.
Qed.

End CalledUnit.

(** ** Running single steps *)

Section Steps.
Context {X : Type}.
Implicit Types w : World X.

Lemma run_get {A B} (f : RVal -> option A) k (g : option A -> run (World X) B) w o :
  typed_get f (rdata w !! k) = Ok o -> (persistent_get f k ≫= g) w = g o w.
Proof.
  intros Ho. apply M_bind_run. unfold persistent_get, lift, rdata in *. simpl.
  by rewrite Ho.
Qed.

Lemma run_lift {A B} (r : res A) (g : A -> run (World X) B) w a :
  r = Ok a -> (lift r ≫= g) w = g a w.
Proof. intros ->. done. Qed.

Lemma run_expect {A B} e (a : A) (g : A -> run (World X) B) w :
  (expect_some e (Some a) ≫= g) w = g a w.
Proof. done. Qed.

Lemma run_guard {B} b e (g : unit -> run (World X) B) w :
  b = false -> (panic_if b e ≫= g) w = g tt w.
Proof. intros ->. done. Qed.

Lemma run_step {A B} (m : run (World X) A) (g : A -> run (World X) B) w w1 a b :
  m w = Ok (w1, a) -> (exists w', g a w1 = Ok (w', b)) -> exists w', (m ≫= g) w = Ok (w', b).
Proof. intros Hm. by rewrite (M_bind_run _ _ _ _ _ Hm). Qed.

Lemma run_step_total {A B} (m : run (World X) A) (g : A -> run (World X) B) w a b :
  (exists w1, m w = Ok (w1, a)) ->
  (forall w1, m w = Ok (w1, a) -> exists w', g a w1 = Ok (w', b)) ->
  exists w', (m ≫= g) w = Ok (w', b).
Proof. intros [w1 Hm] Hg. eapply run_step; [exact Hm|by apply Hg]. Qed.

Lemma publish_Ok e w w' u :
  publish e w = Ok (w', u) -> becomes w w' (rdata w) [e] (w_ext w).
Proof. unfold publish, modify. by intros [= <-]. Qed.

Lemma becomes_data {B} (w w' : World X) m evs x (f : gmap RKey RVal -> B) :
  becomes w w' m evs x -> f (rdata w') = f m.
Proof. by intros (-> & _). Qed.

End Steps.

Section ProofChecks.
Context {X : Type} `{LightClients X}.
Implicit Types w : World X.

Lemma verify_membership_iff env cid h proof path v w w' u :
  verify_membership env cid h proof path v w = Ok (w', u) <->
  exists lc x, rdata w !! KData (ClientLcAddr cid) = Some (RvAddress lc) /\
    lc_verify_membership (call_env env lc) lc cid h proof path v (w_ext w) = Ok (x, true) /\
    w' = MkWorld (w_router w) x.
Proof.
  split.
  - unfold verify_membership, client_lc_address. intros Hr. rinv Hr. subst. eauto.
  - intros (lc & x & Hlc & Hv & ->). unfold verify_membership, client_lc_address.
    rewrite (run_get _ _ _ _ (Some lc)) by (by rewrite Hlc). rewrite run_expect.
    unfold invoke, mbind, M_bind. rewrite Hv. by destruct u.
Qed.

Lemma verify_non_membership_iff env cid h proof path w w' u :
  verify_non_membership env cid h proof path w = Ok (w', u) <->
  exists lc x, rdata w !! KData (ClientLcAddr cid) = Some (RvAddress lc) /\
    lc_verify_non_membership (call_env env lc) lc cid h proof path (w_ext w) = Ok (x, true) /\
    w' = MkWorld (w_router w) x.
Proof.
  split.
  - unfold verify_non_membership, client_lc_address. intros Hr. rinv Hr. subst. eauto.
  - intros (lc & x & Hlc & Hv & ->). unfold verify_non_membership, client_lc_address.
    rewrite (run_get _ _ _ _ (Some lc)) by (by rewrite Hlc). rewrite run_expect.
    unfold invoke, mbind, M_bind. rewrite Hv. by destruct u.
Qed.

End ProofChecks.

(** [handler_inv H] inverts a successful handler run completely: into the lookups it read, the calls
    it made and the states it went through. *)
Ltac handler_norm :=
  repeat match goal with
  | Hf : for_each _ _ _ = Ok _ |- _ => apply for_each_authorized in Hf as [-> Hf]
  | Hf : commit_v2_packet _ = Ok _ |- _ =>
      let Hfit := fresh "Hfit" in apply commit_v2_packet_iff in Hf as [Hfit Hf]; subst
  | Hf : set_packet_commitment _ _ _ _ _ = Ok _ |- _ =>
      let Hid := fresh "Hid" in apply set_packet_commitment_Ok in Hf as [Hid Hf]
  | Hf : set_packet_receipt _ _ _ _ = Ok _ |- _ =>
      let Hid := fresh "Hid" in apply set_packet_receipt_Ok in Hf as [Hid Hf]
  | Hf : set_ack_commitment _ _ _ _ _ = Ok _ |- _ =>
      let Hid := fresh "Hid" in apply set_ack_commitment_Ok in Hf as [Hid Hf]
  | Hf : delete_packet_commitment _ _ _ = Ok _ |- _ =>
      let Hid := fresh "Hid" in apply delete_packet_commitment_Ok in Hf as [Hid Hf]
  | Hf : has_packet_receipt _ _ _ = Ok _ |- _ =>
      let Hid := fresh "Hid" in apply has_packet_receipt_Ok in Hf as (Hid & -> & Hf); subst
  | Hf : packet_commitment _ _ _ = Ok _ |- _ =>
      let Hid := fresh "Hid" in apply packet_commitment_Ok in Hf as (Hid & -> & Hf)
  | Hf : acknowledgement _ _ _ = Ok _ |- _ =>
      let Hid := fresh "Hid" in apply acknowledgement_Ok in Hf as (Hid & -> & Hf)
  | Hf : counterparty_v2_path _ _ _ _ = Ok _ |- _ =>
      let Hid := fresh "Hid" in apply counterparty_v2_path_Ok in Hf as [Hid Hf]; subst
  | Hf : verify_membership _ _ _ _ _ _ _ = Ok _ |- _ =>
      let Hlc := fresh "Hlc" in apply verify_membership_iff in Hf as (? & ? & Hlc & Hf & ->)
  | Hf : verify_non_membership _ _ _ _ _ _ = Ok _ |- _ =>
      let Hlc := fresh "Hlc" in apply verify_non_membership_iff in Hf as (? & ? & Hlc & Hf & ->)
  | Hf : publish _ _ = Ok _ |- _ => apply publish_Ok in Hf
  end.
Ltac handler_inv H :=
  unfold counterparty, client_lc_address, counterparty_packet_commitment_path,
    counterparty_packet_receipt_path, counterparty_ack_commitment_path in H;
  rinv H; handler_norm; rnorm.

(** Chains the states of a run into one [becomes]. *)
Ltac world_fold :=
  repeat match goal with
  | H : context [rdata (MkWorld (w_router ?w) ?x)] |- _ =>
      change (rdata (MkWorld (w_router w) x)) with (rdata w) in H
  | H : context [rinst (MkWorld (w_router ?w) ?x)] |- _ =>
      change (rinst (MkWorld (w_router w) x)) with (rinst w) in H
  | H : context [revents (MkWorld (w_router ?w) ?x)] |- _ =>
      change (revents (MkWorld (w_router w) x)) with (revents w) in H
  end.
Ltac solve_becomes :=
  unfold becomes, updates in *; destruct_and?; simpl in *; world_fold; split_and!;
  repeat match goal with
  | Hw : rdata ?w = _ |- context [rdata ?w] => rewrite Hw
  | Hw : rinst ?w = _ |- context [rinst ?w] => rewrite Hw
  | Hw : revents ?w = _ |- context [revents ?w] => rewrite Hw
  | Hw : w_ext ?w = _ |- context [w_ext ?w] => rewrite Hw
  end; rewrite <-?app_assoc; done.

(** ** The contracts of the handlers *)

(** The last sequence a client has sent with, 0 before its first packet. *)
Definition seq_of (m : gmap RKey RVal) (cid : bytes) (n : Z) : Prop :=
  m !! KData (NextSeqSend cid) = Some (RvU64 n) \/ (m !! KData (NextSeqSend cid) = None /\ n = 0).

Lemma seq_get m cid n :
  (exists o, typed_get as_u64 (m !! KData (NextSeqSend cid)) = Ok o /\ default 0 o = n) <->
  seq_of m cid n.
Proof.
  unfold seq_of. split.
  - intros ([k|] & Ho & <-); rnorm; simpl; [by left|by right].
  - intros [->|[-> ->]]; [by exists (Some n)|by exists None].
Qed.

Section Contracts.
Context {X : Type} `{Sha256} `{LightClients X} `{IbcApps X}.
Implicit Types w : World X.

(** The conditions under which [send_packet] sends [packet]. *)
Definition send_accepted (env : Env) (w : World X) (packet : Packet) : Prop :=
  let cid := source_client packet in
  payloads packet <> [] /\
  (exists prefix, rdata w !! KData (CounterpartyKey cid) =
                  Some (RvCounterparty (MkCounterparty (dest_client packet) prefix))) /\
  ledger_timestamp env < timeout_timestamp packet /\
  Forall (fun p => exists app, port_of (rdata w) (source_port p) = Some app /\
                               authorized env app = true) (payloads packet) /\
  seq_of (rdata w) cid (sequence packet - 1) /\ in_u64 (sequence packet) /\
  packet_fits packet /\ id_fits cid.

(** What the router's entries become. *)
Definition after_send (m : gmap RKey RVal) (packet : Packet) : gmap RKey RVal :=
  <[commitment_key (source_client packet) (sequence packet) := RvBytes (core_packet_commitment packet)]>
    (<[KData (NextSeqSend (source_client packet)) := RvU64 (sequence packet)]> m).

Lemma send_packet_Ok env cid t pls w w' n :
  send_packet env cid t pls w = Ok (w', n) ->
  exists packet, packet = MkPacket n cid (dest_client packet) t pls /\ send_accepted env w packet /\
    becomes w w' (after_send (rdata w) packet) [SendPacketEvent cid n packet] (w_ext w).
Proof.
  unfold send_packet. intros Hr. handler_inv Hr.
  exists (MkPacket (default 0 v1 + 1) cid (cp_client_id v0) t pls). split_and!; [done| |].
  - unfold send_accepted. simpl. split_and!; try done.
    + exists (commitment_prefix v0). by destruct v0.
    + apply seq_get. exists v1. split; [done|lia].
  - unfold after_send. solve_becomes.
Qed.

Lemma send_packet_accepts env w packet :
  send_accepted env w packet ->
  exists w', send_packet env (source_client packet) (timeout_timestamp packet) (payloads packet) w =
             Ok (w', sequence packet).
Proof.
  destruct packet as [n cid dst t pls]. unfold send_accepted. simpl.
  intros (Hne & (prefix & Hcp) & Ht & Hauth & Hseq & Hn & Hfit & Hid).
  apply seq_get in Hseq as (o & Ho & Hon). unfold send_packet, counterparty.
  rewrite run_guard by (by apply bool_decide_eq_false).
  rewrite (run_get _ _ _ _ (Some (MkCounterparty dst prefix))) by (by rewrite Hcp).
  rewrite run_expect, run_guard by (apply Z.leb_gt; lia).
  eapply (run_step _ _ _ _ tt); [by apply (for_each_authorized env source_port)|].
  rewrite (run_get _ _ _ _ o) by done.
  rewrite (run_lift _ _ _ n) by (apply u64_add_Ok; rewrite Hon; split; [lia|]; by replace (n - 1 + 1) with n by lia).
  eapply run_step; [done|].
  rewrite (run_lift _ _ _ (core_packet_commitment (MkPacket n cid dst t pls))) by
    (by apply commit_v2_packet_iff).
  eapply run_step_total; [by apply set_packet_commitment_total|intros w2 _].
  eapply run_step; [done|]. by eexists.
Qed.

(** The conditions under which [recv_packet] takes [packet], with the applications' answers [rs] and
    the final state [x] of the other contracts. *)
Definition recv_accepted (env : Env) (packet : Packet) (proof : bytes) (h : Z) (w : World X)
    (rs : list bytes) (x : X) : Prop :=
  let cid := dest_client packet in
  exists prefix lc x1,
  rdata w !! KData (CounterpartyKey cid) =
    Some (RvCounterparty (MkCounterparty (source_client packet) prefix)) /\
  ledger_timestamp env < timeout_timestamp packet /\
  rdata w !! receipt_key cid (sequence packet) = None /\
  packet_fits packet /\ id_fits cid /\ id_fits (source_client packet) /\
  rdata w !! KData (ClientLcAddr cid) = Some (RvAddress lc) /\
  lc_verify_membership (call_env env lc) lc cid h proof
    (concat prefix ++ Core.packet_commitment_path (source_client packet) (sequence packet))
    (core_packet_commitment packet) (w_ext w) = Ok (x1, true) /\
  called (fun p => port_of (rdata w) (dest_port p))
    (fun p app => app_on_recv_packet (call_env env app) app (recv_callback packet p))
    (payloads packet) x1 rs x.

(** A packet without payloads is acknowledged with the universal error. *)
Definition recv_acks (rs : list bytes) : list bytes :=
  if bool_decide (rs = []) then [Core.error_ack_hash] else rs.

Definition after_recv (m : gmap RKey RVal) (packet : Packet) (acks : list bytes) : gmap RKey RVal :=
  <[ack_key (dest_client packet) (sequence packet) := RvBytes (Core.commit_v2_acknowledgement acks)]>
    (<[receipt_key (dest_client packet) (sequence packet) := RvBytes [RECEIPT_SENTINEL]]> m).

Lemma port_of_insert_path m p v port : port_of (<[KPath p := v]> m) port = port_of m port.
Proof. unfold port_of. by rewrite lookup_insert_ne. Qed.

Lemma called_ext {A R} (pt pt' : A -> option Address) (call : A -> Address -> X -> res (X * R)) l x rs x' :
  (forall a, pt a = pt' a) -> called pt call l x rs x' -> called pt' call l x rs x'.
Proof. intros Hpt. induction 1; econstructor; eauto. by rewrite <-Hpt. Qed.

Lemma recv_packet_Ok env packet proof h w w' u :
  recv_packet env packet proof h w = Ok (w', u) ->
  exists rs x, recv_accepted env packet proof h w rs x /\
    let acks := recv_acks rs in
    becomes w w' (after_recv (rdata w) packet acks)
      [RecvPacketEvent (dest_client packet) (sequence packet) packet;
       WriteAckEvent (dest_client packet) (sequence packet) acks] x.
Proof.
  unfold recv_packet, dispatch_recv_callbacks. intros Hr. handler_inv Hr.
  match goal with Hf : map_each _ _ _ = Ok _ |- _ =>
    apply (map_each_called dest_port) in Hf as (x2 & Hcalled & ->) end.
  exists v5, x2. split.
  - exists (commitment_prefix v0), x, x0. split_and!; try done.
    + rewrite <-Hrun0. by destruct v0.
    + destruct Hrun6 as (Hd & _ & _ & He). rewrite He in Hcalled. simpl in Hcalled.
      eapply called_ext; [|exact Hcalled]. intros p. simpl. rewrite Hd. apply port_of_insert_path.
  - unfold after_recv, recv_acks. rewrite commit_v2_acknowledgement_eq in Hrun7. solve_becomes.
Qed.

Lemma recv_packet_accepts env packet proof h w rs x :
  recv_accepted env packet proof h w rs x ->
  exists w', recv_packet env packet proof h w = Ok (w', tt).
Proof.
  intros (prefix & lc & x1 & Hcp & Ht & Hrc & Hfit & Hid & Hid' & Hlc & Hv & Hcalled).
  unfold recv_packet, counterparty.
  rewrite (run_get _ _ _ _ (Some (MkCounterparty (source_client packet) prefix))) by (by rewrite Hcp).
  rewrite run_expect, !run_guard by (simpl; rewrite ?bool_decide_eq_true_2 by done; first [done|apply Z.leb_gt; lia]).
  eapply run_step; [by apply has_packet_receipt_run|].
  rewrite Hrc, run_guard by done.
  rewrite (run_lift _ _ _ (core_packet_commitment packet)) by (by apply commit_v2_packet_iff).
  erewrite run_lift by (apply counterparty_v2_path_Ok; done).
  eapply (run_step _ _ _ _ tt); [by apply verify_membership_iff; exists lc, x1|].
  eapply run_step_total; [by apply set_packet_receipt_total|].
  intros w1 (_ & Hd & _ & _ & He)%set_packet_receipt_Ok. simpl in *.
  eapply run_step.
  { unfold dispatch_recv_callbacks. rewrite M_bind_Ok. eexists _, rs. split; [|by apply M_ret_Ok].
    apply (map_each_called dest_port). exists x. split; [|done]. rewrite Hd, He.
    eapply called_ext; [|exact Hcalled]. intros p. symmetry. apply port_of_insert_path. }
  eapply run_step_total; [by apply set_ack_commitment_total|]. intros w2 _.
  eapply run_step; [done|]. by eexists.
Qed.

(** Both resolutions of a sent packet start the same way: the commitment of exactly this packet is
    still stored and the packet was sent to the client's counterparty. *)
Definition in_flight (packet : Packet) (prefix : list bytes) (w : World X) : Prop :=
  let cid := source_client packet in
  rdata w !! commitment_key cid (sequence packet) = Some (RvBytes (core_packet_commitment packet)) /\
  rdata w !! KData (CounterpartyKey cid) =
    Some (RvCounterparty (MkCounterparty (dest_client packet) prefix)) /\
  packet_fits packet /\ id_fits cid /\ id_fits (dest_client packet).

Definition ack_accepted (env : Env) (packet : Packet) (acks : list bytes) (proof : bytes) (h : Z)
    (w : World X) (x : X) : Prop :=
  let cid := source_client packet in
  exists prefix lc x1 rs,
  in_flight packet prefix w /\
  rdata w !! KData (ClientLcAddr cid) = Some (RvAddress lc) /\
  lc_verify_membership (call_env env lc) lc cid h proof
    (concat prefix ++ Core.ack_commitment_path (dest_client packet) (sequence packet))
    (Core.commit_v2_acknowledgement acks) (w_ext w) = Ok (x1, true) /\
  called (fun ip => port_of (rdata w) (source_port ip.2))
    (fun ip app => app_on_acknowledgement_packet (call_env env app) app
       (ack_callback packet ip.2 (default Core.error_ack_hash (acks !! ip.1))))
    (imap pair (payloads packet)) x1 rs x.

Definition timeout_accepted (env : Env) (packet : Packet) (proof : bytes) (h : Z) (w : World X)
    (x : X) : Prop :=
  let cid := source_client packet in
  exists prefix lc x0 ts x1 rs,
  in_flight packet prefix w /\
  rdata w !! KData (ClientLcAddr cid) = Some (RvAddress lc) /\
  lc_get_timestamp_at_height (call_env env lc) lc cid h (w_ext w) = Ok (x0, ts) /\
  timeout_timestamp packet < ts /\
  lc_verify_non_membership (call_env env lc) lc cid h proof
    (concat prefix ++ Core.packet_receipt_path (dest_client packet) (sequence packet)) x0 =
    Ok (x1, true) /\
  called (fun p => port_of (rdata w) (source_port p))
    (fun p app => app_on_timeout_packet (call_env env app) app (timeout_callback packet p))
    (payloads packet) x1 rs x.

Definition after_resolve (m : gmap RKey RVal) (packet : Packet) : gmap RKey RVal :=
  delete (commitment_key (source_client packet) (sequence packet)) m.

Lemma dispatch_ack_iff env packet acks w w' u :
  dispatch_ack_callbacks env packet acks w = Ok (w', u) <->
  exists rs x, called (fun ip => port_of (rdata w) (source_port ip.2))
    (fun ip app => app_on_acknowledgement_packet (call_env env app) app
       (ack_callback packet ip.2 (default error_ack_hash (acks !! ip.1))))
    (imap pair (payloads packet)) (w_ext w) rs x /\ w' = MkWorld (w_router w) x.
Proof.
  rewrite <-(for_each_called (fun ip : nat * Payload => source_port ip.2)
    (fun ip app => app_on_acknowledgement_packet (call_env env app) app
       (ack_callback packet ip.2 (default error_ack_hash (acks !! ip.1)))) _ _ _ u).
  unfold dispatch_ack_callbacks.
  erewrite (for_each_ext _ _ _ _); [done|]. by intros [i p] s.
Qed.

Lemma acknowledge_packet_Ok env packet acks proof h w w' u :
  acknowledge_packet env packet acks proof h w = Ok (w', u) ->
  exists x, ack_accepted env packet acks proof h w x /\
    becomes w w' (after_resolve (rdata w) packet)
      [AckPacketEvent (source_client packet) (sequence packet) packet acks] x.
Proof.
  unfold acknowledge_packet. intros Hr. handler_inv Hr.
  match goal with Hf : dispatch_ack_callbacks _ _ _ _ = Ok _ |- _ =>
    apply dispatch_ack_iff in Hf as (rs & x2 & Hcalled & ->) end.
  exists x2. split.
  - exists (commitment_prefix v2), x, x0, rs. split_and!; [|done|by rewrite <-commit_v2_acknowledgement_eq|done].
    split_and!; try done. rewrite <-Hrun3. by destruct v2.
  - unfold after_resolve. solve_becomes.
Qed.

(** The guards both resolutions share. *)
Lemma run_in_flight {B} packet prefix (g : Counterparty -> run (World X) B) w :
  in_flight packet prefix w ->
  (o ← packet_commitment (source_client packet) (sequence packet);
   stored ← expect_some NoCommitmentForSequence o;
   expected_hash ← lift (commit_v2_packet packet);
   _ ← panic_if (negb (bool_decide (stored = expected_hash))) CommitmentMismatch;
   o ← counterparty (source_client packet);
   cp ← expect_some CounterpartyNotRegistered o;
   _ ← panic_if (negb (bool_decide (cp_client_id cp = dest_client packet)))
         PacketCounterpartyMismatch;
   g cp) w = g (MkCounterparty (dest_client packet) prefix) w.
Proof.
  intros (Hc & Hcp & Hfit & Hid & Hid'). unfold counterparty.
  rewrite (M_bind_run _ _ w w (Some (core_packet_commitment packet))).
  2: { apply packet_commitment_run; [done|]. apply get_bytes32_Some. split; [done|].
       apply sha256_length. }
  rewrite run_expect, (run_lift _ _ _ (core_packet_commitment packet))
    by (by apply commit_v2_packet_iff).
  rewrite run_guard by (by rewrite bool_decide_eq_true_2).
  rewrite (run_get _ _ _ _ (Some (MkCounterparty (dest_client packet) prefix))) by (by rewrite Hcp).
  rewrite run_expect, run_guard by (by rewrite bool_decide_eq_true_2). done.
Qed.

Lemma acknowledge_packet_accepts env packet acks proof h w x :
  ack_accepted env packet acks proof h w x ->
  exists w', acknowledge_packet env packet acks proof h w = Ok (w', tt).
Proof.
  intros (prefix & lc & x1 & rs & Hfl & Hlc & Hv & Hcalled). unfold acknowledge_packet.
  erewrite run_in_flight by exact Hfl. destruct Hfl as (_ & _ & _ & Hid & Hid').
  erewrite run_lift by (by apply counterparty_v2_path_Ok).
  rewrite commit_v2_acknowledgement_eq.
  eapply (run_step _ _ _ _ tt); [by apply verify_membership_iff; exists lc, x1|].
  eapply (run_step _ _ _ _ tt); [by apply dispatch_ack_iff; exists rs, x|].
  eapply run_step_total; [by apply delete_packet_commitment_total|]. intros w2 _. by eexists.
Qed.

Lemma timeout_packet_Ok env packet proof h w w' u :
  timeout_packet env packet proof h w = Ok (w', u) ->
  exists x, timeout_accepted env packet proof h w x /\
    becomes w w' (after_resolve (rdata w) packet)
      [TimeoutPacketEvent (source_client packet) (sequence packet) packet] x.
Proof.
  unfold timeout_packet. intros Hr. handler_inv Hr.
  match goal with Hf : dispatch_timeout_callbacks _ _ _ = Ok _ |- _ =>
    apply (for_each_called source_port
      (fun p app => app_on_timeout_packet (call_env env app) app (timeout_callback packet p)))
      in Hf as (rs & x2 & Hcalled & ->) end.
  simpl in Hrun8, Hcalled. world_fold. simplify_eq. exists x2. split.
  - exists (commitment_prefix v2), v3, x, v1, x1, rs. split_and!; try done.
    split_and!; try done. rewrite <-Hrun3. by destruct v2.
  - unfold after_resolve. solve_becomes.
Qed.

Lemma timeout_packet_accepts env packet proof h w x :
  timeout_accepted env packet proof h w x ->
  exists w', timeout_packet env packet proof h w = Ok (w', tt).
Proof.
  intros (prefix & lc & x0 & ts & x1 & rs & Hfl & Hlc & Hts & Hlt & Hv & Hcalled).
  unfold timeout_packet. erewrite run_in_flight by exact Hfl. destruct Hfl as (_ & _ & _ & Hid & Hid').
  unfold client_lc_address. rewrite (run_get _ _ _ _ (Some lc)) by (by rewrite Hlc).
  rewrite run_expect. eapply run_step; [apply invoke_Ok; by exists x0|].
  rewrite run_guard by (apply Z.leb_gt; lia).
  erewrite run_lift by (by apply counterparty_v2_path_Ok).
  eapply (run_step _ _ _ _ tt); [by apply verify_non_membership_iff; exists lc, x1|].
  eapply (run_step _ _ _ _ tt).
  { apply (for_each_called source_port
      (fun p app => app_on_timeout_packet (call_env env app) app (timeout_callback packet p))).
    by exists rs, x. }
  eapply run_step_total; [by apply delete_packet_commitment_total|]. intros w2 _. by eexists.
Qed.

Lemma write_acknowledgement_Ok env cid n acks w w' u :
  write_acknowledgement env cid n acks w = Ok (w', u) ->
  id_fits cid /\ is_Some (rdata w !! receipt_key cid n) /\ rdata w !! ack_key cid n = None /\
  becomes w w' (<[ack_key cid n := RvBytes (Core.commit_v2_acknowledgement acks)]> (rdata w))
    [WriteAckEvent cid n acks] (w_ext w).
Proof.
  unfold write_acknowledgement. intros Hr. handler_inv Hr.
  rewrite commit_v2_acknowledgement_eq in Hrun3.
  split_and!; try done. solve_becomes.
Qed.

Lemma write_acknowledgement_accepts env cid n acks w :
  id_fits cid -> is_Some (rdata w !! receipt_key cid n) -> rdata w !! ack_key cid n = None ->
  exists w', write_acknowledgement env cid n acks w = Ok (w', tt).
Proof.
  intros Hid Hrc Hack. unfold write_acknowledgement.
  eapply run_step; [by apply has_packet_receipt_run|].
  rewrite run_guard by (by rewrite bool_decide_eq_true_2).
  eapply run_step; [apply (acknowledgement_run _ _ _ None); [done|by rewrite Hack]|].
  rewrite run_guard by done.
  eapply run_step_total; [by apply set_ack_commitment_total|]. intros w2 _. by eexists.
Qed.

(** ** Theorems *)

(** C7: [send_packet] succeeds exactly under its guards (some payload, a registered counterparty, a
    timeout in the future, every source port registered and its application authorising, no
    sequence overflow) and then returns the next sequence, stores the commitment of the packet
    under it, counts the sequence and publishes the packet; nothing else changes. *)
Theorem send_packet_spec (env : Env) (cid : bytes) (t : Z) (pls : list Payload) (w : World X) (n : Z) :
  (forall w', send_packet env cid t pls w = Ok (w', n) ->
     exists dst, let packet := MkPacket n cid dst t pls in
       send_accepted env w packet /\
       becomes w w' (after_send (rdata w) packet) [SendPacketEvent cid n packet] (w_ext w)) /\
  (forall dst, send_accepted env w (MkPacket n cid dst t pls) ->
     exists w', send_packet env cid t pls w = Ok (w', n)).
Proof.
  split.
  - intros w' Hw'. pose proof (send_packet_Ok _ _ _ _ _ _ _ Hw') as (p & Hp & Ha & Hb).
    exists (dest_client p). by rewrite <-Hp.
  - intros dst Ha. exact (send_packet_accepts _ _ _ Ha).
Qed.

(** C8: [recv_packet] succeeds exactly when the packet's destination client has the packet's source
    as its counterparty, the packet has not timed out, no receipt is stored, the client's light
    client verifies the packet's commitment at the counterparty's path, and every payload's
    application answers; it then stores the receipt and the commitment of the answers (the
    universal error when there is no payload) and publishes both events; nothing else changes. *)
Theorem recv_packet_spec (env : Env) (packet : Packet) (proof : bytes) (h : Z) (w : World X) :
  (forall w', recv_packet env packet proof h w = Ok (w', tt) ->
     exists rs x, recv_accepted env packet proof h w rs x /\
       becomes w w' (after_recv (rdata w) packet (recv_acks rs))
         [RecvPacketEvent (dest_client packet) (sequence packet) packet;
          WriteAckEvent (dest_client packet) (sequence packet) (recv_acks rs)] x) /\
  (forall rs x, recv_accepted env packet proof h w rs x ->
     exists w', recv_packet env packet proof h w = Ok (w', tt)).
Proof.
  split; [intros w'; apply recv_packet_Ok|apply recv_packet_accepts].
Qed.

(** C9: [acknowledge_packet] succeeds exactly when the stored commitment is the one of this very
    packet, the packet went to the client's counterparty, the light client verifies the commitment
    of the acknowledgements at the counterparty's path and every source application accepts its
    acknowledgement (the universal error hash for a payload without one); it then removes the
    commitment and publishes the event; nothing else changes. *)
Theorem acknowledge_packet_spec (env : Env) (packet : Packet) (acks : list bytes) (proof : bytes)
    (h : Z) (w : World X) :
  (forall w', acknowledge_packet env packet acks proof h w = Ok (w', tt) ->
     exists x, ack_accepted env packet acks proof h w x /\
       becomes w w' (after_resolve (rdata w) packet)
         [AckPacketEvent (source_client packet) (sequence packet) packet acks] x) /\
  (forall x, ack_accepted env packet acks proof h w x ->
     exists w', acknowledge_packet env packet acks proof h w = Ok (w', tt)).
Proof.
  split; [intros w'; apply acknowledge_packet_Ok|apply acknowledge_packet_accepts].
Qed.

(** C10: [timeout_packet] succeeds exactly when the stored commitment is the one of this very
    packet, the packet went to the client's counterparty, the light client dates the proof height
    strictly after the packet's timeout and verifies that the counterparty has no receipt, and
    every source application accepts the timeout; it then removes the commitment and publishes the
    event; nothing else changes. *)
Theorem timeout_packet_spec (env : Env) (packet : Packet) (proof : bytes) (h : Z) (w : World X) :
  (forall w', timeout_packet env packet proof h w = Ok (w', tt) ->
     exists x, timeout_accepted env packet proof h w x /\
       becomes w w' (after_resolve (rdata w) packet)
         [TimeoutPacketEvent (source_client packet) (sequence packet) packet] x) /\
  (forall x, timeout_accepted env packet proof h w x ->
     exists w', timeout_packet env packet proof h w = Ok (w', tt)).
Proof.
  split; [intros w'; apply timeout_packet_Ok|apply timeout_packet_accepts].
Qed.

(** The guards before the light client is asked, in the order of [recv_packet]. *)
Lemma recv_guards_run {B} prefix packet (g : Counterparty -> run (World X) B) env w :
  rdata w !! KData (CounterpartyKey (dest_client packet)) =
    Some (RvCounterparty (MkCounterparty (source_client packet) prefix)) ->
  ledger_timestamp env < timeout_timestamp packet ->
  (o ← counterparty (dest_client packet);
   cp ← expect_some CounterpartyNotRegistered o;
   _ ← panic_if (negb (bool_decide (cp_client_id cp = source_client packet)))
         PacketCounterpartyMismatch;
   _ ← panic_if (timeout_timestamp packet <=? ledger_timestamp env) TimeoutAlreadyElapsed;
   g cp) w = g (MkCounterparty (source_client packet) prefix) w.
Proof.
  intros Hcp Ht. unfold counterparty.
  rewrite (run_get _ _ _ _ (Some (MkCounterparty (source_client packet) prefix))) by (by rewrite Hcp).
  rewrite run_expect, run_guard by (by rewrite bool_decide_eq_true_2).
  by rewrite run_guard by (apply Z.leb_gt; lia).
Qed.

Lemma verify_membership_fails env cid h proof path v w lc x :
  rdata w !! KData (ClientLcAddr cid) = Some (RvAddress lc) ->
  lc_verify_membership (call_env env lc) lc cid h proof path v (w_ext w) = Ok (x, false) ->
  verify_membership env cid h proof path v w = Err (error_of MembershipVerificationFailed).
Proof.
  intros Hlc Hv. unfold verify_membership, client_lc_address.
  rewrite (run_get _ _ _ _ (Some lc)) by (by rewrite Hlc). rewrite run_expect.
  unfold invoke, mbind, M_bind. by rewrite Hv.
Qed.

Lemma verify_membership_unknown env cid h proof path v w :
  rdata w !! KData (ClientLcAddr cid) = None ->
  verify_membership env cid h proof path v w = Err (error_of ClientIdNotFound).
Proof.
  intros Hlc. unfold verify_membership, client_lc_address.
  by rewrite (run_get _ _ _ _ None) by (by rewrite Hlc).
Qed.

(** The errors of [recv_packet], each under the first guard that fails: unknown counterparty,
    wrong source, timed out, replayed packet, unknown light client, unverified proof. *)
Theorem recv_packet_rejects (env : Env) (packet : Packet) (proof : bytes) (h : Z) (w : World X) :
  let cid := dest_client packet in
  let run := recv_packet env packet proof h w in
  (rdata w !! KData (CounterpartyKey cid) = None -> run = Err (error_of CounterpartyNotRegistered)) /\
  (forall cp, rdata w !! KData (CounterpartyKey cid) = Some (RvCounterparty cp) ->
     (cp_client_id cp <> source_client packet -> run = Err (error_of PacketCounterpartyMismatch)) /\
     (cp_client_id cp = source_client packet ->
        (timeout_timestamp packet <= ledger_timestamp env -> run = Err (error_of TimeoutAlreadyElapsed)) /\
        (ledger_timestamp env < timeout_timestamp packet -> id_fits cid ->
           (is_Some (rdata w !! receipt_key cid (sequence packet)) ->
              run = Err (error_of ReceiptAlreadyExists)) /\
           (rdata w !! receipt_key cid (sequence packet) = None ->
              packet_fits packet -> id_fits (source_client packet) ->
              (rdata w !! KData (ClientLcAddr cid) = None -> run = Err (error_of ClientIdNotFound)) /\
              (forall lc x, rdata w !! KData (ClientLcAddr cid) = Some (RvAddress lc) ->
                 lc_verify_membership (call_env env lc) lc cid h proof
                   (concat (commitment_prefix cp) ++
                    Core.packet_commitment_path (source_client packet) (sequence packet))
                   (core_packet_commitment packet) (w_ext w) = Ok (x, false) ->
                 run = Err (error_of MembershipVerificationFailed)))))).
Proof.
  cbn zeta. split.
  { intros Hcp. unfold recv_packet, counterparty.
    by rewrite (run_get _ _ _ _ None) by (by rewrite Hcp). }
  intros cp Hcp. split.
  { intros Hne. unfold recv_packet, counterparty. rewrite (run_get _ _ _ _ (Some cp)) by (by rewrite Hcp).
    rewrite run_expect. by rewrite bool_decide_eq_false_2. }
  intros Heq. split.
  { intros Hle. unfold recv_packet, counterparty. rewrite (run_get _ _ _ _ (Some cp)) by (by rewrite Hcp).
    rewrite run_expect, run_guard by (by rewrite bool_decide_eq_true_2).
    by rewrite (proj2 (Z.leb_le _ _) Hle). }
  intros Hlt Hid. destruct cp as [src prefix]. simpl in *. subst src. split.
  - intros Hsome. unfold recv_packet. erewrite recv_guards_run by done.
    rewrite (M_bind_run _ _ _ _ _ (has_packet_receipt_run _ _ _ Hid)).
    by rewrite bool_decide_eq_true_2.
  - intros Hnone Hfit Hid'. split.
    + intros Hlc. unfold recv_packet. erewrite recv_guards_run by done.
      rewrite (M_bind_run _ _ _ _ _ (has_packet_receipt_run _ _ _ Hid)), Hnone, run_guard by done.
      rewrite (run_lift _ _ _ (core_packet_commitment packet)) by (by apply commit_v2_packet_iff).
      erewrite run_lift by (by apply counterparty_v2_path_Ok).
      by apply M_bind_fails, verify_membership_unknown.
    + intros lc x Hlc Hv. unfold recv_packet. erewrite recv_guards_run by done.
      rewrite (M_bind_run _ _ _ _ _ (has_packet_receipt_run _ _ _ Hid)), Hnone, run_guard by done.
      rewrite (run_lift _ _ _ (core_packet_commitment packet)) by (by apply commit_v2_packet_iff).
      erewrite run_lift by (by apply counterparty_v2_path_Ok).
      by eapply M_bind_fails, verify_membership_fails.
Qed.

(** The guards of a resolution that fail before the counterparty is looked at. *)
Lemma resolution_guards_fail {B} packet (g : run (World X) B) w :
  let m := (o ← packet_commitment (source_client packet) (sequence packet);
            stored ← expect_some NoCommitmentForSequence o;
            expected_hash ← lift (commit_v2_packet packet);
            _ ← panic_if (negb (bool_decide (stored = expected_hash))) CommitmentMismatch;
            g) w in
  id_fits (source_client packet) ->
  (rdata w !! commitment_key (source_client packet) (sequence packet) = None ->
     m = Err (error_of NoCommitmentForSequence)) /\
  (forall h, rdata w !! commitment_key (source_client packet) (sequence packet) = Some (RvBytes h) ->
     length h = 32%nat -> packet_fits packet -> h <> core_packet_commitment packet ->
     m = Err (error_of CommitmentMismatch)).
Proof.
  cbn zeta. intros Hid. split.
  - intros Hnone. rewrite (M_bind_run _ _ w w None); [done|].
    apply packet_commitment_run; [done|]. by rewrite Hnone.
  - intros h Hh Hlen Hfit Hne. rewrite (M_bind_run _ _ w w (Some h)).
    + rewrite run_expect, (run_lift _ _ _ (core_packet_commitment packet))
        by (by apply commit_v2_packet_iff).
      by rewrite bool_decide_eq_false_2.
    + apply packet_commitment_run; [done|]. by apply get_bytes32_Some.
Qed.

(** The errors that protect a packet's resolution: an acknowledgement or a timeout of a packet
    with no commitment, or with the commitment of another packet, is refused; a timeout is refused
    while the proof is not dated after the packet's timeout, and when the light client does not
    verify the receipt's absence. *)
Theorem resolution_rejects (env : Env) (packet : Packet) (acks : list bytes) (proof : bytes) (h : Z)
    (w : World X) :
  (rdata w !! commitment_key (source_client packet) (sequence packet) = None ->
     id_fits (source_client packet) ->
     acknowledge_packet env packet acks proof h w = Err (error_of NoCommitmentForSequence) /\
     timeout_packet env packet proof h w = Err (error_of NoCommitmentForSequence)) /\
  (forall c, rdata w !! commitment_key (source_client packet) (sequence packet) = Some (RvBytes c) ->
     length c = 32%nat -> id_fits (source_client packet) -> packet_fits packet ->
     c <> core_packet_commitment packet ->
     acknowledge_packet env packet acks proof h w = Err (error_of CommitmentMismatch) /\
     timeout_packet env packet proof h w = Err (error_of CommitmentMismatch)) /\
  (forall prefix lc x ts, in_flight packet prefix w ->
     rdata w !! KData (ClientLcAddr (source_client packet)) = Some (RvAddress lc) ->
     lc_get_timestamp_at_height (call_env env lc) lc (source_client packet) h (w_ext w) = Ok (x, ts) ->
     (ts <= timeout_timestamp packet ->
        timeout_packet env packet proof h w = Err (error_of TimeoutNotYetElapsed)) /\
     (forall x', timeout_timestamp packet < ts ->
        lc_verify_non_membership (call_env env lc) lc (source_client packet) h proof
          (concat prefix ++ Core.packet_receipt_path (dest_client packet) (sequence packet)) x =
          Ok (x', false) ->
        timeout_packet env packet proof h w = Err (error_of NonMembershipVerificationFailed))).
Proof.
  split_and!.
  - intros Hn Hid. split; by apply resolution_guards_fail.
  - intros c Hc Hl Hid Hf Hne. split; by eapply resolution_guards_fail.
  - intros prefix lc x ts Hfl Hlc Hts. unfold timeout_packet. erewrite !run_in_flight by exact Hfl.
    unfold client_lc_address. rewrite !(run_get _ _ _ _ (Some lc)) by (by rewrite Hlc).
    rewrite !run_expect. erewrite M_bind_run by (apply invoke_Ok; by exists x). split.
    + intros Hle. by rewrite (proj2 (Z.leb_le _ _) Hle).
    + intros x' Hlt Hv. rewrite run_guard by (apply Z.leb_gt; lia).
      destruct Hfl as (_ & _ & _ & _ & Hid').
      erewrite run_lift by (by apply counterparty_v2_path_Ok).
      apply M_bind_fails. unfold verify_non_membership, client_lc_address.
      rewrite (run_get _ _ _ _ (Some lc)) by (by apply get_address_Some). rewrite run_expect.
      unfold Core.packet_receipt_path, Core.PACKET_RECEIPT_DISCRIMINATOR in Hv.
      unfold invoke, mbind, M_bind. simpl in Hv |- *. by rewrite Hv.
Qed.
End Contracts.
