(* ===== verification/Router.v ===== *)
(** * The router contract ([ibc-router/src/lib.rs])

    The entry points of [IbcRouter], their refinement to an abstract transition system on the
    persistent entries, and the invariants of every ledger that calls them: types of the stored
    values, bindings that never change, receipts that never disappear, sequences that only grow,
    commitments that are consumed once, and the event log as a faithful image of the provable
    store. *)

From Stdlib Require Import ZArith Lia Strings.Byte Strings.String.
From stdpp Require Import base option list gmap numbers.
From S2P Require Import Prelude Bytes Crypto Host RouterTypes Identifiers CoreCommitment Ics24Host.
From S2P Require Import Interfaces IbcStore Ics02Client PortRouter PacketHandler.
Open Scope Z_scope.

(** ** The entry points *)

Inductive Call : Type :=
| CRegisterClientType (client_type : bytes) (lc_address : Address)
| CLcAddress (client_type : bytes)
| CCreateClient (client_type client_state consensus_state : bytes) (height : Z)
| CRegisterCounterparty (client_id counterparty_client_id : bytes) (prefix : list bytes)
| CCounterparty (client_id : bytes)
| CUpdateClient (client_id client_message : bytes)
| CClientLcAddress (client_id : bytes)
| CFrozen (client_id : bytes)
| CRegisterPort (port_id : bytes) (app_address : Address)
| CPortApp (port_id : bytes)
| CSetPacketCommitment (source_client_id : bytes) (seq : Z) (commitment : bytes)
| CPacketCommitment (source_client_id : bytes) (seq : Z)
| CDeletePacketCommitment (source_client_id : bytes) (seq : Z)
| CSetPacketReceipt (dest_client_id : bytes) (seq : Z)
| CHasPacketReceipt (dest_client_id : bytes) (seq : Z)
| CSetAckCommitment (dest_client_id : bytes) (seq : Z) (ack_hash : bytes)
| CAcknowledgement (dest_client_id : bytes) (seq : Z)
| CSendPacket (source_client_id : bytes) (timeout_timestamp : Z) (payloads : list Payload)
| CRecvPacket (packet : Packet) (proof : bytes) (proof_height : Z)
| CWriteAcknowledgement (dest_client_id : bytes) (seq : Z) (acknowledgements : list bytes)
| CAcknowledgePacket (packet : Packet) (acknowledgements : list bytes) (proof : bytes)
    (proof_height : Z)
| CTimeoutPacket (packet : Packet) (proof : bytes) (proof_height : Z).

Inductive Ret : Type :=
| VUnit
| VBool (b : bool)
| VU64 (n : Z)
| VString (s : bytes)
| VOptAddress (o : option Address)
| VOptCounterparty (o : option Counterparty)
| VOptBytes32 (o : option bytes).

Section Contract.
Context {X : Type} `{Sha256} `{LightClients X} `{IbcApps X}.

(** [IbcRouter::__constructor]. *)
Definition constructor (admin : Address) : run (World X) unit :=
  instance_set (KData Admin) (RvAddress admin).

Definition returning {A} (f : A -> Ret) (m : run (World X) A) : run (World X) Ret :=
  a ← m; mret (f a).

(** The public functions of [#[contractimpl] impl IbcRouter]. *)
Definition exec (env : Env) (c : Call) : run (World X) Ret :=
  match c with
  | CRegisterClientType ct lc => returning (fun _ => VUnit) (register_client_type env ct lc)
  | CLcAddress ct => returning VOptAddress (lc_address ct)
  | CCreateClient ct cs cst h => returning VString (create_client env ct cs cst h)
  | CRegisterCounterparty id cid prefix =>
      returning (fun _ => VUnit) (register_counterparty env id cid prefix)
  | CCounterparty id => returning VOptCounterparty (counterparty id)
  | CUpdateClient id msg => returning VU64 (update_client env id msg)
  | CClientLcAddress id => returning VOptAddress (client_lc_address id)
  | CFrozen id => returning VBool (frozen id)
  | CRegisterPort port app => returning (fun _ => VUnit) (register_port env port app)
  | CPortApp port => returning VOptAddress (port_app port)
  | CSetPacketCommitment cid n h => returning (fun _ => VUnit) (set_packet_commitment env cid n h)
  | CPacketCommitment cid n => returning VOptBytes32 (packet_commitment cid n)
  | CDeletePacketCommitment cid n => returning (fun _ => VUnit) (delete_packet_commitment cid n)
  | CSetPacketReceipt cid n => returning (fun _ => VUnit) (set_packet_receipt env cid n)
  | CHasPacketReceipt cid n => returning VBool (has_packet_receipt cid n)
  | CSetAckCommitment cid n h => returning (fun _ => VUnit) (set_ack_commitment env cid n h)
  | CAcknowledgement cid n => returning VOptBytes32 (acknowledgement cid n)
  | CSendPacket cid t pls => returning VU64 (send_packet env cid t pls)
  | CRecvPacket p proof h => returning (fun _ => VUnit) (recv_packet env p proof h)
  | CWriteAcknowledgement cid n acks =>
      returning (fun _ => VUnit) (write_acknowledgement env cid n acks)
  | CAcknowledgePacket p acks proof h =>
      returning (fun _ => VUnit) (acknowledge_packet env p acks proof h)
  | CTimeoutPacket p proof h => returning (fun _ => VUnit) (timeout_packet env p proof h)
  end.

(** The host decodes arguments at their declared types: [u64] sequences and [BytesN<32>] hashes. *)
Definition call_wf (c : Call) : Prop :=
  match c with
  | CSetPacketCommitment _ n h | CSetAckCommitment _ n h => in_u64 n /\ length h = 32%nat
  | CPacketCommitment _ n | CDeletePacketCommitment _ n | CSetPacketReceipt _ n
  | CHasPacketReceipt _ n | CAcknowledgement _ n | CWriteAcknowledgement _ n _ => in_u64 n
  | CRecvPacket p _ _ | CAcknowledgePacket p _ _ _ | CTimeoutPacket p _ _ =>
      in_u64 (sequence p) /\ in_u64 (timeout_timestamp p)
  | CSendPacket _ t _ => in_u64 t
  | _ => True
  end.

(** The entry points that write the provable store without any check. *)
Definition raw (c : Call) : bool :=
  match c with
  | CSetPacketCommitment _ _ _ | CDeletePacketCommitment _ _ | CSetPacketReceipt _ _
  | CSetAckCommitment _ _ _ => true
  | _ => false
  end.

(** ** Ledgers *)

Inductive label : Type :=
| LCall (env : Env) (c : Call) (r : Ret)     (* a transaction that calls the router and succeeds *)
| LAbort (env : Env) (c : Call) (e : failure) (* one that fails: no write survives *)
| LExt.                                      (* a transaction of the other contracts *)

Inductive step : World X -> label -> World X -> Prop :=
| step_call env c r w w' : call_wf c -> exec env c w = Ok (w', r) -> step w (LCall env c r) w'
| step_abort env c e w : exec env c w = Err e -> step w (LAbort env c e) w
| step_ext w x : step w LExt (MkWorld (w_router w) x).

(** The router just after its deployment. *)
Definition deployed (admin : Address) (x : X) : World X :=
  MkWorld (MkRouter (storage_set_instance (KData Admin) (RvAddress admin) empty_storage) []) x.

Definition reachable (w : World X) : Prop :=
  exists admin x ls, steps step (deployed admin x) ls w.

End Contract.

(** ** The abstract router *)

(** What a call does to the router, without the machinery that decides it. *)
Inductive action : Type :=
| AQuiet
| ASetClientType (ct : bytes) (lc : Address)
| ACreate (ct : bytes) (n : Z) (lc : Address)
| ACounterparty (id : bytes) (cp : Counterparty)
| AFreeze (id : bytes)
| APort (port : bytes) (app : Address)
| ASend (p : Packet)
| ARecv (p : Packet) (acks : list bytes)
| AWriteAck (cid : bytes) (n : Z) (acks : list bytes)
| AAck (p : Packet) (acks : list bytes)
| ATimeout (p : Packet)
| ARawCommitment (cid : bytes) (n : Z) (h : bytes)
| ARawDelete (cid : bytes) (n : Z)
| ARawReceipt (cid : bytes) (n : Z)
| ARawAck (cid : bytes) (n : Z) (h : bytes).

Section Abstract.
Context `{Sha256}.
Implicit Types m : gmap RKey RVal.

(** When an action may happen. *)
Definition enabled (a : action) (m : gmap RKey RVal) : Prop :=
  match a with
  | ACreate ct n lc =>
      m !! KData (ClientTypeAddr ct) = Some (RvAddress lc) /\ counter_of m ct n /\
      in_u32 (n + 1) /\ is_ok (format_client_id ct n) = true
  | ACounterparty id cp =>
      is_Some (m !! KData (ClientType id)) /\ m !! KData (CounterpartyKey id) = None
  | AFreeze id => is_Some (m !! KData (ClientLcAddr id)) /\ is_frozen m id = false
  | APort port app => m !! KData (Port port) = None
  | ASend p =>
      (exists prefix, m !! KData (CounterpartyKey (source_client p)) =
                      Some (RvCounterparty (MkCounterparty (dest_client p) prefix))) /\
      seq_of m (source_client p) (sequence p - 1) /\ in_u64 (sequence p) /\
      in_u64 (timeout_timestamp p)
  | ARecv p acks =>
      (exists prefix, m !! KData (CounterpartyKey (dest_client p)) =
                      Some (RvCounterparty (MkCounterparty (source_client p) prefix))) /\
      m !! receipt_key (dest_client p) (sequence p) = None /\ in_u64 (sequence p)
  | AWriteAck cid n acks =>
      is_Some (m !! receipt_key cid n) /\ m !! ack_key cid n = None /\ in_u64 n
  | AAck p _ | ATimeout p =>
      m !! commitment_key (source_client p) (sequence p) = Some (RvBytes (core_packet_commitment p)) /\
      in_u64 (sequence p) /\ in_u64 (timeout_timestamp p)
  | ARawCommitment cid n h | ARawAck cid n h => in_u64 n /\ length h = 32%nat
  | ARawDelete cid n | ARawReceipt cid n => in_u64 n
  | _ => True
  end.

(** What it writes. *)
Definition writes (a : action) (m : gmap RKey RVal) : gmap RKey RVal :=
  match a with
  | AQuiet => m
  | ASetClientType ct lc => <[KData (ClientTypeAddr ct) := RvAddress lc]> m
  | ACreate ct n lc =>
      <[KData (ClientLcAddr (client_id_of ct n)) := RvAddress lc]>
        (<[KData (ClientType (client_id_of ct n)) := RvString ct]>
          (<[KData (NextClientId ct) := RvU32 (n + 1)]> m))
  | ACounterparty id cp => <[KData (CounterpartyKey id) := RvCounterparty cp]> m
  | AFreeze id => <[KData (Frozen id) := RvBool true]> m
  | APort port app => <[KData (Port port) := RvAddress app]> m
  | ASend p => after_send m p
  | ARecv p acks => after_recv m p acks
  | AWriteAck cid n acks => <[ack_key cid n := RvBytes (Core.commit_v2_acknowledgement acks)]> m
  | AAck p _ | ATimeout p => after_resolve m p
  | ARawCommitment cid n h => <[commitment_key cid n := RvBytes h]> m
  | ARawDelete cid n => delete (commitment_key cid n) m
  | ARawReceipt cid n => <[receipt_key cid n := RvBytes [RECEIPT_SENTINEL]]> m
  | ARawAck cid n h => <[ack_key cid n := RvBytes h]> m
  end.

(** What it publishes. *)
Definition events (a : action) : list Event :=
  match a with
  | ASend p => [SendPacketEvent (source_client p) (sequence p) p]
  | ARecv p acks => [RecvPacketEvent (dest_client p) (sequence p) p;
                     WriteAckEvent (dest_client p) (sequence p) acks]
  | AWriteAck cid n acks => [WriteAckEvent cid n acks]
  | AAck p acks => [AckPacketEvent (source_client p) (sequence p) p acks]
  | ATimeout p => [TimeoutPacketEvent (source_client p) (sequence p) p]
  | _ => []
  end.

(** The actions a call and its result allow. *)
Definition performs (c : Call) (r : Ret) (a : action) : Prop :=
  match c, r with
  | CRegisterClientType ct lc, VUnit => a = ASetClientType ct lc
  | CCreateClient ct _ _ _, VString id => exists n lc, a = ACreate ct n lc /\ id = client_id_of ct n
  | CRegisterCounterparty id cid prefix, VUnit => a = ACounterparty id (MkCounterparty cid prefix)
  | CUpdateClient id _, VU64 h => (a = AFreeze id /\ h = 0) \/ a = AQuiet
  | CRegisterPort port app, VUnit => a = APort port app
  | CSetPacketCommitment cid n h, VUnit => a = ARawCommitment cid n h
  | CDeletePacketCommitment cid n, VUnit => a = ARawDelete cid n
  | CSetPacketReceipt cid n, VUnit => a = ARawReceipt cid n
  | CSetAckCommitment cid n h, VUnit => a = ARawAck cid n h
  | CSendPacket cid t pls, VU64 n => exists dst, a = ASend (MkPacket n cid dst t pls)
  | CRecvPacket p _ _, VUnit => exists acks, a = ARecv p acks
  | CWriteAcknowledgement cid n acks, VUnit => a = AWriteAck cid n acks
  | CAcknowledgePacket p acks _ _, VUnit => a = AAck p acks
  | CTimeoutPacket p _ _, VUnit => a = ATimeout p
  | CLcAddress _, VOptAddress _ | CCounterparty _, VOptCounterparty _
  | CClientLcAddress _, VOptAddress _ | CFrozen _, VBool _ | CPortApp _, VOptAddress _
  | CPacketCommitment _ _, VOptBytes32 _ | CHasPacketReceipt _ _, VBool _
  | CAcknowledgement _ _, VOptBytes32 _ => a = AQuiet
  | _, _ => False
  end.

(** A label as seen by the abstract router. *)
Definition label_action (l : label) (a : action) : Prop :=
  match l with LCall _ c r => performs c r a | _ => a = AQuiet end.

End Abstract.

(** ** Types of the stored values *)

(** The kind of a provable entry, from the ninth byte of its path counted from the end. *)
Definition path_kind (p : bytes) : option byte := p !! (length p - 9)%nat.

Lemma v2_path_path_kind cid d n : path_kind (Core.v2_path cid d n) = Some d.
Proof.
  unfold path_kind. rewrite Core.v2_path_length. unfold Core.v2_path.
  replace (length cid + 9 - 9)%nat with (length cid) by lia.
  rewrite lookup_app_r by lia. by rewrite Nat.sub_diag.
Qed.

Definition typed_entry (k : RKey) (v : RVal) : Prop :=
  match k, v with
  | KData (NextClientId _), RvU32 n => in_u32 n
  | KData (ClientTypeAddr _), RvAddress _ => True
  | KData (ClientType _), RvString _ => True
  | KData (ClientLcAddr _), RvAddress _ => True
  | KData (CounterpartyKey _), RvCounterparty _ => True
  | KData (Frozen _), RvBool b => b = true
  | KData (Port _), RvAddress _ => True
  | KData (NextSeqSend _), RvU64 n => 1 <= n /\ in_u64 n
  | KPath p, RvBytes b =>
      if decide (path_kind p = Some PACKET_RECEIPT_DISCRIMINATOR) then b = [RECEIPT_SENTINEL]
      else length b = 32%nat
  | _, _ => False
  end.

Definition typed (m : gmap RKey RVal) : Prop := map_Forall typed_entry m.

Section Typing.
Context `{Sha256}.
Implicit Types m : gmap RKey RVal.

Lemma typed_counter m ct n : typed m -> counter_of m ct n -> in_u32 n.
Proof.
  intros Ht [Hn|[_ ->]]; [by apply Ht in Hn|]. unfold in_u32, u32_max. lia.
Qed.

Lemma typed_seq m cid n : typed m -> seq_of m cid n -> 0 <= n /\ in_u64 n.
Proof.
  intros Ht [Hn|[_ ->]]; [apply Ht in Hn as [? ?]; split; [lia|done]|]. unfold in_u64, u64_max. lia.
Qed.

Lemma typed_insert m k v : typed m -> typed_entry k v -> typed (<[k := v]> m).
Proof. intros Hm Hv. by apply map_Forall_insert_2. Qed.

Lemma typed_commitment_entry cid n h :
  length h = 32%nat -> typed_entry (commitment_key cid n) (RvBytes h).
Proof. intros Hl. unfold commitment_key, Core.packet_commitment_path. simpl. by rewrite v2_path_path_kind. Qed.
Lemma typed_ack_entry cid n h : length h = 32%nat -> typed_entry (ack_key cid n) (RvBytes h).
Proof. intros Hl. unfold ack_key, Core.ack_commitment_path. simpl. by rewrite v2_path_path_kind. Qed.
Lemma typed_receipt_entry cid n :
  typed_entry (receipt_key cid n) (RvBytes [RECEIPT_SENTINEL]).
Proof. unfold receipt_key, Core.packet_receipt_path. simpl. by rewrite v2_path_path_kind. Qed.

Lemma core_packet_commitment_length p : length (core_packet_commitment p) = 32%nat.
Proof. apply sha256_length. Qed.
Lemma core_ack_length acks : length (Core.commit_v2_acknowledgement acks) = 32%nat.
Proof. apply sha256_length. Qed.

#[local] Hint Resolve typed_insert typed_commitment_entry typed_ack_entry typed_receipt_entry
  core_packet_commitment_length core_ack_length : host.

(** Every action keeps the types. *)
Lemma writes_typed a m : typed m -> enabled a m -> typed (writes a m).
Proof.
  intros Hm He.
  destruct a; simpl in *; unfold after_send, after_recv, after_resolve; destruct_and?;
    repeat match goal with |- typed (<[_ := _]> _) => apply typed_insert end;
    try done; try (by apply map_Forall_delete); eauto with host.
  match goal with Hs : seq_of _ _ _ |- _ => apply typed_seq in Hs as [Hs _]; [|done] end.
  split; [lia|done].
Qed.

End Typing.

(** ** Refinement *)

Section Refinement.
Context {X : Type} `{Sha256} `{LightClients X} `{IbcApps X}.
Implicit Types w : World X.

Lemma returning_Ok {A} (f : A -> Ret) (m : run (World X) A) w w' r :
  returning f m w = Ok (w', r) <-> exists a, m w = Ok (w', a) /\ r = f a.
Proof.
  unfold returning. rewrite M_bind_Ok. split.
  - intros (w1 & a & Hm & [-> ->]%M_ret_Ok). eauto.
  - intros (a & Hm & ->). exists w', a. by rewrite M_ret_Ok.
Qed.

(** A world whose router did what [a] does. *)
Definition acts (a : action) (w w' : World X) : Prop :=
  enabled a (rdata w) /\ rdata w' = writes a (rdata w) /\ rinst w' = rinst w /\
  revents w' = revents w ++ events a.

Lemma acts_quiet w w' : w_router w' = w_router w -> acts AQuiet w w'.
Proof. unfold acts, rdata, rinst, revents. intros ->. by rewrite app_nil_r. Qed.

Lemma acts_becomes a w w' x :
  enabled a (rdata w) -> becomes w w' (writes a (rdata w)) (events a) x -> acts a w w'.
Proof. intros He (Hd & Hi & Hev & _). done. Qed.

Lemma acts_updates a w w' :
  enabled a (rdata w) -> events a = [] -> updates w w' (writes a (rdata w)) -> acts a w w'.
Proof. intros He Hev [Hd [Hi [Hv _]]]. unfold acts. by rewrite Hev, app_nil_r. Qed.

(** Every successful call of the contract is an action of the abstract router. *)
Lemma exec_refines env c w w' r :
  typed (rdata w) -> call_wf c -> exec env c w = Ok (w', r) ->
  exists a, performs c r a /\ acts a w w'.
Proof.
  intros Ht Hwf. destruct c; simpl; intros (v & Hr & ->)%returning_Ok; simpl.
  - apply register_client_type_Ok in Hr as (adm & _ & _ & _ & Hu). destruct v.
    eexists. split; [done|]. by apply acts_updates.
  - unfold lc_address in Hr. rinv Hr. eexists. split; [done|]. by apply acts_quiet.
  - apply create_client_Ok in Hr as (lc & n & x & Hlc & Hn & Hn1 & Hid & _ & Hb).
    pose proof (typed_counter _ _ _ Ht Hn) as Hu.
    assert (v = client_id_of client_type n) as ->.
    { rewrite format_client_id_eq in Hid by done. case_decide; [|done]. by injection Hid. }
    exists (ACreate client_type n lc). split; [eauto|]. eapply acts_becomes; [|exact Hb].
    simpl. by rewrite Hid.
  - apply register_counterparty_Ok in Hr as (_ & Hty & Hno & Hu). destruct v.
    eexists. split; [done|]. by apply acts_updates.
  - unfold counterparty in Hr. rinv Hr. eexists. split; [done|]. by apply acts_quiet.
  - apply update_client_Ok in Hr as (lc & x1 & mis & Hfr & Hlc & _ & Hm). destruct mis.
    + destruct Hm as (x2 & _ & Hb & ->). eexists. split; [by left|].
      eapply acts_becomes; [|exact Hb]. simpl. eauto.
    + destruct Hm as (x2 & _ & Hb). eexists. split; [by right|]. by eapply acts_becomes.
  - unfold client_lc_address in Hr. rinv Hr. eexists. split; [done|]. by apply acts_quiet.
  - apply frozen_Ok in Hr as [-> _]. eexists. split; [done|]. by apply acts_quiet.
  - apply register_port_Ok in Hr as (adm & _ & _ & _ & Hno & Hu). destruct v.
    eexists. split; [done|]. by apply acts_updates.
  - unfold port_app in Hr. rinv Hr. eexists. split; [done|]. by apply acts_quiet.
  - apply set_packet_commitment_Ok in Hr as [_ Hu]. destruct v.
    eexists. split; [done|]. by apply acts_updates.
  - apply packet_commitment_Ok in Hr as (_ & -> & _). eexists. split; [done|]. by apply acts_quiet.
  - apply delete_packet_commitment_Ok in Hr as [_ Hu]. destruct v.
    eexists. split; [done|]. by apply acts_updates.
  - apply set_packet_receipt_Ok in Hr as [_ Hu]. destruct v.
    eexists. split; [done|]. by apply acts_updates.
  - apply has_packet_receipt_Ok in Hr as (_ & -> & _). eexists. split; [done|]. by apply acts_quiet.
  - apply set_ack_commitment_Ok in Hr as [_ Hu]. destruct v.
    eexists. split; [done|]. by apply acts_updates.
  - apply acknowledgement_Ok in Hr as (_ & -> & _). eexists. split; [done|]. by apply acts_quiet.
  - apply send_packet_Ok in Hr as (p & Hp & Ha & Hb). exists (ASend p). split; [by exists (dest_client p); f_equal|].
    rewrite Hp in *. eapply acts_becomes; [|exact Hb].
    destruct Ha as (_ & ? & _ & _ & ? & ? & _). done.
  - apply recv_packet_Ok in Hr as (rs & x & Ha & Hb). destruct v.
    exists (ARecv packet (recv_acks rs)). split; [eauto|]. eapply acts_becomes; [|exact Hb].
    destruct Ha as (prefix & lc & x1 & Hcp & _ & Hno & _). destruct Hwf. simpl. eauto.
  - apply write_acknowledgement_Ok in Hr as (_ & Hrc & Hno & Hb). destruct v.
    eexists. split; [done|]. by eapply acts_becomes.
  - apply acknowledge_packet_Ok in Hr as (x & (prefix & lc & x1 & rs & [Hc _] & _) & Hb). destruct v.
    eexists. split; [done|]. eapply acts_becomes; [|exact Hb]. by destruct Hwf.
  - apply timeout_packet_Ok in Hr as (x & (prefix & lc & x1 & ts & x2 & rs & [Hc _] & _) & Hb).
    destruct v. eexists. split; [done|]. eapply acts_becomes; [|exact Hb]. by destruct Hwf.
Qed.

Lemma step_refines w l w' :
  typed (rdata w) -> step w l w' -> exists a, label_action l a /\ acts a w w'.
Proof.
  intros Ht Hs. destruct Hs as [env c r w w' Hwf He|env c e w He|w x].
  - by eapply exec_refines.
  - exists AQuiet. split; [done|]. by apply acts_quiet.
  - exists AQuiet. split; [done|]. by apply acts_quiet.
Qed.

Lemma step_typed w l w' : typed (rdata w) -> step w l w' -> typed (rdata w').
Proof.
  intros Ht Hs. destruct (step_refines _ _ _ Ht Hs) as (a & _ & He & -> & _).
  by apply writes_typed.
Qed.

End Refinement.

(** ** What each action leaves at each key *)

Ltac absurd_keys :=
  match goal with
  | H : commitment_key _ _ = receipt_key _ _ |- _ => by apply commitment_receipt_ne in H
  | H : commitment_key _ _ = ack_key _ _ |- _ => by apply commitment_ack_ne in H
  | H : receipt_key _ _ = ack_key _ _ |- _ => by apply receipt_ack_ne in H
  | H : receipt_key _ _ = commitment_key _ _ |- _ => by apply eq_sym, commitment_receipt_ne in H
  | H : ack_key _ _ = commitment_key _ _ |- _ => by apply eq_sym, commitment_ack_ne in H
  | H : ack_key _ _ = receipt_key _ _ |- _ => by apply eq_sym, receipt_ack_ne in H
  end.
Ltac solve_writes :=
  let a := fresh in intros a; intros; destruct a; simpl; unfold after_send, after_recv, after_resolve;
  rewrite ?lookup_insert, ?lookup_delete; repeat case_decide; first [done|congruence|absurd_keys].

Section Tables.
Context `{Sha256}.
Implicit Types m : gmap RKey RVal.

Lemma writes_lc : forall a m id,
  writes a m !! KData (ClientLcAddr id) =
  match a with
  | ACreate ct n lc => if decide (client_id_of ct n = id) then Some (RvAddress lc)
                       else m !! KData (ClientLcAddr id)
  | _ => m !! KData (ClientLcAddr id)
  end.
Proof. solve_writes. Qed.

Lemma writes_client_type : forall a m id,
  writes a m !! KData (ClientType id) =
  match a with
  | ACreate ct n lc => if decide (client_id_of ct n = id) then Some (RvString ct)
                       else m !! KData (ClientType id)
  | _ => m !! KData (ClientType id)
  end.
Proof. solve_writes. Qed.

Lemma writes_counter : forall a m ct,
  writes a m !! KData (NextClientId ct) =
  match a with
  | ACreate ct' n lc => if decide (ct' = ct) then Some (RvU32 (n + 1))
                        else m !! KData (NextClientId ct)
  | _ => m !! KData (NextClientId ct)
  end.
Proof. solve_writes. Qed.

Lemma writes_counterparty : forall a m id,
  writes a m !! KData (CounterpartyKey id) =
  match a with
  | ACounterparty id' cp => if decide (id' = id) then Some (RvCounterparty cp)
                            else m !! KData (CounterpartyKey id)
  | _ => m !! KData (CounterpartyKey id)
  end.
Proof. solve_writes. Qed.

Lemma writes_frozen : forall a m id,
  writes a m !! KData (Frozen id) =
  match a with
  | AFreeze id' => if decide (id' = id) then Some (RvBool true) else m !! KData (Frozen id)
  | _ => m !! KData (Frozen id)
  end.
Proof. solve_writes. Qed.

Lemma writes_port : forall a m port,
  writes a m !! KData (Port port) =
  match a with
  | APort port' app => if decide (port' = port) then Some (RvAddress app)
                       else m !! KData (Port port)
  | _ => m !! KData (Port port)
  end.
Proof. solve_writes. Qed.

Lemma writes_seq : forall a m cid,
  writes a m !! KData (NextSeqSend cid) =
  match a with
  | ASend p => if decide (source_client p = cid) then Some (RvU64 (sequence p))
               else m !! KData (NextSeqSend cid)
  | _ => m !! KData (NextSeqSend cid)
  end.
Proof. solve_writes. Qed.

Lemma writes_receipt : forall a m cid n,
  writes a m !! receipt_key cid n =
  match a with
  | ARecv p _ => if decide (receipt_key (dest_client p) (sequence p) = receipt_key cid n)
                 then Some (RvBytes [RECEIPT_SENTINEL]) else m !! receipt_key cid n
  | ARawReceipt cid' n' => if decide (receipt_key cid' n' = receipt_key cid n)
                 then Some (RvBytes [RECEIPT_SENTINEL]) else m !! receipt_key cid n
  | _ => m !! receipt_key cid n
  end.
Proof. solve_writes. Qed.

Lemma writes_commitment : forall a m cid n,
  writes a m !! commitment_key cid n =
  match a with
  | ASend p => if decide (commitment_key (source_client p) (sequence p) = commitment_key cid n)
               then Some (RvBytes (core_packet_commitment p)) else m !! commitment_key cid n
  | AAck p _ | ATimeout p =>
      if decide (commitment_key (source_client p) (sequence p) = commitment_key cid n)
      then None else m !! commitment_key cid n
  | ARawCommitment cid' n' h =>
      if decide (commitment_key cid' n' = commitment_key cid n)
      then Some (RvBytes h) else m !! commitment_key cid n
  | ARawDelete cid' n' =>
      if decide (commitment_key cid' n' = commitment_key cid n)
      then None else m !! commitment_key cid n
  | _ => m !! commitment_key cid n
  end.
Proof. solve_writes. Qed.

End Tables.

(** ** The client registry is consistent *)

(** A client has a type exactly when it has a light client, its identifier was minted from a counter
    that has moved on, every number below a counter is a client's, and only clients have
    counterparties or are frozen. *)
Record registry (m : gmap RKey RVal) : Prop := {
  reg_lc : forall id, is_Some (m !! KData (ClientLcAddr id)) <-> is_Some (m !! KData (ClientType id));
  reg_minted : forall id, is_Some (m !! KData (ClientType id)) ->
    exists ct n k, id = client_id_of ct n /\ m !! KData (ClientType id) = Some (RvString ct) /\
      m !! KData (NextClientId ct) = Some (RvU32 k) /\ 0 <= n < k;
  reg_complete : forall ct n k, m !! KData (NextClientId ct) = Some (RvU32 k) -> 0 <= n < k ->
    m !! KData (ClientType (client_id_of ct n)) = Some (RvString ct);
  reg_counterparty : forall id, is_Some (m !! KData (CounterpartyKey id)) ->
    is_Some (m !! KData (ClientType id));
  reg_frozen : forall id, is_Some (m !! KData (Frozen id)) -> is_Some (m !! KData (ClientType id));
}.

Section Registry.
Context `{Sha256}.
Implicit Types m : gmap RKey RVal.

(** An identifier about to be minted is new. *)
Lemma fresh_id m ct n :
  typed m -> registry m -> counter_of m ct n -> m !! KData (ClientType (client_id_of ct n)) = None.
Proof.
  intros Ht Hreg Hn. apply eq_None_not_Some. intros Hs.
  destruct (reg_minted _ Hreg _ Hs) as (ct' & n' & k & Heq & _ & Hk & Hlt).
  assert (in_u32 k) as Hk32 by (by apply Ht in Hk).
  apply client_id_of_inj in Heq as [<- <-].
  - destruct Hn as [Hn|[Hn _]]; rewrite Hn in Hk; simplify_eq. lia.
  - by eapply typed_counter.
  - unfold in_u32 in *. lia.
Qed.

(** The registry reads only these entries. *)
Lemma registry_ext m m' :
  (forall id, m' !! KData (ClientLcAddr id) = m !! KData (ClientLcAddr id)) ->
  (forall id, m' !! KData (ClientType id) = m !! KData (ClientType id)) ->
  (forall ct, m' !! KData (NextClientId ct) = m !! KData (NextClientId ct)) ->
  (forall id, is_Some (m' !! KData (CounterpartyKey id)) -> is_Some (m !! KData (ClientType id))) ->
  (forall id, is_Some (m' !! KData (Frozen id)) -> is_Some (m !! KData (ClientType id))) ->
  registry m -> registry m'.
Proof.
  intros E1 E2 E3 E4 E5 [H1 H2 Hc H3 H4]. constructor; intros id; rewrite ?E1, ?E2; auto.
  - intros (ct & n & k & ?)%H2. exists ct, n, k. by rewrite E3.
  - intros n k. rewrite E3, E2. apply Hc.
Qed.

Lemma writes_registry a m : typed m -> registry m -> enabled a m -> registry (writes a m).
Proof.
  intros Ht Hreg He. pose proof Hreg as [H1 H2 Hc H3 H4].
  destruct a; try by (apply (registry_ext m); [..|done]; intros id';
    rewrite ?writes_lc, ?writes_client_type, ?writes_counter, ?writes_counterparty, ?writes_frozen;
    auto).
  - (* ACreate *)
    destruct He as (Hlc & Hn & Hn1 & _). pose proof (typed_counter _ _ _ Ht Hn) as Hn0.
    pose proof (fresh_id _ _ _ Ht Hreg Hn) as Hfresh.
    constructor; intros id'; rewrite ?writes_lc, ?writes_client_type, ?writes_counterparty,
      ?writes_frozen.
    + destruct (decide (client_id_of ct n = id')); [by split|]. apply H1.
    + destruct (decide (client_id_of ct n = id')) as [<-|Hne].
      * intros _. exists ct, n, (n + 1). rewrite writes_counter, decide_True by done.
        unfold in_u32 in Hn0. split_and!; [done..|lia|lia].
      * intros Hs. destruct (H2 _ Hs) as (ct' & n' & k & -> & Hty & Hk & Hlt).
        exists ct', n'. rewrite writes_counter.
        destruct (decide (ct = ct')) as [<-|]; [|by exists k].
        exists (n + 1). split_and!; [done..|lia|].
        destruct Hn as [Hn|[Hn _]]; rewrite Hn in Hk; simplify_eq. lia.
    + intros n' k. rewrite writes_counter, writes_client_type.
      destruct (decide (client_id_of ct n = client_id_of id' n')) as [Heq|Hne].
      * intros Hk Hlt. f_equal. f_equal. apply client_id_of_inj in Heq as [-> _]; [done|done|].
        destruct (decide (ct = id')); [injection Hk as <-; unfold in_u32 in *; lia|].
        apply Ht in Hk. simpl in Hk. unfold in_u32 in *. lia.
      * destruct (decide (ct = id')) as [<-|]; [|apply Hc]. intros [= <-] Hlt.
        assert (n' <> n) by congruence. apply (Hc ct n' n); [|lia].
        destruct Hn as [Hn|[_ ->]]; [done|lia].
    + intros Hs%H3. destruct (decide (client_id_of ct n = id')); done.
    + intros Hs%H4. destruct (decide (client_id_of ct n = id')); done.
  - (* ACounterparty *)
    destruct He as [Hty Hno]. apply (registry_ext m); [..|done]; intros id';
      rewrite ?writes_lc, ?writes_client_type, ?writes_counter, ?writes_counterparty, ?writes_frozen;
      auto. destruct (decide (id = id')) as [<-|]; auto.
  - (* AFreeze *)
    destruct He as [Hty%H1 Hno]. apply (registry_ext m); [..|done]; intros id';
      rewrite ?writes_lc, ?writes_client_type, ?writes_counter, ?writes_counterparty, ?writes_frozen;
      auto. destruct (decide (id = id')) as [<-|]; auto.
Qed.

End Registry.

(** ** Invariants of every ledger *)

(** The action is one of the unchecked writers. *)
Definition raw_action (a : action) : bool :=
  match a with
  | ARawCommitment _ _ _ | ARawDelete _ _ | ARawReceipt _ _ | ARawAck _ _ _ => true
  | _ => false
  end.

Definition raw_label (l : label) : bool := match l with LCall _ c _ => raw c | _ => false end.

(** Executions that use the packet protocol only. *)
Definition protocol (ls : list label) : Prop := Forall (fun l => raw_label l = false) ls.

(** The last sequence sent by a client, 0 before the first. *)
Definition last_seq (m : gmap RKey RVal) (cid : bytes) : Z :=
  match m !! KData (NextSeqSend cid) with Some (RvU64 n) => n | _ => 0 end.

Lemma last_seq_of m cid n : seq_of m cid n -> last_seq m cid = n.
Proof. unfold last_seq. by intros [->|[-> ->]]. Qed.

(** The provable store rebuilt from the events alone, as an observer of the ledger can. *)
Definition observe `{Sha256} (m : gmap bytes bytes) (e : Event) : gmap bytes bytes :=
  match e with
  | SendPacketEvent cid n p => <[Core.packet_commitment_path cid n := core_packet_commitment p]> m
  | RecvPacketEvent cid n _ => <[Core.packet_receipt_path cid n := Core.RECEIPT_SENTINEL]> m
  | WriteAckEvent cid n acks =>
      <[Core.ack_commitment_path cid n := Core.commit_v2_acknowledgement acks]> m
  | AckPacketEvent cid n _ _ | TimeoutPacketEvent cid n _ =>
      delete (Core.packet_commitment_path cid n) m
  end.
Definition observed `{Sha256} (evs : list Event) : gmap bytes bytes := foldl observe ∅ evs.

Section Invariants.
Context {X : Type} `{Sha256} `{LightClients X} `{IbcApps X}.
Implicit Types w : World X.
Implicit Types m : gmap RKey RVal.

Record router_inv (w : World X) : Prop := {
  inv_typed : typed (rdata w);
  inv_registry : registry (rdata w);
  inv_admin : exists admin, rinst w !! KData Admin = Some (RvAddress admin);
}.

Lemma acts_inv a w w' : router_inv w -> acts a w w' -> router_inv w'.
Proof.
  intros [Ht Hr Ha] (He & Hd & Hi & _). constructor; rewrite ?Hd, ?Hi; [|..|done].
  - by apply writes_typed.
  - by apply writes_registry.
Qed.

Lemma deployed_inv admin x : router_inv (deployed admin x).
Proof.
  constructor.
  - apply map_Forall_empty.
  - constructor; intros id; unfold rdata; simpl; rewrite !lookup_empty; try done;
      by intros [? ?].
  - exists admin. apply lookup_insert_eq.
Qed.

Lemma step_inv w l w' : router_inv w -> step w l w' -> router_inv w'.
Proof.
  intros Hi Hs. destruct (step_refines _ _ _ (inv_typed _ Hi) Hs) as (a & _ & Ha).
  by eapply acts_inv.
Qed.

Lemma steps_inv w ls w' : router_inv w -> steps step w ls w' -> router_inv w'.
Proof. apply steps_invariant. apply step_inv. Qed.

Lemma performs_raw c r a : performs c r a -> raw_action a = raw c.
Proof. destruct c, r; simpl; naive_solver. Qed.

Lemma label_action_raw l a : label_action l a -> raw_action a = raw_label l.
Proof. destruct l; simpl; [apply performs_raw|by intros ->..]. Qed.

(** A relation on the entries that every action respects holds along every ledger. *)
Lemma steps_entries (R : gmap RKey RVal -> gmap RKey RVal -> Prop) :
  PreOrder R ->
  (forall a m, typed m -> registry m -> enabled a m -> R m (writes a m)) ->
  forall w ls w', router_inv w -> steps step w ls w' -> R (rdata w) (rdata w').
Proof.
  intros HR Ha w ls w' Hi Hs. induction Hs as [w|w l w1 ls w2 Hs1 Hs2 IH]; [done|].
  destruct (step_refines _ _ _ (inv_typed _ Hi) Hs1) as (a & _ & Hacts).
  etransitivity; [|apply IH; by eapply acts_inv].
  destruct Hacts as (He & -> & _). destruct Hi. by apply Ha.
Qed.

(** ** Bindings *)

(** Entries that, once there, never change. *)
Definition keeps (f : bytes -> DataKey) m m' : Prop :=
  forall id v, m !! KData (f id) = Some v -> m' !! KData (f id) = Some v.
#[export] Instance keeps_preorder f : PreOrder (keeps f).
Proof. split; [by intros m id v|]. intros m1 m2 m3 H1' H2' id v Hv. by apply H2', H1'. Qed.

Definition bindings_kept m m' : Prop :=
  keeps ClientLcAddr m m' /\ keeps ClientType m m' /\ keeps CounterpartyKey m m' /\
  keeps Port m m' /\ keeps Frozen m m'.
#[export] Instance bindings_kept_preorder : PreOrder bindings_kept.
Proof.
  split.
  - intros m. by split_and!.
  - intros m1 m2 m3 (?&?&?&?&?) (?&?&?&?&?). split_and!; by etransitivity.
Qed.

Lemma writes_keep_bindings a m :
  typed m -> registry m -> enabled a m -> bindings_kept m (writes a m).
Proof.
  intros Ht Hreg He.
  assert (forall ct n lc, a = ACreate ct n lc ->
            m !! KData (ClientType (client_id_of ct n)) = None /\
            m !! KData (ClientLcAddr (client_id_of ct n)) = None) as Hfresh.
  { intros ct n lc ->. destruct He as (_ & Hn & _).
    pose proof (fresh_id _ _ _ Ht Hreg Hn) as Hf. split; [done|].
    apply eq_None_not_Some. rewrite (reg_lc _ Hreg), Hf. by intros []. }
  split_and!; intros id v Hv;
    rewrite ?writes_lc, ?writes_client_type, ?writes_counterparty, ?writes_frozen, ?writes_port;
    destruct a; try done; case_decide; subst; try done; simpl in *.
  - destruct (Hfresh _ _ _ eq_refl). congruence.
  - destruct (Hfresh _ _ _ eq_refl). congruence.
  - destruct He. congruence.
  - congruence.
  - apply Ht in Hv as Hv'. by destruct v; simpl in Hv'; simplify_eq.
Qed.

End Invariants.

(** ** Theorems on every ledger *)

Section LedgerTheorems.
Context {X : Type} `{Sha256} `{LightClients X} `{IbcApps X}.
Implicit Types w : World X.
Implicit Types m : gmap RKey RVal.

Lemma writes_keep_receipt a m cid n :
  is_Some (m !! receipt_key cid n) -> is_Some (writes a m !! receipt_key cid n).
Proof. rewrite writes_receipt. destruct a; try done; by case_decide. Qed.

Lemma receipt_kept w ls w' cid n :
  router_inv w -> steps step w ls w' ->
  is_Some (rdata w !! receipt_key cid n) -> is_Some (rdata w' !! receipt_key cid n).
Proof.
  intros Hi Hs. revert cid n.
  refine (steps_entries (fun m m' => forall cid n, is_Some (m !! receipt_key cid n) ->
                                     is_Some (m' !! receipt_key cid n)) _ _ _ _ _ Hi Hs).
  - split; [by intros m cid n|]. intros m1 m2 m3 H12 H23 cid n Hn. by apply H23, H12.
  - intros a m _ _ _ cid n. apply writes_keep_receipt.
Qed.

Lemma last_seq_mono w ls w' cid :
  router_inv w -> steps step w ls w' -> last_seq (rdata w) cid <= last_seq (rdata w') cid.
Proof.
  intros Hi Hs. revert cid.
  refine (steps_entries (fun m m' => forall cid, last_seq m cid <= last_seq m' cid) _ _ _ _ _ Hi Hs).
  - split; [by intros m cid|]. intros m1 m2 m3 H12 H23 cid. specialize (H12 cid). specialize (H23 cid). lia.
  - intros a m _ _ He cid. unfold last_seq at 2. rewrite writes_seq.
    destruct a; try done. case_decide as Hc; [subst|done]. destruct He as (_ & Hsq & _).
    apply last_seq_of in Hsq. lia.
Qed.

(** Splitting a ledger at one of its calls. *)
Lemma steps_split w l1 l l2 w' :
  router_inv w -> steps step w (l1 ++ l :: l2) w' ->
  exists w1 w2 a, steps step w l1 w1 /\ router_inv w1 /\ label_action l a /\ acts a w1 w2 /\
    router_inv w2 /\ steps step w2 l2 w'.
Proof.
  intros Hi Hs. apply steps_app_inv in Hs as (w1 & Hs1 & Hs2).
  inversion Hs2 as [|? ? w2 ? ? Hstep Hs3]; subst.
  pose proof (steps_inv _ _ _ Hi Hs1) as Hi1.
  destruct (step_refines _ _ _ (inv_typed _ Hi1) Hstep) as (a & Hl & Ha).
  exists w1, w2, a. split_and!; try done. by eapply acts_inv.
Qed.

(** C6: In every state a ledger can reach from the deployment of the router, whatever calls are
    made in whatever order (the unchecked writers included), every stored value has the type its
    key is read at, every client has both its type and its light client and an identifier minted
    from a counter that has moved on, only clients have counterparties or are frozen, and the
    administrator is set. *)
Theorem reachable_router_inv (w : World X) : reachable w -> router_inv w.
Proof.
  intros (admin & x & ls & Hs). eapply steps_inv; [|exact Hs]. apply deployed_inv.
Qed.

(** C3: The router refines its abstract transition system: every step of a ledger from a reachable
    state is one abstract action — the one its call and result name, enabled on the persistent
    entries before it — and changes the persistent entries and the event log exactly as the action
    says; failed transactions and those of other contracts are the silent action. *)
Theorem router_refines_abstract (w w' : World X) (l : label) :
  reachable w -> step w l w' -> exists a, label_action l a /\ acts a w w'.
Proof.
  intros (admin & x & ls & Hs). apply steps_inv in Hs as [Ht _ _]; [|apply deployed_inv].
  by apply step_refines.
Qed.

(** C23: Once made, the bindings of the router are permanent: on every ledger, after any sequence of
    transactions, a client keeps its type, its light client and its counterparty, a port keeps its
    application, and a frozen client stays frozen. *)
Theorem bindings_are_permanent (w w' : World X) (ls : list label) :
  reachable w -> steps step w ls w' -> bindings_kept (rdata w) (rdata w').
Proof.
  intros (admin & x & ls0 & Hs0). apply steps_entries.
  - apply _.
  - apply writes_keep_bindings.
  - eapply steps_inv; [|exact Hs0]. apply deployed_inv.
Qed.

(** C1: No packet is received twice: two successful [recv_packet] calls of one ledger never have
    the same destination client and sequence, whatever happens before, between and after them. *)
Theorem packet_received_at_most_once (admin : Address) (x : X) (l1 l2 l3 : list label)
    (e1 e2 : Env) (p1 p2 : Packet) (pr1 pr2 : bytes) (h1 h2 : Z) (w : World X) :
  steps step (deployed admin x)
    (l1 ++ LCall e1 (CRecvPacket p1 pr1 h1) VUnit :: l2 ++ LCall e2 (CRecvPacket p2 pr2 h2) VUnit :: l3)
    w ->
  (dest_client p1, sequence p1) <> (dest_client p2, sequence p2).
Proof.
  intros Hs [= Hc Hn]. apply steps_split in Hs as (w1 & w2 & a & _ & _ & [acks ->] & Ha & Hi2 & Hs);
    [|apply deployed_inv].
  apply steps_split in Hs as (w3 & w4 & a & Hs & _ & [acks' ->] & Ha' & _); [|done].
  eapply receipt_kept in Hs; [|done|].
  - destruct Ha' as ((_ & Hno & _) & _). rewrite <-Hc, <-Hn in Hno. rewrite Hno in Hs. by destruct Hs.
  - destruct Ha as (_ & -> & _). rewrite writes_receipt, decide_True by done. done.
Qed.

(** C24: Sequences only grow: on one ledger, a later successful [send_packet] of a client returns a
    strictly larger sequence than an earlier one. *)
Theorem sequences_strictly_increase (admin : Address) (x : X) (l1 l2 l3 : list label) (e1 e2 : Env)
    (cid : bytes) (t1 t2 : Z) (pls1 pls2 : list Payload) (n1 n2 : Z) (w : World X) :
  steps step (deployed admin x)
    (l1 ++ LCall e1 (CSendPacket cid t1 pls1) (VU64 n1) ::
     l2 ++ LCall e2 (CSendPacket cid t2 pls2) (VU64 n2) :: l3) w ->
  n1 < n2.
Proof.
  intros Hs. apply steps_split in Hs as (w1 & w2 & a & _ & _ & [dst ->] & Ha & Hi2 & Hs);
    [|apply deployed_inv].
  apply steps_split in Hs as (w3 & w4 & a & Hs & _ & [dst' ->] & Ha' & _); [|done].
  apply (last_seq_mono _ _ _ cid) in Hs; [|done].
  destruct Ha as (_ & Hd & _), Ha' as ((_ & Hseq & _) & _).
  apply last_seq_of in Hseq. simpl in Hseq. rewrite Hseq in Hs.
  unfold last_seq in Hs. rewrite Hd, writes_seq in Hs. simpl in Hs. rewrite decide_True in Hs by done.
  lia.
Qed.

End LedgerTheorems.

(** ** Theorems on ledgers that use the packet protocol only *)

Section ProtocolTheorems.
Context {X : Type} `{Sha256} `{LightClients X} `{IbcApps X}.
Implicit Types w : World X.
Implicit Types m : gmap RKey RVal.

(** A property of worlds kept by every action but the unchecked writers. *)
Lemma protocol_invariant (I : World X -> Prop) :
  (forall a w w', router_inv w -> raw_action a = false -> acts a w w' -> I w -> I w') ->
  forall w ls w', router_inv w -> protocol ls -> I w -> steps step w ls w' -> I w'.
Proof.
  intros Hact w ls w' Hi Hp HI Hs. induction Hs as [w|w l w1 ls w2 Hs1 Hs2 IH]; [done|].
  inversion Hp as [|? ? Hl Hls]; subst.
  destruct (step_refines _ _ _ (inv_typed _ Hi) Hs1) as (a & Hla & Ha).
  apply IH; [by eapply acts_inv|done|]. eapply Hact; [done| |done|done].
  by rewrite (label_action_raw _ _ Hla).
Qed.

(** Commitments belong to sequences already sent. *)
Definition commitments_sent m : Prop :=
  forall cid n, in_u64 n -> is_Some (m !! commitment_key cid n) -> n <= last_seq m cid.

Lemma writes_last_seq a m cid :
  last_seq (writes a m) cid =
  match a with
  | ASend p => if decide (source_client p = cid) then sequence p else last_seq m cid
  | _ => last_seq m cid
  end.
Proof. unfold last_seq. rewrite writes_seq. destruct a; try done. by case_decide. Qed.

Lemma writes_commitments_sent a m :
  enabled a m -> raw_action a = false -> commitments_sent m -> commitments_sent (writes a m).
Proof.
  intros He Hraw Hm cid n Hn. rewrite writes_commitment, writes_last_seq. specialize (Hm cid n Hn).
  destruct a; try done; simpl in *.
  - destruct He as (_ & Hs & Hp & _). apply last_seq_of in Hs.
    case_decide as Hk.
    + apply commitment_key_inj in Hk as [-> ->]; [|done..]. by rewrite decide_True.
    + case_decide; [|done]. subst. intros Hc%Hm. lia.
  - case_decide; [by intros []|done].
  - case_decide; [by intros []|done].
Qed.

Lemma deployed_commitments_sent admin x : commitments_sent (rdata (deployed (X:=X) admin x)).
Proof. intros cid n _. unfold rdata. simpl. rewrite lookup_empty. by intros []. Qed.

(** The commitment of a packet already resolved: gone for good. *)
Definition spent cid n m : Prop := m !! commitment_key cid n = None /\ n <= last_seq m cid.

Lemma writes_spent a m cid n :
  in_u64 n -> enabled a m -> raw_action a = false -> spent cid n m -> spent cid n (writes a m).
Proof.
  intros Hn He Hraw [Hc Hl]. unfold spent. rewrite writes_commitment, writes_last_seq.
  destruct a; try done; simpl in *; try by case_decide.
  destruct He as (_ & Hs & Hp & _). apply last_seq_of in Hs. split.
  - case_decide as Hk; [|done]. apply commitment_key_inj in Hk as [Hk <-]; [|done..].
    rewrite Hk in Hs. lia.
  - case_decide; [subst; lia|done].
Qed.

(** A label that resolves the packet [(cid, n)]. *)
Definition resolves (cid : bytes) (n : Z) (l : label) : Prop :=
  match l with
  | LCall _ (CAcknowledgePacket p _ _ _) VUnit | LCall _ (CTimeoutPacket p _ _) VUnit =>
      source_client p = cid /\ sequence p = n
  | _ => False
  end.

Lemma resolves_action cid n l a m :
  resolves cid n l -> label_action l a -> enabled a m ->
  in_u64 n /\ is_Some (m !! commitment_key cid n) /\ writes a m = delete (commitment_key cid n) m.
Proof.
  destruct l as [env c r| |]; try done. destruct c, r; try done; simpl; intros [<- <-] -> (-> & Hn & _);
    eauto.
Qed.

(** C2: A packet is resolved at most once: as long as the ledger's transactions use the packet
    protocol (the unchecked writers aside), no two successful [acknowledge_packet] or
    [timeout_packet] calls are about the same client and sequence; so a packet is never both
    acknowledged and timed out, and never refunded twice. *)
Theorem packet_resolved_at_most_once (admin : Address) (x : X) (l1 l2 l3 : list label)
    (r1 r2 : label) (cid : bytes) (n : Z) (w : World X) :
  protocol (l1 ++ r1 :: l2 ++ r2 :: l3) ->
  steps step (deployed admin x) (l1 ++ r1 :: l2 ++ r2 :: l3) w ->
  resolves cid n r1 -> ~ resolves cid n r2.
Proof.
  intros Hp Hs Hr1 Hr2. unfold protocol in Hp.
  apply Forall_app in Hp as [Hp1 (_ & [Hp2 _]%Forall_app)%Forall_cons_1].
  apply steps_split in Hs as (w1 & w2 & a & Hs1 & Hi1 & Hl & Ha & Hi2 & Hs); [|apply deployed_inv].
  apply steps_split in Hs as (w3 & w4 & a' & Hs2 & _ & Hl' & Ha' & _); [|done].
  destruct (resolves_action _ _ _ _ _ Hr1 Hl (proj1 Ha)) as (Hn & Hc & Hw).
  destruct (resolves_action _ _ _ _ _ Hr2 Hl' (proj1 Ha')) as (_ & Hc' & _).
  assert (commitments_sent (rdata w1)) as Hsent.
  { refine (protocol_invariant (fun w => commitments_sent (rdata w)) _ _ _ _ _ Hp1 _ Hs1).
    - intros b v v' _ Hb (He & -> & _). by apply writes_commitments_sent.
    - apply deployed_inv.
    - apply deployed_commitments_sent. }
  assert (spent cid n (rdata w3)) as [Hnone _].
  { refine (protocol_invariant (fun w => spent cid n (rdata w)) _ _ _ _ Hi2 Hp2 _ Hs2).
    - intros b v v' _ Hb (He & -> & _). by apply writes_spent.
    - destruct Ha as (_ & -> & _). rewrite Hw. split; [apply lookup_delete_eq|].
      unfold last_seq. rewrite lookup_delete_ne by done. by apply Hsent. }
  rewrite Hnone in Hc'. by destruct Hc'.
Qed.


(** The provable entries of the router are those an observer of its events rebuilds. *)
Definition mirrored w : Prop :=
  forall path, rdata w !! KPath path = RvBytes <$> observed (revents w) !! path.

Lemma observed_app evs evs' : observed (evs ++ evs') = foldl observe (observed evs) evs'.
Proof. apply foldl_app. Qed.

Lemma KPath_decide {A} (p q : bytes) (a b : A) :
  (if decide (KPath p = KPath q) then a else b) = (if decide (p = q) then a else b).
Proof. repeat case_decide; congruence. Qed.

Lemma acts_mirrored a w w' :
  raw_action a = false -> acts a w w' -> mirrored w -> mirrored w'.
Proof.
  intros Hraw (_ & Hd & _ & Hev) Hm path. specialize (Hm path).
  rewrite Hd, Hev, observed_app.
  destruct a; simpl in *; try done; unfold after_send, after_recv, after_resolve, commitment_key,
    receipt_key, ack_key; rewrite ?lookup_insert, ?lookup_delete, ?KPath_decide; rewrite ?Hm;
    repeat (case_decide; simpl; try done).
Qed.

(** C4: The events are a complete account of the provable store: on every ledger that uses the
    packet protocol, the commitments, receipts and acknowledgements stored by the router are, path
    by path and byte for byte, the ones an observer recomputes from the published events. *)
Theorem events_mirror_provable_store (admin : Address) (x : X) (ls : list label) (w : World X) :
  protocol ls -> steps step (deployed admin x) ls w ->
  forall path, rdata w !! KPath path = RvBytes <$> observed (revents w) !! path.
Proof.
  intros Hp Hs. refine (protocol_invariant mirrored _ _ _ _ _ Hp _ Hs).
  - intros a v v' _ Hraw Ha. by apply (acts_mirrored a).
  - apply deployed_inv.
  - intros path. unfold rdata, observed, revents. simpl. by rewrite !lookup_empty.
Qed.

(** Every stored commitment is the one of a packet whose sending was published. *)
Definition provenance w : Prop :=
  forall cid n v, in_u64 n -> rdata w !! commitment_key cid n = Some v ->
    exists p, SendPacketEvent cid n p ∈ revents w /\ source_client p = cid /\ sequence p = n /\
      v = RvBytes (core_packet_commitment p) /\ in_u64 (timeout_timestamp p).

Lemma acts_provenance a w w' :
  raw_action a = false -> acts a w w' -> provenance w -> provenance w'.
Proof.
  intros Hraw (He & Hd & _ & Hev) Hm cid n v Hn. specialize (Hm cid n).
  rewrite Hd, Hev, writes_commitment. setoid_rewrite elem_of_app.
  assert (rdata w !! commitment_key cid n = Some v ->
    exists p, (SendPacketEvent cid n p ∈ revents w \/ SendPacketEvent cid n p ∈ events a) /\
      source_client p = cid /\ sequence p = n /\ v = RvBytes (core_packet_commitment p) /\
      in_u64 (timeout_timestamp p)) as Hold by (intros; naive_solver).
  destruct a; try done; simpl in *; (case_decide as Hk; [|done]); [|done..].
  intros [= <-]. destruct He as (_ & _ & Hp & Ht).
  apply commitment_key_inj in Hk as [<- <-]; [|done..].
  exists p. split_and!; try done. right. by left.
Qed.

(** C5: Only packets that were sent are resolved: when, on a ledger that uses the packet protocol, an
    [acknowledge_packet] or [timeout_packet] of [p] succeeds, a packet [q] with the same client,
    sequence and commitment was sent before; and unless SHA-256 collides on the preimages at hand,
    [q] has the same destination, timeout and payloads, so it is [p]. *)
Theorem resolved_packet_was_sent (admin : Address) (x : X) (ls : list label) (w w' : World X)
    (env : Env) (p : Packet) (acks : list bytes) (proof : bytes) (h : Z) (c : Call) :
  protocol ls -> steps step (deployed admin x) ls w ->
  c = CAcknowledgePacket p acks proof h \/ c = CTimeoutPacket p proof h ->
  step w (LCall env c VUnit) w' ->
  exists q, SendPacketEvent (source_client p) (sequence p) q ∈ revents w /\
    core_packet_commitment q = core_packet_commitment p /\
    (Core.no_collision (packet_commitment_messages q ++ packet_commitment_messages p) -> q = p).
Proof.
  intros Hp Hs Hc Hstep.
  assert (router_inv w) as Hi by (eapply steps_inv; [apply deployed_inv|done]).
  assert (provenance w) as Hprov.
  { refine (protocol_invariant provenance _ _ _ _ _ Hp _ Hs).
    - intros a v v' _ Hraw Ha. by apply (acts_provenance a).
    - apply deployed_inv.
    - intros cid n v _. unfold rdata. simpl. by rewrite lookup_empty. }
  destruct (step_refines _ _ _ (inv_typed _ Hi) Hstep) as (a & Hla & He & _).
  assert (rdata w !! commitment_key (source_client p) (sequence p) =
            Some (RvBytes (core_packet_commitment p)) /\ in_u64 (sequence p) /\
          in_u64 (timeout_timestamp p)) as (Hst & Hn & Ht).
  { destruct Hc as [->| ->]; simpl in Hla; subst a; exact He. }
  destruct (Hprov _ _ _ Hn Hst) as (q & Hq & Hsrc & Hseq & [= Heq] & Htq).
  exists q. split_and!; [done|done|]. intros Hnc.
  destruct (core_packet_commitment_binding q p) as (Hd & Ht' & Hpl); [done..|].
  destruct p, q; simpl in *; by subst.
Qed.
End ProtocolTheorems.

(** ** Reads, freezing and the unchecked writers *)

Section MoreTheorems.
Context {X : Type} `{Sha256} `{LightClients X} `{IbcApps X}.
Implicit Types w : World X.

Lemma typed_read {A} (f : RVal -> option A) w k :
  (forall v, rdata w !! k = Some v -> is_Some (f v)) ->
  persistent_get f k w = Ok (w, rdata w !! k ≫= f).
Proof.
  intros Hf. unfold persistent_get, lift, typed_get.
  change (persistent_data (storage_of w)) with (rdata w).
  destruct (rdata w !! k) as [v|]; [|done]. simpl. destruct (Hf v eq_refl) as [a Ha]. by rewrite Ha.
Qed.

Lemma typed_read_bytes32 w k :
  (forall v, rdata w !! k = Some v -> exists b, v = RvBytes b /\ length b = 32%nat) ->
  typed_get as_bytes32 (rdata w !! k) = Ok (rdata w !! k ≫= as_bytes32).
Proof.
  intros Hf. destruct (rdata w !! k) as [v|]; [|done].
  destruct (Hf v eq_refl) as (b & -> & Hb). simpl. by rewrite decide_True.
Qed.

(** In every reachable state the queries of the router answer: none of them traps on a value of
    an unexpected type, and what they return is what is stored. *)
Theorem queries_answer (w : World X) (id : bytes) (n : Z) :
  reachable w ->
  counterparty id w = Ok (w, rdata w !! KData (CounterpartyKey id) ≫= as_counterparty) /\
  client_lc_address id w = Ok (w, rdata w !! KData (ClientLcAddr id) ≫= as_address) /\
  port_app id w = Ok (w, rdata w !! KData (Port id) ≫= as_address) /\
  frozen id w = Ok (w, is_frozen (rdata w) id) /\
  (id_fits id ->
     packet_commitment id n w = Ok (w, rdata w !! commitment_key id n ≫= as_bytes32) /\
     acknowledgement id n w = Ok (w, rdata w !! ack_key id n ≫= as_bytes32) /\
     has_packet_receipt id n w = Ok (w, bool_decide (is_Some (rdata w !! receipt_key id n)))).
Proof.
  intros (admin & x & ls & Hs). apply steps_inv in Hs as [Ht _ _]; [|apply deployed_inv].
  assert (forall k v, rdata w !! k = Some v -> typed_entry k v) as Hte by (intros; by apply Ht).
  split_and!.
  - apply typed_read. intros v Hv%Hte. by destruct v.
  - apply typed_read. intros v Hv%Hte. by destruct v.
  - apply typed_read. intros v Hv%Hte. by destruct v.
  - unfold frozen. rewrite (M_bind_run _ _ w w (rdata w !! KData (Frozen id) ≫= as_bool)).
    + unfold is_frozen. by destruct (rdata w !! KData (Frozen id)) as [[]|].
    + apply typed_read. intros v Hv%Hte. by destruct v.
  - intros Hf. split_and!.
    + apply packet_commitment_run; [done|]. apply typed_read_bytes32. intros v Hv%Hte.
      unfold commitment_key, Core.packet_commitment_path in Hv. simpl in Hv.
      rewrite v2_path_path_kind in Hv. destruct v; eauto; done.
    + apply acknowledgement_run; [done|]. apply typed_read_bytes32. intros v Hv%Hte.
      unfold ack_key, Core.ack_commitment_path in Hv. simpl in Hv.
      rewrite v2_path_path_kind in Hv. destruct v; eauto; done.
    + by apply has_packet_receipt_run.
Qed.

Lemma is_frozen_entry m id : is_frozen m id = true <-> m !! KData (Frozen id) = Some (RvBool true).
Proof. unfold is_frozen. destruct (m !! KData (Frozen id)) as [[]|]; naive_solver. Qed.

(** Freezing is for ever: once misbehaviour has frozen a client, on every continuation of the
    ledger every [update_client] for it fails with [ClientFrozen], without asking the light
    client. *)
Theorem frozen_client_stays_closed (w w' : World X) (ls : list label) (env : Env)
    (id msg : bytes) :
  reachable w -> is_frozen (rdata w) id = true -> steps step w ls w' ->
  update_client env id msg w' = Err (error_of ClientFrozen).
Proof.
  intros (admin & x & ls0 & Hs0) Hf%is_frozen_entry Hs.
  assert (bindings_kept (rdata w) (rdata w')) as (_ & _ & _ & _ & Hk).
  { eapply (steps_entries bindings_kept); [apply _|apply writes_keep_bindings| |exact Hs].
    eapply steps_inv; [apply deployed_inv|exact Hs0]. }
  apply Hk in Hf. unfold update_client.
  by rewrite (run_get _ _ _ _ (Some true)) by (by rewrite Hf).
Qed.

(** The store's writers are open to everyone: with no signature and no calling contract, in any
    state, [set_packet_commitment] stores the commitment of a packet that was never sent and
    publishes nothing, and [set_packet_receipt] blocks a packet that has not arrived. *)
Theorem store_writers_are_unauthenticated (w : World X) (env : Env) (p : Packet) :
  signers env = ∅ -> invoker env = None ->
  id_fits (source_client p) -> id_fits (dest_client p) ->
  (exists w', exec env (CSetPacketCommitment (source_client p) (sequence p)
                          (core_packet_commitment p)) w = Ok (w', VUnit) /\
     rdata w' !! commitment_key (source_client p) (sequence p) =
       Some (RvBytes (core_packet_commitment p)) /\ revents w' = revents w) /\
  (exists w', exec env (CSetPacketReceipt (dest_client p) (sequence p)) w = Ok (w', VUnit) /\
     is_Some (rdata w' !! receipt_key (dest_client p) (sequence p)) /\ revents w' = revents w).
Proof.
  intros _ _ Hs Hd. split.
  - destruct (set_packet_commitment_total env (source_client p) (sequence p)
                (core_packet_commitment p) w Hs) as [w' Hw'].
    exists w'. split; [apply returning_Ok; eauto|].
    apply set_packet_commitment_Ok in Hw' as (_ & -> & _ & -> & _).
    split; [apply lookup_insert_eq|done].
  - destruct (set_packet_receipt_total env (dest_client p) (sequence p) w Hd) as [w' Hw'].
    exists w'. split; [apply returning_Ok; eauto|].
    apply set_packet_receipt_Ok in Hw' as (_ & -> & _ & -> & _).
    split; [rewrite lookup_insert_eq; eauto|done].
Qed.

End MoreTheorems.
