(* ===== verification/Transfer.v ===== *)
(** * The token-transfer application ([contracts/soroban/ibc-transfer/src/lib.rs])

    An ICS-20 application with balances in its own storage, an escrow account, a daily rate limit
    per denomination and a router it takes packets from.  The XDR codecs of the Soroban SDK are
    parameters ([Xdr]); the laws used of them are the class [XdrLaws]. *)

From Stdlib Require Import ZArith Lia Strings.Byte Strings.String.
From stdpp Require Import base option list gmap numbers.
From S2P Require Import Prelude Bytes Host RouterTypes Ics24Host.
Open Scope Z_scope.

Module IbcTransfer.

(** ** Data *)

Definition PORT : bytes := bstr "transfer".
Definition VERSION : bytes := bstr "ics20-1".
Definition ENCODING : bytes := bstr "application/json".
Definition SUCCESS_ACK_BYTE : byte := Byte.x01.
Definition SECS_PER_DAY : Z := 86400.

Inductive Error : Type :=
| RouterNotSet
| InvalidPacketData
| InsufficientBalance
| AmountMustBePositive
| CallerIsNotRouter
| UnknownSourcePort
| UnknownDestPort
| AdminNotSet
| DailyLimitExceeded.

Definition Error_code (e : Error) : Z :=
  match e with
  | RouterNotSet => 1
  | InvalidPacketData => 2
  | InsufficientBalance => 3
  | AmountMustBePositive => 4
  | CallerIsNotRouter => 5
  | UnknownSourcePort => 6
  | UnknownDestPort => 7
  | AdminNotSet => 8
  | DailyLimitExceeded => 9
  end.

#[export] Instance Error_ContractErr : ContractErr Error.
Proof.
  refine {| err_kind := KTransfer; err_code := Error_code |}. by intros [] [].
Defined.

Record Token : Type := MkToken { denom : bytes; amount : Z }.

Record FungibleTokenPacketData : Type := MkData {
  token : Token;
  sender : bytes;
  receiver : bytes;
  memo : bytes;
}.

Inductive DataKey : Type :=
| Router
| Admin
| Balance (who : Address) (denom : bytes)
| DailyCap (denom : bytes)
| Usage (denom : bytes) (day : Z).

#[export] Instance DataKey_eq_dec : EqDecision DataKey.
Proof. solve_decision. Defined.
#[export] Instance DataKey_countable : Countable DataKey.
Proof.
  refine (inj_countable'
    (fun k => match k with
              | Router => inl true
              | Admin => inl false
              | Balance a d => inr (inl (a, d))
              | DailyCap d => inr (inr (d, None))
              | Usage d n => inr (inr (d, Some n))
              end)
    (fun s => match s with
              | inl true => Router
              | inl false => Admin
              | inr (inl (a, d)) => Balance a d
              | inr (inr (d, None)) => DailyCap d
              | inr (inr (d, Some n)) => Usage d n
              end) _).
  by intros [].
Defined.

Inductive Val : Type := TvAddress (a : Address) | TvI128 (n : Z).
Definition as_address (v : Val) : option Address := match v with TvAddress a => Some a | _ => None end.
Definition as_i128 (v : Val) : option Z := match v with TvI128 n => Some n | _ => None end.

(** The SDK's XDR codecs: [Address::to_xdr], [Address::from_xdr] and
    [FungibleTokenPacketData::from_xdr]. *)
Class Xdr := {
  address_to_xdr : Address -> bytes;
  address_from_xdr : bytes -> xdr_read Address;
  data_from_xdr : bytes -> xdr_read FungibleTokenPacketData;
}.

(** The router as the application calls it. *)
Class RouterClient (R : Type) := {
  router_send_packet : Env -> Address -> bytes -> Z -> list Payload -> R -> res (R * Z);
}.

(** The application's storage beside the rest [R] of the ledger. *)
Record TWorld (R : Type) : Type := MkTW { tw_storage : Storage DataKey Val; tw_rest : R }.
Arguments MkTW {R} _ _.
Arguments tw_storage {R} _.
Arguments tw_rest {R} _.

#[export] Instance TWorld_HasStorage {R} : HasStorage (TWorld R) DataKey Val.
Proof.
  refine {| storage_of := tw_storage; with_storage := fun st w => MkTW st (tw_rest w) |}. done.
Defined.

Definition tinvoke {R A} (f : R -> res (R * A)) : run (TWorld R) A :=
  fun w => match f (tw_rest w) with
           | Ok (r, a) => Ok (MkTW (tw_storage w) r, a)
           | Err e => Err e
           end.

Definition panic_if {S} (b : bool) (e : Error) : run S unit := fail_if b (error_of e).
Definition expect_some {S A} (e : Error) (o : option A) : run S A := unwrap_or_fail (error_of e) o.

(** ** Text *)

Definition quote : bytes := [Byte.x22].

(** [let mut tmp = [0u8; 512]; s.copy_into_slice(&mut tmp[..len]); &tmp[..len]]. *)
Definition append_string (buf s : bytes) : res bytes :=
  let len := length s in
  tmp ← checked (buf_write (zeros 512) 0 s);
  data ← checked (buf_prefix tmp len);
  Ok (buf ++ data).

(** [while n > 0 { i -= 1; digits[i] = b'0' + (n % 10) as u8; n /= 10; }]; [i -= 1] at 0 traps, so 41
    rounds suffice for the 40 bytes of [digits]. *)
Fixpoint append_decimal_loop (fuel : nat) (n : Z) (i : nat) (digits : bytes) : res (bytes * nat) :=
  match fuel with
  | O => Err IndexOutOfBounds
  | S fuel =>
      if 0 <? n then
        match i with
        | O => Err ArithmeticOverflow
        | S i =>
            digits ← checked (buf_write digits i [digit_byte (n mod 10)]);
            append_decimal_loop fuel (n / 10) i digits
        end
      else Ok (digits, i)
  end.

Definition append_decimal (buf : bytes) (n : Z) : res bytes :=
  if n <=? 0 then Ok (buf ++ [digit_byte 0])
  else
    '(digits, i) ← append_decimal_loop 41 n 40 (zeros 40);
    Ok (buf ++ drop i digits).

Definition encode_ics20_json (packet : FungibleTokenPacketData) : res bytes :=
  let buf := bstr "{" ++ quote ++ bstr "denom" ++ quote ++ bstr ":" ++ quote in
  buf ← append_string buf (denom (token packet));
  let buf := buf ++ quote ++ bstr "," ++ quote ++ bstr "amount" ++ quote ++ bstr ":" ++ quote in
  buf ← append_decimal buf (amount (token packet));
  let buf := buf ++ quote ++ bstr "," ++ quote ++ bstr "sender" ++ quote ++ bstr ":" ++ quote in
  buf ← append_string buf (sender packet);
  let buf := buf ++ quote ++ bstr "," ++ quote ++ bstr "receiver" ++ quote ++ bstr ":" ++ quote in
  buf ← append_string buf (receiver packet);
  let buf := buf ++ quote ++ bstr "," ++ quote ++ bstr "memo" ++ quote ++ bstr ":" ++ quote in
  buf ← append_string buf (memo packet);
  Ok (buf ++ quote ++ bstr "}").

Definition ack_prefix : bytes := bstr "{" ++ quote ++ bstr "result" ++ quote.

(** [for (i, b) in prefix.iter().enumerate() { if ack.get(i).unwrap_or(0) != *b { return false } }]. *)
Fixpoint ack_matches (ack : bytes) (i : nat) (prefix : bytes) : bool :=
  match prefix with
  | [] => true
  | b :: prefix =>
      if negb (bool_decide (default Byte.x00 (ack !! i) = b)) then false
      else ack_matches ack (S i) prefix
  end.

Definition is_success_ack (ack : bytes) : bool :=
  if (length ack =? 1)%nat && bool_decide (default Byte.x00 (ack !! 0%nat) = SUCCESS_ACK_BYTE)
  then true
  else if (length ack <? length ack_prefix)%nat then false
  else ack_matches ack 0 ack_prefix.

(** ** Addresses as hexadecimal text *)

(** The arithmetic is on [u8]; the nibbles are below 16. *)
Definition nibble_to_hex (n : Z) : byte :=
  if n <? 10 then byte_of_Z (48 + n) else byte_of_Z (97 + (n - 10)).

Definition hex_to_nibble (c : byte) : res Z :=
  let c := Z_of_byte c in
  if (48 <=? c) && (c <=? 57) then Ok (c - 48)
  else if (97 <=? c) && (c <=? 102) then Ok (c - 97 + 10)
  else if (65 <=? c) && (c <=? 70) then Ok (c - 65 + 10)
  else Err (error_of InvalidPacketData).

(** [for i in 0..len { hex[i * 2] = ..(buf[i] >> 4); hex[i * 2 + 1] = ..(buf[i] & 0x0f); }]. *)
Fixpoint to_hex_loop (buf : bytes) (ixs : list nat) (hex : bytes) : res bytes :=
  match ixs with
  | [] => Ok hex
  | i :: ixs =>
      b ← checked (buf !! i);
      hex ← checked (buf_write hex (i * 2) [nibble_to_hex (Z.shiftr (Z_of_byte b) 4)]);
      hex ← checked (buf_write hex (i * 2 + 1) [nibble_to_hex (Z.land (Z_of_byte b) 15)]);
      to_hex_loop buf ixs hex
  end.

(** [for i in 0..bytes_len { buf[i] = (hi << 4) | lo; }]. *)
Fixpoint from_hex_loop (hex : bytes) (ixs : list nat) (buf : bytes) : res bytes :=
  match ixs with
  | [] => Ok buf
  | i :: ixs =>
      ch ← checked (hex !! (i * 2)%nat);
      hi ← hex_to_nibble ch;
      cl ← checked (hex !! (i * 2 + 1)%nat);
      lo ← hex_to_nibble cl;
      buf ← checked (buf_write buf i [byte_of_Z (Z.lor (Z.shiftl hi 4) lo)]);
      from_hex_loop hex ixs buf
  end.

Section Codecs.
Context `{Xdr}.

Definition address_to_string (addr : Address) : res bytes :=
  let xdr := address_to_xdr addr in
  let len := length xdr in
  buf ← checked (buf_write (zeros 256) 0 xdr);
  hex ← to_hex_loop buf (seq 0 len) (zeros 512);
  checked (buf_prefix hex (len * 2)).

Definition string_to_address (s : bytes) : res Address :=
  let len := length s in
  if negb (len mod 2 =? 0)%nat || (512 <? len)%nat then Err (error_of InvalidPacketData)
  else
    hex ← checked (buf_write (zeros 512) 0 s);
    let bytes_len := (len / 2)%nat in
    buf ← from_hex_loop hex (seq 0 bytes_len) (zeros 256);
    data ← checked (buf_prefix buf bytes_len);
    from_xdr_or (error_of InvalidPacketData) (address_from_xdr data).

Definition decode_packet (value : bytes) : res FungibleTokenPacketData :=
  from_xdr_or (error_of InvalidPacketData) (data_from_xdr value).

End Codecs.

(** ** Operations *)

Section Operations.
Context {S : Type} `{HasStorage S DataKey Val} `{Xdr}.

Definition current_day (env : Env) : Z := ledger_timestamp env / SECS_PER_DAY.

Definition constructor (router admin : Address) : run S unit :=
  _ ← instance_set Router (TvAddress router);
  instance_set Admin (TvAddress admin).

Definition set_rate_limit (env : Env) (denom : bytes) (daily_cap : Z) : run S unit :=
  o ← instance_get as_address Admin;
  admin ← expect_some AdminNotSet o;
  _ ← require_auth env admin;
  _ ← panic_if (daily_cap <? 0) AmountMustBePositive;
  persistent_set env (DailyCap denom) (TvI128 daily_cap).

Definition daily_cap (denom : bytes) : run S (option Z) := persistent_get as_i128 (DailyCap denom).

Definition daily_usage (env : Env) (denom : bytes) : run S Z :=
  let day := current_day env in
  o ← persistent_get as_i128 (Usage denom day);
  mret (default 0 o).

Definition mint (env : Env) (to : Address) (denom : bytes) (amount : Z) : run S unit :=
  _ ← panic_if (amount <=? 0) AmountMustBePositive;
  let key := Balance to denom in
  o ← persistent_get as_i128 key;
  sum ← lift (i128_add (default 0 o) amount);
  persistent_set env key (TvI128 sum).

Definition balance_of (who : Address) (denom : bytes) : run S Z :=
  o ← persistent_get as_i128 (Balance who denom);
  mret (default 0 o).

Definition debit (env : Env) (who : Address) (denom : bytes) (amount : Z) : run S unit :=
  let key := Balance who denom in
  o ← persistent_get as_i128 key;
  let cur := default 0 o in
  _ ← panic_if (cur <? amount) InsufficientBalance;
  rest ← lift (i128_sub cur amount);
  persistent_set env key (TvI128 rest).

Definition credit (env : Env) (who : Address) (denom : bytes) (amount : Z) : run S unit :=
  let key := Balance who denom in
  o ← persistent_get as_i128 key;
  sum ← lift (i128_add (default 0 o) amount);
  persistent_set env key (TvI128 sum).

Definition refund (env : Env) (packet : FungibleTokenPacketData) : run S unit :=
  let escrow := current_contract_address env in
  sender_addr ← lift (string_to_address (sender packet));
  _ ← debit env escrow (denom (token packet)) (amount (token packet));
  credit env sender_addr (denom (token packet)) (amount (token packet)).

Definition require_router (env : Env) : run S unit :=
  o ← instance_get as_address Router;
  router_addr ← expect_some RouterNotSet o;
  require_auth env router_addr.

Definition enforce_rate_limit (env : Env) (denom : bytes) (amount : Z) : run S unit :=
  o ← persistent_get as_i128 (DailyCap denom);
  match o with
  | None => mret tt
  | Some cap =>
      let day := current_day env in
      let usage_key := Usage denom day in
      o ← persistent_get as_i128 usage_key;
      sum ← lift (i128_add (default 0 o) amount);
      _ ← panic_if (cap <? sum) DailyLimitExceeded;
      persistent_set env usage_key (TvI128 sum)
  end.

Definition on_recv_packet (env : Env) (callback : OnRecvPacketCallback) : run S bytes :=
  _ ← require_router env;
  _ ← panic_if (negb (bool_decide (dest_port (orc_payload callback) = PORT))) UnknownDestPort;
  packet ← lift (decode_packet (value (orc_payload callback)));
  receiver_addr ← lift (string_to_address (receiver packet));
  _ ← credit env receiver_addr (denom (token packet)) (amount (token packet));
  mret [SUCCESS_ACK_BYTE].

Definition on_acknowledgement_packet (env : Env) (callback : OnAcknowledgementPacketCallback) :
    run S unit :=
  _ ← require_router env;
  _ ← panic_if (negb (bool_decide (source_port (oac_payload callback) = PORT))) UnknownSourcePort;
  if is_success_ack (oac_acknowledgement callback) then mret tt
  else
    packet ← lift (decode_packet (value (oac_payload callback)));
    refund env packet.

Definition on_timeout_packet (env : Env) (callback : OnTimeoutPacketCallback) : run S unit :=
  _ ← require_router env;
  _ ← panic_if (negb (bool_decide (source_port (otc_payload callback) = PORT))) UnknownSourcePort;
  packet ← lift (decode_packet (value (otc_payload callback)));
  refund env packet.

End Operations.

Section Initiate.
Context {R : Type} `{RouterClient R} `{Xdr}.

Definition initiate_transfer (env : Env) (sender : Address) (source_client_id denom : bytes)
    (amount : Z) (receiver : bytes) (timeout_timestamp : Z) (memo : bytes) : run (TWorld R) Z :=
  _ ← require_auth env sender;
  _ ← panic_if (amount <=? 0) AmountMustBePositive;
  _ ← enforce_rate_limit env denom amount;
  let escrow := current_contract_address env in
  _ ← debit env sender denom amount;
  _ ← credit env escrow denom amount;
  from ← lift (address_to_string sender);
  let packet := MkData (MkToken denom amount) from receiver memo in
  value ← lift (encode_ics20_json packet);
  let payload := MkPayload PORT PORT VERSION ENCODING value in
  o ← instance_get as_address Router;
  router_addr ← expect_some RouterNotSet o;
  tinvoke (router_send_packet (call_env env router_addr) router_addr source_client_id
             timeout_timestamp [payload]).

End Initiate.

End IbcTransfer.
