(* ===== verification/TransferSpec.v ===== *)
(** * Properties of the token-transfer application

    The text codecs (hexadecimal addresses, decimal amounts, ICS-20 JSON, acknowledgements), the
    balances (conservation, authorisation, refunds) and the rate limit of [Transfer]. *)

From Stdlib Require Import ZArith Lia Strings.Byte Strings.String.
From stdpp Require Import base option list gmap numbers.
From S2P Require Import Prelude Bytes Host RouterTypes Ics24Host Transfer.
Open Scope Z_scope.
Import IbcTransfer.

(** ** Laws of the XDR codecs *)

(** Decoding inverts encoding; an address takes at most 256 bytes (44 in fact); a value starts with the four
    bytes of its discriminant, which is at most 21. *)
Class XdrLaws `{Xdr} : Prop := {
  address_xdr_roundtrip : forall a, address_ok a -> address_from_xdr (address_to_xdr a) = XdrValue a;
  address_xdr_length : forall a, address_ok a -> (length (address_to_xdr a) <= 256)%nat;
  data_xdr_discriminant : forall b, data_from_xdr b <> XdrMalformed ->
    exists d, take 4 b = to_be_bytes 4 d /\ 0 <= d <= 21;
}.

(** ** Hexadecimal text *)

Definition hex_of (bs : bytes) : bytes :=
  concat (map (fun b => [nibble_to_hex (Z.shiftr (Z_of_byte b) 4);
                         nibble_to_hex (Z.land (Z_of_byte b) 15)]) bs).

Lemma hex_of_length bs : length (hex_of bs) = (2 * length bs)%nat.
Proof. unfold hex_of. induction bs as [|b bs IH]; simpl; [done|]. rewrite IH. lia. Qed.

Lemma hex_of_app l1 l2 : hex_of (l1 ++ l2) = hex_of l1 ++ hex_of l2.
Proof. unfold hex_of. by rewrite map_app, concat_app. Qed.

Lemma take_S_lookup {A} (l : list A) i x : l !! i = Some x -> take (S i) l = take i l ++ [x].
Proof. apply take_S_r. Qed.

Lemma to_hex_loop_spec buf bs j hex k :
  take (length bs) buf = bs -> (j + k = length bs)%nat -> (2 * length bs <= length hex)%nat ->
  take (2 * j) hex = hex_of (take j bs) ->
  exists hex', to_hex_loop buf (seq j k) hex = Ok hex' /\ length hex' = length hex /\
    take (2 * length bs) hex' = hex_of bs.
Proof.
  intros Hb. revert j hex. induction k as [|k IH]; intros j hex Hj Hl Hp; cbn [seq to_hex_loop].
  - exists hex. split_and!; [done..|]. replace (length bs) with j by lia. rewrite Hp.
    by rewrite take_ge by lia.
  - assert (exists b, bs !! j = Some b) as [b Hbj] by (apply lookup_lt_is_Some_2; lia).
    assert (buf !! j = Some b) as -> by (rewrite <-Hbj, <-Hb at 1; by rewrite lookup_take_lt by lia).
    cbn [checked ok_or mbind result_bind].
    assert (length (hex_of (take j bs)) = (j * 2)%nat) as Hlen
      by (rewrite hex_of_length, length_take; lia).
    destruct (buf_write_prefix hex (hex_of (take j bs)) [nibble_to_hex (Z.shiftr (Z_of_byte b) 4)])
      as (h1 & Hw1 & Hl1 & Ht1); [rewrite Hlen, <-Hp; f_equal; lia|rewrite Hlen; simpl; lia|].
    rewrite Hlen in Hw1. rewrite Hw1. cbn [checked ok_or mbind result_bind].
    destruct (buf_write_prefix h1 (hex_of (take j bs) ++ [nibble_to_hex (Z.shiftr (Z_of_byte b) 4)])
                [nibble_to_hex (Z.land (Z_of_byte b) 15)])
      as (h2 & Hw2 & Hl2 & Ht2); [done|rewrite length_app, Hlen; simpl; lia|].
    rewrite length_app, Hlen in Hw2. simpl in Hw2. rewrite Hw2. cbn [checked ok_or mbind result_bind].
    rewrite !length_app, Hlen in Ht2. simpl in Ht2.
    destruct (IH (S j) h2) as (h3 & Hr & Hl3 & Ht3); [lia|lia| |].
    + replace (2 * S j)%nat with (j * 2 + 1 + 1)%nat by lia. rewrite Ht2.
      rewrite (take_S_lookup _ _ _ Hbj), hex_of_app, <-app_assoc. done.
    + exists h3. split_and!; [exact Hr|lia|exact Ht3].
Qed.

Lemma nibble_roundtrip n : 0 <= n < 16 -> hex_to_nibble (nibble_to_hex n) = Ok n.
Proof.
  intros Hn. pose proof (proj2 (elem_of_seqZ 0 16 n) Hn) as Hin. revert n Hn Hin.
  assert (Forall (fun n => hex_to_nibble (nibble_to_hex n) = Ok n) (seqZ 0 16)) as Hall
    by (vm_compute; repeat constructor).
  intros n _ Hin. exact (proj1 (list.Forall_forall _ _) Hall n Hin).
Qed.

Lemma nibbles_of_byte b :
  0 <= Z.shiftr (Z_of_byte b) 4 < 16 /\ 0 <= Z.land (Z_of_byte b) 15 < 16 /\
  byte_of_Z (Z.lor (Z.shiftl (Z.shiftr (Z_of_byte b) 4) 4) (Z.land (Z_of_byte b) 15)) = b.
Proof. destruct b; vm_compute; repeat split; congruence. Qed.

Lemma hex_of_lookup bs j b :
  bs !! j = Some b ->
  hex_of bs !! (j * 2)%nat = Some (nibble_to_hex (Z.shiftr (Z_of_byte b) 4)) /\
  hex_of bs !! (j * 2 + 1)%nat = Some (nibble_to_hex (Z.land (Z_of_byte b) 15)).
Proof.
  revert j. induction bs as [|c bs IH]; intros [|j]; simpl; intros Hb; try done.
  - by injection Hb as <-.
  - by apply IH.
Qed.

Lemma from_hex_loop_spec hex bs j buf k :
  take (2 * length bs) hex = hex_of bs -> (j + k = length bs)%nat -> (length bs <= length buf)%nat ->
  take j buf = take j bs ->
  exists buf', from_hex_loop hex (seq j k) buf = Ok buf' /\ length buf' = length buf /\
    take (length bs) buf' = bs.
Proof.
  intros Hh. revert j buf. induction k as [|k IH]; intros j buf Hj Hl Hp; cbn [seq from_hex_loop].
  - exists buf. split_and!; [done..|]. replace (length bs) with j by lia. rewrite Hp.
    by rewrite take_ge by lia.
  - assert (exists b, bs !! j = Some b) as [b Hbj] by (apply lookup_lt_is_Some_2; lia).
    destruct (hex_of_lookup _ _ _ Hbj) as [H1 H2]. rewrite <-Hh in H1, H2.
    rewrite lookup_take_lt in H1, H2 by lia. rewrite H1, H2.
    destruct (nibbles_of_byte b) as (Hn1 & Hn2 & Hb).
    cbn [checked ok_or mbind result_bind]. rewrite (nibble_roundtrip _ Hn1).
    cbn [mbind result_bind]. rewrite (nibble_roundtrip _ Hn2). cbn [mbind result_bind]. rewrite Hb.
    assert (length (take j bs) = j) as Hlj by (rewrite length_take; lia).
    destruct (buf_write_prefix buf (take j bs) [b]) as (b1 & Hw & Hl1 & Ht1);
      [by rewrite Hlj|rewrite Hlj; simpl; lia|].
    rewrite Hlj in Hw. rewrite Hw. cbn [checked ok_or mbind result_bind].
    rewrite length_app, Hlj in Ht1. simpl in Ht1.
    destruct (IH (S j) b1) as (b2 & Hr & Hl2 & Ht2); [lia|lia| |].
    + replace (S j) with (j + 1)%nat at 1 by lia. rewrite Ht1. symmetry. by apply take_S_lookup.
    + exists b2. split_and!; [exact Hr|lia|exact Ht2].
Qed.

Section HexAddress.
Context `{XdrLaws}.

Lemma address_to_string_eq a :
  address_ok a -> address_to_string a = Ok (hex_of (address_to_xdr a)).
Proof.
  intros Ha. pose proof (address_xdr_length a Ha) as Hl. unfold address_to_string.
  destruct (buf_write_start (zeros 256) (address_to_xdr a)) as (b & -> & Hlb & Htb);
    [by rewrite zeros_length|]. cbn [checked ok_or mbind result_bind].
  destruct (to_hex_loop_spec b (address_to_xdr a) 0 (zeros 512) (length (address_to_xdr a)))
    as (h & -> & Hlh & Hth); [done|done|rewrite zeros_length; lia|done|].
  cbn [mbind result_bind]. rewrite (buf_prefix_Some _ _ (hex_of (address_to_xdr a))); [done| |].
  - rewrite Hlh, zeros_length. lia.
  - rewrite <-Hth. f_equal. lia.
Qed.

(** The sender and receiver fields of a packet are faithful: the text of an address is the
    lower-case hexadecimal of its XDR bytes, and reading it back gives the address, for every
    address. *)
Theorem address_text_roundtrip (a : Address) :
  address_ok a ->
  address_to_string a = Ok (hex_of (address_to_xdr a)) /\
  string_to_address (hex_of (address_to_xdr a)) = Ok a.
Proof.
  intros Ha. split; [by apply address_to_string_eq|].
  pose proof (address_xdr_length a Ha) as Hl. unfold string_to_address. rewrite hex_of_length.
  rewrite (Nat.mul_comm 2), Nat.Div0.mod_mul, Nat.div_mul by lia. simpl.
  destruct (Nat.ltb_spec 512 (length (address_to_xdr a) * 2)); [lia|].
  destruct (buf_write_start (zeros 512) (hex_of (address_to_xdr a))) as (h & -> & Hlh & Hth);
    [rewrite zeros_length, hex_of_length; lia|]. cbn [checked ok_or mbind result_bind].
  rewrite hex_of_length in Hth.
  destruct (from_hex_loop_spec h (address_to_xdr a) 0 (zeros 256) (length (address_to_xdr a)))
    as (b & -> & Hlb & Htb); [done|done|by rewrite zeros_length|done|].
  cbn [mbind result_bind]. rewrite (buf_prefix_Some _ _ (address_to_xdr a)); [|by rewrite Hlb, zeros_length|done].
  cbn [checked ok_or mbind result_bind]. by rewrite address_xdr_roundtrip by done.
Qed.

End HexAddress.

(** The codecs of the SDK on addresses: the [ScVal::Address] discriminant 18, the kind of address
    (and of account key), the 32 bytes.  A struct is a map, which this instance never decodes. *)
Definition scval_address (a : Address) : bytes :=
  match a with
  | AccountAddress i => to_be_bytes 4 18 ++ to_be_bytes 4 0 ++ to_be_bytes 4 0 ++ i
  | ContractAddress i => to_be_bytes 4 18 ++ to_be_bytes 4 1 ++ i
  end.
Definition scval_address_decode (b : bytes) : xdr_read Address :=
  if decide (take 4 b = to_be_bytes 4 18) then
    if decide (take 8 (drop 4 b) = to_be_bytes 4 0 ++ to_be_bytes 4 0) then
      XdrValue (AccountAddress (drop 12 b))
    else if decide (take 4 (drop 4 b) = to_be_bytes 4 1) then XdrValue (ContractAddress (drop 8 b))
    else XdrMalformed
  else XdrMalformed.

Definition sample_xdr : Xdr :=
  {| address_to_xdr := scval_address; address_from_xdr := scval_address_decode;
     data_from_xdr := fun _ => XdrMalformed |}.

Lemma sample_xdr_laws : @XdrLaws sample_xdr.
Proof. constructor; [by intros []| |done]. intros [i|i]; simpl; intros Hi; rewrite Hi; lia. Qed.

Lemma address_text_roundtrip_witness :
  let a := ContractAddress (replicate 32 Byte.xab) in
  @address_to_string sample_xdr a = Ok (hex_of (scval_address a)) /\
  @string_to_address sample_xdr (hex_of (scval_address a)) = Ok a.
Proof.
  apply (@address_text_roundtrip sample_xdr sample_xdr_laws). reflexivity.
Defined.

(** ** Decimal amounts *)

Lemma buf_write_before digits i c :
  (i < length digits)%nat ->
  exists d', buf_write digits i [c] = Some d' /\ length d' = length digits /\
    drop i d' = c :: drop (S i) digits.
Proof.
  intros Hi. unfold buf_write. rewrite decide_True by (simpl; lia). eexists. split; [done|].
  assert (length (take i digits) = i) as Hl by (rewrite length_take; lia). split.
  - rewrite !length_app, length_take, length_drop. simpl. lia.
  - simpl. rewrite drop_app_length' by (by rewrite Hl).
    by replace (i + 1)%nat with (S i) by lia.
Qed.

Lemma append_decimal_loop_spec fuel n i digits :
  0 <= n < 10 ^ Z.of_nat fuel -> (fuel <= i)%nat -> (i <= length digits)%nat ->
  exists d i', append_decimal_loop (S fuel) n i digits = Ok (d, i') /\
    drop i' d = rev (dec_digits fuel n) ++ drop i digits.
Proof.
  revert n i digits. induction fuel as [|fuel IH]; intros n i digits Hn Hi Hl.
  - change (10 ^ Z.of_nat 0) with 1 in Hn. assert (n = 0) as -> by lia. simpl. eauto.
  - cbn [append_decimal_loop dec_digits]. destruct (Z.ltb_spec 0 n), (Z.leb_spec n 0); try lia; [|eauto].
    destruct i as [|i]; [lia|].
    destruct (buf_write_before digits i (digit_byte (n mod 10))) as (d1 & -> & Hl1 & Hd1); [lia|].
    cbn [checked ok_or mbind result_bind].
    destruct (IH (n / 10) i d1) as (d2 & i2 & Hr & Hd2); [|lia|lia|].
    + rewrite Nat2Z.inj_succ, Z.pow_succ_r in Hn by lia.
      split; [apply Z.div_pos; lia|apply Z.div_lt_upper_bound; lia].
    + exists d2, i2. split; [exact Hr|]. rewrite Hd2, Hd1. cbn [rev]. by rewrite <-app_assoc.
Qed.

Lemma i128_lt_10_40 n : 0 < n -> in_i128 n -> 0 <= n < 10 ^ Z.of_nat 40.
Proof. unfold in_i128, i128_max. intros. change (10 ^ Z.of_nat 40) with (10^40). lia. Qed.

Lemma append_decimal_eq buf n : in_i128 n -> append_decimal buf n = Ok (buf ++ dec 40 n).
Proof.
  intros Hn. unfold append_decimal, dec. destruct (Z.leb_spec n 0); [done|].
  destruct (append_decimal_loop_spec 40 n 40 (zeros 40)) as (d & i & -> & Hd);
    [by apply i128_lt_10_40|done|by rewrite zeros_length|].
  cbn [mbind result_bind]. rewrite Hd, (drop_ge (zeros 40)), app_nil_r; [done|].
  by rewrite zeros_length.
Qed.

(** ** ICS-20 JSON *)

Lemma append_string_eq buf s :
  append_string buf s = if decide (length s <= 512)%nat then Ok (buf ++ s) else Err IndexOutOfBounds.
Proof.
  unfold append_string. case_decide.
  - destruct (buf_write_start (zeros 512) s) as (b & -> & Hl & Ht); [by rewrite zeros_length|].
    cbn [checked ok_or mbind result_bind].
    rewrite (buf_prefix_Some _ _ s); [done|by rewrite Hl, zeros_length|done].
  - rewrite buf_write_overflow; [done|]. rewrite zeros_length. lia.
Qed.

Definition field (name : string) (v : bytes) : bytes :=
  quote ++ bstr name ++ quote ++ bstr ":" ++ quote ++ v ++ quote.

(** The JSON object of a packet, field after field. *)
Definition ics20_json (p : FungibleTokenPacketData) : bytes :=
  bstr "{" ++ field "denom" (denom (token p)) ++ bstr "," ++
  field "amount" (dec 40 (amount (token p))) ++ bstr "," ++ field "sender" (sender p) ++ bstr "," ++
  field "receiver" (receiver p) ++ bstr "," ++ field "memo" (memo p) ++ bstr "}".

Definition data_fits (p : FungibleTokenPacketData) : Prop :=
  (length (denom (token p)) <= 512 /\ length (sender p) <= 512 /\ length (receiver p) <= 512 /\
   length (memo p) <= 512)%nat.

Lemma encode_ics20_json_eq p :
  in_i128 (amount (token p)) -> data_fits p -> encode_ics20_json p = Ok (ics20_json p).
Proof.
  intros Ha (H1 & H2 & H3 & H4). unfold encode_ics20_json.
  rewrite append_string_eq, decide_True by done. cbn [mbind result_bind].
  rewrite append_decimal_eq by done. cbn [mbind result_bind].
  rewrite append_string_eq, decide_True by done. cbn [mbind result_bind].
  rewrite append_string_eq, decide_True by done. cbn [mbind result_bind].
  rewrite append_string_eq, decide_True by done. cbn [mbind result_bind].
  f_equal. unfold ics20_json, field. rewrite <-!app_assoc. done.
Qed.

(** A quote ends a field that has none. *)
Lemma quote_split (v1 v2 r1 r2 : bytes) :
  Byte.x22 ∉ v1 -> Byte.x22 ∉ v2 -> v1 ++ quote ++ r1 = v2 ++ quote ++ r2 -> v1 = v2 /\ r1 = r2.
Proof.
  revert v2. induction v1 as [|b v1 IH]; intros [|c v2] H1 H2; simpl; intros Heq; simplify_eq.
  - done.
  - set_solver.
  - set_solver.
  - destruct (IH v2) as [-> ->]; set_solver.
Qed.

Lemma field_inj name (v1 v2 r1 r2 : bytes) :
  Byte.x22 ∉ v1 -> Byte.x22 ∉ v2 -> field name v1 ++ r1 = field name v2 ++ r2 -> v1 = v2 /\ r1 = r2.
Proof.
  intros H1 H2. unfold field. rewrite <-!app_assoc. intros Heq.
  repeat (apply app_inv_head in Heq). by apply quote_split in Heq.
Qed.

Lemma quote_not_in_dec n : Byte.x22 ∉ dec 40 n.
Proof.
  intros Hin. pose proof (dec_all_digits 40 n) as Hall.
  eapply (proj1 (list.Forall_forall _ _)) in Hall; [|exact Hin]. destruct Hall as [Hlo _].
  vm_compute in Hlo. congruence.
Qed.

(** The text of the fields cannot break out of the JSON strings. *)
Definition no_quotes (p : FungibleTokenPacketData) : Prop :=
  (Byte.x22 ∉ denom (token p)) /\ (Byte.x22 ∉ sender p) /\ (Byte.x22 ∉ receiver p) /\
  (Byte.x22 ∉ memo p).

(** C37: The packet data determines the transfer: for the positive amounts [initiate_transfer] lets
    through, up to the greatest [i128], and fields of at most 512 bytes, [encode_ics20_json] prints the
    object [{"denom", "amount", "sender", "receiver", "memo"}] with the amount in decimal, and two
    packets whose texts contain no quote have the same encoding only if they are equal. *)
Theorem ics20_json_injective (p q : FungibleTokenPacketData) :
  0 < amount (token p) -> 0 < amount (token q) ->
  in_i128 (amount (token p)) -> in_i128 (amount (token q)) ->
  data_fits p -> data_fits q -> no_quotes p -> no_quotes q ->
  encode_ics20_json p = Ok (ics20_json p) /\ (encode_ics20_json p = encode_ics20_json q -> p = q).
Proof.
  intros Hp0 Hq0 Hp Hq Hfp Hfq (P1 & P2 & P3 & P4) (Q1 & Q2 & Q3 & Q4).
  rewrite !encode_ics20_json_eq by done. split; [done|]. intros Heq%Ok_inj.
  unfold ics20_json in Heq. apply app_inv_head in Heq.
  apply field_inj in Heq as [E1 Heq]; [|done..]. apply app_inv_head in Heq.
  apply field_inj in Heq as [E2 Heq]; [|apply quote_not_in_dec..]. apply app_inv_head in Heq.
  apply field_inj in Heq as [E3 Heq]; [|done..]. apply app_inv_head in Heq.
  apply field_inj in Heq as [E4 Heq]; [|done..]. apply app_inv_head in Heq.
  apply field_inj in Heq as [E5 _]; [|done..].
  assert (amount (token p) = amount (token q)) as E.
  { rewrite <-(undec_dec 40 (amount (token p))), E2, undec_dec; auto using i128_lt_10_40. }
  destruct p as [[? ?] ? ? ?], q as [[? ?] ? ? ?]; simpl in *; by subst.
Qed.

Definition sample_data (d : string) (n : Z) : FungibleTokenPacketData :=
  MkData (MkToken (bstr d) n) (bstr "alice") (bstr "bob") (bstr "").

Lemma ics20_json_injective_witness :
  encode_ics20_json (sample_data "uatom" 170141183460469231731687303715884105727) =
    Ok (ics20_json (sample_data "uatom" 170141183460469231731687303715884105727)) /\
  encode_ics20_json (sample_data "uatom" 170141183460469231731687303715884105727) <>
  encode_ics20_json (sample_data "uatom" 1).
Proof.
  destruct (ics20_json_injective (sample_data "uatom" 170141183460469231731687303715884105727)
              (sample_data "uatom" 1)) as [H1 H2];
    try (unfold data_fits, no_quotes; apply (bool_decide_unpack _); vm_compute; reflexivity).
  - split; [exact H1|]. intros Heq. specialize (H2 Heq). discriminate H2.
Defined.

(** The fields are not escaped: two different transfers, whose receiver and memo texts contain
    quotes, have the very same packet data. *)
Theorem ics20_json_is_not_escaped :
  exists p q, p <> q /\ data_fits p /\ data_fits q /\ 0 < amount (token p) /\
    0 < amount (token q) /\ encode_ics20_json p = encode_ics20_json q.
Proof.
  exists (MkData (MkToken (bstr "a") 1) (bstr "s") (bstr "r")
            (quote ++ bstr "," ++ quote ++ bstr "memo" ++ quote ++ bstr ":" ++ quote)),
         (MkData (MkToken (bstr "a") 1) (bstr "s")
            (bstr "r" ++ quote ++ bstr "," ++ quote ++ bstr "memo" ++ quote ++ bstr ":" ++ quote) []).
  split; [discriminate|].
  unfold data_fits. split_and!; try (vm_compute; reflexivity);
    apply (bool_decide_unpack _); vm_compute; reflexivity.
Qed.

(** ** Acknowledgements *)

Lemma ack_matches_spec ack i prefix :
  (i + length prefix <= length ack)%nat ->
  ack_matches ack i prefix = true <-> take (length prefix) (drop i ack) = prefix.
Proof.
  revert i. induction prefix as [|b prefix IH]; intros i Hl; simpl; [done|]. simpl in Hl.
  assert (exists c, ack !! i = Some c) as [c Hc] by (apply lookup_lt_is_Some_2; lia).
  rewrite Hc, (drop_S _ _ _ Hc). simpl. destruct (decide (c = b)) as [Hb|Hb];
    [rewrite bool_decide_eq_true_2 by done|rewrite bool_decide_eq_false_2 by done]; simpl.
  - subst. rewrite IH by lia. split; [by intros ->|]. intros Heq. by injection Heq.
  - split; [done|]. intros Heq. by injection Heq.
Qed.

(** An acknowledgement counts as success exactly when it is the single byte 1 or starts with
    the result object of ICS-20; every other one, the universal error hash of a missing
    acknowledgement included, refunds. *)
Theorem is_success_ack_spec (ack : bytes) :
  is_success_ack ack = true <-> ack = [SUCCESS_ACK_BYTE] \/ exists rest, ack = ack_prefix ++ rest.
Proof.
  unfold is_success_ack. destruct (Nat.eqb_spec (length ack) 1) as [H1|H1]; cbn [andb].
  { destruct ack as [|b [|? ?]]; try done. simpl. case_bool_decide as Hb; simpl.
    - split; [|done]. intros _. left. by f_equal.
    - split; [done|]. intros [Heq|[rest Heq]]; [by injection Heq|].
      assert (length [b] = length (ack_prefix ++ rest)) as Hl by (exact (f_equal length Heq)).
      rewrite length_app in Hl. change (length ack_prefix) with 9%nat in Hl. simpl in Hl. lia. }
  assert (ack <> [SUCCESS_ACK_BYTE]) as Hne by (intros ->; done).
  destruct (Nat.ltb_spec (length ack) (length ack_prefix)) as [H2|H2].
  { split; [discriminate|]. intros [Heq|[rest ->]]; [by destruct Hne|]. rewrite length_app in H2. lia. }
  rewrite ack_matches_spec by done. rewrite drop_0. split.
  - intros Ht. right. exists (drop (length ack_prefix) ack). by rewrite <-Ht, take_drop at 1.
  - intros [Heq|[rest ->]]; [by destruct Hne|]. by rewrite take_app_length.
Qed.

(** ** Balances *)

Definition tdata {R} (w : TWorld R) : gmap DataKey Val := persistent_data (tw_storage w).
Definition tinst {R} (w : TWorld R) : gmap DataKey Val := instance_data (tw_storage w).

(** What an entry counts for, 0 when it is absent. *)
Definition number (m : gmap DataKey Val) (k : DataKey) : Z :=
  match m !! k with Some (TvI128 n) => n | _ => 0 end.
Definition bal (m : gmap DataKey Val) (a : Address) (d : bytes) : Z := number m (Balance a d).

(** [w'] differs from [w] in the application's persistent entries only, which become [m]. *)
Definition tupdates {R} (w w' : TWorld R) (m : gmap DataKey Val) : Prop :=
  tdata w' = m /\ tinst w' = tinst w /\ tw_rest w' = tw_rest w.

Lemma tupdates_trans {R} (w w1 w2 : TWorld R) m1 m2 :
  tupdates w w1 m1 -> tupdates w1 w2 m2 -> tupdates w w2 m2.
Proof. intros (? & Hi & Hr) (? & Hi' & Hr'). unfold tupdates. by rewrite Hi', Hi, Hr', Hr. Qed.

Lemma number_get m k o :
  typed_get as_i128 (m !! k) = Ok o -> default 0 o = number m k.
Proof. unfold number, typed_get. destruct (m !! k) as [[]|]; naive_solver. Qed.

(** [hinv] for this contract. *)
Ltac tinv H :=
  unfold expect_some, panic_if in H; hinv H;
  repeat match goal with
  | Hf : context [persistent_data (storage_of ?w)] |- _ =>
      change (persistent_data (storage_of w)) with (tdata w) in Hf
  | Hf : context [instance_data (storage_of ?w)] |- _ =>
      change (instance_data (storage_of w)) with (tinst w) in Hf
  | Hf : typed_get as_i128 (tdata _ !! _) = Ok _ |- _ => apply number_get in Hf
  | Hf : typed_get as_address _ = Ok (Some _) |- _ =>
      apply typed_get_Some in Hf as ([?|?] & Hf & [= ->])
  | Hf : i128_add _ _ = Ok _ |- _ => apply i128_add_Ok in Hf as [-> Hf]
  | Hf : i128_sub _ _ = Ok _ |- _ => apply i128_sub_Ok in Hf as [-> Hf]
  | Hf : (_ <? _) = false |- _ => apply Z.ltb_ge in Hf
  | Hf : (_ <=? _) = false |- _ => apply Z.leb_gt in Hf
  | Hf : negb _ = false |- _ => apply negb_false_iff in Hf
  | Hf : bool_decide _ = true |- _ => apply bool_decide_eq_true in Hf
  end.

Section Money.
Context {R : Type}.
Implicit Types w : TWorld R.

Lemma credit_Ok env a d n w w' u :
  credit env a d n w = Ok (w', u) ->
  in_i128 (bal (tdata w) a d + n) /\
  tupdates w w' (<[Balance a d := TvI128 (bal (tdata w) a d + n)]> (tdata w)).
Proof. unfold credit. intros Hr. tinv Hr. rewrite Hrun in *. done. Qed.

Lemma debit_Ok env a d n w w' u :
  debit env a d n w = Ok (w', u) ->
  n <= bal (tdata w) a d /\
  tupdates w w' (<[Balance a d := TvI128 (bal (tdata w) a d - n)]> (tdata w)).
Proof. unfold debit. intros Hr. tinv Hr. rewrite Hrun in *. done. Qed.

Lemma mint_Ok env a d n w w' u :
  mint env a d n w = Ok (w', u) ->
  0 < n /\ tupdates w w' (<[Balance a d := TvI128 (bal (tdata w) a d + n)]> (tdata w)).
Proof. unfold mint. intros Hr. tinv Hr. rewrite Hrun0 in *. done. Qed.

(** What the rate limit records. *)
Definition after_usage (env : Env) (d : bytes) (n : Z) (m : gmap DataKey Val) : gmap DataKey Val :=
  match m !! DailyCap d with
  | None => m
  | Some _ => <[Usage d (current_day env) := TvI128 (number m (Usage d (current_day env)) + n)]> m
  end.

Definition within_cap (env : Env) (d : bytes) (n : Z) (m : gmap DataKey Val) : Prop :=
  match m !! DailyCap d with
  | None => True
  | Some v => exists cap, v = TvI128 cap /\ number m (Usage d (current_day env)) + n <= cap
  end.

Lemma enforce_rate_limit_Ok env d n w w' u :
  enforce_rate_limit env d n w = Ok (w', u) ->
  within_cap env d n (tdata w) /\ tupdates w w' (after_usage env d n (tdata w)).
Proof.
  unfold enforce_rate_limit. intros Hr.
  apply M_bind_Ok in Hr as (w1 & o & Hg & Hr). apply persistent_get_Ok in Hg as [-> Hg].
  change (persistent_data (storage_of w)) with (tdata w) in Hg.
  unfold within_cap, after_usage. destruct o as [cap|].
  - apply typed_get_Some in Hg as ([|c] & Hc & [= ->]). rewrite Hc. tinv Hr. rewrite Hrun in *.
    split; [eauto|done].
  - apply typed_get_None in Hg. rewrite Hg. tinv Hr. done.
Qed.

End Money.

(** ** Supply *)

(** The sum of all balances of a denomination, the escrow's included. *)
Definition balance_in (d : bytes) (k : DataKey) (v : Val) : Z :=
  match k, v with
  | Balance _ d', TvI128 n => if decide (d' = d) then n else 0
  | _, _ => 0
  end.
Definition supply (m : gmap DataKey Val) (d : bytes) : Z :=
  map_fold (fun k v acc => balance_in d k v + acc) 0 m.

Lemma supply_insert_fresh m d k v :
  m !! k = None -> supply (<[k := v]> m) d = balance_in d k v + supply m d.
Proof.
  intros Hk. unfold supply. rewrite map_fold_insert_L; [done| |done].
  intros. lia.
Qed.

Lemma supply_insert m d k v :
  supply (<[k := v]> m) d =
  supply m d + balance_in d k v - match m !! k with Some v0 => balance_in d k v0 | None => 0 end.
Proof.
  destruct (m !! k) as [v0|] eqn:Hk.
  - rewrite <-(insert_delete_eq m k v), supply_insert_fresh by apply lookup_delete_eq.
    rewrite <-(insert_id m k v0 Hk) at 2.
    rewrite <-(insert_delete_eq m k v0), supply_insert_fresh by apply lookup_delete_eq. lia.
  - rewrite supply_insert_fresh by done. lia.
Qed.

(** Writing a balance moves the supply of its denomination by the difference. *)
Lemma supply_set_balance m d a d' n :
  supply (<[Balance a d' := TvI128 n]> m) d =
  supply m d + (if decide (d' = d) then n - bal m a d' else 0).
Proof.
  rewrite supply_insert. unfold bal, number. simpl.
  destruct (m !! Balance a d') as [[]|]; simpl; case_decide; lia.
Qed.

Lemma supply_set_usage m d d' day v : supply (<[Usage d' day := v]> m) d = supply m d.
Proof. rewrite supply_insert. destruct (m !! Usage d' day) as [[]|]; simpl; lia. Qed.

(** A debit followed by a credit of the same amount. *)
Definition moved (m : gmap DataKey Val) (a b : Address) (d : bytes) (n : Z) : gmap DataKey Val :=
  let m1 := <[Balance a d := TvI128 (bal m a d - n)]> m in
  <[Balance b d := TvI128 (bal m1 b d + n)]> m1.

Lemma supply_moved m a b d n d' : supply (moved m a b d n) d' = supply m d'.
Proof. unfold moved. rewrite !supply_set_balance. case_decide; lia. Qed.

Lemma supply_after_usage env d n m d' : supply (after_usage env d n m) d' = supply m d'.
Proof. unfold after_usage. destruct (m !! DailyCap d); [apply supply_set_usage|done]. Qed.

Lemma tinvoke_Ok {R A} (f : R -> res (R * A)) (w w' : TWorld R) a :
  tinvoke f w = Ok (w', a) <->
  exists r, f (tw_rest w) = Ok (r, a) /\ w' = MkTW (tw_storage w) r.
Proof. unfold tinvoke. destruct (f (tw_rest w)) as [[r b]|e]; naive_solver. Qed.

Section Callbacks.
Context {R : Type} `{Xdr}.
Implicit Types w : TWorld R.

Lemma refund_Ok env p w w' u :
  refund env p w = Ok (w', u) ->
  exists a, string_to_address (sender p) = Ok a /\
    amount (token p) <= bal (tdata w) (current_contract_address env) (denom (token p)) /\
    tupdates w w' (moved (tdata w) (current_contract_address env) a (denom (token p))
                     (amount (token p))).
Proof.
  unfold refund. intros Hr. hinv Hr.
  match goal with Hx : debit _ _ _ _ _ = _ |- _ => apply debit_Ok in Hx as [Hle Hd] end.
  apply credit_Ok in Hr as [_ Hc]. eexists. split_and!; [done|done|].
  destruct Hd as (Hd1 & Hd2 & Hd3). rewrite Hd1 in Hc. eapply tupdates_trans; [|exact Hc]. done.
Qed.

Lemma require_router_Ok env w w' u :
  require_router env w = Ok (w', u) ->
  w' = w /\ exists router, tinst w !! Router = Some (TvAddress router) /\ authorized env router = true.
Proof. unfold require_router. intros Hr. tinv Hr. eauto. Qed.

(** The router, and nobody else, hands over packets. *)
Definition from_router (env : Env) (w : TWorld R) : Prop :=
  exists router, tinst w !! Router = Some (TvAddress router) /\ authorized env router = true.

Lemma on_recv_packet_Ok env cb w w' ack :
  on_recv_packet env cb w = Ok (w', ack) ->
  from_router env w /\ dest_port (orc_payload cb) = PORT /\ ack = [SUCCESS_ACK_BYTE] /\
  exists p a, data_from_xdr (value (orc_payload cb)) = XdrValue p /\
    string_to_address (receiver p) = Ok a /\
    tupdates w w' (<[Balance a (denom (token p)) :=
                       TvI128 (bal (tdata w) a (denom (token p)) + amount (token p))]> (tdata w)).
Proof.
  unfold on_recv_packet, decode_packet. intros Hr. tinv Hr.
  apply require_router_Ok in Hrun as [-> Hrt]. apply from_xdr_or_Ok in Hrun1.
  match goal with Hx : credit _ _ _ _ _ = _ |- _ => apply credit_Ok in Hx as [_ Hc] end.
  split_and!; [done..|]. eauto.
Qed.

Lemma on_acknowledgement_packet_Ok env cb w w' u :
  on_acknowledgement_packet env cb w = Ok (w', u) ->
  from_router env w /\ source_port (oac_payload cb) = PORT /\
  if is_success_ack (oac_acknowledgement cb) then w' = w
  else exists p a, data_from_xdr (value (oac_payload cb)) = XdrValue p /\
    string_to_address (sender p) = Ok a /\
    amount (token p) <= bal (tdata w) (current_contract_address env) (denom (token p)) /\
    tupdates w w' (moved (tdata w) (current_contract_address env) a (denom (token p))
                     (amount (token p))).
Proof.
  unfold on_acknowledgement_packet, decode_packet. intros Hr. tinv Hr.
  apply require_router_Ok in Hrun as [-> Hrt]. split_and!; [done..|].
  destruct (is_success_ack (oac_acknowledgement cb)); tinv Hr; [done|].
  apply from_xdr_or_Ok in Hrun. apply refund_Ok in Hr as (a & ? & ? & ?). eauto 7.
Qed.

Lemma on_timeout_packet_Ok env cb w w' u :
  on_timeout_packet env cb w = Ok (w', u) ->
  from_router env w /\ source_port (otc_payload cb) = PORT /\
  exists p a, data_from_xdr (value (otc_payload cb)) = XdrValue p /\
    string_to_address (sender p) = Ok a /\
    amount (token p) <= bal (tdata w) (current_contract_address env) (denom (token p)) /\
    tupdates w w' (moved (tdata w) (current_contract_address env) a (denom (token p))
                     (amount (token p))).
Proof.
  unfold on_timeout_packet, decode_packet. intros Hr. tinv Hr.
  apply require_router_Ok in Hrun as [-> Hrt]. split_and!; [done..|].
  apply from_xdr_or_Ok in Hrun1. apply refund_Ok in Hr as (a & ? & ? & ?). eauto 7.
Qed.

End Callbacks.

(** ** Transfers *)

Section Transfers.
Context {R : Type} `{RouterClient R} `{Xdr}.
Implicit Types w : TWorld R.

(** The payload a transfer sends. *)
Definition transfer_payload (from d : bytes) (n : Z) (receiver memo : bytes) : Payload :=
  MkPayload PORT PORT VERSION ENCODING (ics20_json (MkData (MkToken d n) from receiver memo)).

Lemma encode_ics20_json_Ok p v :
  in_i128 (amount (token p)) -> encode_ics20_json p = Ok v -> data_fits p /\ v = ics20_json p.
Proof.
  intros Ha He. assert (data_fits p) as Hf.
  { revert He. unfold encode_ics20_json, data_fits.
    rewrite append_string_eq. case_decide; [|done]. cbn [mbind result_bind].
    rewrite append_decimal_eq by done. cbn [mbind result_bind].
    rewrite append_string_eq. case_decide; [|done]. cbn [mbind result_bind].
    rewrite append_string_eq. case_decide; [|done]. cbn [mbind result_bind].
    rewrite append_string_eq. by case_decide. }
  split; [done|]. rewrite encode_ics20_json_eq in He by done. by injection He.
Qed.

Lemma initiate_transfer_Ok (env : Env) (from : Address) (cid d : bytes) (n : Z) (rcv : bytes)
    (t : Z) (memo : bytes) (w w' : TWorld R) (sq : Z) :
  in_i128 n -> initiate_transfer env from cid d n rcv t memo w = Ok (w', sq) ->
  authorized env from = true /\ 0 < n /\ within_cap env d n (tdata w) /\
  n <= bal (tdata w) from d /\
  exists text router, address_to_string from = Ok text /\
    tinst w !! Router = Some (TvAddress router) /\
    router_send_packet (call_env env router) router cid t [transfer_payload text d n rcv memo]
      (tw_rest w) = Ok (tw_rest w', sq) /\
    tdata w' = moved (after_usage env d n (tdata w)) from (current_contract_address env) d n /\
    tinst w' = tinst w.
Proof.
  intros Hn. unfold initiate_transfer. intros Hr. tinv Hr.
  match goal with Hx : enforce_rate_limit _ _ _ _ = _ |- _ =>
    apply enforce_rate_limit_Ok in Hx as [Hcap (U1 & U2 & U3)] end.
  match goal with Hx : debit _ _ _ _ _ = _ |- _ => apply debit_Ok in Hx as [Hle (D1 & D2 & D3)] end.
  match goal with Hx : credit _ _ _ _ _ = _ |- _ => apply credit_Ok in Hx as [_ (C1 & C2 & C3)] end.
  match goal with Hx : encode_ics20_json _ = _ |- _ =>
    apply encode_ics20_json_Ok in Hx as [_ ->]; [|done] end.
  apply tinvoke_Ok in Hr as (r & Hsend & ->).
  assert (bal (after_usage env d n (tdata w)) from d = bal (tdata w) from d) as Hbal.
  { unfold after_usage, bal, number. destruct (tdata w !! DailyCap d); [|done].
    by rewrite lookup_insert_ne. }
  rewrite U1, Hbal in Hle. split_and!; try done. eexists _, _. split_and!; [done| | | |].
  - rewrite <-U2, <-D2, <-C2. done.
  - simpl. rewrite <-Hsend, C3, D3, U3. done.
  - unfold tdata in *. simpl. rewrite C1, D1, U1. done.
  - unfold tinst in *. simpl. by rewrite C2, D2, U2.
Qed.

(** C28: A successful [initiate_transfer] was authorised by the sender, moves exactly the positive
    amount from the sender to the escrow, stays within the day's cap of the denomination and
    counts against it, and hands the router one [transfer] payload, for the client and timeout
    asked for, whose JSON names the denomination, the amount, the sender's address, the receiver
    and the memo; nothing else changes and the router's sequence is returned. *)
Theorem initiate_transfer_spec (env : Env) (from : Address) (cid d : bytes) (n : Z) (rcv : bytes)
    (t : Z) (memo : bytes) (w w' : TWorld R) (sq : Z) :
  in_i128 n -> initiate_transfer env from cid d n rcv t memo w = Ok (w', sq) ->
  authorized env from = true /\ 0 < n /\ within_cap env d n (tdata w) /\
  n <= bal (tdata w) from d /\
  exists text router, address_to_string from = Ok text /\
    tinst w !! Router = Some (TvAddress router) /\
    router_send_packet (call_env env router) router cid t [transfer_payload text d n rcv memo]
      (tw_rest w) = Ok (tw_rest w', sq) /\
    tdata w' = moved (after_usage env d n (tdata w)) from (current_contract_address env) d n /\
    tinst w' = tinst w.
Proof. apply initiate_transfer_Ok. Qed.

(** C27: Tokens are conserved: a transfer and a refund change the total supply of no denomination
    (they move between an account and the escrow), minting and receiving raise the supply of one
    denomination by exactly the amount, and no other operation touches a balance. *)
Theorem supply_is_conserved (env : Env) (w w' : TWorld R) (d : bytes) :
  (forall from cid d' n rcv t memo sq, in_i128 n ->
     initiate_transfer env from cid d' n rcv t memo w = Ok (w', sq) ->
     supply (tdata w') d = supply (tdata w) d) /\
  (forall cb u, on_timeout_packet env cb w = Ok (w', u) -> supply (tdata w') d = supply (tdata w) d) /\
  (forall cb u, on_acknowledgement_packet env cb w = Ok (w', u) ->
     supply (tdata w') d = supply (tdata w) d) /\
  (forall a d' n u, mint env a d' n w = Ok (w', u) ->
     supply (tdata w') d = supply (tdata w) d + if decide (d' = d) then n else 0) /\
  (forall cb ack, on_recv_packet env cb w = Ok (w', ack) ->
     exists p, data_from_xdr (value (orc_payload cb)) = XdrValue p /\
       supply (tdata w') d =
       supply (tdata w) d + if decide (denom (token p) = d) then amount (token p) else 0).
Proof.
  split_and!.
  - intros from cid d' n rcv t memo sq Hn Hr.
    destruct (initiate_transfer_Ok _ _ _ _ _ _ _ _ _ _ _ Hn Hr)
      as (_ & _ & _ & _ & text & router & _ & _ & _ & -> & _).
    etransitivity; [apply supply_moved|apply supply_after_usage].
  - intros cb u (_ & _ & p & a & _ & _ & _ & -> & _)%on_timeout_packet_Ok. apply supply_moved.
  - intros cb u (_ & _ & Hr)%on_acknowledgement_packet_Ok.
    destruct (is_success_ack _); [by subst|].
    destruct Hr as (p & a & _ & _ & _ & -> & _). apply supply_moved.
  - intros a d' n u (_ & -> & _)%mint_Ok. rewrite supply_set_balance. case_decide; lia.
  - intros cb ack (_ & _ & _ & p & a & Hp & _ & -> & _)%on_recv_packet_Ok. exists p. split; [done|].
    rewrite supply_set_balance. case_decide; lia.
Qed.

(** The packets of this application are JSON, which is not the XDR the refund reads. *)
Lemma transfer_data_does_not_decode `{XdrLaws} text d n rcv memo :
  data_from_xdr (value (transfer_payload text d n rcv memo)) = XdrMalformed.
Proof.
  assert (~ exists k, take 4 (value (transfer_payload text d n rcv memo)) = to_be_bytes 4 k /\ 0 <= k <= 21) as Hno.
  { intros (k & Hk & Hr). apply (f_equal of_be_bytes) in Hk. rewrite of_to_be_bytes, Z.mod_small in Hk by lia.
    rewrite <-Hk in Hr. vm_compute in Hr. by destruct Hr as [_ []]. }
  destruct (data_from_xdr _) eqn:Hp; [done|..]; exfalso; apply Hno, data_xdr_discriminant; by rewrite Hp.
Qed.

End Transfers.

Section Refunds.
Context {R : Type} `{XdrLaws}.
Implicit Types w : TWorld R.

Lemma run_require_router env w {B} (g : unit -> run (TWorld R) B) :
  from_router env w -> (require_router env ≫= g) w = g tt w.
Proof.
  intros (r & Hr & Ha). apply M_bind_run. unfold require_router, expect_some.
  rewrite (M_bind_run _ _ w w (Some r)).
  - simpl. unfold mbind, M_bind. simpl. by rewrite require_auth_Ok.
  - apply instance_get_Ok. split; [done|]. apply typed_get_Some. by exists (TvAddress r).
Qed.

(** C40: The application cannot refund its own packets: for every payload that [initiate_transfer]
    sends, the timeout callback and the callback of every error acknowledgement trap in the
    host, which reads the JSON as XDR, so the router's [timeout_packet] and [acknowledge_packet] of an error
    fail and the tokens stay in escrow. *)
Theorem own_packets_are_never_refunded (env : Env) (w : TWorld R) (text d : bytes) (n : Z)
    (rcv memo : bytes) (src dst : bytes) (sq : Z) (ack : bytes) :
  from_router env w -> is_success_ack ack = false ->
  on_timeout_packet env (MkOnTimeout src dst sq (transfer_payload text d n rcv memo)) w =
    Err MalformedXdr /\
  on_acknowledgement_packet env (MkOnAck src dst sq (transfer_payload text d n rcv memo) ack) w =
    Err MalformedXdr.
Proof.
  intros Hr Hack. pose proof (transfer_data_does_not_decode text d n rcv memo) as Hdec. split.
  - unfold on_timeout_packet. rewrite run_require_router by done.
    cbn [otc_payload transfer_payload source_port]. rewrite bool_decide_eq_true_2 by done.
    unfold decode_packet. by rewrite Hdec.
  - unfold on_acknowledgement_packet. rewrite run_require_router by done.
    cbn [oac_payload transfer_payload source_port]. rewrite bool_decide_eq_true_2 by done.
    cbn [oac_acknowledgement]. unfold panic_if, fail_if. cbn [negb].
    unfold mbind at 1, M_bind at 1, mret, M_ret. rewrite Hack. unfold decode_packet. by rewrite Hdec.
Qed.

End Refunds.

(** An application just deployed behind a router. *)
Definition sample_router : Address := ContractAddress (replicate 32 Byte.x01).
Definition sample_env : Env := MkEnv 1000 (ContractAddress (replicate 32 Byte.x02)) (Some sample_router) ∅ 100.
Definition sample_app : TWorld unit :=
  MkTW (MkStorage {[Router := TvAddress sample_router]} ∅ ∅) tt.

Lemma own_packets_are_never_refunded_witness :
  @on_timeout_packet (TWorld unit) _ _ _ sample_xdr sample_env
    (MkOnTimeout (bstr "10-stellar-0") (bstr "07-tendermint-0") 1
       (transfer_payload (bstr "00") (bstr "uxlm") 5 (bstr "cosmos1") (bstr ""))) sample_app =
    Err MalformedXdr.
Proof.
  refine (proj1 (@own_packets_are_never_refunded unit sample_xdr sample_xdr_laws sample_env sample_app
    (bstr "00") (bstr "uxlm") 5 (bstr "cosmos1") (bstr "") (bstr "10-stellar-0")
    (bstr "07-tendermint-0") 1 (bstr "error") _ _)).
  - exists sample_router. split; reflexivity.
  - reflexivity.
Defined.
