(* ===== verification/LcMock.v ===== *)
(** * The mock light client ([contracts/soroban/light-clients/mock/src/lib.rs])

    The client the tests and the local network use: it accepts every proof and counts its updates. *)

From Stdlib Require Import ZArith Lia Strings.Byte Strings.String.
From stdpp Require Import base option list gmap numbers.
From S2P Require Import Prelude Bytes Host.
Open Scope Z_scope.

Module MockLightClient.

Inductive DataKey : Type :=
| ClientState (client_id : bytes)
| ConsensusState (client_id : bytes) (height : Z)
| LatestHeight (client_id : bytes)
| Frozen (client_id : bytes).

#[export] Instance DataKey_eq_dec : EqDecision DataKey.
Proof. solve_decision. Defined.
#[export] Instance DataKey_countable : Countable DataKey.
Proof.
  refine (inj_countable'
    (fun k => match k with
              | ClientState i => inl (inl i)
              | ConsensusState i h => inl (inr (i, h))
              | LatestHeight i => inr (inl i)
              | Frozen i => inr (inr i)
              end)
    (fun s => match s with
              | inl (inl i) => ClientState i
              | inl (inr (i, h)) => ConsensusState i h
              | inr (inl i) => LatestHeight i
              | inr (inr i) => Frozen i
              end) _).
  by intros [].
Defined.

Inductive Val : Type := MvBytes (b : bytes) | MvU64 (n : Z) | MvBool (b : bool).
Definition as_bytes (v : Val) : option bytes := match v with MvBytes b => Some b | _ => None end.
Definition as_u64 (v : Val) : option Z := match v with MvU64 n => Some n | _ => None end.
Definition as_bool (v : Val) : option bool := match v with MvBool b => Some b | _ => None end.

Abbreviation State := (Storage DataKey Val).

Definition initialise (env : Env) (client_id client_state consensus_state : bytes) (height : Z) :
    run State unit :=
  _ ← persistent_set env (ClientState client_id) (MvBytes client_state);
  _ ← persistent_set env (ConsensusState client_id height) (MvBytes consensus_state);
  persistent_set env (LatestHeight client_id) (MvU64 height).

Definition latest_height (client_id : bytes) : run State Z :=
  o ← persistent_get as_u64 (LatestHeight client_id);
  mret (default 0 o).

Definition client_state (client_id : bytes) : run State bytes :=
  o ← persistent_get as_bytes (ClientState client_id);
  mret (default [] o).

Definition consensus_state (client_id : bytes) (height : Z) : run State bytes :=
  o ← persistent_get as_bytes (ConsensusState client_id height);
  mret (default [] o).

Definition verify_client_message (client_id client_message : bytes) : run State (bytes * Z) :=
  mret ([], 0).

Definition check_for_misbehaviour (client_id client_message : bytes) : run State bool :=
  mret false.

Definition update_state (env : Env) (client_id client_message : bytes) : run State Z :=
  o ← persistent_get as_u64 (LatestHeight client_id);
  next ← lift (u64_add (default 0 o) 1);
  _ ← persistent_set env (LatestHeight client_id) (MvU64 next);
  _ ← persistent_set env (ConsensusState client_id next) (MvBytes []);
  mret next.

Definition update_state_on_misbehaviour (env : Env) (client_id client_message : bytes) :
    run State unit :=
  persistent_set env (Frozen client_id) (MvBool true).

Definition frozen (client_id : bytes) : run State bool :=
  o ← persistent_get as_bool (Frozen client_id);
  mret (default false o).

Definition verify_membership (client_id : bytes) (height : Z) (proof path value : bytes) :
    run State bool :=
  mret true.

Definition verify_non_membership (client_id : bytes) (height : Z) (proof path : bytes) :
    run State bool :=
  mret true.

Definition get_timestamp_at_height (client_id : bytes) (height : Z) : run State Z := mret 0.

Definition client_type : bytes := bstr "mock".

End MockLightClient.
