(* ===== verification/LcAttestation.v ===== *)
(** * The attestation light client ([contracts/soroban/light-clients/attestation/src/lib.rs])

    A committee of Ed25519 keys attests to the counterparty's heights and packets; a proof is an
    attestation with enough signatures of different members.  The XDR codecs of the SDK and the
    host's signature check are parameters. *)

From Stdlib Require Import ZArith Lia Strings.Byte Strings.String.
From stdpp Require Import base option list gmap numbers.
From S2P Require Import Prelude Bytes Crypto Host Ics24Host.
Open Scope Z_scope.

Module AttestationLightClient.

Inductive Error : Type :=
| ClientNotInitialised
| ClientFrozen
| InvalidClientState
| InvalidProof
| SignerIndexOutOfRange
| DuplicateSigner
| QuorumNotMet
| AttestationHeightMismatch
| ConsensusStateMissing.

Definition Error_code (e : Error) : Z :=
  match e with
  | ClientNotInitialised => 1
  | ClientFrozen => 2
  | InvalidClientState => 3
  | InvalidProof => 4
  | SignerIndexOutOfRange => 5
  | DuplicateSigner => 6
  | QuorumNotMet => 7
  | AttestationHeightMismatch => 8
  | ConsensusStateMissing => 9
  end.

#[export] Instance Error_ContractErr : ContractErr Error.
Proof.
  refine {| err_kind := KAttestation; err_code := Error_code |}. by intros [] [].
Defined.

Record AttestorClientState : Type := MkClientState {
  attestor_keys : list bytes;
  min_required_sigs : Z;
  cs_latest_height : Z;
  cs_frozen : bool;
}.

Record StateAttestation : Type := MkStateAttestation { sa_height : Z; sa_timestamp : Z }.

Record PacketCompact : Type := MkPacketCompact { pc_path : bytes; pc_value : bytes }.

Record PacketAttestation : Type := MkPacketAttestation {
  pa_height : Z;
  pa_packets : list PacketCompact;
}.

Record AttestationProof : Type := MkProof {
  attestation_data : bytes;
  signatures : list bytes;
  signer_indices : list Z;
}.

Inductive DataKey : Type :=
| Client (client_id : bytes)
| Consensus (client_id : bytes) (height : Z)
| Frozen (client_id : bytes).

#[export] Instance DataKey_eq_dec : EqDecision DataKey.
Proof. solve_decision. Defined.
#[export] Instance DataKey_countable : Countable DataKey.
Proof.
  refine (inj_countable'
    (fun k => match k with
              | Client i => inl i
              | Consensus i h => inr (inl (i, h))
              | Frozen i => inr (inr i)
              end)
    (fun s => match s with
              | inl i => Client i
              | inr (inl (i, h)) => Consensus i h
              | inr (inr i) => Frozen i
              end) _).
  by intros [].
Defined.

Inductive Val : Type := AvClient (cs : AttestorClientState) | AvU64 (n : Z) | AvBool (b : bool).
Definition as_client (v : Val) : option AttestorClientState :=
  match v with AvClient c => Some c | _ => None end.
Definition as_u64 (v : Val) : option Z := match v with AvU64 n => Some n | _ => None end.
Definition as_bool (v : Val) : option bool := match v with AvBool b => Some b | _ => None end.

Abbreviation State := (Storage DataKey Val).

(** The SDK's XDR codecs of the contract types. *)
Class AttXdr := {
  client_state_from_xdr : bytes -> xdr_read AttestorClientState;
  client_state_to_xdr : AttestorClientState -> bytes;
  state_attestation_from_xdr : bytes -> xdr_read StateAttestation;
  state_attestation_to_xdr : StateAttestation -> bytes;
  packet_attestation_from_xdr : bytes -> xdr_read PacketAttestation;
  proof_from_xdr : bytes -> xdr_read AttestationProof;
}.

Section Contract.
Context `{AttXdr} `{Ed25519}.

Definition expect_some {A} (e : Error) (o : option A) : run State A := unwrap_or_fail (error_of e) o.

Definition load_client_state (client_id : bytes) : run State AttestorClientState :=
  o ← persistent_get as_client (Client client_id);
  expect_some ClientNotInitialised o.

Definition decode_proof (b : bytes) : res AttestationProof :=
  from_xdr_or (error_of InvalidProof) (proof_from_xdr b).
Definition decode_attestation (b : bytes) : res StateAttestation :=
  from_xdr_or (error_of InvalidProof) (state_attestation_from_xdr b).
Definition decode_packet_attestation (b : bytes) : res PacketAttestation :=
  from_xdr_or (error_of InvalidProof) (packet_attestation_from_xdr b).
Definition decode_initial_timestamp (b : bytes) : res Z :=
  match state_attestation_from_xdr b with
  | XdrMalformed => Err MalformedXdr
  | XdrMistyped => Ok 0
  | XdrValue sa => Ok (sa_timestamp sa)
  end.

(** [for i in 0..proof.signer_indices.len() { .. }], on the indices from [i] on. *)
Fixpoint verify_signers (cs : AttestorClientState) (proof : AttestationProof) (i : nat)
    (indices : list Z) (seen : list bool) : res unit :=
  match indices with
  | [] => Ok tt
  | idx :: indices =>
      let key_count := Z.of_nat (length (attestor_keys cs)) in
      if key_count <=? idx then Err (error_of SignerIndexOutOfRange)
      else
        let slot := Z.to_nat idx in
        if (length seen <=? slot)%nat || default false (seen !! slot)
        then Err (error_of DuplicateSigner)
        else
          let seen := <[slot := true]> seen in
          pubkey ← checked (attestor_keys cs !! slot);
          signature ← checked (signatures proof !! i);
          if ed25519_verify pubkey (attestation_data proof) signature
          then verify_signers cs proof (S i) indices seen
          else Err CryptoError
  end.

Definition verify_quorum (cs : AttestorClientState) (proof : AttestationProof) : res unit :=
  if negb (length (signatures proof) =? length (signer_indices proof))%nat
  then Err (error_of InvalidProof)
  else if Z.of_nat (length (signatures proof)) <? min_required_sigs cs
  then Err (error_of QuorumNotMet)
  else verify_signers cs proof 0 (signer_indices proof) (replicate 64 false).

Definition initialise (env : Env) (client_id client_state consensus_state : bytes) (height : Z) :
    run State unit :=
  cs ← lift (from_xdr_or (error_of InvalidClientState) (client_state_from_xdr client_state));
  timestamp ← lift (decode_initial_timestamp consensus_state);
  _ ← persistent_set env (Client client_id) (AvClient cs);
  persistent_set env (Consensus client_id height) (AvU64 timestamp).

Definition latest_height (client_id : bytes) : run State Z :=
  cs ← load_client_state client_id;
  mret (cs_latest_height cs).

Definition client_state (client_id : bytes) : run State bytes :=
  cs ← load_client_state client_id;
  mret (client_state_to_xdr cs).

Definition consensus_state (client_id : bytes) (height : Z) : run State bytes :=
  o ← persistent_get as_u64 (Consensus client_id height);
  ts ← expect_some ConsensusStateMissing o;
  mret (state_attestation_to_xdr (MkStateAttestation height ts)).

Definition verify_client_message (client_id client_message : bytes) : run State (bytes * Z) :=
  mret ([], 0).

Definition check_for_misbehaviour (client_id client_message : bytes) : run State bool :=
  cs ← load_client_state client_id;
  if cs_frozen cs then mret false
  else
    proof ← lift (decode_proof client_message);
    _ ← lift (verify_quorum cs proof);
    att ← lift (decode_attestation (attestation_data proof));
    o ← persistent_get as_u64 (Consensus client_id (sa_height att));
    mret (match o with
          | Some existing => negb (existing =? sa_timestamp att)
          | None => false
          end).

Definition update_state (env : Env) (client_id client_message : bytes) : run State Z :=
  cs ← load_client_state client_id;
  _ ← fail_if (cs_frozen cs) (error_of ClientFrozen);
  proof ← lift (decode_proof client_message);
  _ ← lift (verify_quorum cs proof);
  att ← lift (decode_attestation (attestation_data proof));
  _ ← persistent_set env (Consensus client_id (sa_height att)) (AvU64 (sa_timestamp att));
  _ ← (if cs_latest_height cs <? sa_height att then
         let cs := MkClientState (attestor_keys cs) (min_required_sigs cs) (sa_height att)
                     (cs_frozen cs) in
         persistent_set env (Client client_id) (AvClient cs)
       else mret tt);
  mret (sa_height att).

Definition update_state_on_misbehaviour (env : Env) (client_id client_message : bytes) :
    run State unit :=
  cs ← load_client_state client_id;
  let cs := MkClientState (attestor_keys cs) (min_required_sigs cs) (cs_latest_height cs) true in
  _ ← persistent_set env (Client client_id) (AvClient cs);
  persistent_set env (Frozen client_id) (AvBool true).

Definition frozen (client_id : bytes) : run State bool :=
  o ← persistent_get as_bool (Frozen client_id);
  mret (default false o).

(** [for pkt in att.packets.iter() { if pkt.path == path && pkt.value == value { return true } }]. *)
Fixpoint find_packet (path value : bytes) (packets : list PacketCompact) : bool :=
  match packets with
  | [] => false
  | pkt :: packets =>
      if bool_decide (pc_path pkt = path) && bool_decide (pc_value pkt = value) then true
      else find_packet path value packets
  end.

Definition verify_membership (client_id : bytes) (height : Z) (proof path value : bytes) :
    run State bool :=
  cs ← load_client_state client_id;
  known ← persistent_has (Consensus client_id height);
  if negb known then mret false
  else
    p ← lift (decode_proof proof);
    _ ← lift (verify_quorum cs p);
    att ← lift (decode_packet_attestation (attestation_data p));
    if negb (pa_height att =? height) then mret false
    else mret (find_packet path value (pa_packets att)).

Definition verify_non_membership (client_id : bytes) (height : Z) (proof path : bytes) :
    run State bool :=
  cs ← load_client_state client_id;
  known ← persistent_has (Consensus client_id height);
  if negb known then mret false
  else
    p ← lift (decode_proof proof);
    _ ← lift (verify_quorum cs p);
    att ← lift (decode_packet_attestation (attestation_data p));
    if negb (pa_height att =? height) then mret false
    else mret (find_packet path [] (pa_packets att)).

Definition get_timestamp_at_height (client_id : bytes) (height : Z) : run State Z :=
  o ← persistent_get as_u64 (Consensus client_id height);
  mret (default 0 o).

End Contract.

(** ** Signatures *)

Section Quorum.
Context `{Ed25519}.
Implicit Types cs : AttestorClientState.
Implicit Types proof : AttestationProof.

(** The signature at position [i] is the one of the committee member [idx] on the attestation. *)
Definition signed_by cs proof (i : nat) (idx : Z) : Prop :=
  exists k s, attestor_keys cs !! Z.to_nat idx = Some k /\ signatures proof !! i = Some s /\
    ed25519_verify k (attestation_data proof) s = true.

(** What the loop accepts: members in range, not seen before, each with its signature. *)
Lemma verify_signers_iff cs proof i indices seen :
  Forall (fun z => 0 <= z) indices -> length seen = 64%nat ->
  verify_signers cs proof i indices seen = Ok tt <->
  NoDup indices /\ Forall (fun z => z < 64 /\ seen !! Z.to_nat z = Some false) indices /\
  forall j idx, indices !! j = Some idx ->
    idx < Z.of_nat (length (attestor_keys cs)) /\ signed_by cs proof (i + j) idx.
Proof.
  intros Hpos Hlen. revert i seen Hlen.
  induction Hpos as [|z indices Hz Hpos IH]; intros i seen Hlen; simpl.
  { split; [|done]. intros _. split_and!; [constructor|constructor|]. by intros []. }
  assert ((forall j idx, (z :: indices) !! j = Some idx ->
     idx < Z.of_nat (length (attestor_keys cs)) /\ signed_by cs proof (i + j) idx) <->
     (z < Z.of_nat (length (attestor_keys cs)) /\ signed_by cs proof i z) /\
     (forall j idx, indices !! j = Some idx ->
     idx < Z.of_nat (length (attestor_keys cs)) /\ signed_by cs proof (S i + j) idx)) as Hsplit.
  { split.
    - intros Hall. split; [rewrite <-(Nat.add_0_r i); by apply (Hall 0%nat)|].
      intros j idx Hj. rewrite Nat.add_succ_comm. by apply (Hall (S j)).
    - intros [Hh Ht] [|j] idx Hj; simpl in Hj; simplify_eq.
      + by rewrite Nat.add_0_r.
      + rewrite <-Nat.add_succ_comm. by apply Ht. }
  rewrite Hsplit, list.NoDup_cons, list.Forall_cons. clear Hsplit.
  destruct (Z.leb_spec (Z.of_nat (length (attestor_keys cs))) z) as [Hle|Hlt].
  { split; [done|]. intros (_ & _ & (Hk & _) & _). lia. }
  destruct (Nat.leb_spec (length seen) (Z.to_nat z)) as [Hge|Hin]; simpl.
  { split; [done|]. intros (_ & ((Hz64 & _) & _) & _). lia. }
  destruct (lookup_lt_is_Some_2 seen _ Hin) as [b Hb]. rewrite Hb. simpl. destruct b.
  { split; [done|]. intros (_ & ((_ & Hf) & _) & _). congruence. }
  destruct (lookup_lt_is_Some_2 (attestor_keys cs) (Z.to_nat z)) as [k Hk]; [lia|]. rewrite Hk.
  cbn [checked ok_or mbind result_bind].
  destruct (signatures proof !! i) as [s|] eqn:Hs; cbn [checked ok_or mbind result_bind].
  2: { split; [done|]. intros (_ & _ & (_ & (k' & s & _ & Hs' & _)) & _). congruence. }
  destruct (ed25519_verify k (attestation_data proof) s) eqn:Hv.
  2: { split; [done|]. intros (_ & _ & (_ & (k' & s' & Hk' & Hs' & Hv')) & _). congruence. }
  rewrite IH by (by rewrite length_insert).
  assert (signed_by cs proof i z) as Hsig by (exists k, s; done).
  assert (forall z', z' ∈ indices -> 0 <= z') as Hpos'
    by (intros z'; by apply (proj1 (list.Forall_forall _ _) Hpos)).
  rewrite !list.Forall_forall. split.
  - intros (Hnd & Hall & Ht). split_and!; try done.
    + intros Hz'. destruct (Hall z Hz') as [_ Hf]. rewrite list_lookup_insert_eq in Hf by done. done.
    + lia.
    + intros z' Hz'. destruct (Hall z' Hz') as [H64 Hf]. split; [done|].
      destruct (decide (Z.to_nat z = Z.to_nat z')) as [Heq|Hne].
      * rewrite <-Heq, list_lookup_insert_eq in Hf by done. done.
      * by rewrite list_lookup_insert_ne in Hf by done.
  - intros ((Hni & Hnd) & (_ & Hall) & (_ & Ht)). split_and!; try done.
    intros z' Hz'. destruct (Hall z' Hz') as [H64 Hf]. split; [done|].
    rewrite list_lookup_insert_ne; [done|]. intros Heq. apply Hni.
    assert (z = z') as -> by (specialize (Hpos' z' Hz'); lia). done.
Qed.

(** [verify_quorum] accepts a proof exactly when it has as many signatures as signers, at least
    the required number of them, all from different members of the committee (with index below
    64), each a valid Ed25519 signature of its member on the attestation data. *)
Theorem verify_quorum_spec (cs : AttestorClientState) (proof : AttestationProof) :
  Forall in_u32 (signer_indices proof) ->
  verify_quorum cs proof = Ok tt <->
  length (signatures proof) = length (signer_indices proof) /\
  min_required_sigs cs <= Z.of_nat (length (signer_indices proof)) /\
  NoDup (signer_indices proof) /\
  forall j idx, signer_indices proof !! j = Some idx ->
    idx < 64 /\ idx < Z.of_nat (length (attestor_keys cs)) /\ signed_by cs proof j idx.
Proof.
  intros Hu. assert (Forall (fun z => 0 <= z) (signer_indices proof)) as Hpos.
  { eapply Forall_impl; [|exact Hu]. unfold in_u32. simpl. lia. }
  unfold verify_quorum.
  destruct (Nat.eqb_spec (length (signatures proof)) (length (signer_indices proof))) as [Hl|Hl];
    cbn [negb].
  2: { split; [done|]. by intros [? _]. }
  destruct (Z.ltb_spec (Z.of_nat (length (signatures proof))) (min_required_sigs cs)) as [Hq|Hq].
  { split; [done|]. intros (_ & Hq' & _). lia. }
  rewrite verify_signers_iff by (try done; apply length_replicate).
  rewrite list.Forall_forall. split.
  - intros (Hnd & Hall & Hs). split_and!; [done|lia|done|].
    intros j idx Hj. split; [|exact (Hs j idx Hj)].
    apply (Hall idx). by eapply list_elem_of_lookup_2.
  - intros (_ & _ & Hnd & Hs). split_and!; [done| |].
    + intros z Hz. apply list_elem_of_lookup_1 in Hz as [j Hj]. destruct (Hs _ _ Hj) as (H64 & _ & _).
      split; [done|]. apply lookup_replicate_2. lia.
    + intros j idx Hj. by destruct (Hs _ _ Hj) as (_ & ? & ?).
Qed.

End Quorum.

(** ** Operations *)

Definition adata (st : State) : gmap DataKey Val := persistent_data st.

Ltac ainv H :=
  unfold expect_some in H; hinv H;
  repeat match goal with
  | Hf : context [persistent_data (storage_of ?w)] |- _ =>
      change (persistent_data (storage_of w)) with (adata w) in Hf
  | Hf : decode_proof _ = Ok _ |- _ => apply from_xdr_or_Ok in Hf
  | Hf : decode_attestation _ = Ok _ |- _ => apply from_xdr_or_Ok in Hf
  | Hf : decode_packet_attestation _ = Ok _ |- _ => apply from_xdr_or_Ok in Hf
  | Hf : verify_quorum _ _ = Ok ?u |- _ => destruct u
  end.

Section Specs.
Context `{AttXdr} `{Ed25519}.
Implicit Types st : State.

Definition client_of st (cid : bytes) : option AttestorClientState :=
  match adata st !! Client cid with Some (AvClient cs) => Some cs | _ => None end.
Definition consensus_of st (cid : bytes) (h : Z) : option Z :=
  match adata st !! Consensus cid h with Some (AvU64 t) => Some t | _ => None end.

Lemma att_load_client_state_Ok cid st st' cs :
  load_client_state cid st = Ok (st', cs) <-> st' = st /\ client_of st cid = Some cs.
Proof.
  unfold load_client_state, client_of, expect_some, persistent_get, mbind, M_bind, lift, typed_get.
  cbn [storage_of Storage_HasStorage]. unfold adata.
  destruct (persistent_data st !! Client cid) as [[]|]; simpl; unfold fail, mret, M_ret; naive_solver.
Qed.

Lemma att_run_load {B} cid st cs (g : AttestorClientState -> run State B) :
  client_of st cid = Some cs -> (load_client_state cid ≫= g) st = g cs st.
Proof. intros Hc. apply M_bind_run. by apply att_load_client_state_Ok. Qed.

Lemma find_packet_iff path v packets :
  find_packet path v packets = true <-> MkPacketCompact path v ∈ packets.
Proof.
  induction packets as [|[p w] packets IH]; simpl; [set_solver|].
  rewrite elem_of_cons, <-IH. destruct (decide (p = path /\ w = v)) as [[-> ->]|Hne].
  - rewrite !bool_decide_eq_true_2 by done. simpl. split; [by left|done].
  - assert (bool_decide (p = path) && bool_decide (w = v) = false) as ->.
    { apply andb_false_iff. destruct (decide (p = path)); [right|left]; apply bool_decide_eq_false_2;
        congruence || (intros ->; by apply Hne). }
    split; [by right|]. intros [Heq|Hf]; [|done]. destruct Hne. by injection Heq.
Qed.

(** The attestation a proof carries for a client: decoded, and signed by its quorum. *)
Definition attested st (cid proof : bytes) (att : PacketAttestation) : Prop :=
  exists cs p, client_of st cid = Some cs /\ proof_from_xdr proof = XdrValue p /\
    verify_quorum cs p = Ok tt /\ packet_attestation_from_xdr (attestation_data p) = XdrValue att.

(** What the two verifiers share: the value looked for is [x]. *)
Definition listed st (cid : bytes) (h : Z) (proof path x : bytes) : Prop :=
  is_Some (adata st !! Consensus cid h) /\
  exists att, attested st cid proof att /\ pa_height att = h /\ MkPacketCompact path x ∈ pa_packets att.

Lemma verify_listed (st st' : State) cid h proof path x :
  (cs ← load_client_state cid;
   known ← persistent_has (Consensus cid h);
   if negb known then mret false
   else
     p ← lift (decode_proof proof);
     _ ← lift (verify_quorum cs p);
     att ← lift (decode_packet_attestation (attestation_data p));
     if negb (pa_height att =? h) then mret false
     else mret (find_packet path x (pa_packets att))) st = Ok (st', true) <->
  st' = st /\ listed st cid h proof path x.
Proof.
  unfold listed. setoid_rewrite <-find_packet_iff. split.
  - intros Hr. apply M_bind_Ok in Hr as (st1 & cs & [-> Hcs]%att_load_client_state_Ok & Hr).
    apply M_bind_Ok in Hr as (st1 & known & Hk & Hr). apply persistent_has_Ok in Hk as [-> ->].
    change (persistent_data (storage_of st)) with (adata st) in Hr.
    destruct (decide (is_Some (adata st !! Consensus cid h))) as [Hs|Hs].
    2: { rewrite bool_decide_eq_false_2 in Hr by done. ainv Hr. done. }
    rewrite bool_decide_eq_true_2 in Hr by done. simpl in Hr. ainv Hr.
    destruct (Z.eqb_spec (pa_height v1) h); simpl in Hr; ainv Hr; [|done].
    split_and!; [done..|]. exists v1. split_and!; [|done..]. exists cs, v. done.
  - intros (-> & Hs & att & (cs & p & Hcs & Hp & Hq & Ha) & Hh & Hf).
    rewrite (att_run_load _ _ cs) by done.
    rewrite (M_bind_run _ _ st st true) by (apply persistent_has_Ok; by rewrite bool_decide_eq_true_2).
    simpl. unfold decode_proof, decode_packet_attestation. rewrite Hp. simpl.
    unfold mbind, M_bind, lift. simpl. rewrite Hq, Ha. simpl.
    rewrite (proj2 (Z.eqb_eq _ _) Hh). simpl. by rewrite Hf.
Qed.

(** The quorum does not look at the frozen flag, so freezing keeps what is listed. *)
Lemma verify_quorum_committee cs cs' proof :
  attestor_keys cs' = attestor_keys cs -> min_required_sigs cs' = min_required_sigs cs ->
  verify_quorum cs' proof = verify_quorum cs proof.
Proof.
  intros Hk Hm. unfold verify_quorum. rewrite Hm. do 2 (case_match; [done|]).
  match goal with |- verify_signers _ _ _ ?l _ = _ => generalize l end.
  intros l. generalize 0%nat, (replicate 64 false). induction l as [|idx l IH]; intros i seen; [done|].
  cbn [verify_signers]. rewrite Hk. do 2 (case_match; [done|]).
  destruct (checked (attestor_keys cs !! Z.to_nat idx)); [|done]. cbn [mbind result_bind].
  destruct (checked (signatures proof !! i)); [|done]. cbn [mbind result_bind]. case_match; [apply IH|done].
Qed.

Lemma listed_frozen env msg (st st1 : State) u cid h proof path x :
  update_state_on_misbehaviour env cid msg st = Ok (st1, u) ->
  listed st1 cid h proof path x <-> listed st cid h proof path x.
Proof.
  unfold update_state_on_misbehaviour. intros Hr.
  apply M_bind_Ok in Hr as (st0 & cs & [-> Hcs]%att_load_client_state_Ok & Hr). ainv Hr.
  match goal with |- listed ?s _ _ _ _ _ <-> _ => set (st1 := s) end.
  set (cs1 := MkClientState (attestor_keys cs) (min_required_sigs cs) (cs_latest_height cs) true) in st1.
  assert (client_of st1 cid = Some cs1) as Hcs1.
  { unfold client_of, adata, st1. simpl. by rewrite lookup_insert_ne, lookup_insert_eq by done. }
  assert (adata st1 !! Consensus cid h = adata st !! Consensus cid h) as Hcons.
  { unfold adata, st1. simpl. by rewrite !lookup_insert_ne by done. }
  assert (forall att, attested st1 cid proof att <-> attested st cid proof att) as Hatt.
  { intros att. unfold attested. rewrite Hcs, Hcs1.
    split; intros (c & p & Hc & Hp & Hq & Ha); injection Hc as <-.
    - exists cs, p. by rewrite <-(verify_quorum_committee cs cs1).
    - exists cs1, p. by rewrite (verify_quorum_committee cs cs1). }
  unfold listed. rewrite Hcons. by setoid_rewrite Hatt.
Qed.

(** C38: [verify_membership] answers yes exactly when the height has a consensus state and the
    client's quorum signed an attestation of that very height that lists the path with the value;
    [verify_non_membership] exactly when it lists the path with the empty value, so a list without the
    path is refused.  Neither changes the state, and both answer the same after the client was frozen. *)
Theorem attestation_proofs_spec (st st' : State) (cid : bytes) (h : Z) (proof path v : bytes) :
  (verify_membership cid h proof path v st = Ok (st', true) <->
     st' = st /\ is_Some (adata st !! Consensus cid h) /\
     exists att, attested st cid proof att /\ pa_height att = h /\
       MkPacketCompact path v ∈ pa_packets att) /\
  (verify_non_membership cid h proof path st = Ok (st', true) <->
     st' = st /\ is_Some (adata st !! Consensus cid h) /\
     exists att, attested st cid proof att /\ pa_height att = h /\
       MkPacketCompact path [] ∈ pa_packets att) /\
  (forall env msg st1 u, update_state_on_misbehaviour env cid msg st = Ok (st1, u) ->
     (verify_membership cid h proof path v st1 = Ok (st1, true) <->
        verify_membership cid h proof path v st = Ok (st, true)) /\
     (verify_non_membership cid h proof path st1 = Ok (st1, true) <->
        verify_non_membership cid h proof path st = Ok (st, true))).
Proof.
  unfold verify_membership, verify_non_membership. setoid_rewrite verify_listed.
  split_and!; [done..|]. intros env msg st1 u Hr.
  setoid_rewrite (listed_frozen env msg st st1 u cid h proof path v Hr).
  setoid_rewrite (listed_frozen env msg st st1 u cid h proof path [] Hr). naive_solver.
Qed.

Lemma att_update_state_Ok env cid msg st st' h :
  update_state env cid msg st = Ok (st', h) ->
  exists cs p att, client_of st cid = Some cs /\ cs_frozen cs = false /\
    proof_from_xdr msg = XdrValue p /\ verify_quorum cs p = Ok tt /\
    state_attestation_from_xdr (attestation_data p) = XdrValue att /\ h = sa_height att /\
    adata st' =
      let m := <[Consensus cid h := AvU64 (sa_timestamp att)]> (adata st) in
      if cs_latest_height cs <? h
      then <[Client cid := AvClient (MkClientState (attestor_keys cs) (min_required_sigs cs) h false)]> m
      else m.
Proof.
  unfold update_state. intros Hr.
  apply M_bind_Ok in Hr as (st1 & cs & [-> Hcs]%att_load_client_state_Ok & Hr). ainv Hr.
  exists cs, v, v1. split_and!; try done.
  destruct (cs_latest_height cs <? sa_height v1); ainv Hrun3; [|done]. by rewrite Hrun.
Qed.

Lemma att_update_state_total env cid msg st cs p att :
  client_of st cid = Some cs -> cs_frozen cs = false -> proof_from_xdr msg = XdrValue p ->
  verify_quorum cs p = Ok tt -> state_attestation_from_xdr (attestation_data p) = XdrValue att ->
  exists st', update_state env cid msg st = Ok (st', sa_height att).
Proof.
  intros Hcs Hf Hp Hq Ha. unfold update_state, decode_proof, decode_attestation.
  rewrite (att_run_load _ _ cs) by done. rewrite Hf, Hp. simpl. unfold mbind, M_bind, lift. simpl.
  rewrite Hq, Ha. simpl. destruct (_ <? _); eexists; reflexivity.
Qed.

(** [update_state] succeeds exactly for a client that is not frozen, on a header signed by its
    quorum that decodes to a state attestation; it records the attested timestamp under the attested height, raises the latest height
    to it or leaves it, never lowers it, keeps the committee, and touches no other client. *)
Theorem attestation_update_spec (env : Env) (cid msg : bytes) (st : State) :
  (forall st' h, update_state env cid msg st = Ok (st', h) ->
  exists cs p att, client_of st cid = Some cs /\ cs_frozen cs = false /\
    proof_from_xdr msg = XdrValue p /\ verify_quorum cs p = Ok tt /\
    state_attestation_from_xdr (attestation_data p) = XdrValue att /\ h = sa_height att /\
    consensus_of st' cid h = Some (sa_timestamp att) /\
    client_of st' cid = Some (MkClientState (attestor_keys cs) (min_required_sigs cs)
                                (Z.max (cs_latest_height cs) h) false) /\
    (forall cid' h', (cid', h') <> (cid, h) -> consensus_of st' cid' h' = consensus_of st cid' h') /\
    (forall cid', cid' <> cid -> client_of st' cid' = client_of st cid')) /\
  (forall cs p att, client_of st cid = Some cs -> cs_frozen cs = false ->
     proof_from_xdr msg = XdrValue p -> verify_quorum cs p = Ok tt ->
     state_attestation_from_xdr (attestation_data p) = XdrValue att ->
     exists st', update_state env cid msg st = Ok (st', sa_height att)).
Proof.
  split; [|apply att_update_state_total].
  intros st' h (cs & p & att & Hcs & Hfr & Hp & Hq & Ha & Hh & Hd)%att_update_state_Ok.
  exists cs, p, att. unfold consensus_of, client_of in *. rewrite Hd. cbn zeta.
  destruct (Z.ltb_spec (cs_latest_height cs) h) as [Hlt|Hge]; split_and!; try done.
  - by rewrite lookup_insert_ne, lookup_insert_eq by done.
  - rewrite lookup_insert_eq. do 2 f_equal. lia.
  - intros cid' h' Hne. by rewrite !lookup_insert_ne by congruence.
  - intros cid' Hne. by rewrite !lookup_insert_ne by congruence.
  - by rewrite lookup_insert_eq.
  - rewrite lookup_insert_ne by done. rewrite Hcs. destruct cs; simpl in *. subst. do 2 f_equal. lia.
  - intros cid' h' Hne. by rewrite lookup_insert_ne by congruence.
  - intros cid' Hne. by rewrite lookup_insert_ne by congruence.
Qed.

(** The client's own life cycle is open: any caller, without a signature and without a proof,
    freezes a client with [update_state_on_misbehaviour], and resets a frozen one, committee
    included, with [initialise]. *)
Theorem attestation_lifecycle_is_unauthenticated (env : Env) (st : State) (cid msg : bytes)
    (cs cs' : AttestorClientState) (raw cons : bytes) (h : Z) :
  client_of st cid = Some cs -> client_state_from_xdr raw = XdrValue cs' ->
  state_attestation_from_xdr cons <> XdrMalformed ->
  (exists st', update_state_on_misbehaviour env cid msg st = Ok (st', tt) /\
     frozen cid st' = Ok (st', true) /\ option_map cs_frozen (client_of st' cid) = Some true) /\
  (exists st', initialise env cid raw cons h st = Ok (st', tt) /\ client_of st' cid = Some cs').
Proof.
  intros Hcs Hraw Hcons. split.
  - unfold update_state_on_misbehaviour. erewrite att_run_load by exact Hcs. eexists. split; [done|].
    split.
    + unfold frozen. erewrite (M_bind_run _ _ _ _ (Some true)); [done|].
      apply persistent_get_Ok. split; [done|]. simpl. by rewrite lookup_insert_eq.
    + unfold client_of, adata. simpl. by rewrite lookup_insert_ne, lookup_insert_eq.
  - assert (exists t, decode_initial_timestamp cons = Ok t) as [t Ht].
    { unfold decode_initial_timestamp. destruct (state_attestation_from_xdr cons); [done|by eexists..]. }
    unfold initialise. rewrite Hraw, Ht. eexists. split; [done|].
    unfold client_of, adata. simpl. by rewrite lookup_insert_ne, lookup_insert_eq.
Qed.

End Specs.

(** ** A concrete committee *)

(** Three members, two signatures required; a signature here is the signer's key followed by the
    message, and the codecs know the four values the examples exchange. *)
Definition sample_ed25519 : Ed25519 :=
  {| ed25519_verify := fun k m s => bool_decide (s = k ++ m) |}.
Definition sample_key (b : byte) : bytes := replicate 32 b.
Definition sample_client : AttestorClientState :=
  MkClientState [sample_key Byte.x0a; sample_key Byte.x0b; sample_key Byte.x0c] 2 5 false.
Definition sample_proof : AttestationProof :=
  MkProof (bstr "state")
    [sample_key Byte.x0c ++ bstr "state"; sample_key Byte.x0a ++ bstr "state"] [2; 0].
Definition sample_packet_proof : AttestationProof :=
  MkProof (bstr "packets")
    [sample_key Byte.x0b ++ bstr "packets"; sample_key Byte.x0a ++ bstr "packets"] [1; 0].
Definition sample_xdr : AttXdr :=
  {| client_state_from_xdr := fun b => if decide (b = bstr "client") then XdrValue sample_client else XdrMalformed;
     client_state_to_xdr := fun _ => bstr "client";
     state_attestation_from_xdr := fun b =>
       if decide (b = bstr "state") then XdrValue (MkStateAttestation 7 700) else XdrMalformed;
     state_attestation_to_xdr := fun _ => bstr "state";
     packet_attestation_from_xdr := fun b =>
       if decide (b = bstr "packets")
       then XdrValue (MkPacketAttestation 7 [MkPacketCompact (bstr "path") (bstr "value")]) else XdrMalformed;
     proof_from_xdr := fun b =>
       if decide (b = bstr "header") then XdrValue sample_proof
       else if decide (b = bstr "proof") then XdrValue sample_packet_proof else XdrMalformed |}.
Definition sample_env : Env := MkEnv 1000 (ContractAddress []) None ∅ 100.
(** The committee's client, initialised at height 5, then updated to height 7. *)
Definition sample_state : State :=
  run_state empty_storage (@initialise sample_xdr sample_env (bstr "c") (bstr "client") (bstr "state") 5
                             empty_storage).
Definition sample_updated : State :=
  run_state empty_storage (@update_state sample_xdr sample_ed25519 sample_env (bstr "c") (bstr "header")
                             sample_state).

Lemma verify_quorum_spec_witness :
  NoDup (signer_indices sample_proof) /\
  @signed_by sample_ed25519 sample_client sample_proof 0 2.
Proof.
  destruct (proj1 (@verify_quorum_spec sample_ed25519 sample_client sample_proof
              ltac:(apply (bool_decide_unpack _); vm_compute; reflexivity))
              ltac:(vm_compute; reflexivity)) as (_ & _ & Hnd & Hs).
  split; [exact Hnd|]. apply (Hs 0%nat 2). reflexivity.
Defined.

Lemma attestation_update_spec_witness :
  consensus_of sample_updated (bstr "c") 7 = Some 700 /\
  option_map cs_latest_height (client_of sample_updated (bstr "c")) = Some 7.
Proof.
  assert (@update_state sample_xdr sample_ed25519 sample_env (bstr "c") (bstr "header") sample_state =
          Ok (sample_updated, 7)) as Hrun by (apply run_value_Ok; vm_compute; reflexivity).
  destruct (proj1 (@attestation_update_spec sample_xdr sample_ed25519 sample_env (bstr "c")
              (bstr "header") sample_state) sample_updated 7 Hrun)
    as (cs & p & att & Hcs & _ & Hp & _ & Ha & _ & Hc & Hcl & _).
  assert (Some cs = Some sample_client) as [= ->] by (rewrite <-Hcs; vm_compute; reflexivity).
  assert (XdrValue p = XdrValue sample_proof) as [= ->] by (rewrite <-Hp; vm_compute; reflexivity).
  assert (XdrValue att = XdrValue (MkStateAttestation 7 700)) as [= ->] by (rewrite <-Ha; vm_compute; reflexivity).
  split; [exact Hc|]. rewrite Hcl. reflexivity.
Defined.

(** The packet attested at height 7, before and after the client is frozen. *)
Definition sample_frozen : State :=
  run_state sample_updated (update_state_on_misbehaviour sample_env (bstr "c") (bstr "header") sample_updated).
Lemma attestation_proofs_spec_witness :
  @verify_membership sample_xdr sample_ed25519 (bstr "c") 7 (bstr "proof") (bstr "path") (bstr "value")
    sample_frozen = Ok (sample_frozen, true).
Proof.
  set (check := @verify_membership sample_xdr sample_ed25519 (bstr "c") 7 (bstr "proof") (bstr "path") (bstr "value")).
  assert (check sample_updated = Ok (run_state sample_updated (check sample_updated), true)) as Hv.
  { apply run_value_Ok. vm_compute. reflexivity. }
  destruct (@attestation_proofs_spec sample_xdr sample_ed25519 sample_updated
    (run_state sample_updated (check sample_updated)) (bstr "c") 7 (bstr "proof") (bstr "path") (bstr "value"))
    as (Hspec & _ & Hfrozen).
  apply (Hfrozen sample_env (bstr "header") sample_frozen tt).
  - apply (run_value_Ok sample_updated). vm_compute. reflexivity.
  - pose proof (proj1 (proj1 Hspec Hv)) as Hst. rewrite Hst in Hv. exact Hv.
Defined.

Lemma attestation_lifecycle_is_unauthenticated_witness :
  exists st', @update_state_on_misbehaviour sample_env (bstr "c") (bstr "no evidence") sample_state =
    Ok (st', tt) /\ frozen (bstr "c") st' = Ok (st', true).
Proof.
  destruct (@attestation_lifecycle_is_unauthenticated sample_xdr sample_env sample_state (bstr "c")
              (bstr "no evidence") sample_client sample_client
              (bstr "client") (bstr "state") 9) as [(st' & H1 & H2 & _) _].
  - vm_compute. reflexivity.
  - vm_compute. reflexivity.
  - discriminate.
  - exists st'. split; assumption.
Defined.

End AttestationLightClient.
