(* ===== verification/LcTendermint.v ===== *)
(** * The Tendermint light client ([contracts/soroban/light-clients/tendermint/src/lib.rs])

    The client keeps consensus states by revision height, accepts headers of increasing height and
    freezes on misbehaviour.  The XDR codecs of the SDK are parameters. *)

From Stdlib Require Import ZArith Lia Strings.Byte Strings.String.
From stdpp Require Import base option list gmap numbers.
From S2P Require Import Prelude Bytes Host.
Open Scope Z_scope.

Module TendermintLightClient.

Inductive Error : Type :=
| ClientNotInitialised
| ClientFrozen
| InvalidClientState
| InvalidConsensusState
| InvalidHeader
| ConsensusStateMissing
| HeightAlreadyExistsWithDifferentRoot
| ChainIdMismatch
| HeaderHeightNotAfterTrusted
| TrustingPeriodElapsed.

Definition Error_code (e : Error) : Z :=
  match e with
  | ClientNotInitialised => 1
  | ClientFrozen => 2
  | InvalidClientState => 3
  | InvalidConsensusState => 4
  | InvalidHeader => 5
  | ConsensusStateMissing => 6
  | HeightAlreadyExistsWithDifferentRoot => 7
  | ChainIdMismatch => 8
  | HeaderHeightNotAfterTrusted => 9
  | TrustingPeriodElapsed => 10
  end.

#[export] Instance Error_ContractErr : ContractErr Error.
Proof.
  refine {| err_kind := KTendermint; err_code := Error_code |}. by intros [] [].
Defined.

Record TrustThreshold : Type := MkTrust { numerator : Z; denominator : Z }.
Record Height : Type := MkHeight { revision_number : Z; revision_height : Z }.

Record TendermintClientState : Type := MkClientState {
  chain_id : bytes;
  trust_level : TrustThreshold;
  trusting_period_secs : Z;
  unbonding_period_secs : Z;
  max_clock_drift_secs : Z;
  cs_latest_height : Height;
  is_frozen : bool;
  frozen_height : Height;
  proof_specs : bytes;
}.

Record TendermintConsensusState : Type := MkConsensus {
  cons_timestamp_secs : Z;
  cons_next_validators_hash : bytes;
  root : bytes;
}.

Record TendermintHeader : Type := MkHeader {
  trusted_height : Height;
  target_height : Height;
  timestamp_secs : Z;
  next_validators_hash : bytes;
  app_hash : bytes;
  signed_header_bytes : bytes;
  validator_set_bytes : bytes;
}.

Record Misbehaviour : Type := MkMisbehaviour {
  header_a : TendermintHeader;
  header_b : TendermintHeader;
}.

Inductive DataKey : Type :=
| Client (client_id : bytes)
| Consensus (client_id : bytes) (height : Z)
| Frozen (client_id : bytes).

#[export] Instance DataKey_eq_dec : EqDecision DataKey.
Proof. solve_decision. Defined.
#[export] Instance DataKey_countable : Countable DataKey.
Proof.
  refine (inj_countable'
    (fun k => match k with
              | Client i => inl i
              | Consensus i h => inr (inl (i, h))
              | Frozen i => inr (inr i)
              end)
    (fun s => match s with
              | inl i => Client i
              | inr (inl (i, h)) => Consensus i h
              | inr (inr i) => Frozen i
              end) _).
  by intros [].
Defined.

Inductive Val : Type :=
| TmClient (cs : TendermintClientState)
| TmConsensus (c : TendermintConsensusState)
| TmBool (b : bool).
Definition as_client (v : Val) : option TendermintClientState :=
  match v with TmClient c => Some c | _ => None end.
Definition as_consensus (v : Val) : option TendermintConsensusState :=
  match v with TmConsensus c => Some c | _ => None end.
Definition as_bool (v : Val) : option bool := match v with TmBool b => Some b | _ => None end.

Abbreviation State := (Storage DataKey Val).

(** The SDK's XDR codecs of the contract types. *)
Class TmXdr := {
  client_state_from_xdr : bytes -> xdr_read TendermintClientState;
  client_state_to_xdr : TendermintClientState -> bytes;
  consensus_state_from_xdr : bytes -> xdr_read TendermintConsensusState;
  consensus_state_to_xdr : TendermintConsensusState -> bytes;
  header_from_xdr : bytes -> xdr_read TendermintHeader;
}.

Section Contract.
Context `{TmXdr}.

Definition expect_some {A} (e : Error) (o : option A) : run State A := unwrap_or_fail (error_of e) o.

Definition load_client_state (client_id : bytes) : run State TendermintClientState :=
  o ← persistent_get as_client (Client client_id);
  expect_some ClientNotInitialised o.

Definition load_consensus_state (client_id : bytes) (height : Z) :
    run State TendermintConsensusState :=
  o ← persistent_get as_consensus (Consensus client_id height);
  expect_some ConsensusStateMissing o.

Definition decode_header (b : bytes) : res TendermintHeader :=
  from_xdr_or (error_of InvalidHeader) (header_from_xdr b).

Definition initialise (env : Env) (client_id client_state consensus_state : bytes) (height : Z) :
    run State unit :=
  cs ← lift (from_xdr_or (error_of InvalidClientState) (client_state_from_xdr client_state));
  c ← lift (from_xdr_or (error_of InvalidConsensusState) (consensus_state_from_xdr consensus_state));
  _ ← persistent_set env (Client client_id) (TmClient cs);
  persistent_set env (Consensus client_id height) (TmConsensus c).

Definition latest_height (client_id : bytes) : run State Z :=
  cs ← load_client_state client_id;
  mret (revision_height (cs_latest_height cs)).

Definition client_state (client_id : bytes) : run State bytes :=
  cs ← load_client_state client_id;
  mret (client_state_to_xdr cs).

Definition consensus_state (client_id : bytes) (height : Z) : run State bytes :=
  c ← load_consensus_state client_id height;
  mret (consensus_state_to_xdr c).

Definition verify_client_message (client_id client_message : bytes) : run State (bytes * Z) :=
  mret ([], 0).

Definition check_for_misbehaviour (client_id client_message : bytes) : run State bool :=
  cs ← load_client_state client_id;
  if is_frozen cs then mret false
  else
    header ← lift (decode_header client_message);
    o ← persistent_get as_consensus (Consensus client_id (revision_height (target_height header)));
    mret (match o with
          | Some existing => negb (bool_decide (root existing = app_hash header))
          | None => false
          end).

Definition update_state (env : Env) (client_id client_message : bytes) : run State Z :=
  cs ← load_client_state client_id;
  _ ← fail_if (is_frozen cs) (error_of ClientFrozen);
  header ← lift (decode_header client_message);
  _ ← fail_if (revision_height (target_height header) <=? revision_height (cs_latest_height cs))
        (error_of HeaderHeightNotAfterTrusted);
  let new_consensus := MkConsensus (timestamp_secs header) (next_validators_hash header)
                         (app_hash header) in
  _ ← persistent_set env (Consensus client_id (revision_height (target_height header)))
        (TmConsensus new_consensus);
  let cs := MkClientState (chain_id cs) (trust_level cs) (trusting_period_secs cs)
              (unbonding_period_secs cs) (max_clock_drift_secs cs) (target_height header)
              (is_frozen cs) (frozen_height cs) (proof_specs cs) in
  _ ← persistent_set env (Client client_id) (TmClient cs);
  mret (revision_height (target_height header)).

Definition update_state_on_misbehaviour (env : Env) (client_id client_message : bytes) :
    run State unit :=
  cs ← load_client_state client_id;
  let cs := MkClientState (chain_id cs) (trust_level cs) (trusting_period_secs cs)
              (unbonding_period_secs cs) (max_clock_drift_secs cs) (cs_latest_height cs)
              true (cs_latest_height cs) (proof_specs cs) in
  _ ← persistent_set env (Client client_id) (TmClient cs);
  persistent_set env (Frozen client_id) (TmBool true).

Definition frozen (client_id : bytes) : run State bool :=
  o ← persistent_get as_bool (Frozen client_id);
  mret (default false o).

Definition verify_membership (client_id : bytes) (height : Z) (proof path value : bytes) :
    run State bool :=
  known ← persistent_has (Consensus client_id height);
  if negb known then mret false
  else
    cs ← load_client_state client_id;
    if is_frozen cs then mret false else mret true.

Definition verify_non_membership (client_id : bytes) (height : Z) (proof path : bytes) :
    run State bool :=
  known ← persistent_has (Consensus client_id height);
  if negb known then mret false
  else
    cs ← load_client_state client_id;
    if is_frozen cs then mret false else mret true.

Definition get_timestamp_at_height (client_id : bytes) (height : Z) : run State Z :=
  o ← persistent_get as_consensus (Consensus client_id height);
  mret (match o with Some c => cons_timestamp_secs c | None => 0 end).

End Contract.

(** ** Properties *)

Definition mdata (st : State) : gmap DataKey Val := persistent_data st.
Definition client_of (st : State) (cid : bytes) : option TendermintClientState :=
  match mdata st !! Client cid with Some (TmClient cs) => Some cs | _ => None end.
Definition consensus_of (st : State) (cid : bytes) (h : Z) : option TendermintConsensusState :=
  match mdata st !! Consensus cid h with Some (TmConsensus c) => Some c | _ => None end.

Lemma tm_load_client_state_Ok cid (st st' : State) cs :
  load_client_state cid st = Ok (st', cs) <-> st' = st /\ client_of st cid = Some cs.
Proof.
  unfold load_client_state, client_of, expect_some, persistent_get, mbind, M_bind, lift, typed_get.
  cbn [storage_of Storage_HasStorage]. unfold mdata.
  destruct (persistent_data st !! Client cid) as [[]|]; simpl; unfold fail, mret, M_ret; naive_solver.
Qed.

Lemma tm_run_load {B} cid (st : State) cs (g : TendermintClientState -> run State B) :
  client_of st cid = Some cs -> (load_client_state cid ≫= g) st = g cs st.
Proof. intros Hc. apply M_bind_run. by apply tm_load_client_state_Ok. Qed.

Section Specs.
Context `{TmXdr}.
Implicit Types st : State.

Lemma tm_update_state_Ok env cid msg st st' h :
  update_state env cid msg st = Ok (st', h) ->
  exists cs hd, client_of st cid = Some cs /\ is_frozen cs = false /\ header_from_xdr msg = XdrValue hd /\
    h = revision_height (target_height hd) /\ revision_height (cs_latest_height cs) < h /\
    mdata st' =
      <[Client cid := TmClient (MkClientState (chain_id cs) (trust_level cs) (trusting_period_secs cs)
          (unbonding_period_secs cs) (max_clock_drift_secs cs) (target_height hd) false
          (frozen_height cs) (proof_specs cs))]>
        (<[Consensus cid h := TmConsensus (MkConsensus (timestamp_secs hd) (next_validators_hash hd)
                                             (app_hash hd))]> (mdata st)).
Proof.
  unfold update_state, decode_header. intros Hr.
  apply M_bind_Ok in Hr as (st1 & cs & [-> Hcs]%tm_load_client_state_Ok & Hr). hinv Hr.
  apply from_xdr_or_Ok in Hrun0. apply Z.leb_gt in Hrun1.
  exists cs, v. split_and!; try done. unfold mdata. simpl. by rewrite Hrun.
Qed.

Lemma tm_update_state_total env cid msg st cs hd :
  client_of st cid = Some cs -> is_frozen cs = false -> header_from_xdr msg = XdrValue hd ->
  revision_height (cs_latest_height cs) < revision_height (target_height hd) ->
  exists st', update_state env cid msg st = Ok (st', revision_height (target_height hd)).
Proof.
  intros Hcs Hf Hh Hlt. unfold update_state, decode_header. rewrite (tm_run_load _ _ cs) by done.
  rewrite Hf, Hh. simpl. unfold mbind, M_bind, lift. simpl.
  rewrite (proj2 (Z.leb_gt _ _)) by done. eexists. reflexivity.
Qed.

(** [update_state] succeeds exactly on a header that decodes, while the client is not frozen and
    the header's height is greater than the latest; the latest height moves to it, the header's root
    and time are stored under it, and no other consensus state and no other client changes. *)
Theorem tendermint_update_spec (env : Env) (cid msg : bytes) (st : State) :
  (forall st' h, update_state env cid msg st = Ok (st', h) ->
  exists cs cs' hd, client_of st cid = Some cs /\ is_frozen cs = false /\
    header_from_xdr msg = XdrValue hd /\ client_of st' cid = Some cs' /\
    revision_height (cs_latest_height cs) < revision_height (cs_latest_height cs') /\
    revision_height (cs_latest_height cs') = h /\ is_frozen cs' = false /\
    consensus_of st' cid h =
      Some (MkConsensus (timestamp_secs hd) (next_validators_hash hd) (app_hash hd)) /\
    (forall cid' h', (cid', h') <> (cid, h) -> consensus_of st' cid' h' = consensus_of st cid' h') /\
    (forall cid', cid' <> cid -> client_of st' cid' = client_of st cid')) /\
  (forall cs hd, client_of st cid = Some cs -> is_frozen cs = false -> header_from_xdr msg = XdrValue hd ->
     revision_height (cs_latest_height cs) < revision_height (target_height hd) ->
     exists st', update_state env cid msg st = Ok (st', revision_height (target_height hd))).
Proof.
  split; [|apply tm_update_state_total].
  intros st' h (cs & hd & Hcs & Hfr & Hhd & -> & Hlt & Hd)%tm_update_state_Ok.
  exists cs, (MkClientState (chain_id cs) (trust_level cs) (trusting_period_secs cs)
    (unbonding_period_secs cs) (max_clock_drift_secs cs) (target_height hd) false
    (frozen_height cs) (proof_specs cs)), hd.
  unfold consensus_of, client_of in *. rewrite Hd. split_and!; try done.
  - by rewrite lookup_insert_eq.
  - by rewrite lookup_insert_ne, lookup_insert_eq by done.
  - intros cid' h' Hne. by rewrite !lookup_insert_ne by congruence.
  - intros cid' Hne. by rewrite !lookup_insert_ne by congruence.
Qed.

(** The client checks no proof: [verify_membership] and [verify_non_membership] answer yes for
    every proof, path and value as soon as the height has a consensus state and the client is not
    frozen; after misbehaviour they answer no for every proof and updates fail. *)
Theorem tendermint_proofs_spec (env : Env) (st : State) (cid : bytes) (cs : TendermintClientState)
    (h : Z) (proof path v msg : bytes) :
  client_of st cid = Some cs ->
  (is_frozen cs = false -> is_Some (mdata st !! Consensus cid h) ->
     verify_membership cid h proof path v st = Ok (st, true) /\
     verify_non_membership cid h proof path st = Ok (st, true)) /\
  (exists st', update_state_on_misbehaviour env cid msg st = Ok (st', tt) /\
     verify_membership cid h proof path v st' = Ok (st', false) /\
     verify_non_membership cid h proof path st' = Ok (st', false) /\
     update_state env cid msg st' = Err (error_of ClientFrozen)).
Proof.
  intros Hcs. split.
  - intros Hfr Hs. unfold verify_membership, verify_non_membership.
    rewrite !(M_bind_run _ _ st st true)
      by (apply persistent_has_Ok; split; [done|]; by rewrite bool_decide_eq_true_2).
    simpl. rewrite !(tm_run_load _ _ cs) by done. by rewrite Hfr.
  - unfold update_state_on_misbehaviour. erewrite tm_run_load by exact Hcs. eexists. split; [done|].
    match goal with |- context [verify_membership _ _ _ _ _ ?s] => set (st' := s) end.
    assert (client_of st' cid = Some (MkClientState (chain_id cs) (trust_level cs)
      (trusting_period_secs cs) (unbonding_period_secs cs) (max_clock_drift_secs cs)
      (cs_latest_height cs) true (cs_latest_height cs) (proof_specs cs))) as Hcs'.
    { unfold client_of, mdata. simpl. by rewrite lookup_insert_ne, lookup_insert_eq. }
    assert (forall b, (if negb b then mret false
              else cs0 ← load_client_state cid; if is_frozen cs0 then mret false else mret true) st' =
              Ok (st', false)) as Hno.
    { intros []; [|done]. simpl. by erewrite tm_run_load by exact Hcs'. }
    split_and!.
    + unfold verify_membership. erewrite M_bind_run by (by apply persistent_has_Ok). apply Hno.
    + unfold verify_non_membership. erewrite M_bind_run by (by apply persistent_has_Ok). apply Hno.
    + unfold update_state. by erewrite tm_run_load by exact Hcs'.
Qed.

End Specs.

(** ** A concrete client *)

Definition sample_height (h : Z) : Height := MkHeight 0 h.
Definition sample_client : TendermintClientState :=
  MkClientState (bstr "cosmoshub-4") (MkTrust 1 3) 1209600 1814400 40 (sample_height 10) false
    (sample_height 0) [].
Definition sample_header : TendermintHeader :=
  MkHeader (sample_height 10) (sample_height 12) 1200 (replicate 32 Byte.x01) (replicate 32 Byte.x02)
    [] [].
Definition sample_xdr : TmXdr :=
  {| client_state_from_xdr := fun b => if decide (b = bstr "client") then XdrValue sample_client else XdrMalformed;
     client_state_to_xdr := fun _ => bstr "client";
     consensus_state_from_xdr := fun b =>
       if decide (b = bstr "consensus") then XdrValue (MkConsensus 1000 [] []) else XdrMalformed;
     consensus_state_to_xdr := fun _ => bstr "consensus";
     header_from_xdr := fun b => if decide (b = bstr "header") then XdrValue sample_header else XdrMalformed |}.
Definition sample_env : Env := MkEnv 1000 (ContractAddress []) None ∅ 100.
Definition sample_state : State :=
  run_state empty_storage (@initialise sample_xdr sample_env (bstr "c") (bstr "client")
                             (bstr "consensus") 10 empty_storage).
Definition sample_updated : State :=
  run_state empty_storage (@update_state sample_xdr sample_env (bstr "c") (bstr "header") sample_state).

Lemma tendermint_update_spec_witness :
  exists cs', client_of sample_updated (bstr "c") = Some cs' /\
    revision_height (cs_latest_height cs') = 12.
Proof.
  assert (@update_state sample_xdr sample_env (bstr "c") (bstr "header") sample_state =
          Ok (sample_updated, 12)) as Hrun by (apply run_value_Ok; vm_compute; reflexivity).
  destruct (proj1 (@tendermint_update_spec sample_xdr sample_env (bstr "c") (bstr "header")
              sample_state) sample_updated 12 Hrun) as (cs & cs' & hd & _ & _ & _ & Hcs' & _ & Hh & _).
  exists cs'. split; [exact Hcs'|exact Hh].
Defined.

Lemma tendermint_proofs_spec_witness :
  verify_membership (bstr "c") 10 (bstr "garbage") (bstr "any path") (bstr "any value") sample_state =
    Ok (sample_state, true).
Proof.
  refine (proj1 (proj1 (@tendermint_proofs_spec sample_xdr sample_env sample_state (bstr "c")
    sample_client 10 (bstr "garbage") (bstr "any path") (bstr "any value") [] _) _ _)).
  - vm_compute. reflexivity.
  - reflexivity.
  - apply (bool_decide_unpack _). vm_compute. reflexivity.
Defined.

End TendermintLightClient.
