(* ===== verification/System.v ===== *)
(** * The contracts of the repository, together

    The router's theorems hold for any light clients and applications.  Here are the repository's own:
    a ledger with the mock, attestation and Tendermint light clients and the transfer application
    deployed at four addresses, as an instance of the interfaces of [Interfaces]; and the router as
    the application calls it.  A small ledger of twelve transactions, executed with these contracts,
    instantiates the theorems of [Router], [PacketHandler] and [TransferSpec]. *)

From Stdlib Require Import ZArith Lia Strings.Byte Strings.String.
From stdpp Require Import base option list gmap numbers.
From S2P Require Import Prelude Bytes Crypto Host RouterTypes Identifiers CoreCommitment Ics24Host.
From S2P Require Import Interfaces IbcStore Ics02Client PortRouter PacketHandler Router Transfer.
From S2P Require Import TransferSpec LcMock LcAttestation LcTendermint.
Open Scope Z_scope.

#[local] Existing Instances MockLightClient.DataKey_eq_dec MockLightClient.DataKey_countable
  AttestationLightClient.DataKey_eq_dec AttestationLightClient.DataKey_countable
  TendermintLightClient.DataKey_eq_dec TendermintLightClient.DataKey_countable
  IbcTransfer.DataKey_eq_dec IbcTransfer.DataKey_countable.

(** The state of the deployed contracts. *)
Record Contracts : Type := MkContracts {
  c_mock : MockLightClient.State;
  c_attestation : AttestationLightClient.State;
  c_tendermint : TendermintLightClient.State;
  c_transfer : Storage IbcTransfer.DataKey IbcTransfer.Val;
}.

Definition mock_address : Address := ContractAddress (replicate 32 Byte.x11).
Definition attestation_address : Address := ContractAddress (replicate 32 Byte.x12).
Definition tendermint_address : Address := ContractAddress (replicate 32 Byte.x13).
Definition transfer_address : Address := ContractAddress (replicate 32 Byte.x14).
Definition router_address : Address := ContractAddress (replicate 32 Byte.x15).

(** A call of one contract runs on its own state. *)
Definition on_mock {A} (m : run MockLightClient.State A) (c : Contracts) : res (Contracts * A) :=
  match m (c_mock c) with
  | Ok (s, a) => Ok (MkContracts s (c_attestation c) (c_tendermint c) (c_transfer c), a)
  | Err e => Err e
  end.
Definition on_attestation {A} (m : run AttestationLightClient.State A) (c : Contracts) :
    res (Contracts * A) :=
  match m (c_attestation c) with
  | Ok (s, a) => Ok (MkContracts (c_mock c) s (c_tendermint c) (c_transfer c), a)
  | Err e => Err e
  end.
Definition on_tendermint {A} (m : run TendermintLightClient.State A) (c : Contracts) :
    res (Contracts * A) :=
  match m (c_tendermint c) with
  | Ok (s, a) => Ok (MkContracts (c_mock c) (c_attestation c) s (c_transfer c), a)
  | Err e => Err e
  end.
Definition on_transfer {A} (m : run (Storage IbcTransfer.DataKey IbcTransfer.Val) A) (c : Contracts) :
    res (Contracts * A) :=
  match m (c_transfer c) with
  | Ok (s, a) => Ok (MkContracts (c_mock c) (c_attestation c) (c_tendermint c) s, a)
  | Err e => Err e
  end.

(** [env.invoke_contract(&address, ..)] for a light client, and for an application. *)
Definition at_light_client {A} (address : Address) (mock : run MockLightClient.State A)
    (attestation : run AttestationLightClient.State A) (tendermint : run TendermintLightClient.State A)
    (c : Contracts) : res (Contracts * A) :=
  if decide (address = mock_address) then on_mock mock c
  else if decide (address = attestation_address) then on_attestation attestation c
  else if decide (address = tendermint_address) then on_tendermint tendermint c
  else Err (MissingContract address).
Definition at_application {A} (address : Address)
    (transfer : run (Storage IbcTransfer.DataKey IbcTransfer.Val) A) (c : Contracts) :
    res (Contracts * A) :=
  if decide (address = transfer_address) then on_transfer transfer c
  else Err (MissingContract address).

Section Deployment.
Context `{Ed25519} `{AttestationLightClient.AttXdr} `{TendermintLightClient.TmXdr} `{IbcTransfer.Xdr}.

#[export] Instance deployed_light_clients : LightClients Contracts := {|
  lc_initialise env a cid cs cons h :=
    at_light_client a (MockLightClient.initialise env cid cs cons h)
      (AttestationLightClient.initialise env cid cs cons h)
      (TendermintLightClient.initialise env cid cs cons h);
  lc_check_for_misbehaviour env a cid msg :=
    at_light_client a (MockLightClient.check_for_misbehaviour cid msg)
      (AttestationLightClient.check_for_misbehaviour cid msg)
      (TendermintLightClient.check_for_misbehaviour cid msg);
  lc_update_state env a cid msg :=
    at_light_client a (MockLightClient.update_state env cid msg)
      (AttestationLightClient.update_state env cid msg)
      (TendermintLightClient.update_state env cid msg);
  lc_update_state_on_misbehaviour env a cid msg :=
    at_light_client a (MockLightClient.update_state_on_misbehaviour env cid msg)
      (AttestationLightClient.update_state_on_misbehaviour env cid msg)
      (TendermintLightClient.update_state_on_misbehaviour env cid msg);
  lc_verify_membership env a cid h proof path value :=
    at_light_client a (MockLightClient.verify_membership cid h proof path value)
      (AttestationLightClient.verify_membership cid h proof path value)
      (TendermintLightClient.verify_membership cid h proof path value);
  lc_verify_non_membership env a cid h proof path :=
    at_light_client a (MockLightClient.verify_non_membership cid h proof path)
      (AttestationLightClient.verify_non_membership cid h proof path)
      (TendermintLightClient.verify_non_membership cid h proof path);
  lc_get_timestamp_at_height env a cid h :=
    at_light_client a (MockLightClient.get_timestamp_at_height cid h)
      (AttestationLightClient.get_timestamp_at_height cid h)
      (TendermintLightClient.get_timestamp_at_height cid h);
|}.

#[export] Instance deployed_apps : IbcApps Contracts := {|
  app_on_recv_packet env a cb := at_application a (IbcTransfer.on_recv_packet env cb);
  app_on_acknowledgement_packet env a cb :=
    at_application a (IbcTransfer.on_acknowledgement_packet env cb);
  app_on_timeout_packet env a cb := at_application a (IbcTransfer.on_timeout_packet env cb);
|}.

(** The router as the transfer application calls it. *)
#[export] Instance deployed_router `{Sha256} : IbcTransfer.RouterClient (World Contracts) := {|
  IbcTransfer.router_send_packet env a cid t payloads w :=
    if decide (a = router_address) then send_packet env cid t payloads w
    else Err (MissingContract a);
|}.

End Deployment.

(** ** Executing a ledger *)

#[export] Instance Counterparty_eq_dec : EqDecision Counterparty.
Proof. solve_decision. Defined.
#[export] Instance Ret_eq_dec : EqDecision Ret.
Proof. solve_decision. Defined.
#[export] Instance call_wf_dec c : Decision (call_wf c).
Proof. destruct c; simpl; apply _. Defined.

Section Replay.
Context `{Sha256} `{LightClients Contracts} `{IbcApps Contracts}.

(** Executes the transactions and checks their results. *)
Fixpoint replay (w : World Contracts) (ls : list label) : option (World Contracts) :=
  match ls with
  | [] => Some w
  | LCall env c r :: ls =>
      match exec env c w with
      | Ok (w', r') => if decide (r' = r /\ call_wf c) then replay w' ls else None
      | Err _ => None
      end
  | _ :: _ => None
  end.

Lemma replay_steps w ls w' : replay w ls = Some w' -> steps step w ls w'.
Proof.
  revert w. induction ls as [|l ls IH]; intros w; cbn [replay]; [by intros [= ->]; constructor|].
  destruct l as [env c r| |]; [|done..].
  destruct (exec env c w) as [[w1 r1]|] eqn:Hx; [|done]. case_decide as Hc; [|done].
  destruct Hc as [-> Hwf]. intros Hr. econstructor; [|by apply IH]. by constructor.
Qed.

Definition replayed (w : World Contracts) (ls : list label) : World Contracts := default w (replay w ls).
Definition replays (w : World Contracts) (ls : list label) : bool :=
  match replay w ls with Some _ => true | None => false end.

Lemma replayed_steps w ls : replays w ls = true -> steps step w ls (replayed w ls).
Proof.
  unfold replays, replayed. destruct (replay w ls) eqn:Hr; [|done]. intros _. by apply replay_steps.
Qed.

End Replay.

(** ** The digit loops of the contracts end *)

Lemma write_u32_digits_more fuel k n i tmp r :
  write_u32_digits fuel n i tmp = Ok r -> write_u32_digits (fuel + k) n i tmp = Ok r.
Proof.
  revert n i tmp. induction fuel as [|fuel IH]; intros n i tmp; [done|]. cbn [write_u32_digits Nat.add].
  destruct (0 <? n); [|done]. destruct (checked _); [|done]. cbn [mbind result_bind]. apply IH.
Qed.
Lemma append_decimal_loop_more fuel k n i digits r :
  IbcTransfer.append_decimal_loop fuel n i digits = Ok r ->
  IbcTransfer.append_decimal_loop (fuel + k) n i digits = Ok r.
Proof.
  revert n i digits. induction fuel as [|fuel IH]; intros n i digits; [done|].
  cbn [IbcTransfer.append_decimal_loop Nat.add]. destruct (0 <? n); [|done]. destruct i as [|i]; [done|].
  destruct (checked _); [|done]. cbn [mbind result_bind]. apply IH.
Qed.

(** C36: the two loops that print numbers on chain end before they leave their buffers: for every [u32] the
    loop of [write_u32] and for every positive [i128] amount the loop of [append_decimal] stops with a
    result after the rounds the model grants it, and granting more rounds changes nothing. *)
Theorem digit_loops_terminate :
  (forall n k, in_u32 n -> exists r,
     write_u32_digits 11 n 0 (zeros 10) = Ok r /\ write_u32_digits (11 + k) n 0 (zeros 10) = Ok r) /\
  (forall n k, 0 < n -> in_i128 n -> exists r,
     IbcTransfer.append_decimal_loop 41 n 40 (zeros 40) = Ok r /\
     IbcTransfer.append_decimal_loop (41 + k) n 40 (zeros 40) = Ok r).
Proof.
  split.
  - intros n k Hn. destruct (write_u32_digits_spec 10 n 0 [] (zeros 10)) as (tmp & Hr & _);
      [by apply u32_lt_10_10|done..|rewrite zeros_length; apply (dec_digits_length 10)|].
    eexists. split; [exact Hr|]. by apply write_u32_digits_more.
  - intros n k Hpos Hn. destruct (append_decimal_loop_spec 40 n 40 (zeros 40)) as (d & i & Hr & _);
      [by apply i128_lt_10_40|done|by rewrite zeros_length|].
    eexists. split; [exact Hr|]. by apply append_decimal_loop_more.
Qed.

(** ** A small ledger *)
Module Ledger.

Definition admin : Address := AccountAddress (replicate 32 Byte.x01).
Definition user : Address := AccountAddress (replicate 32 Byte.x02).

(** Codecs that know the values of the example. *)
Definition header_at_12 (hash : byte) : TendermintLightClient.TendermintHeader :=
  TendermintLightClient.MkHeader (TendermintLightClient.sample_height 10)
    (TendermintLightClient.sample_height 12) 1200 (replicate 32 Byte.x01) (replicate 32 hash) [] [].
#[local] Instance tendermint_xdr : TendermintLightClient.TmXdr :=
  {| TendermintLightClient.client_state_from_xdr :=
       @TendermintLightClient.client_state_from_xdr TendermintLightClient.sample_xdr;
     TendermintLightClient.client_state_to_xdr :=
       @TendermintLightClient.client_state_to_xdr TendermintLightClient.sample_xdr;
     TendermintLightClient.consensus_state_from_xdr :=
       @TendermintLightClient.consensus_state_from_xdr TendermintLightClient.sample_xdr;
     TendermintLightClient.consensus_state_to_xdr :=
       @TendermintLightClient.consensus_state_to_xdr TendermintLightClient.sample_xdr;
     TendermintLightClient.header_from_xdr := fun b =>
       if decide (b = bstr "header") then XdrValue (header_at_12 Byte.x02)
       else if decide (b = bstr "fork") then XdrValue (header_at_12 Byte.x03) else XdrMalformed |}.

Definition transfer_data (receiver : bytes) : IbcTransfer.FungibleTokenPacketData :=
  IbcTransfer.MkData (IbcTransfer.MkToken (bstr "uatom") 7) (bstr "cosmos1") receiver [].
Definition user_text : bytes := Eval vm_compute in
  match @IbcTransfer.address_to_string
          {| IbcTransfer.address_to_xdr := scval_address;
             IbcTransfer.address_from_xdr := scval_address_decode;
             IbcTransfer.data_from_xdr := fun _ => XdrMalformed |} user with
  | Ok t => t
  | Err _ => []
  end.
#[local] Instance transfer_xdr : IbcTransfer.Xdr :=
  {| IbcTransfer.address_to_xdr := scval_address;
     IbcTransfer.address_from_xdr := scval_address_decode;
     IbcTransfer.data_from_xdr := fun b =>
       if decide (b = bstr "data") then XdrValue (transfer_data user_text) else XdrMalformed |}.
#[local] Existing Instances toy_sha256 AttestationLightClient.sample_ed25519
  AttestationLightClient.sample_xdr.

Definition contracts : Contracts :=
  MkContracts empty_storage empty_storage empty_storage
    (MkStorage {[IbcTransfer.Router := IbcTransfer.TvAddress router_address]} ∅ ∅).
Definition genesis : World Contracts := deployed admin contracts.

(** A transaction signed by the administrator, one by nobody, and a call from the application. *)
Definition by_admin : Env := MkEnv 1000 router_address None {[admin]} 100.
Definition by_anyone : Env := MkEnv 1000 router_address None ∅ 100.
Definition by_app : Env := MkEnv 1000 router_address (Some transfer_address) ∅ 100.

Definition payload (v : bytes) : Payload :=
  MkPayload IbcTransfer.PORT IbcTransfer.PORT IbcTransfer.VERSION IbcTransfer.ENCODING v.
Definition incoming (n : Z) : Packet :=
  MkPacket n (bstr "remote-0") (bstr "mock-0") 5000 [payload (bstr "data")].
Definition outgoing (n : Z) : Packet :=
  MkPacket n (bstr "mock-0") (bstr "remote-0") 5000 [payload (bstr "json")].
Definition success : list bytes := [[IbcTransfer.SUCCESS_ACK_BYTE]].

Definition setup : list label := [
  LCall by_admin (CRegisterClientType (bstr "mock") mock_address) VUnit;
  LCall by_admin (CRegisterClientType (bstr "tendermint") tendermint_address) VUnit;
  LCall by_anyone (CCreateClient (bstr "mock") [] [] 1) (VString (bstr "mock-0"));
  LCall by_anyone (CCreateClient (bstr "tendermint") (bstr "client") (bstr "consensus") 10)
    (VString (bstr "tendermint-0"));
  LCall by_anyone (CRegisterCounterparty (bstr "mock-0") (bstr "remote-0") [bstr "ibc"]) VUnit;
  LCall by_admin (CRegisterPort IbcTransfer.PORT transfer_address) VUnit].
Definition receive (n : Z) : label := LCall by_anyone (CRecvPacket (incoming n) [] 1) VUnit.
Definition send (n : Z) : label :=
  LCall by_app (CSendPacket (bstr "mock-0") 5000 [payload (bstr "json")]) (VU64 n).
Definition acknowledge (n : Z) : label :=
  LCall by_anyone (CAcknowledgePacket (outgoing n) success [] 1) VUnit.
Definition update : label := LCall by_anyone (CUpdateClient (bstr "tendermint-0") (bstr "header")) (VU64 12).
Definition misbehave : label := LCall by_anyone (CUpdateClient (bstr "tendermint-0") (bstr "fork")) (VU64 0).

Definition ready : World Contracts := replayed genesis setup.

Lemma ledger_steps ls : replays genesis ls = true -> steps step genesis ls (replayed genesis ls).
Proof. apply replayed_steps. Qed.
Lemma ledger_reachable ls : replays genesis ls = true -> reachable (replayed genesis ls).
Proof. intros Hr. exists admin, contracts, ls. by apply ledger_steps. Qed.

Definition traffic : list label := [receive 1; receive 2; send 1; send 2; acknowledge 1].
Definition busy : World Contracts := replayed genesis (setup ++ traffic).

Lemma busy_reachable : reachable busy.
Proof. apply ledger_reachable. vm_compute. reflexivity. Qed.

Lemma reachable_router_inv_witness : router_inv busy.
Proof. exact (reachable_router_inv busy busy_reachable). Defined.

Lemma router_refines_abstract_witness :
  exists a, label_action (acknowledge 2) a /\ acts a busy (replayed busy [acknowledge 2]).
Proof.
  apply router_refines_abstract; [exact busy_reachable|].
  apply steps_single, replayed_steps. vm_compute. reflexivity.
Defined.

Lemma bindings_are_permanent_witness : bindings_kept (rdata busy) (rdata (replayed busy [update])).
Proof.
  apply (bindings_are_permanent busy (replayed busy [update]) [update] busy_reachable).
  apply replayed_steps. vm_compute. reflexivity.
Defined.

Lemma packet_received_at_most_once_witness :
  (dest_client (incoming 1), sequence (incoming 1)) <> (dest_client (incoming 2), sequence (incoming 2)).
Proof.
  apply (packet_received_at_most_once admin contracts setup [] [send 1] by_anyone by_anyone
    (incoming 1) (incoming 2) [] [] 1 1 (replayed genesis (setup ++ [receive 1; receive 2; send 1]))).
  apply (ledger_steps (setup ++ [receive 1; receive 2; send 1])). vm_compute. reflexivity.
Defined.

Lemma sequences_strictly_increase_witness : 1 < 2.
Proof.
  apply (sequences_strictly_increase admin contracts setup [receive 1] [] by_app by_app (bstr "mock-0")
    5000 5000 [payload (bstr "json")] [payload (bstr "json")] 1 2
    (replayed genesis (setup ++ [send 1; receive 1; send 2]))).
  apply (ledger_steps (setup ++ [send 1; receive 1; send 2])). vm_compute. reflexivity.
Defined.

Lemma packet_resolved_at_most_once_witness : ~ resolves (bstr "mock-0") 1 (acknowledge 2).
Proof.
  apply (packet_resolved_at_most_once admin contracts (setup ++ [send 1; send 2]) [] []
    (acknowledge 1) (acknowledge 2) (bstr "mock-0") 1
    (replayed genesis ((setup ++ [send 1; send 2]) ++ acknowledge 1 :: [] ++ acknowledge 2 :: []))).
  - repeat constructor.
  - apply ledger_steps. vm_compute. reflexivity.
  - split; reflexivity.
Defined.

Lemma events_mirror_provable_store_witness :
  rdata busy !! commitment_key (bstr "mock-0") 2 =
  RvBytes <$> observed (revents busy) !! Core.packet_commitment_path (bstr "mock-0") 2.
Proof.
  apply (events_mirror_provable_store admin contracts (setup ++ traffic) busy).
  - repeat constructor.
  - apply ledger_steps. vm_compute. reflexivity.
Defined.

Lemma resolved_packet_was_sent_witness :
  exists q, SendPacketEvent (bstr "mock-0") 2 q ∈ revents busy /\
    core_packet_commitment q = core_packet_commitment (outgoing 2).
Proof.
  destruct (resolved_packet_was_sent admin contracts (setup ++ traffic) busy
    (replayed busy [acknowledge 2]) by_anyone (outgoing 2) success [] 1
    (CAcknowledgePacket (outgoing 2) success [] 1)) as (q & Hq & Hc & _).
  - repeat constructor.
  - apply ledger_steps. vm_compute. reflexivity.
  - left. reflexivity.
  - apply steps_single, replayed_steps. vm_compute. reflexivity.
  - exists q. split; [exact Hq|exact Hc].
Defined.

Lemma queries_answer_witness :
  frozen (bstr "mock-0") busy = Ok (busy, is_frozen (rdata busy) (bstr "mock-0")).
Proof. apply (queries_answer busy (bstr "mock-0") 1 busy_reachable). Defined.

Definition forked : World Contracts := replayed genesis (setup ++ [update; misbehave]).

Lemma frozen_client_stays_closed_witness :
  update_client by_anyone (bstr "tendermint-0") (bstr "header") (replayed forked [send 1]) =
  Err (error_of ClientFrozen).
Proof.
  apply (frozen_client_stays_closed forked (replayed forked [send 1]) [send 1] by_anyone).
  - apply ledger_reachable. vm_compute. reflexivity.
  - vm_compute. reflexivity.
  - apply replayed_steps. vm_compute. reflexivity.
Defined.

Lemma store_writers_are_unauthenticated_witness :
  exists w', exec by_anyone (CSetPacketCommitment (bstr "mock-0") 9 (core_packet_commitment (outgoing 9)))
    busy = Ok (w', VUnit) /\ revents w' = revents busy.
Proof.
  destruct (store_writers_are_unauthenticated busy by_anyone (outgoing 9)) as [(w' & Hx & _ & Hev) _];
    [reflexivity|reflexivity|vm_compute; lia|vm_compute; lia|].
  exists w'. split; [exact Hx|exact Hev].
Defined.

(** The application, holding a balance of the user, in front of the ledger. *)
Definition app_env : Env := MkEnv 1000 transfer_address None {[user]} 100.
Definition app_world : IbcTransfer.TWorld (World Contracts) :=
  IbcTransfer.MkTW
    (MkStorage {[IbcTransfer.Router := IbcTransfer.TvAddress router_address]}
       {[IbcTransfer.Balance user (bstr "uxlm") := IbcTransfer.TvI128 50]} ∅) ready.
Definition app_run := IbcTransfer.initiate_transfer app_env user (bstr "mock-0") (bstr "uxlm") 20
  (bstr "cosmos1") 5000 [] app_world.

Lemma initiate_transfer_spec_witness :
  authorized app_env user = true /\ 20 <= bal (tdata app_world) user (bstr "uxlm").
Proof.
  destruct (initiate_transfer_spec app_env user (bstr "mock-0") (bstr "uxlm") 20 (bstr "cosmos1") 5000 []
    app_world (run_state app_world app_run) 1) as (Ha & _ & _ & Hb & _).
  - vm_compute. split; discriminate.
  - apply (run_value_Ok app_world app_run). vm_compute. reflexivity.
  - split; [exact Ha|exact Hb].
Defined.

Example ledger_runs :
  replays genesis (setup ++ [receive 1; receive 2; send 1; send 2; acknowledge 1; acknowledge 2;
                             update; misbehave]) = true.
Proof. vm_compute. reflexivity. Qed.

End Ledger.
