(* ===== verification/Smt.v ===== *)
(** * The sparse Merkle tree ([crates/core/src/ibc/smt.rs],
      [contracts/cosmwasm/light-client/src/smt.rs])

    The gateway mirrors the router's provable store in a sparse Merkle tree of depth 64 whose leaf
    positions are the first 64 bits of the hashed key; the CosmWasm light client checks its proofs.
    [CoreSmt] is the gateway's implementation, [WasmSmt] the verifier's. *)

From Stdlib Require Import ZArith Lia Strings.Byte Strings.String.
From stdpp Require Import base option list gmap sets numbers.
From S2P Require Import Prelude Bytes Crypto CoreCommitment.
Open Scope Z_scope.

Definition TREE_DEPTH : nat := 64.
Definition HASH_SIZE : nat := 32.
Definition EMPTY : bytes := zeros HASH_SIZE.

Module CoreSmt.

(** [Smt { leaves: BTreeMap<u64, ([u8; 32], [u8; 32])> }]. *)
Record Smt : Type := MkSmt { leaves : gmap Z (bytes * bytes) }.

Record MembershipProof : Type := MkMembership {
  mp_key_hash : bytes;
  mp_value_hash : bytes;
  mp_siblings : list bytes;
}.
Record NonMembershipProof : Type := MkNonMembership {
  np_key_hash : bytes;
  np_siblings : list bytes;
}.

Definition new : Smt := MkSmt ∅.

Section Tree.
Context `{Sha256}.

Definition key_index_from_hash (key_hash : bytes) : Z := of_be_bytes (take 8 key_hash).
Definition key_index (key : bytes) : Z := key_index_from_hash (sha256 key).

Definition leaf_hash (key_hash value_hash : bytes) : bytes :=
  sha256 ([Byte.x00] ++ key_hash ++ value_hash).

Definition inner_hash (left right : bytes) : bytes :=
  if bool_decide (left = EMPTY) && bool_decide (right = EMPTY) then EMPTY
  else sha256 ([Byte.x01] ++ left ++ right).

Definition remove (key : bytes) (smt : Smt) : Smt := MkSmt (delete (key_index key) (leaves smt)).

Definition insert (key value : bytes) (smt : Smt) : Smt :=
  if bool_decide (value = []) then remove key smt
  else
    let key_hash := sha256 key in
    let value_hash := sha256 value in
    let idx := key_index_from_hash key_hash in
    MkSmt (<[idx := (key_hash, value_hash)]> (leaves smt)).

Definition update (key value : bytes) (smt : Smt) : Smt := insert key value smt.

(** [*level.get(&i).unwrap_or(&EMPTY)]. *)
Definition node (level : gmap Z bytes) (i : Z) : bytes := default EMPTY (level !! i).

(** One round of the loop [for h in 1..=TREE_DEPTH]. *)
Definition parent_level (level : gmap Z bytes) : gmap Z bytes :=
  let parents : gset Z := set_map (fun i => Z.shiftr i 1) (dom level) in
  set_fold (fun pidx acc =>
      let left_idx := Z.shiftl pidx 1 in
      let right_idx := Z.lor left_idx 1 in
      let p := inner_hash (node level left_idx) (node level right_idx) in
      if bool_decide (p = EMPTY) then acc else <[pidx := p]> acc) ∅ parents.

Fixpoint levels_from (n : nat) (level : gmap Z bytes) : list (gmap Z bytes) :=
  level :: match n with O => [] | S n => levels_from n (parent_level level) end.

Definition materialize_levels (smt : Smt) : list (gmap Z bytes) :=
  levels_from TREE_DEPTH ((fun kv => leaf_hash kv.1 kv.2) <$> leaves smt).

Definition root (smt : Smt) : bytes :=
  if bool_decide (leaves smt = ∅) then EMPTY
  else
    let levels := materialize_levels smt in
    match levels !! TREE_DEPTH with Some level => node level 0 | None => EMPTY end.

(** [for level in levels.iter().take(TREE_DEPTH) { out.push(level[i ^ 1]); i >>= 1; }]. *)
Fixpoint collect_siblings (levels : list (gmap Z bytes)) (i : Z) : list bytes :=
  match levels with
  | [] => []
  | level :: levels => node level (Z.lxor i 1) :: collect_siblings levels (Z.shiftr i 1)
  end.

Definition siblings_for (smt : Smt) (idx : Z) : list bytes :=
  collect_siblings (take TREE_DEPTH (materialize_levels smt)) idx.

Definition generate_membership_proof (key : bytes) (smt : Smt) : option MembershipProof :=
  let key_hash := sha256 key in
  let idx := key_index_from_hash key_hash in
  '(stored_kh, stored_vh) ← leaves smt !! idx;
  if negb (bool_decide (stored_kh = key_hash)) then None
  else Some (MkMembership key_hash stored_vh (siblings_for smt idx)).

Definition generate_non_membership_proof (key : bytes) (smt : Smt) : option NonMembershipProof :=
  let key_hash := sha256 key in
  let idx := key_index_from_hash key_hash in
  match leaves smt !! idx with
  | Some (stored_kh, _) => if bool_decide (stored_kh = key_hash) then None else None
  | None => Some (MkNonMembership key_hash (siblings_for smt idx))
  end.

Fixpoint fold_siblings (idx : Z) (leaf : bytes) (siblings : list bytes) : bytes :=
  match siblings with
  | [] => leaf
  | sibling :: siblings =>
      let current := if Z.land idx 1 =? 0 then inner_hash leaf sibling
                     else inner_hash sibling leaf in
      fold_siblings (Z.shiftr idx 1) current siblings
  end.

Definition verify_membership (root : bytes) (proof : MembershipProof) (key value : bytes) : bool :=
  if bool_decide (value = []) then false
  else
    let key_hash := sha256 key in
    if negb (bool_decide (key_hash = mp_key_hash proof)) then false
    else
      let value_hash := sha256 value in
      if negb (bool_decide (value_hash = mp_value_hash proof)) then false
      else if negb (length (mp_siblings proof) =? TREE_DEPTH)%nat then false
      else
        let idx := key_index_from_hash key_hash in
        let computed := fold_siblings idx (leaf_hash key_hash value_hash) (mp_siblings proof) in
        bool_decide (computed = root).

Definition verify_non_membership (root : bytes) (proof : NonMembershipProof) (key : bytes) : bool :=
  let key_hash := sha256 key in
  if negb (bool_decide (key_hash = np_key_hash proof)) then false
  else if negb (length (np_siblings proof) =? TREE_DEPTH)%nat then false
  else
    let idx := key_index_from_hash key_hash in
    let computed := fold_siblings idx EMPTY (np_siblings proof) in
    bool_decide (computed = root).

End Tree.
End CoreSmt.

Module WasmSmt.
Section Verifier.
Context `{Sha256}.

Definition key_index (key : bytes) : Z := of_be_bytes (take 8 (sha256 key)).

Definition leaf_hash (key_hash value_hash : bytes) : bytes :=
  sha256 ([Byte.x00] ++ key_hash ++ value_hash).

Definition inner_hash (left right : bytes) : bytes :=
  if bool_decide (left = EMPTY) && bool_decide (right = EMPTY) then EMPTY
  else sha256 ([Byte.x01] ++ left ++ right).

Fixpoint fold_siblings (idx : Z) (leaf : bytes) (siblings : list bytes) : bytes :=
  match siblings with
  | [] => leaf
  | sibling :: siblings =>
      let current := if Z.land idx 1 =? 0 then inner_hash leaf sibling
                     else inner_hash sibling leaf in
      fold_siblings (Z.shiftr idx 1) current siblings
  end.

Definition verify_membership_raw (root key value : bytes) (siblings : list bytes) : bool :=
  if bool_decide (value = []) || negb (length siblings =? TREE_DEPTH)%nat then false
  else
    let key_hash := sha256 key in
    let value_hash := sha256 value in
    let idx := key_index key in
    bool_decide (fold_siblings idx (leaf_hash key_hash value_hash) siblings = root).

Definition verify_non_membership_raw (root key : bytes) (siblings : list bytes) : bool :=
  if negb (length siblings =? TREE_DEPTH)%nat then false
  else
    let idx := key_index key in
    bool_decide (fold_siblings idx EMPTY siblings = root).

End Verifier.
End WasmSmt.

Import CoreSmt.

(** ** Levels *)

Section Levels.
Context `{Sha256}.

Lemma inner_hash_empty : inner_hash EMPTY EMPTY = EMPTY.
Proof. unfold inner_hash. by rewrite !bool_decide_eq_true_2. Qed.

Lemma set_fold_parent (f : Z -> bytes) (ps : gset Z) i v :
  set_fold (fun pidx acc => if bool_decide (f pidx = EMPTY) then acc else <[pidx := f pidx]> acc)
    (∅ : gmap Z bytes) ps !! i = Some v <-> i ∈ ps /\ f i <> EMPTY /\ v = f i.
Proof.
  revert v. apply (set_fold_ind_L (fun (acc : gmap Z bytes) (ps : gset Z) =>
    forall v, acc !! i = Some v <-> i ∈ ps /\ f i <> EMPTY /\ v = f i)).
  - intros v. rewrite lookup_empty. set_solver.
  - intros p X acc Hp IH v. destruct (decide (f p = EMPTY)) as [He|He].
    + rewrite bool_decide_eq_true_2 by done. rewrite IH. set_solver.
    + rewrite bool_decide_eq_false_2 by done. rewrite lookup_insert.
      destruct (decide (p = i)) as [->|Hne].
      * split; [intros [= <-]; set_solver|intros (_ & _ & ->); done].
      * rewrite IH. set_solver.
Qed.

(** A node of the parent level is the hash of its two children, absent children counting as
    [EMPTY]. *)
Lemma node_parent level p :
  node (parent_level level) p =
  inner_hash (node level (Z.shiftl p 1)) (node level (Z.lor (Z.shiftl p 1) 1)).
Proof.
  unfold parent_level, node at 1. cbn zeta.
  match goal with |- default EMPTY ?o = ?h => destruct o as [v|] eqn:Ho; simpl end.
  { apply (set_fold_parent (fun p => inner_hash (node level (Z.shiftl p 1))
             (node level (Z.lor (Z.shiftl p 1) 1)))) in Ho as (_ & _ & ->). done. }
  destruct (decide (inner_hash (node level (Z.shiftl p 1)) (node level (Z.lor (Z.shiftl p 1) 1)) =
                    EMPTY)) as [->|Hne]; [done|].
  exfalso. eapply eq_None_not_Some; [exact Ho|]. eexists.
  apply (set_fold_parent (fun p => inner_hash (node level (Z.shiftl p 1))
           (node level (Z.lor (Z.shiftl p 1) 1)))). split_and!; [|done..]. apply elem_of_map.
  destruct (decide (Z.shiftl p 1 ∈ dom level)) as [Hl|Hl].
  { exists (Z.shiftl p 1). split; [|done]. by rewrite Z.shiftr_shiftl_l, Z.shiftl_0_r by lia. }
  destruct (decide (Z.lor (Z.shiftl p 1) 1 ∈ dom level)) as [Hr|Hr].
  { exists (Z.lor (Z.shiftl p 1) 1). split; [|done].
    rewrite Z.shiftr_lor, Z.shiftr_shiftl_l, Z.shiftl_0_r by lia. by rewrite Z.lor_0_r. }
  exfalso. apply Hne. unfold node. apply not_elem_of_dom in Hl, Hr. rewrite Hl, Hr. simpl.
  apply inner_hash_empty.
Qed.

End Levels.

(** ** Positions *)

Lemma land_1_mod i : Z.land i 1 = i mod 2.
Proof. change 1 with (Z.ones 1) at 1. rewrite Z.land_ones by lia. done. Qed.

Lemma land_double_1 x : Z.land (2 * x) 1 = 0.
Proof. rewrite land_1_mod, Z.mul_comm. apply Z.mod_mul. lia. Qed.

Lemma shiftl_1 x : Z.shiftl x 1 = 2 * x.
Proof. rewrite Z.shiftl_mul_pow2 by lia. change (2 ^ 1) with 2. lia. Qed.

Lemma lor_double_1 x : Z.lor (Z.shiftl x 1) 1 = 2 * x + 1.
Proof. rewrite shiftl_1, <-Z.add_nocarry_lor by apply land_double_1. done. Qed.

(** A position, its parent and its sibling. *)
Lemma even_position i :
  Z.land i 1 = 0 -> i = Z.shiftl (Z.shiftr i 1) 1 /\ Z.lxor i 1 = Z.lor (Z.shiftl (Z.shiftr i 1) 1) 1.
Proof.
  intros He. assert (i = 2 * Z.shiftr i 1) as Hi.
  { rewrite land_1_mod in He. rewrite Z.shiftr_div_pow2 by lia. change (2 ^ 1) with 2.
    pose proof (Z.div_mod i 2 ltac:(lia)). lia. }
  rewrite lor_double_1, shiftl_1. split; [done|]. rewrite <-Hi.
  rewrite <-Z.add_nocarry_lxor; done.
Qed.

Lemma odd_position i :
  Z.land i 1 <> 0 -> i = Z.lor (Z.shiftl (Z.shiftr i 1) 1) 1 /\ Z.lxor i 1 = Z.shiftl (Z.shiftr i 1) 1.
Proof.
  intros Ho. assert (i = 2 * Z.shiftr i 1 + 1) as Hi.
  { rewrite land_1_mod in Ho. rewrite Z.shiftr_div_pow2 by lia. change (2 ^ 1) with 2.
    pose proof (Z.div_mod i 2 ltac:(lia)). pose proof (Z.mod_pos_bound i 2 ltac:(lia)). lia. }
  rewrite lor_double_1, shiftl_1. split; [done|]. set (x := Z.shiftr i 1) in *. rewrite Hi.
  rewrite Z.add_nocarry_lxor by apply land_double_1.
  by rewrite Z.lxor_assoc, Z.lxor_nilpotent, Z.lxor_0_r.
Qed.

Section Paths.
Context `{Sha256}.

(** One step of the fold goes from a node to its parent. *)
Lemma fold_step level i :
  (if Z.land i 1 =? 0 then inner_hash (node level i) (node level (Z.lxor i 1))
   else inner_hash (node level (Z.lxor i 1)) (node level i)) =
  node (parent_level level) (Z.shiftr i 1).
Proof.
  rewrite node_parent. destruct (Z.eqb_spec (Z.land i 1) 0) as [He|Ho].
  - destruct (even_position i He) as [E1 E2]. by rewrite <-E1, <-E2 at 1.
  - destruct (odd_position i Ho) as [E1 E2]. by rewrite <-E1, <-E2 at 1.
Qed.

Lemma fold_collect n level i :
  fold_siblings i (node level i) (collect_siblings (take n (levels_from n level)) i) =
  node (Nat.iter n parent_level level) (Z.shiftr i (Z.of_nat n)).
Proof.
  revert level i. induction n as [|n IH]; intros level i.
  - simpl. by rewrite Z.shiftr_0_r.
  - cbn [levels_from take collect_siblings fold_siblings]. rewrite fold_step, IH.
    rewrite Nat.iter_succ_r, Z.shiftr_shiftr by lia. do 2 f_equal. lia.
Qed.

Lemma levels_lookup n level h :
  (h <= n)%nat -> levels_from n level !! h = Some (Nat.iter h parent_level level).
Proof.
  revert n level. induction h as [|h IH]; intros n level Hn; [by destruct n|].
  destruct n as [|n]; [lia|]. cbn [levels_from]. simpl. rewrite IH by lia.
  by rewrite <-Nat.iter_succ_r, Nat.iter_succ.
Qed.

Lemma levels_length n level : length (levels_from n level) = S n.
Proof. revert level. induction n; intros level; simpl; [done|]. by rewrite IHn. Qed.

Lemma collect_siblings_length levels i : length (collect_siblings levels i) = length levels.
Proof. revert i. induction levels as [|l ls IH]; intros i; simpl; [done|]. by rewrite IH. Qed.

Definition level0 (smt : Smt) : gmap Z bytes := (fun kv => leaf_hash kv.1 kv.2) <$> leaves smt.

Lemma siblings_for_length smt idx : length (siblings_for smt idx) = TREE_DEPTH.
Proof.
  unfold siblings_for, materialize_levels. rewrite collect_siblings_length, length_take, levels_length.
  unfold TREE_DEPTH. lia.
Qed.

Lemma parent_level_empty : parent_level ∅ = ∅.
Proof. unfold parent_level. rewrite dom_empty_L, set_map_empty. apply set_fold_empty. Qed.

(** The root is the only node of the top level. *)
Lemma root_node smt : root smt = node (Nat.iter TREE_DEPTH parent_level (level0 smt)) 0.
Proof.
  unfold root. destruct (decide (leaves smt = ∅)) as [He|Hne].
  - rewrite bool_decide_eq_true_2 by done. unfold level0. rewrite He, fmap_empty.
    assert (forall n, Nat.iter n parent_level ∅ = ∅) as ->.
    { intros n. induction n as [|n IH]; [done|]. rewrite Nat.iter_succ, IH. apply parent_level_empty. }
    done.
  - rewrite bool_decide_eq_false_2 by done. cbn zeta. unfold materialize_levels.
    rewrite levels_lookup by done. done.
Qed.

Lemma u64_shiftr_64 i : in_u64 i -> Z.shiftr i (Z.of_nat TREE_DEPTH) = 0.
Proof.
  intros Hi. rewrite Z.shiftr_div_pow2 by (unfold TREE_DEPTH; lia). apply Z.div_small.
  unfold in_u64, u64_max in Hi. change (Z.of_nat TREE_DEPTH) with 64. lia.
Qed.

(** The siblings of a position lead from its leaf to the root. *)
Lemma siblings_lead_to_root smt idx :
  in_u64 idx -> fold_siblings idx (node (level0 smt) idx) (siblings_for smt idx) = root smt.
Proof.
  intros Hi. rewrite root_node. unfold siblings_for, materialize_levels. fold (level0 smt).
  rewrite fold_collect. by rewrite u64_shiftr_64.
Qed.

Lemma key_index_u64 kh : length kh = 32%nat -> in_u64 (key_index_from_hash kh).
Proof. intros Hl. apply of_be_bytes_u64. rewrite length_take. lia. Qed.

End Paths.

(** ** Binding *)

Section Binding.
Context `{Sha256}.

(** The messages [fold_siblings] hashes. *)
Fixpoint fold_messages (idx : Z) (leaf : bytes) (siblings : list bytes) : list bytes :=
  match siblings with
  | [] => []
  | sibling :: siblings =>
      let l := if Z.land idx 1 =? 0 then leaf else sibling in
      let r := if Z.land idx 1 =? 0 then sibling else leaf in
      ([Byte.x01] ++ l ++ r) :: fold_messages (Z.shiftr idx 1) (inner_hash l r) siblings
  end.

(** No two of the messages collide, and none hashes to the empty node. *)
Definition sound_hashes (ms : list bytes) : Prop :=
  Core.no_collision ms /\ forall x, x ∈ ms -> sha256 x <> EMPTY.
Definition sound_hashesb (ms : list bytes) : bool :=
  Core.no_collisionb ms && forallb (fun x => negb (bool_decide (sha256 x = EMPTY))) ms.

Lemma sound_hashesb_spec ms : sound_hashesb ms = true -> sound_hashes ms.
Proof.
  unfold sound_hashesb. intros [Hn He]%andb_true_iff. split; [by apply Core.no_collisionb_spec|].
  intros x Hx. rewrite forallb_forall in He. apply list_elem_of_In in Hx. specialize (He x Hx).
  by apply negb_true_iff, bool_decide_eq_false in He.
Qed.

Lemma sound_hashes_sub ms ms' : ms' ⊆ ms -> sound_hashes ms -> sound_hashes ms'.
Proof. intros Hs [Hn He]. split; [by eapply Core.no_collision_sub|]. intros x Hx. by apply He, Hs. Qed.

Lemma inner_hash_length l r : length (inner_hash l r) = 32%nat.
Proof. unfold inner_hash. case_match; [done|apply sha256_length]. Qed.

Lemma inner_hash_nonempty l r :
  ~ (l = EMPTY /\ r = EMPTY) -> inner_hash l r = sha256 ([Byte.x01] ++ l ++ r).
Proof.
  intros Hne. unfold inner_hash.
  destruct (bool_decide (l = EMPTY) && bool_decide (r = EMPTY)) eqn:Hb; [|done].
  apply andb_true_iff in Hb as [Hl%bool_decide_eq_true Hr%bool_decide_eq_true]. by destruct Hne.
Qed.

Lemma inner_hash_inj l1 r1 l2 r2 :
  length l1 = 32%nat -> length l2 = 32%nat ->
  sound_hashes [[Byte.x01] ++ l1 ++ r1; [Byte.x01] ++ l2 ++ r2] ->
  inner_hash l1 r1 = inner_hash l2 r2 -> l1 = l2 /\ r1 = r2.
Proof.
  intros H1 H2 [Hn He] Heq.
  assert (sha256 ([Byte.x01] ++ l1 ++ r1) <> EMPTY) as He1 by (apply He; set_solver).
  assert (sha256 ([Byte.x01] ++ l2 ++ r2) <> EMPTY) as He2 by (apply He; set_solver).
  destruct (decide (l1 = EMPTY /\ r1 = EMPTY)) as [[-> ->]|N1],
           (decide (l2 = EMPTY /\ r2 = EMPTY)) as [[-> ->]|N2]; [done|..].
  - rewrite inner_hash_empty, inner_hash_nonempty in Heq by done. by destruct He2.
  - rewrite inner_hash_empty, inner_hash_nonempty in Heq by done. by destruct He1.
  - rewrite !inner_hash_nonempty in Heq by done. apply Hn in Heq; [|set_solver..].
    apply app_inv_head in Heq. apply app_inj_1 in Heq; [done|congruence].
Qed.

(** Two siblings lists that lead to the same root from the same position start from the same leaf. *)
Lemma fold_siblings_inj idx l1 s1 l2 s2 :
  length s1 = length s2 -> length l1 = 32%nat -> length l2 = 32%nat ->
  Forall (fun s => length s = 32%nat) s1 -> Forall (fun s => length s = 32%nat) s2 ->
  sound_hashes (fold_messages idx l1 s1 ++ fold_messages idx l2 s2) ->
  fold_siblings idx l1 s1 = fold_siblings idx l2 s2 -> l1 = l2 /\ s1 = s2.
Proof.
  revert idx l1 s2 l2. induction s1 as [|x s1 IH]; intros idx l1 [|y s2] l2 Hlen Hl1 Hl2 Hs1 Hs2 Hms;
    try done.
  inversion Hs1 as [|? ? Hx Hs1']; inversion Hs2 as [|? ? Hy Hs2']; subst.
  cbn [fold_siblings]. intros Heq. simpl in Hlen. cbn [fold_messages] in Hms. cbn zeta in Hms.
  assert (sound_hashes [[Byte.x01] ++ (if Z.land idx 1 =? 0 then l1 else x) ++
                           (if Z.land idx 1 =? 0 then x else l1);
                        [Byte.x01] ++ (if Z.land idx 1 =? 0 then l2 else y) ++
                           (if Z.land idx 1 =? 0 then y else l2)]) as Hm1
    by (eapply sound_hashes_sub; [|exact Hms]; set_solver).
  eapply sound_hashes_sub in Hms.
  - apply IH in Heq as [Hc ->]; [..|exact Hms]; try done; [|lia|..].
    + destruct (Z.eqb_spec (Z.land idx 1) 0); apply inner_hash_inj in Hc as [-> ->]; done.
    + destruct (Z.land idx 1 =? 0); apply inner_hash_length.
    + destruct (Z.land idx 1 =? 0); apply inner_hash_length.
  - destruct (Z.land idx 1 =? 0); set_solver.
Qed.

Lemma leaf_hash_inj k1 v1 k2 v2 :
  length k1 = length k2 ->
  Core.no_collision [[Byte.x00] ++ k1 ++ v1; [Byte.x00] ++ k2 ++ v2] ->
  leaf_hash k1 v1 = leaf_hash k2 v2 -> k1 = k2 /\ v1 = v2.
Proof.
  intros Hl Hn Heq. apply Hn in Heq; [|set_solver..]. apply app_inv_head in Heq.
  by apply app_inj_1 in Heq.
Qed.

Lemma node_length level i :
  map_Forall (fun _ h => length h = 32%nat) level -> length (node level i) = 32%nat.
Proof.
  intros Hall. unfold node. destruct (level !! i) as [h|] eqn:Hi; [by apply Hall in Hi|done].
Qed.

Lemma level0_lengths smt : map_Forall (fun _ h => length h = 32%nat) (level0 smt).
Proof.
  intros i h Hi. unfold level0 in Hi. rewrite lookup_fmap in Hi.
  destruct (leaves smt !! i) as [[k v]|]; simplify_eq/=. apply sha256_length.
Qed.

Lemma parent_lengths level : map_Forall (fun _ h => length h = 32%nat) (parent_level level).
Proof.
  intros i h Hi. unfold parent_level in Hi.
  apply (set_fold_parent (fun p => inner_hash (node level (Z.shiftl p 1))
           (node level (Z.lor (Z.shiftl p 1) 1)))) in Hi as (_ & _ & ->).
  apply inner_hash_length.
Qed.

Lemma siblings_lengths n level i :
  map_Forall (fun _ h => length h = 32%nat) level ->
  Forall (fun s => length s = 32%nat) (collect_siblings (take n (levels_from n level)) i).
Proof.
  revert level i. induction n as [|n IH]; intros level i Hl; [constructor|].
  cbn [levels_from take collect_siblings]. constructor; [by apply node_length|].
  apply IH, parent_lengths.
Qed.

End Binding.

(** ** Theorems *)

Section SmtTheorems.
Context `{Sha256}.

(** The leaf of a key with a value. *)
Definition holds (smt : Smt) (key value : bytes) : Prop :=
  leaves smt !! key_index key = Some (sha256 key, sha256 value).

Lemma insert_holds smt key value : value <> [] -> holds (insert key value smt) key value.
Proof.
  intros Hv. unfold holds, insert. rewrite bool_decide_eq_false_2 by done. simpl.
  by rewrite lookup_insert_eq.
Qed.

Lemma node_level0 smt i :
  node (level0 smt) i = match leaves smt !! i with Some (k, v) => leaf_hash k v | None => EMPTY end.
Proof. unfold node, level0. rewrite lookup_fmap. by destruct (leaves smt !! i) as [[k v]|]. Qed.

Lemma membership_complete smt key value :
  value <> [] -> holds smt key value ->
  exists p, generate_membership_proof key smt = Some p /\
    verify_membership (root smt) p key value = true.
Proof.
  intros Hv Hh. pose proof Hh as Hl. unfold holds, key_index in Hl.
  unfold generate_membership_proof. cbn zeta. rewrite Hl.
  cbn [mbind option_bind]. rewrite bool_decide_eq_true_2 by done. cbn [negb].
  eexists. split; [done|]. unfold verify_membership. cbn [mp_key_hash mp_value_hash mp_siblings].
  rewrite bool_decide_eq_false_2, !bool_decide_eq_true_2 by done. cbn [negb].
  rewrite siblings_for_length. cbn [negb Nat.eqb].
  pose proof (siblings_lead_to_root smt (key_index_from_hash (sha256 key))
                (key_index_u64 _ (sha256_length key))) as Hf.
  rewrite node_level0, Hl in Hf. rewrite Hf.
  replace (TREE_DEPTH =? TREE_DEPTH)%nat with true by done. cbn [negb].
  by apply bool_decide_eq_true_2.
Qed.

Lemma non_membership_complete smt key :
  leaves smt !! key_index key = None ->
  exists p, generate_non_membership_proof key smt = Some p /\
    verify_non_membership (root smt) p key = true.
Proof.
  intros Hl. unfold key_index in Hl. unfold generate_non_membership_proof. cbn zeta. rewrite Hl.
  eexists. split; [done|]. unfold verify_non_membership. cbn [np_key_hash np_siblings].
  rewrite bool_decide_eq_true_2 by done. cbn [negb]. rewrite siblings_for_length.
  replace (TREE_DEPTH =? TREE_DEPTH)%nat with true by done. cbn [negb].
  pose proof (siblings_lead_to_root smt (key_index_from_hash (sha256 key))
                (key_index_u64 _ (sha256_length key))) as Hf.
  rewrite node_level0, Hl in Hf. rewrite Hf. by apply bool_decide_eq_true_2.
Qed.

(** The tree can prove everything it holds: whenever the leaf of a key carries a (non-empty)
    value, a membership proof is generated and verifies against the root for that key and value;
    whenever the key's position is empty, a non-membership proof is generated and verifies; in
    particular right after [insert] and [remove]. *)
Theorem smt_proofs_complete (smt : Smt) (key value : bytes) :
  (value <> [] -> holds smt key value ->
     exists p, generate_membership_proof key smt = Some p /\
       verify_membership (root smt) p key value = true) /\
  (leaves smt !! key_index key = None ->
     exists p, generate_non_membership_proof key smt = Some p /\
       verify_non_membership (root smt) p key = true) /\
  (value <> [] -> holds (insert key value smt) key value) /\
  leaves (remove key smt) !! key_index key = None.
Proof.
  split_and!.
  - apply membership_complete.
  - apply non_membership_complete.
  - apply insert_holds.
  - unfold remove. simpl. apply lookup_delete_eq.
Qed.

(** The messages hashed along the tree's own path of a key, and along a proof. *)
Definition path_messages (smt : Smt) (key : bytes) : list bytes :=
  fold_messages (key_index key) (node (level0 smt) (key_index key)) (siblings_for smt (key_index key)).
Definition leaf_messages (smt : Smt) (key : bytes) : list bytes :=
  match leaves smt !! key_index key with
  | Some (k, v) => [[Byte.x00] ++ k ++ v]
  | None => []
  end.

(** The hashes stored in the leaves have 32 bytes. *)
Definition leaves_wf (smt : Smt) : Prop :=
  map_Forall (fun _ (kv : bytes * bytes) => length kv.1 = 32%nat /\ length kv.2 = 32%nat) (leaves smt).

Lemma insert_leaves_wf smt key value : leaves_wf smt -> leaves_wf (insert key value smt).
Proof.
  intros Hwf. unfold insert. case_match; [by apply map_Forall_delete|]. simpl.
  apply map_Forall_insert_2; [|done]. split; apply sha256_length.
Qed.

Lemma path_agrees smt key leaf siblings :
  length leaf = 32%nat -> length siblings = TREE_DEPTH ->
  Forall (fun s => length s = 32%nat) siblings ->
  sound_hashes (path_messages smt key ++ fold_messages (key_index key) leaf siblings) ->
  fold_siblings (key_index key) leaf siblings = root smt ->
  leaf = node (level0 smt) (key_index key).
Proof.
  intros Hl Hs Hss Hms Hf.
  rewrite <-(siblings_lead_to_root smt (key_index key)) in Hf
    by apply key_index_u64, sha256_length.
  refine (proj1 (fold_siblings_inj (key_index key) _ _ _ _ _ Hl _ Hss _ _ Hf)).
  - by rewrite siblings_for_length.
  - apply node_length, level0_lengths.
  - apply siblings_lengths, level0_lengths.
  - eapply sound_hashes_sub; [|exact Hms]. unfold path_messages.
    intros x. rewrite !elem_of_app. tauto.
Qed.

Lemma membership_sound smt key value p :
  leaves_wf smt -> Forall (fun s => length s = 32%nat) (mp_siblings p) ->
  sound_hashes (leaf_messages smt key ++ [[Byte.x00] ++ sha256 key ++ sha256 value] ++
    path_messages smt key ++
    fold_messages (key_index key) (leaf_hash (sha256 key) (sha256 value)) (mp_siblings p)) ->
  verify_membership (root smt) p key value = true -> holds smt key value.
Proof.
  intros Hwf Hp Hms. unfold verify_membership. intros Hv.
  destruct (bool_decide (value = [])); [done|].
  destruct (negb (bool_decide (sha256 key = mp_key_hash p))); [done|].
  destruct (negb (bool_decide (sha256 value = mp_value_hash p))); [done|].
  destruct (negb (length (mp_siblings p) =? TREE_DEPTH)%nat) eqn:Hlen; [done|].
  apply negb_false_iff, Nat.eqb_eq in Hlen. apply bool_decide_eq_true in Hv.
  apply path_agrees in Hv; [|apply sha256_length|done|done|].
  2: { eapply sound_hashes_sub; [|exact Hms]. intros x. rewrite !elem_of_app. tauto. }
  rewrite node_level0 in Hv. unfold holds, leaf_messages in *.
  destruct (leaves smt !! key_index key) as [[k v]|] eqn:Hl.
  - apply Hwf in Hl as [Hlk _]. simpl in Hlk.
    apply leaf_hash_inj in Hv as [-> ->]; [done|by rewrite sha256_length|].
    eapply Core.no_collision_sub; [|exact (proj1 Hms)]. intros x.
    rewrite !elem_of_app, !elem_of_cons. tauto.
  - exfalso. apply (proj2 Hms ([Byte.x00] ++ sha256 key ++ sha256 value)); [|by symmetry].
    rewrite !elem_of_app, elem_of_cons. tauto.
Qed.

Lemma non_membership_sound smt key q :
  Forall (fun s => length s = 32%nat) (np_siblings q) ->
  sound_hashes (leaf_messages smt key ++ path_messages smt key ++
    fold_messages (key_index key) EMPTY (np_siblings q)) ->
  verify_non_membership (root smt) q key = true -> leaves smt !! key_index key = None.
Proof.
  intros Hq Hms. unfold verify_non_membership. intros Hv.
  destruct (negb (bool_decide (sha256 key = np_key_hash q))); [done|].
  destruct (negb (length (np_siblings q) =? TREE_DEPTH)%nat) eqn:Hlen; [done|].
  apply negb_false_iff, Nat.eqb_eq in Hlen. apply bool_decide_eq_true in Hv.
  apply path_agrees in Hv; [|done|done|done|].
  2: { eapply sound_hashes_sub; [|exact Hms]. intros x. rewrite !elem_of_app. tauto. }
  rewrite node_level0 in Hv. unfold leaf_messages in Hms.
  destruct (leaves smt !! key_index key) as [[k v]|] eqn:Hl; [|done].
  exfalso. apply (proj2 Hms ([Byte.x00] ++ k ++ v)); [|by symmetry].
  rewrite !elem_of_app, elem_of_cons. tauto.
Qed.

Lemma raw_verifiers root key value siblings :
  WasmSmt.verify_membership_raw root key value siblings =
    verify_membership root (MkMembership (sha256 key) (sha256 value) siblings) key value /\
  WasmSmt.verify_non_membership_raw root key siblings =
    verify_non_membership root (MkNonMembership (sha256 key) siblings) key.
Proof.
  assert (forall s idx l, WasmSmt.fold_siblings idx l s = fold_siblings idx l s) as Hf.
  { intros s. induction s as [|x s IH]; intros idx l; [done|]. simpl. rewrite IH. done. }
  unfold WasmSmt.verify_membership_raw, verify_membership, WasmSmt.verify_non_membership_raw,
    verify_non_membership. cbn [mp_key_hash mp_value_hash mp_siblings np_key_hash np_siblings].
  rewrite (bool_decide_eq_true_2 (sha256 key = sha256 key)) by reflexivity.
  rewrite (bool_decide_eq_true_2 (sha256 value = sha256 value)) by reflexivity. cbn [negb]. split.
  - destruct (bool_decide (value = [])); [done|]. cbn [orb].
    destruct (negb _); [done|]. by rewrite Hf.
  - destruct (negb _); [done|]. by rewrite Hf.
Qed.

(** C22: The tree cannot be lied about: unless SHA-256 collides (or hits the empty node) on the
    messages hashed for the tree's path and for the proof, a membership proof that verifies
    against the root shows a key and value the tree really holds, and a non-membership proof that
    verifies shows a position that is really empty. *)
Theorem smt_proofs_sound (smt : Smt) (key value : bytes) (p : MembershipProof)
    (q : NonMembershipProof) :
  leaves_wf smt ->
  Forall (fun s => length s = 32%nat) (mp_siblings p) ->
  Forall (fun s => length s = 32%nat) (np_siblings q) ->
  sound_hashes (leaf_messages smt key ++ [[Byte.x00] ++ sha256 key ++ sha256 value] ++
    path_messages smt key ++
    fold_messages (key_index key) (leaf_hash (sha256 key) (sha256 value)) (mp_siblings p) ++
    fold_messages (key_index key) EMPTY (np_siblings q)) ->
  (verify_membership (root smt) p key value = true -> holds smt key value) /\
  (verify_non_membership (root smt) q key = true -> leaves smt !! key_index key = None).
Proof.
  intros Hwf Hp Hq Hms. split; [apply membership_sound; [done..|]|apply non_membership_sound; [done|]];
    (eapply sound_hashes_sub; [|exact Hms]); intros x; rewrite !elem_of_app; tauto.
Qed.

(** The verifier on the Cosmos side is the gateway's: [verify_membership_raw] and
    [verify_non_membership_raw] of the light client decide exactly what [Smt::verify_membership]
    and [Smt::verify_non_membership] decide for the proof with the key's and the value's hashes,
    on every root, key, value and list of siblings. *)
Theorem wasm_verifier_is_core_verifier (root key value : bytes) (siblings : list bytes) :
  WasmSmt.verify_membership_raw root key value siblings =
    verify_membership root (MkMembership (sha256 key) (sha256 value) siblings) key value /\
  WasmSmt.verify_non_membership_raw root key siblings =
    verify_non_membership root (MkNonMembership (sha256 key) siblings) key.
Proof. apply raw_verifiers. Qed.

End SmtTheorems.

(** ** Test vectors *)

Definition hex_digit (c : byte) : Z :=
  let z := Z_of_byte c in if z <? 58 then z - 48 else z - 87.
Fixpoint unhex (bs : bytes) : bytes :=
  match bs with
  | a :: b :: bs => byte_of_Z (16 * hex_digit a + hex_digit b) :: unhex bs
  | _ => []
  end.

Definition sample_smt : Smt := @insert fips_sha256 (bstr "a") [Byte.x01] new.
Definition sample_smt2 : Smt := @insert fips_sha256 (bstr "b") [Byte.x02] sample_smt.

(** The roots of the Cardano implementation for one and two leaves. *)
Example cardano_single_leaf :
  @root fips_sha256 sample_smt =
  unhex (bstr "85690e9fa0e51e6150d058db755d4a912cdabf584b27d15434a8afe61b619f24").
Proof. vm_compute. reflexivity. Qed.
Example cardano_two_leaves :
  @root fips_sha256 sample_smt2 =
  unhex (bstr "03fb13fc919c662a0822d832c90345055da830e1cc91072a1bcd83757a2d2fa3").
Proof. vm_compute. reflexivity. Qed.

(** Soundness on a small tree, with the cheap hash. *)
Definition small_smt : Smt := @insert toy_sha256 (bstr "a") [Byte.x01] new.
Definition small_proof : MembershipProof :=
  default (MkMembership [] [] []) (@generate_membership_proof toy_sha256 (bstr "a") small_smt).

Lemma smt_proofs_sound_witness : @holds toy_sha256 small_smt (bstr "a") [Byte.x01].
Proof.
  refine (proj1 (@smt_proofs_sound toy_sha256 small_smt (bstr "a") [Byte.x01] small_proof
                   (MkNonMembership [] []) _ _ _ _) _).
  - apply insert_leaves_wf. apply map_Forall_empty.
  - apply (bool_decide_unpack _). vm_compute. reflexivity.
  - constructor.
  - apply sound_hashesb_spec. vm_compute. reflexivity.
  - vm_compute. reflexivity.
Defined.
