(* ===== verification/Prost.v ===== *)
(** * Protocol-buffer messages, as the [prost] derive reads and writes them

    The messages of [contracts/cosmwasm/light-client/src/{types,merkle}.rs] are structs whose
    [#[prost(..., tag = n)]] attributes are their schema.  The byte-level wire format belongs to the
    [prost] crate and is a parameter, [ProstWire]: a message is a list of numbered fields, and
    [get_fields] reads back what [put_fields] wrote ([ProstWireLaws]).  What the derive macro does
    with the attributes is documented: a scalar at its default is not written, an optional message is
    written when present, a repeated field once per element; on reading, an unknown field is
    skipped, a scalar is overwritten, a repeated field grows, and a message field is merged into the
    one already read.  [Message] holds these two directions for a type and [MessageLaws] that they
    are inverse, from which every message gets its round trip. *)

From Stdlib Require Import ZArith Lia Strings.Byte Strings.String.
From stdpp Require Import base option list gmap numbers.
From S2P Require Import Prelude Bytes.
Open Scope Z_scope.

(** The payload of a field, by wire type; the last three only occur in fields no schema here
    knows. *)
Inductive wire_value : Type :=
| Varint (n : Z)
| Len (b : bytes)
| I64 (b : bytes)
| I32 (b : bytes)
| Group (b : bytes).
Definition field : Type := Z * wire_value.

(** A field some encoder can write: a legal field number and a payload of its width. *)
Definition field_ok (f : field) : Prop :=
  1 <= f.1 < 2 ^ 29 /\ match f.2 with Varint n => in_u64 n | Len _ => True | _ => False end.

Class ProstWire := {
  put_fields : list field -> bytes;
  get_fields : bytes -> option (list field);
}.
(** A varint that was read fits in 64 bits. *)
Definition varint_ok (f : field) : Prop := match f.2 with Varint n => in_u64 n | _ => True end.
Class ProstWireLaws `{ProstWire} : Prop := {
  get_put_fields fs : Forall field_ok fs -> get_fields (put_fields fs) = Some fs;
  get_fields_varint b fs : get_fields b = Some fs -> Forall varint_ok fs;
}.

(** [for x in l { acc = f(acc, x)?; }]. *)
Fixpoint foldM {A B} (f : A -> B -> option A) (l : list B) (a : A) : option A :=
  match l with [] => Some a | x :: l => a ← f a x; foldM f l a end.

(** ** Scalars *)

(** [uint64] and [int32] at their defaults are not written; [int32] is sign-extended to 64 bits. *)
Definition put_uint64 (tag n : Z) : list field := if n =? 0 then [] else [(tag, Varint n)].
Definition put_int32 (tag n : Z) : list field :=
  if n =? 0 then [] else [(tag, Varint (n mod 2 ^ 64))].
Definition put_bytes (tag : Z) (b : bytes) : list field := if decide (b = []) then [] else [(tag, Len b)].
Definition put_repeated (tag : Z) (bs : list bytes) : list field := (fun b => (tag, Len b)) <$> bs.

Definition get_uint64 (v : wire_value) : option Z :=
  match v with Varint n => Some n | _ => None end.
(** [v as i32]. *)
Definition to_i32 (n : Z) : Z := let m := n mod 2 ^ 32 in if m <? 2 ^ 31 then m else m - 2 ^ 32.
Definition get_int32 (v : wire_value) : option Z :=
  match v with Varint n => Some (to_i32 n) | _ => None end.
Definition get_bytes (v : wire_value) : option bytes :=
  match v with Len b => Some b | _ => None end.

Definition in_i32 (n : Z) : Prop := - 2 ^ 31 <= n < 2 ^ 31.

(** [str::from_utf8(b).is_ok()]. *)
Definition in_range (lo hi : Z) (b : byte) : bool := (lo <=? Z_of_byte b) && (Z_of_byte b <=? hi).
Definition cont_byte (b : byte) : bool := in_range 0x80 0xBF b.
Fixpoint utf8_valid (b : bytes) : bool :=
  match b with
  | [] => true
  | a :: t =>
      if in_range 0 0x7F a then utf8_valid t
      else match t with
      | [] => false
      | b :: t =>
          if in_range 0xC2 0xDF a then cont_byte b && utf8_valid t
          else match t with
          | [] => false
          | c :: t =>
              if in_range 0xE0 0xEF a then
                in_range (if Z_of_byte a =? 0xE0 then 0xA0 else 0x80)
                         (if Z_of_byte a =? 0xED then 0x9F else 0xBF) b
                && cont_byte c && utf8_valid t
              else match t with
              | [] => false
              | d :: t =>
                  in_range 0xF0 0xF4 a
                  && in_range (if Z_of_byte a =? 0xF0 then 0x90 else 0x80)
                              (if Z_of_byte a =? 0xF4 then 0x8F else 0xBF) b
                  && cont_byte c && cont_byte d && utf8_valid t
              end
          end
      end
  end.
Definition get_string (v : wire_value) : option bytes :=
  match v with Len b => if utf8_valid b then Some b else None | _ => None end.

(** ** Messages *)

Class Message (A : Type) := {
  msg_default : A;
  msg_fields : A -> list field;
  merge_field : A -> field -> option A;
}.

Section Codec.
Context `{ProstWire} {A : Type} `{Message A}.

Definition encode_to_vec (a : A) : bytes := put_fields (msg_fields a).
Definition merge (a : A) (b : bytes) : option A := fs ← get_fields b; foldM merge_field fs a.
(** [A::decode]; the text of a [DecodeError] is not kept. *)
Definition decode (b : bytes) : option A := merge msg_default b.

Definition put_optional (tag : Z) (o : option A) : list field :=
  match o with Some a => [(tag, Len (encode_to_vec a))] | None => [] end.
Definition put_messages (tag : Z) (l : list A) : list field :=
  (fun a => (tag, Len (encode_to_vec a))) <$> l.
(** A second occurrence of a message field is merged into the first. *)
Definition get_optional (o : option A) (v : wire_value) : option (option A) :=
  b ← get_bytes v; a ← merge (default msg_default o) b; Some (Some a).
Definition get_message (v : wire_value) : option A := b ← get_bytes v; decode b.

End Codec.
Arguments msg_default {A _}.
Arguments msg_fields {A _} a.
Arguments merge_field {A _} a f.

(** What a message type promises: the fields it writes are legal and read back as the value. *)
Class MessageLaws (A : Type) `{Message A} := {
  msg_ok : A -> Prop;
  msg_fields_ok a : msg_ok a -> Forall field_ok (msg_fields a);
  merge_msg_fields a : msg_ok a -> foldM merge_field (msg_fields a) msg_default = Some a;
}.
Arguments msg_ok {A _ _} a.

(** What is decoded is a value the type can have. *)
Class MessageDecodes (A : Type) `{MessageLaws A} : Prop := {
  msg_default_ok : msg_ok msg_default;
  merge_field_ok a f a' : msg_ok a -> varint_ok f -> merge_field a f = Some a' -> msg_ok a';
}.

(** ** Lemmas on the codec *)

Lemma foldM_app {A B} (f : A -> B -> option A) l1 l2 a :
  foldM f (l1 ++ l2) a = foldM f l1 a ≫= foldM f l2.
Proof.
  revert a. induction l1 as [|x l1 IH]; intros a; simpl; [done|].
  destruct (f a x); simpl; [apply IH|done].
Qed.

Lemma foldM_segment {A B} (f : A -> B -> option A) l1 l2 a a1 :
  foldM f l1 a = Some a1 -> foldM f (l1 ++ l2) a = foldM f l2 a1.
Proof. intros Hl. by rewrite foldM_app, Hl. Qed.

(** A segment that writes one field brings the accumulator from the default to the value. *)
Lemma foldM_uint64 {A} (f : A -> field -> option A) tag n (g : Z -> A) :
  (forall m, f (g 0) (tag, Varint m) = Some (g m)) -> foldM f (put_uint64 tag n) (g 0) = Some (g n).
Proof. intros Hf. unfold put_uint64. destruct (Z.eqb_spec n 0) as [->|]; simpl; [done|]. by rewrite Hf. Qed.

Lemma to_i32_extended n : in_i32 n -> to_i32 (n mod 2 ^ 64) = n.
Proof.
  unfold in_i32, to_i32. intros Hn.
  assert ((n mod 2 ^ 64) mod 2 ^ 32 = n mod 2 ^ 32) as ->.
  { change (2 ^ 64) with (2 ^ 32 * 2 ^ 32). rewrite Z.rem_mul_r by lia.
    rewrite Z.add_mod, Z.mul_comm, Z.mod_mul, Z.add_0_r, !Z.mod_mod by lia. done. }
  destruct (Z.ltb_spec (n mod 2 ^ 32) (2 ^ 31)) as [Hlt|Hge].
  - destruct (Z.le_gt_cases 0 n) as [Hp|Hp]; [apply Z.mod_small; lia|].
    rewrite <-(Z.mod_unique n (2 ^ 32) (-1) (n + 2 ^ 32)) in Hlt; lia.
  - destruct (Z.le_gt_cases 0 n) as [Hp|Hp]; [rewrite Z.mod_small in Hge; lia|].
    rewrite <-(Z.mod_unique n (2 ^ 32) (-1) (n + 2 ^ 32)); lia.
Qed.

Lemma foldM_int32 {A} (f : A -> field -> option A) tag n (g : Z -> A) :
  in_i32 n -> (forall m, f (g 0) (tag, Varint m) = Some (g (to_i32 m))) ->
  foldM f (put_int32 tag n) (g 0) = Some (g n).
Proof.
  intros Hn Hf. unfold put_int32. destruct (Z.eqb_spec n 0) as [->|]; [done|]. cbn [foldM].
  by rewrite Hf, to_i32_extended.
Qed.

Lemma foldM_bytes {A} (f : A -> field -> option A) tag b (g : bytes -> A) :
  f (g []) (tag, Len b) = Some (g b) -> foldM f (put_bytes tag b) (g []) = Some (g b).
Proof. intros Hf. unfold put_bytes. case_decide as Hb; simpl; [by rewrite Hb|]. by rewrite Hf. Qed.

Lemma foldM_repeated {A B} (f : A -> field -> option A) tag (enc : B -> bytes) bs (g : list B -> A) :
  Forall (fun b => forall l, f (g l) (tag, Len (enc b)) = Some (g (l ++ [b]))) bs ->
  foldM f ((fun b => (tag, Len (enc b))) <$> bs) (g []) = Some (g bs).
Proof.
  intros Hf. change bs with ([] ++ bs) at 2. generalize (@nil B) as l.
  induction Hf as [|b bs Hb Hf IH]; intros l; csimpl; [by rewrite app_nil_r|].
  rewrite Hb. csimpl. rewrite IH, <-app_assoc. done.
Qed.

Section CodecLemmas.
Context `{ProstWireLaws} {A : Type} `{MessageLaws A}.

Lemma merge_encode (a : A) : msg_ok a -> merge msg_default (encode_to_vec a) = Some a.
Proof.
  intros Ha. unfold merge, encode_to_vec. rewrite get_put_fields by by apply msg_fields_ok.
  by apply merge_msg_fields.
Qed.

Lemma decode_encode (a : A) : msg_ok a -> decode (encode_to_vec a) = Some a.
Proof. apply merge_encode. Qed.

Lemma get_message_encode (a : A) : msg_ok a -> get_message (Len (encode_to_vec a)) = Some a.
Proof. apply merge_encode. Qed.

Lemma get_optional_encode (a : A) :
  msg_ok a -> get_optional None (Len (encode_to_vec a)) = Some (Some a).
Proof. intros Ha. unfold get_optional. simpl. by rewrite merge_encode. Qed.

Lemma merge_msg_ok `{!MessageDecodes A} (a a' : A) b : msg_ok a -> merge a b = Some a' -> msg_ok a'.
Proof.
  unfold merge. intros Ha Hm. apply bind_Some in Hm as (fs & Hfs & Hm).
  apply get_fields_varint in Hfs. revert a Ha Hm. induction Hfs as [|f fs Hf _ IH]; intros a Ha Hm.
  - by injection Hm as <-.
  - cbn [foldM] in Hm. apply bind_Some in Hm as (a1 & Ha1 & Hm). eapply IH; [|done].
    by eapply merge_field_ok.
Qed.

Lemma decode_msg_ok `{!MessageDecodes A} (a : A) b : decode b = Some a -> msg_ok a.
Proof. apply merge_msg_ok, msg_default_ok. Qed.

Lemma get_optional_ok `{!MessageDecodes A} (o o' : option A) v :
  (forall a, o = Some a -> msg_ok a) -> get_optional o v = Some o' -> forall a, o' = Some a -> msg_ok a.
Proof.
  unfold get_optional. intros Ho Hg a ->. apply bind_Some in Hg as (b & _ & Hg).
  apply bind_Some in Hg as (a' & Hm & [= <-]). eapply merge_msg_ok; [|done].
  destruct o as [x|]; [by apply Ho|apply msg_default_ok].
Qed.

Lemma foldM_optional {B} (f : B -> field -> option B) tag (o : option A) (g : option A -> B) :
  (forall a, o = Some a -> msg_ok a) ->
  (forall v x, get_optional None v = Some x -> f (g None) (tag, v) = Some (g x)) ->
  foldM f (put_optional tag o) (g None) = Some (g o).
Proof.
  intros Ho Hf. destruct o as [a|]; [|done]. cbn [put_optional foldM].
  rewrite (Hf _ (Some a)) by by apply get_optional_encode, Ho. done.
Qed.

Lemma foldM_messages {B} (f : B -> field -> option B) tag (l : list A) (g : list A -> B) :
  Forall msg_ok l ->
  (forall v x l, get_message v = Some x -> f (g l) (tag, v) = Some (g (l ++ [x]))) ->
  foldM f (put_messages tag l) (g []) = Some (g l).
Proof.
  intros Hl Hf. apply foldM_repeated. eapply Forall_impl; [|exact Hl]. intros a Ha l'.
  apply Hf. by apply get_message_encode.
Qed.

End CodecLemmas.

Definition tag_ok (tag : Z) : Prop := 1 <= tag < 2 ^ 29.

Lemma put_uint64_ok tag n : tag_ok tag -> in_u64 n -> Forall field_ok (put_uint64 tag n).
Proof. intros. unfold put_uint64. destruct (n =? 0); repeat constructor; apply H || apply H0. Qed.
Lemma put_int32_ok tag n : tag_ok tag -> Forall field_ok (put_int32 tag n).
Proof.
  intros [? ?]. unfold put_int32. destruct (n =? 0); repeat constructor; try done; simpl.
  - pose proof (Z.mod_pos_bound n (2 ^ 64) ltac:(lia)). lia.
  - pose proof (Z.mod_pos_bound n (2 ^ 64) ltac:(lia)). unfold u64_max. lia.
Qed.
Lemma put_bytes_ok tag b : tag_ok tag -> Forall field_ok (put_bytes tag b).
Proof. intros [? ?]. unfold put_bytes. case_decide; repeat constructor; done. Qed.
Lemma put_repeated_ok tag bs : tag_ok tag -> Forall field_ok (put_repeated tag bs).
Proof. intros [? ?]. induction bs; constructor; [split; done|done]. Qed.
Lemma put_optional_ok `{ProstWire} {A} `{Message A} tag (o : option A) :
  tag_ok tag -> Forall field_ok (put_optional tag o).
Proof. intros [? ?]. destruct o; repeat constructor; done. Qed.
Lemma put_messages_ok `{ProstWire} {A} `{Message A} tag (l : list A) :
  tag_ok tag -> Forall field_ok (put_messages tag l).
Proof. intros [? ?]. induction l; constructor; [split; done|done]. Qed.

Create HintDb prost.
#[export] Hint Resolve put_uint64_ok put_int32_ok put_bytes_ok put_repeated_ok put_optional_ok
  put_messages_ok : prost.
#[export] Hint Extern 1 (tag_ok _) => (split; lia) : prost.
#[export] Hint Extern 1 (in_i32 _) => (split; lia) : prost.
(** [next_segment L] reads the first segment of a message with the lemma [L]. *)
Tactic Notation "next_segment" open_constr(L) := erewrite foldM_segment; [|apply L; try done].
Ltac fields_ok := rewrite ?Forall_app; split_and?; eauto with prost.

(** ** A concrete wire format

    The published protocol-buffer encoding (base-128 varints, keys [tag * 8 + wire type]) as an
    instance of the parameter, for evaluating examples. *)
Module Protobuf.

Fixpoint put_varint (fuel : nat) (n : Z) : bytes :=
  match fuel with
  | O => []
  | S fuel => if n <? 128 then [byte_of_Z n]
              else byte_of_Z (n mod 128 + 128) :: put_varint fuel (n / 128)
  end.
(** As many groups of seven bits as the number has bits are enough. *)
Definition varint (n : Z) : bytes := put_varint (S (Pos.size_nat (Z.to_pos n))) n.

Fixpoint get_varint (bs : bytes) : option (Z * bytes) :=
  match bs with
  | [] => None
  | b :: bs =>
      let x := Z_of_byte b in
      if x <? 128 then Some (x, bs)
      else '(n, r) ← get_varint bs; Some (x - 128 + 128 * n, r)
  end.

Definition put_field (f : field) : bytes :=
  match f.2 with
  | Varint n => varint (f.1 * 8) ++ varint n
  | Len b => varint (f.1 * 8 + 2) ++ varint (Z.of_nat (length b)) ++ b
  | _ => []
  end.
Definition put (fs : list field) : bytes := mjoin (put_field <$> fs).

Definition split_at (n : Z) (bs : bytes) : option (bytes * bytes) :=
  if n <=? Z.of_nat (length bs) then Some (take (Z.to_nat n) bs, drop (Z.to_nat n) bs) else None.

Fixpoint get (fuel : nat) (bs : bytes) : option (list field) :=
  match fuel, bs with
  | _, [] => Some []
  | O, _ => None
  | S fuel, _ =>
      '(k, r) ← get_varint bs;
      '(v, r) ← match k mod 8 with
                | 0 => '(n, r) ← get_varint r; if decide (in_u64 n) then Some (Varint n, r) else None
                | 1 => '(b, r) ← split_at 8 r; Some (I64 b, r)
                | 2 => '(n, r) ← get_varint r; '(b, r) ← split_at n r; Some (Len b, r)
                | 5 => '(b, r) ← split_at 4 r; Some (I32 b, r)
                | _ => None
                end;
      fs ← get fuel r;
      Some ((k / 8, v) :: fs)
  end.

#[export] Instance wire : ProstWire := {| put_fields := put; get_fields bs := get (length bs) bs |}.

Lemma get_put_varint fuel n r :
  0 <= n < 2 ^ Z.of_nat fuel -> get_varint (put_varint (S fuel) n ++ r) = Some (n, r).
Proof.
  revert n. induction fuel as [|fuel IH]; intros n Hn.
  - change (2 ^ Z.of_nat 0) with 1 in Hn. assert (n = 0) as -> by lia. done.
  - cbn [put_varint]. destruct (Z.ltb_spec n 128) as [Hlt|Hge].
    + cbn [app get_varint]. rewrite Z_of_byte_of_Z, Z.mod_small by lia.
      cbn zeta. by rewrite (proj2 (Z.ltb_lt n 128)) by lia.
    + pose proof (Z.mod_pos_bound n 128 ltac:(lia)). rewrite <-app_comm_cons. cbn [get_varint].
      rewrite Z_of_byte_of_Z, (Z.mod_small (_ + 128)) by lia. cbn zeta.
      rewrite (proj2 (Z.ltb_ge (n mod 128 + 128) 128)) by lia.
      rewrite Nat2Z.inj_succ, Z.pow_succ_r in Hn by lia.
      assert (0 <= n / 128 < 2 ^ Z.of_nat fuel) as Hd.
      { split; [apply Z.div_pos; lia|]. apply Z.div_lt_upper_bound; lia. }
      specialize (IH _ Hd). cbn [put_varint] in IH. rewrite IH. simpl. do 2 f_equal.
      pose proof (Z.div_mod n 128 ltac:(lia)). lia.
Qed.

Lemma get_varint_varint n r : 0 <= n -> get_varint (varint n ++ r) = Some (n, r).
Proof.
  intros Hn. unfold varint. apply get_put_varint. split; [done|].
  destruct n as [|p|p]; [lia| |lia]. simpl Z.to_pos.
  pose proof (Pos.size_gt p) as Hp. apply Pos2Z.pos_lt_pos in Hp. rewrite Pos2Z.inj_pow in Hp.
  assert (Z.of_nat (Pos.size_nat p) = Z.pos (Pos.size p)) as ->; [|done].
  clear. induction p as [p IH|p IH|]; cbn [Pos.size_nat Pos.size]; [lia|lia|done].
Qed.

Lemma get_one fuel f r :
  field_ok f ->
  get (S fuel) (put_field f ++ r) = fs ← get fuel r; Some (f :: fs).
Proof.
  destruct f as [tag v]. intros [Htag Hv]. cbn [fst snd] in Htag, Hv.
  assert (forall b c n, get (S fuel) ((varint n ++ b) ++ c) = '(k, r) ← get_varint ((varint n ++ b) ++ c);
      '(v, r) ← match k mod 8 with
                | 0 => '(n, r) ← get_varint r; if decide (in_u64 n) then Some (Varint n, r) else None
                | 1 => '(b, r) ← split_at 8 r; Some (I64 b, r)
                | 2 => '(n, r) ← get_varint r; '(b, r) ← split_at n r; Some (Len b, r)
                | 5 => '(b, r) ← split_at 4 r; Some (I32 b, r)
                | _ => None
                end; fs ← get fuel r; Some ((k / 8, v) :: fs)) as Hget.
  { intros b c n. unfold varint. cbn [put_varint]. by destruct (n <? 128). }
  destruct v as [n|b| | |]; try done; unfold put_field; cbn [fst snd]; rewrite Hget, <-app_assoc.
  - rewrite get_varint_varint by lia. cbn [mbind option_bind].
    rewrite Z.mod_mul, Z.div_mul by lia. rewrite get_varint_varint by apply Hv.
    cbn [mbind option_bind]. by rewrite decide_True.
  - rewrite get_varint_varint by lia. cbn [mbind option_bind].
    rewrite Z.add_comm, Z.mod_add, Z.div_add by lia. cbn [Z.modulo Z.div_eucl Z.add].
    change (2 mod 8) with 2. cbn match. rewrite <-app_assoc, get_varint_varint by lia.
    cbn [mbind option_bind]. unfold split_at. rewrite (proj2 (Z.leb_le _ _)) by (rewrite length_app; lia).
    cbn [mbind option_bind]. rewrite Nat2Z.id, take_app_length, drop_app_length. done.
Qed.

Lemma put_field_nonempty f : field_ok f -> (0 < length (put_field f))%nat.
Proof.
  destruct f as [tag v]. intros [_ Hv]. destruct v; try done; unfold put_field; cbn [fst snd];
    rewrite length_app; unfold varint at 1; cbn [put_varint]; destruct (_ <? 128); simpl; lia.
Qed.

Lemma get_put_all fs fuel :
  Forall field_ok fs -> (length (put fs) <= fuel)%nat -> get fuel (put fs) = Some fs.
Proof.
  intros Hfs. revert fuel. induction Hfs as [|f fs Hf Hfs IH]; intros fuel Hfuel; [by destruct fuel|].
  unfold put in *. csimpl in *. pose proof (put_field_nonempty f Hf). rewrite length_app in Hfuel.
  destruct fuel as [|fuel]; [lia|]. rewrite get_one by done.
  rewrite IH by lia. done.
Qed.

Lemma get_varint_ok fuel bs fs : get fuel bs = Some fs -> Forall varint_ok fs.
Proof.
  revert bs fs. induction fuel as [|fuel IH]; intros bs fs Hget.
  { destruct bs; [|done]. injection Hget as <-. constructor. }
  destruct bs as [|b bs]; [injection Hget as <-; constructor|].
  cbn [get] in Hget. apply bind_Some in Hget as ([k r] & _ & Hget).
  apply bind_Some in Hget as ([v r1] & Hv & Hget). apply bind_Some in Hget as (fs1 & Hfs1 & [= <-]).
  constructor; [|by eapply IH]. unfold varint_ok. cbn [snd]. destruct v as [n| | | |]; try done.
  repeat case_match; try done; apply bind_Some in Hv as ([n' r'] & _ & Hv);
    try done; [case_decide; [|done]; by injection Hv as <- _|].
  by apply bind_Some in Hv as ([b' r''] & _ & Hv).
Qed.

#[export] Instance wire_laws : ProstWireLaws.
Proof.
  constructor; [intros fs Hfs; by apply get_put_all|]. intros b fs. apply get_varint_ok.
Qed.

End Protobuf.
