(* ===== verification/WasmTypes.v ===== *)
(** * Data of the CosmWasm Stellar light client
      ([contracts/cosmwasm/light-client/src/{error,types,msg}.rs])

    The contract's errors, its protocol-buffer messages with their schemas, and the JSON messages of
    its entry points (which arrive decoded by [cosmwasm_std]).  A Rust [String] is its UTF-8 bytes. *)

From Stdlib Require Import ZArith Lia Strings.Byte Strings.String.
From stdpp Require Import base option list gmap numbers.
From S2P Require Import Prelude Bytes Prost.
Open Scope Z_scope.

(** [ContractError]; an [InvalidWire] carries the name of the value that failed to decode, without
    the decoder's own text, and [Std] the text of a [StdError]. *)
Inductive ContractError : Type :=
| Std (what : string)
| AlreadyInitialised
| NotInitialised
| Frozen (height : Z)
| InvalidWire (what : string)
| ConsensusStateMissing (height : Z)
| ChainIdMismatch (expected got : bytes)
| NonAdvancingHeight (trusted target : Z)
| ConsensusStateConflict (height : Z)
| QuorumNotMet (envelopes matched : nat) (raw_ok hash_ok : bool) (signer network_id : bytes)
    (statement_len : nat)
| NetworkIdMissing
| ScpSignatureError (network_id_len : nat)
| MerkleVerificationFailed
| MembershipMismatch (key_match value_match : bool) (siblings : nat) (height : Z)
    (req_key proof_key : bytes) (value_len proof_value_len : nat) (stored_root computed_root : bytes)
| UnknownSudo.

(** ** Protocol-buffer messages *)

Record Height : Type := MkHeight { revision_number : Z; revision_height : Z }.

Record ScpEnvelope : Type := MkScpEnvelope {
  node_id : bytes;
  statement_xdr : bytes;
  signature : bytes;
}.

Record ClientState : Type := MkClientState {
  chain_id : bytes;
  latest_height : option Height;
  frozen_height : option Height;
  trusted_validators : list bytes;
  proof_specs : list bytes;
  network_id : bytes;
}.

Record ConsensusState : Type := MkConsensusState {
  timestamp : Z;
  ledger_hash : bytes;
  root : bytes;
}.

Record StellarHeader : Type := MkStellarHeader {
  hdr_ledger_seq : Z;
  hdr_ledger_header_xdr : bytes;
  hdr_ibc_state_root : bytes;
  hdr_scp_envelopes : list ScpEnvelope;
  hdr_trusted_height : option Height;
  hdr_timestamp : Z;
  hdr_ledger_hash : bytes;
  hdr_previous_ledger_hash : bytes;
}.

Record Any : Type := MkAny { type_url : bytes; any_value : bytes }.

Record WasmClientState : Type := MkWasmClientState {
  wcs_data : bytes;
  wcs_checksum : bytes;
  wcs_latest_height : option Height;
}.

Record WasmConsensusState : Type := MkWasmConsensusState { wcons_data : bytes }.

#[export] Instance Height_eq_dec : EqDecision Height.
Proof. solve_decision. Defined.
#[export] Instance ConsensusState_eq_dec : EqDecision ConsensusState.
Proof. solve_decision. Defined.

#[export] Instance Height_message : Message Height := {|
  msg_default := MkHeight 0 0;
  msg_fields h := put_uint64 1 (revision_number h) ++ put_uint64 2 (revision_height h);
  merge_field h f := match f with
    | (1, v) => n ← get_uint64 v; Some (MkHeight n (revision_height h))
    | (2, v) => n ← get_uint64 v; Some (MkHeight (revision_number h) n)
    | _ => Some h
    end;
|}.

#[export] Instance ScpEnvelope_message : Message ScpEnvelope := {|
  msg_default := MkScpEnvelope [] [] [];
  msg_fields e := put_bytes 1 (node_id e) ++ put_bytes 2 (statement_xdr e) ++ put_bytes 3 (signature e);
  merge_field e f := match f with
    | (1, v) => b ← get_bytes v; Some (MkScpEnvelope b (statement_xdr e) (signature e))
    | (2, v) => b ← get_bytes v; Some (MkScpEnvelope (node_id e) b (signature e))
    | (3, v) => b ← get_bytes v; Some (MkScpEnvelope (node_id e) (statement_xdr e) b)
    | _ => Some e
    end;
|}.

#[export] Instance ConsensusState_message : Message ConsensusState := {|
  msg_default := MkConsensusState 0 [] [];
  msg_fields c := put_uint64 1 (timestamp c) ++ put_bytes 2 (ledger_hash c) ++ put_bytes 3 (root c);
  merge_field c f := match f with
    | (1, v) => n ← get_uint64 v; Some (MkConsensusState n (ledger_hash c) (root c))
    | (2, v) => b ← get_bytes v; Some (MkConsensusState (timestamp c) b (root c))
    | (3, v) => b ← get_bytes v; Some (MkConsensusState (timestamp c) (ledger_hash c) b)
    | _ => Some c
    end;
|}.

#[export] Instance Any_message : Message Any := {|
  msg_default := MkAny [] [];
  msg_fields a := put_bytes 1 (type_url a) ++ put_bytes 2 (any_value a);
  merge_field a f := match f with
    | (1, v) => b ← get_string v; Some (MkAny b (any_value a))
    | (2, v) => b ← get_bytes v; Some (MkAny (type_url a) b)
    | _ => Some a
    end;
|}.

#[export] Instance WasmConsensusState_message : Message WasmConsensusState := {|
  msg_default := MkWasmConsensusState [];
  msg_fields w := put_bytes 1 (wcons_data w);
  merge_field w f := match f with
    | (1, v) => b ← get_bytes v; Some (MkWasmConsensusState b)
    | _ => Some w
    end;
|}.

Section Nested.
Context `{ProstWire}.

#[export] Instance ClientState_message : Message ClientState := {|
  msg_default := MkClientState [] None None [] [] [];
  msg_fields c :=
    put_bytes 1 (chain_id c) ++ put_optional 2 (latest_height c) ++ put_optional 3 (frozen_height c) ++
    put_repeated 4 (trusted_validators c) ++ put_repeated 5 (proof_specs c) ++
    put_bytes 6 (network_id c);
  merge_field c f :=
    let '(MkClientState chain lat frz vals specs net) := c in
    match f with
    | (1, v) => b ← get_string v; Some (MkClientState b lat frz vals specs net)
    | (2, v) => h ← get_optional lat v; Some (MkClientState chain h frz vals specs net)
    | (3, v) => h ← get_optional frz v; Some (MkClientState chain lat h vals specs net)
    | (4, v) => b ← get_bytes v; Some (MkClientState chain lat frz (vals ++ [b]) specs net)
    | (5, v) => b ← get_bytes v; Some (MkClientState chain lat frz vals (specs ++ [b]) net)
    | (6, v) => b ← get_bytes v; Some (MkClientState chain lat frz vals specs b)
    | _ => Some c
    end;
|}.

#[export] Instance StellarHeader_message : Message StellarHeader := {|
  msg_default := MkStellarHeader 0 [] [] [] None 0 [] [];
  msg_fields h :=
    put_uint64 1 (hdr_ledger_seq h) ++ put_bytes 2 (hdr_ledger_header_xdr h) ++
    put_bytes 3 (hdr_ibc_state_root h) ++ put_messages 4 (hdr_scp_envelopes h) ++
    put_optional 5 (hdr_trusted_height h) ++ put_uint64 6 (hdr_timestamp h) ++
    put_bytes 7 (hdr_ledger_hash h) ++ put_bytes 8 (hdr_previous_ledger_hash h);
  merge_field h f :=
    let '(MkStellarHeader seq xdr rt envs tr ts lh plh) := h in
    match f with
    | (1, v) => n ← get_uint64 v; Some (MkStellarHeader n xdr rt envs tr ts lh plh)
    | (2, v) => b ← get_bytes v; Some (MkStellarHeader seq b rt envs tr ts lh plh)
    | (3, v) => b ← get_bytes v; Some (MkStellarHeader seq xdr b envs tr ts lh plh)
    | (4, v) => e ← get_message v; Some (MkStellarHeader seq xdr rt (envs ++ [e]) tr ts lh plh)
    | (5, v) => t ← get_optional tr v; Some (MkStellarHeader seq xdr rt envs t ts lh plh)
    | (6, v) => n ← get_uint64 v; Some (MkStellarHeader seq xdr rt envs tr n lh plh)
    | (7, v) => b ← get_bytes v; Some (MkStellarHeader seq xdr rt envs tr ts b plh)
    | (8, v) => b ← get_bytes v; Some (MkStellarHeader seq xdr rt envs tr ts lh b)
    | _ => Some h
    end;
|}.

#[export] Instance WasmClientState_message : Message WasmClientState := {|
  msg_default := MkWasmClientState [] [] None;
  msg_fields w :=
    put_bytes 1 (wcs_data w) ++ put_bytes 2 (wcs_checksum w) ++ put_optional 3 (wcs_latest_height w);
  merge_field w f :=
    let '(MkWasmClientState data sum lat) := w in
    match f with
    | (1, v) => b ← get_bytes v; Some (MkWasmClientState b sum lat)
    | (2, v) => b ← get_bytes v; Some (MkWasmClientState data b lat)
    | (3, v) => h ← get_optional lat v; Some (MkWasmClientState data sum h)
    | _ => Some w
    end;
|}.

End Nested.

(** ** Entry-point messages *)

Record MsgHeight : Type := MkMsgHeight { m_revision_number : Z; m_revision_height : Z }.

Record InstantiateMsg : Type := MkInstantiateMsg {
  im_client_state : bytes;
  im_consensus_state : bytes;
  im_checksum : bytes;
}.

Record VerifyMembershipMsg : Type := MkVerifyMembershipMsg {
  vm_height : MsgHeight;
  vm_delay_time_period : Z;
  vm_delay_block_period : Z;
  vm_proof : bytes;
  vm_key_path : list bytes;
  vm_value : bytes;
}.

Record VerifyNonMembershipMsg : Type := MkVerifyNonMembershipMsg {
  vn_height : MsgHeight;
  vn_delay_time_period : Z;
  vn_delay_block_period : Z;
  vn_proof : bytes;
  vn_key_path : list bytes;
}.

(** [UpdateStateMsg], [UpdateStateOnMisbehaviourMsg] and [CheckForMisbehaviourMsg] have the single
    field [client_message]. *)
Inductive SudoMsg : Type :=
| UpdateState (client_message : bytes)
| UpdateStateOnMisbehaviour (client_message : bytes)
| CheckForMisbehaviour (client_message : bytes)
| VerifyMembership (m : VerifyMembershipMsg)
| VerifyNonMembership (m : VerifyNonMembershipMsg).

Inductive QueryMsg : Type :=
| QClientState
| QConsensusState (height : MsgHeight)
| QLatestHeight
| QStatus
| QTimestampAtHeight (height : MsgHeight)
| QVerifyClientMessage (client_message : bytes)
| QCheckForMisbehaviour (client_message : bytes).

Inductive ClientStatus : Type := Active | StatusFrozen | Expired.

(** ** Round trips of the messages *)


#[export] Program Instance Height_laws : MessageLaws Height :=
  {| msg_ok h := in_u64 (revision_number h) /\ in_u64 (revision_height h) |}.
Next Obligation. intros h [? ?]. simpl. fields_ok. Qed.
Next Obligation.
  intros [rn rh] _. simpl. next_segment (foldM_uint64 _ 1 rn (fun n => MkHeight n 0)).
  apply (foldM_uint64 _ 2 rh (fun n => MkHeight rn n)). done.
Qed.

#[export] Program Instance ScpEnvelope_laws : MessageLaws ScpEnvelope := {| msg_ok _ := True |}.
Next Obligation. intros e _. simpl. fields_ok. Qed.
Next Obligation.
  intros [n x s] _. simpl. next_segment (foldM_bytes _ 1 n (fun b => MkScpEnvelope b [] [])).
  next_segment (foldM_bytes _ 2 x (fun b => MkScpEnvelope n b [])).
  apply (foldM_bytes _ 3 s (fun b => MkScpEnvelope n x b)). done.
Qed.

#[export] Program Instance ConsensusState_laws : MessageLaws ConsensusState :=
  {| msg_ok c := in_u64 (timestamp c) |}.
Next Obligation. intros c Hc. simpl. fields_ok. Qed.
Next Obligation.
  intros [t l r] _. simpl. next_segment (foldM_uint64 _ 1 t (fun n => MkConsensusState n [] [])).
  next_segment (foldM_bytes _ 2 l (fun b => MkConsensusState t b [])).
  apply (foldM_bytes _ 3 r (fun b => MkConsensusState t l b)). done.
Qed.

#[export] Program Instance Any_laws : MessageLaws Any := {| msg_ok a := utf8_valid (type_url a) = true |}.
Next Obligation. intros a _. simpl. fields_ok. Qed.
Next Obligation.
  intros [u v] Hu. simpl in *.
  next_segment (foldM_bytes _ 1 u (fun b => MkAny b [])); [|cbn; by rewrite Hu].
  apply (foldM_bytes _ 2 v (fun b => MkAny u b)). done.
Qed.

#[export] Program Instance WasmConsensusState_laws : MessageLaws WasmConsensusState :=
  {| msg_ok _ := True |}.
Next Obligation. intros w _. simpl. fields_ok. Qed.
Next Obligation. intros [d] _. simpl. apply (foldM_bytes _ 1 d MkWasmConsensusState). done. Qed.

Section NestedLaws.
Context `{ProstWireLaws}.

Definition height_opt_ok (o : option Height) : Prop := forall h, o = Some h -> msg_ok h.

#[export] Program Instance WasmClientState_laws : MessageLaws WasmClientState :=
  {| msg_ok w := height_opt_ok (wcs_latest_height w) |}.
Next Obligation. intros w _. simpl. fields_ok. Qed.
Next Obligation.
  intros [d s h] Hh. simpl in *. next_segment (foldM_bytes _ 1 d (fun b => MkWasmClientState b [] None)).
  next_segment (foldM_bytes _ 2 s (fun b => MkWasmClientState d b None)).
  apply (foldM_optional _ 3 h (fun o => MkWasmClientState d s o)); [done|]. intros v x Hx. simpl.
  by rewrite Hx.
Qed.

#[export] Program Instance ClientState_laws : MessageLaws ClientState :=
  {| msg_ok c := utf8_valid (chain_id c) = true /\ height_opt_ok (latest_height c) /\
                 height_opt_ok (frozen_height c) |}.
Next Obligation. intros c _. simpl. fields_ok. Qed.
Next Obligation.
  intros [ch la fr va sp ne] (Hch & Hla & Hfr). simpl in *.
  next_segment (foldM_bytes _ 1 ch (fun b => MkClientState b None None [] [] []));
    [|cbn; by rewrite Hch].
  next_segment (foldM_optional _ 2 la (fun o => MkClientState ch o None [] [] []));
    [|intros v x Hx; simpl; by rewrite Hx].
  next_segment (foldM_optional _ 3 fr (fun o => MkClientState ch la o [] [] []));
    [|intros v x Hx; simpl; by rewrite Hx].
  next_segment (foldM_repeated _ 4 id va (fun l => MkClientState ch la fr l [] []));
    [|by apply list.Forall_forall].
  next_segment (foldM_repeated _ 5 id sp (fun l => MkClientState ch la fr va l []));
    [|by apply list.Forall_forall].
  apply (foldM_bytes _ 6 ne (fun b => MkClientState ch la fr va sp b)). done.
Qed.

#[export] Program Instance StellarHeader_laws : MessageLaws StellarHeader :=
  {| msg_ok h := in_u64 (hdr_ledger_seq h) /\ height_opt_ok (hdr_trusted_height h) /\
                 in_u64 (hdr_timestamp h) |}.
Next Obligation. intros h (? & ? & ?). simpl. fields_ok. Qed.
Next Obligation.
  intros [sq xd rt en tr ts lh pl] (_ & Htr & _). simpl in *.
  next_segment (foldM_uint64 _ 1 sq (fun n => MkStellarHeader n [] [] [] None 0 [] [])).
  next_segment (foldM_bytes _ 2 xd (fun b => MkStellarHeader sq b [] [] None 0 [] [])).
  next_segment (foldM_bytes _ 3 rt (fun b => MkStellarHeader sq xd b [] None 0 [] [])).
  next_segment (foldM_messages _ 4 en (fun l => MkStellarHeader sq xd rt l None 0 [] []));
    [|by apply list.Forall_forall|intros v x l Hx; simpl; by rewrite Hx].
  next_segment (foldM_optional _ 5 tr (fun o => MkStellarHeader sq xd rt en o 0 [] []));
    [|intros v x Hx; simpl; by rewrite Hx].
  next_segment (foldM_uint64 _ 6 ts (fun n => MkStellarHeader sq xd rt en tr n [] [])).
  next_segment (foldM_bytes _ 7 lh (fun b => MkStellarHeader sq xd rt en tr ts b [])).
  apply (foldM_bytes _ 8 pl (fun b => MkStellarHeader sq xd rt en tr ts lh b)). done.
Qed.

End NestedLaws.

(** ** Decoded values are in range *)

Lemma get_uint64_ok f n : varint_ok f -> get_uint64 f.2 = Some n -> in_u64 n.
Proof. destruct f as [t []]; simpl; try done. by intros ? [= <-]. Qed.

Lemma get_string_ok v s : get_string v = Some s -> utf8_valid s = true.
Proof. destruct v as [|b| | |]; simpl; try done. destruct (utf8_valid b) eqn:Hb; [|done]. by intros [= <-]. Qed.

(** Case analysis on the number of a field that was merged. *)
Ltac merged_field Hm :=
  repeat (case_match; simplify_eq/=; try done);
  try (apply bind_Some in Hm as (? & ? & Hm)); simplify_eq/=.

#[export] Instance Height_decodes : MessageDecodes Height.
Proof.
  constructor; [by vm_compute|]. intros [rn rh] [t v] h [Hn Hh] Hf Hm. unfold merge_field in Hm.
  simpl in *. merged_field Hm; split; simpl; try done;
    match goal with Hg : get_uint64 v = Some _ |- _ => exact (get_uint64_ok (1, v) _ Hf Hg) end.
Qed.

#[export] Instance ConsensusState_decodes : MessageDecodes ConsensusState.
Proof.
  constructor; [by vm_compute|]. intros [ts lh rt] [t v] c Hc Hf Hm. simpl in *.
  merged_field Hm; try done.
  match goal with Hg : get_uint64 v = Some _ |- _ => exact (get_uint64_ok (1, v) _ Hf Hg) end.
Qed.

Section NestedDecodes.
Context `{ProstWireLaws}.

Lemma get_height_ok o o' v : height_opt_ok o -> get_optional o v = Some o' -> height_opt_ok o'.
Proof. intros Ho Hg h Hh. by eapply get_optional_ok. Qed.

#[export] Instance ClientState_decodes : MessageDecodes ClientState.
Proof.
  constructor; [split_and!; [done|intros ? [=]..]|].
  intros [ch la fr va sp ne] [t v] c (Hch & Hla & Hfr) Hf Hm. simpl in *.
  merged_field Hm; split_and!; simpl; try done;
    try match goal with
    | Hg : get_string v = Some _ |- _ => exact (get_string_ok _ _ Hg)
    | Hg : get_optional _ v = Some _ |- _ => by eapply get_height_ok; [|exact Hg]
    end.
Qed.

#[export] Instance StellarHeader_decodes : MessageDecodes StellarHeader.
Proof.
  constructor; [split_and!; [by vm_compute|intros ? [=]|by vm_compute]|].
  intros [sq xd rt en tr ts lh pl] [t v] h (Hsq & Htr & Hts) Hf Hm. simpl in *.
  merged_field Hm; split_and!; simpl; try done;
    try match goal with
    | Hg : get_uint64 v = Some _ |- _ => exact (get_uint64_ok (1, v) _ Hf Hg)
    | Hg : get_optional _ v = Some _ |- _ => by eapply get_height_ok; [|exact Hg]
    end.
Qed.

End NestedDecodes.
