(* ===== verification/MerkleProof.v ===== *)
(** * Merkle proofs on the wire ([crates/core/src/ibc/proof.rs],
      [contracts/cosmwasm/light-client/src/merkle.rs])

    The gateway wraps the siblings of an SMT proof in an ICS-23 [MerkleProof]; the light client takes
    them out again.  The gateway's message types come from the [ics23] crate, the light client
    declares its own.  Both have the same fields with the same tags, except for the variants of
    [CommitmentProof]: their numbers in the [ics23] crate are the parameter [Ics23Numbers], with the
    published values in [Ics23Published]. *)

From Stdlib Require Import ZArith Lia Strings.Byte Strings.String.
From stdpp Require Import base option list gmap numbers.
From S2P Require Import Prelude Bytes Crypto CoreCommitment Smt Prost WasmTypes.
Open Scope Z_scope.

Record LeafOp : Type := MkLeafOp {
  leaf_hash_op : Z;
  prehash_key : Z;
  prehash_value : Z;
  leaf_length : Z;
  leaf_prefix : bytes;
}.
Record InnerOp : Type := MkInnerOp { inner_hash_op : Z; prefix : bytes; suffix : bytes }.
Record ExistenceProof : Type := MkExistenceProof {
  ep_key : bytes;
  ep_value : bytes;
  ep_leaf : option LeafOp;
  ep_path : list InnerOp;
}.
Record NonExistenceProof : Type := MkNonExistenceProof {
  nep_key : bytes;
  nep_left : option ExistenceProof;
  nep_right : option ExistenceProof;
}.
Inductive Proof : Type :=
| Exist (e : ExistenceProof)
| Nonexist (n : NonExistenceProof).
Record CommitmentProof : Type := MkCommitmentProof { cp_proof : option Proof }.
Record MerkleProof : Type := MkMerkleProof { proofs : list CommitmentProof }.

#[export] Instance LeafOp_message : Message LeafOp := {|
  msg_default := MkLeafOp 0 0 0 0 [];
  msg_fields l :=
    put_int32 1 (leaf_hash_op l) ++ put_int32 2 (prehash_key l) ++ put_int32 3 (prehash_value l) ++
    put_int32 4 (leaf_length l) ++ put_bytes 5 (leaf_prefix l);
  merge_field l f :=
    let '(MkLeafOp h k v n p) := l in
    match f with
    | (1, w) => x ← get_int32 w; Some (MkLeafOp x k v n p)
    | (2, w) => x ← get_int32 w; Some (MkLeafOp h x v n p)
    | (3, w) => x ← get_int32 w; Some (MkLeafOp h k x n p)
    | (4, w) => x ← get_int32 w; Some (MkLeafOp h k v x p)
    | (5, w) => b ← get_bytes w; Some (MkLeafOp h k v n b)
    | _ => Some l
    end;
|}.

#[export] Instance InnerOp_message : Message InnerOp := {|
  msg_default := MkInnerOp 0 [] [];
  msg_fields i := put_int32 1 (inner_hash_op i) ++ put_bytes 2 (prefix i) ++ put_bytes 3 (suffix i);
  merge_field i f :=
    let '(MkInnerOp h p s) := i in
    match f with
    | (1, w) => x ← get_int32 w; Some (MkInnerOp x p s)
    | (2, w) => b ← get_bytes w; Some (MkInnerOp h b s)
    | (3, w) => b ← get_bytes w; Some (MkInnerOp h p b)
    | _ => Some i
    end;
|}.

Section Schemas.
Context `{ProstWire}.

#[export] Instance ExistenceProof_message : Message ExistenceProof := {|
  msg_default := MkExistenceProof [] [] None [];
  msg_fields e :=
    put_bytes 1 (ep_key e) ++ put_bytes 2 (ep_value e) ++ put_optional 3 (ep_leaf e) ++
    put_messages 4 (ep_path e);
  merge_field e f :=
    let '(MkExistenceProof k v l p) := e in
    match f with
    | (1, w) => b ← get_bytes w; Some (MkExistenceProof b v l p)
    | (2, w) => b ← get_bytes w; Some (MkExistenceProof k b l p)
    | (3, w) => x ← get_optional l w; Some (MkExistenceProof k v x p)
    | (4, w) => x ← get_message w; Some (MkExistenceProof k v l (p ++ [x]))
    | _ => Some e
    end;
|}.

#[export] Instance NonExistenceProof_message : Message NonExistenceProof := {|
  msg_default := MkNonExistenceProof [] None None;
  msg_fields n :=
    put_bytes 1 (nep_key n) ++ put_optional 2 (nep_left n) ++ put_optional 3 (nep_right n);
  merge_field n f :=
    let '(MkNonExistenceProof k l r) := n in
    match f with
    | (1, w) => b ← get_bytes w; Some (MkNonExistenceProof b l r)
    | (2, w) => x ← get_optional l w; Some (MkNonExistenceProof k x r)
    | (3, w) => x ← get_optional r w; Some (MkNonExistenceProof k l x)
    | _ => Some n
    end;
|}.

(** A [oneof] of messages: a field of the variant already present is merged into it, one of another
    variant replaces it. *)
Definition CommitmentProof_schema (exist_tag nonexist_tag : Z) : Message CommitmentProof := {|
  msg_default := MkCommitmentProof None;
  msg_fields c :=
    match cp_proof c with
    | Some (Exist e) => [(exist_tag, Len (encode_to_vec e))]
    | Some (Nonexist n) => [(nonexist_tag, Len (encode_to_vec n))]
    | None => []
    end;
  merge_field c f :=
    if f.1 =? exist_tag then
      b ← get_bytes f.2;
      e ← merge (match cp_proof c with Some (Exist e) => e | _ => msg_default end) b;
      Some (MkCommitmentProof (Some (Exist e)))
    else if f.1 =? nonexist_tag then
      b ← get_bytes f.2;
      n ← merge (match cp_proof c with Some (Nonexist n) => n | _ => msg_default end) b;
      Some (MkCommitmentProof (Some (Nonexist n)))
    else Some c;
|}.

Definition MerkleProof_schema (C : Message CommitmentProof) : Message MerkleProof := {|
  msg_default := MkMerkleProof [];
  msg_fields m := put_messages 1 (proofs m);
  merge_field m f := match f with
    | (1, w) => x ← get_message w; Some (MkMerkleProof (proofs m ++ [x]))
    | _ => Some m
    end;
|}.

(** ** The light client's decoder *)

Definition WasmCommitmentProof : Message CommitmentProof := CommitmentProof_schema 1 3.
Definition WasmMerkleProof : Message MerkleProof := MerkleProof_schema WasmCommitmentProof.

Definition extract_sibling (op : InnerOp) : result ContractError bytes :=
  if negb (bool_decide (suffix op = [])) && (length (suffix op) =? HASH_SIZE)%nat
     && (length (prefix op) =? 1)%nat && bool_decide (prefix op !! 0%nat = Some Byte.x01)
  then Ok (suffix op)
  else if bool_decide (suffix op = []) && (length (prefix op) =? 1 + HASH_SIZE)%nat
          && bool_decide (prefix op !! 0%nat = Some Byte.x01)
  then Ok (drop 1 (prefix op))
  else Err MerkleVerificationFailed.

Definition extract_siblings (ops : list InnerOp) : result ContractError (list bytes) :=
  collect extract_sibling ops.

Definition decode_membership_proof (b : bytes) : result ContractError (bytes * bytes * list bytes) :=
  merkle ← ok_or (InvalidWire "MerkleProof") (decode (H0 := WasmMerkleProof) b);
  first ← ok_or MerkleVerificationFailed (head (proofs merkle));
  existence ← match cp_proof first with
              | None => Err MerkleVerificationFailed
              | Some (Exist e) => Ok e
              | Some (Nonexist _) => Err MerkleVerificationFailed
              end;
  siblings ← extract_siblings (ep_path existence);
  Ok (ep_key existence, ep_value existence, siblings).

Definition decode_non_membership_proof (b : bytes) : result ContractError (bytes * list bytes) :=
  merkle ← ok_or (InvalidWire "MerkleProof") (decode (H0 := WasmMerkleProof) b);
  first ← ok_or MerkleVerificationFailed (head (proofs merkle));
  nonexist ← match cp_proof first with
             | None => Err MerkleVerificationFailed
             | Some (Nonexist n) => Ok n
             | Some (Exist _) => Err MerkleVerificationFailed
             end;
  inner ← ok_or MerkleVerificationFailed (nep_left nonexist);
  if negb (bool_decide (ep_value inner = [])) then Err MerkleVerificationFailed
  else
    siblings ← extract_siblings (ep_path inner);
    Ok (nep_key nonexist, siblings).

End Schemas.

(** ** The gateway's encoder *)

(** The numbers of the [ics23] crate: [HashOp::Sha256], [HashOp::NoHash], and the tags of the
    variants [Exist] and [Nonexist] of [CommitmentProof]. *)
Class Ics23Numbers := {
  HashOp_Sha256 : Z;
  HashOp_NoHash : Z;
  exist_tag : Z;
  nonexist_tag : Z;
}.
(** The numbers of [cosmos/ics23/v1/proofs.proto]. *)
Class Ics23Published `{Ics23Numbers} : Prop := {
  sha256_number : HashOp_Sha256 = 1;
  no_hash_number : HashOp_NoHash = 0;
  exist_number : exist_tag = 1;
  nonexist_number : nonexist_tag = 2;
}.

Section Gateway.
Context `{ProstWire} `{Ics23Numbers}.

Definition Ics23MerkleProof : Message MerkleProof :=
  MerkleProof_schema (CommitmentProof_schema exist_tag nonexist_tag).
Definition merkle_to_vec (m : MerkleProof) : bytes := encode_to_vec (H0 := Ics23MerkleProof) m.

Definition existence_leaf : LeafOp := MkLeafOp HashOp_Sha256 HashOp_NoHash HashOp_NoHash 0 [].

Definition sibling_to_inner_op (sibling : bytes) : InnerOp :=
  MkInnerOp HashOp_Sha256 [Byte.x01] sibling.

Definition build_existence_proof (key value : bytes) (siblings : list bytes) : ExistenceProof :=
  MkExistenceProof key value (Some existence_leaf) (sibling_to_inner_op <$> siblings).

Definition inner_op_with_parity (sibling : bytes) (is_left_child : bool) : InnerOp :=
  if is_left_child then MkInnerOp HashOp_Sha256 [Byte.x01] sibling
  else MkInnerOp HashOp_Sha256 ([Byte.x01] ++ sibling) [].

(** The loop [for sibling in siblings { path.push(..); sub_idx >>= 1; }]. *)
Fixpoint inner_ops (siblings : list bytes) (sub_idx : Z) : list InnerOp :=
  match siblings with
  | [] => []
  | sibling :: siblings =>
      inner_op_with_parity sibling (Z.land sub_idx 1 =? 0) :: inner_ops siblings (Z.shiftr sub_idx 1)
  end.

Definition build_existence_proof_with_index (key value : bytes) (siblings : list bytes) (index : Z) :
    ExistenceProof :=
  MkExistenceProof key value (Some existence_leaf) (inner_ops siblings index).

Definition exist_merkle (e : ExistenceProof) : MerkleProof :=
  MkMerkleProof [MkCommitmentProof (Some (Exist e))].
Definition nonexist_merkle (key : bytes) (e : ExistenceProof) : MerkleProof :=
  MkMerkleProof [MkCommitmentProof (Some (Nonexist (MkNonExistenceProof key (Some e) None)))].

Definition serialize_membership_proof (proof : CoreSmt.MembershipProof) (key value : bytes) : bytes :=
  merkle_to_vec (exist_merkle (build_existence_proof key value (CoreSmt.mp_siblings proof))).

Definition serialize_non_membership_proof (proof : CoreSmt.NonMembershipProof) (key : bytes) : bytes :=
  merkle_to_vec (nonexist_merkle key (build_existence_proof key [] (CoreSmt.np_siblings proof))).

Definition serialize_membership_proof_with_index (proof : CoreSmt.MembershipProof)
    (key value : bytes) (index : Z) : bytes :=
  merkle_to_vec (exist_merkle
    (build_existence_proof_with_index key value (CoreSmt.mp_siblings proof) index)).

Definition serialize_non_membership_proof_with_index (proof : CoreSmt.NonMembershipProof)
    (key : bytes) (index : Z) : bytes :=
  merkle_to_vec (nonexist_merkle key
    (build_existence_proof_with_index key [] (CoreSmt.np_siblings proof) index)).

End Gateway.

(** ** Round trips *)

#[export] Program Instance LeafOp_laws : MessageLaws LeafOp :=
  {| msg_ok l := in_i32 (leaf_hash_op l) /\ in_i32 (prehash_key l) /\ in_i32 (prehash_value l) /\
                 in_i32 (leaf_length l) |}.
Next Obligation. intros l _. simpl. fields_ok. Qed.
Next Obligation.
  intros [h k v n p] (Hh & Hk & Hv & Hn). simpl in *.
  next_segment (foldM_int32 _ 1 h (fun x => MkLeafOp x 0 0 0 [])).
  next_segment (foldM_int32 _ 2 k (fun x => MkLeafOp h x 0 0 [])).
  next_segment (foldM_int32 _ 3 v (fun x => MkLeafOp h k x 0 [])).
  next_segment (foldM_int32 _ 4 n (fun x => MkLeafOp h k v x [])).
  apply (foldM_bytes _ 5 p (fun b => MkLeafOp h k v n b)). done.
Qed.

#[export] Program Instance InnerOp_laws : MessageLaws InnerOp :=
  {| msg_ok i := in_i32 (inner_hash_op i) |}.
Next Obligation. intros i _. simpl. fields_ok. Qed.
Next Obligation.
  intros [h p s] Hh. simpl in *. next_segment (foldM_int32 _ 1 h (fun x => MkInnerOp x [] [])).
  next_segment (foldM_bytes _ 2 p (fun b => MkInnerOp h b [])).
  apply (foldM_bytes _ 3 s (fun b => MkInnerOp h p b)). done.
Qed.

Section ProofLaws.
Context `{ProstWireLaws}.

#[export] Program Instance ExistenceProof_laws : MessageLaws ExistenceProof :=
  {| msg_ok e := (forall l, ep_leaf e = Some l -> msg_ok l) /\ Forall msg_ok (ep_path e) |}.
Next Obligation. intros e _. simpl. fields_ok. Qed.
Next Obligation.
  intros [k v l p] [Hl Hp]. simpl in *.
  next_segment (foldM_bytes _ 1 k (fun b => MkExistenceProof b [] None [])).
  next_segment (foldM_bytes _ 2 v (fun b => MkExistenceProof k b None [])).
  next_segment (foldM_optional _ 3 l (fun o => MkExistenceProof k v o []));
    [|intros w x Hx; simpl; by rewrite Hx].
  apply (foldM_messages _ 4 p (fun m => MkExistenceProof k v l m)); [done|].
  intros w x m Hx. simpl. by rewrite Hx.
Qed.

#[export] Program Instance NonExistenceProof_laws : MessageLaws NonExistenceProof :=
  {| msg_ok n := (forall e, nep_left n = Some e -> msg_ok e) /\
                 (forall e, nep_right n = Some e -> msg_ok e) |}.
Next Obligation. intros n _. simpl. fields_ok. Qed.
Next Obligation.
  intros [k l r] [Hl Hr]. simpl in *.
  next_segment (foldM_bytes _ 1 k (fun b => MkNonExistenceProof b None None)).
  next_segment (foldM_optional _ 2 l (fun o => MkNonExistenceProof k o None));
    [|intros w x Hx; simpl; by rewrite Hx].
  apply (foldM_optional _ 3 r (fun o => MkNonExistenceProof k l o)); [done|].
  intros w x Hx. simpl. by rewrite Hx.
Qed.

Section Siblings.
Context `{Ics23Numbers}.

Lemma extract_parity s b : length s = HASH_SIZE -> extract_sibling (inner_op_with_parity s b) = Ok s.
Proof.
  intros Hs. assert (s <> []) as Hne by (intros ->; done). unfold extract_sibling.
  destruct b; cbn [inner_op_with_parity prefix suffix].
  - rewrite bool_decide_eq_false_2 by done. rewrite Hs. done.
  - cbn [app]. change (negb (bool_decide ([] = ([] : bytes)))) with false. cbn [andb length].
    rewrite Hs. done.
Qed.

Lemma extract_inner_ops siblings index :
  Forall (fun s => length s = HASH_SIZE) siblings ->
  extract_siblings (inner_ops siblings index) = Ok siblings.
Proof.
  intros Hs. apply collect_Ok. revert index.
  induction Hs as [|s ss Hs Hss IH]; intros index; cbn [inner_ops]; constructor; [|done].
  by apply extract_parity.
Qed.

Lemma extract_plain siblings :
  Forall (fun s => length s = HASH_SIZE) siblings ->
  extract_siblings (sibling_to_inner_op <$> siblings) = Ok siblings.
Proof.
  intros Hs. apply collect_Ok. induction Hs as [|s ss Hs Hss IH]; csimpl; constructor; [|done].
  by apply (extract_parity s true).
Qed.

End Siblings.

Section Published.
Context `{Ics23Published}.

(** What the light client reads of a message the gateway wrote: a variant whose number it does not
    know is dropped. *)
Lemma wasm_reads_commitment c c' :
  foldM (@merge_field _ WasmCommitmentProof)
    (@msg_fields _ (CommitmentProof_schema exist_tag nonexist_tag) c) (MkCommitmentProof None) = Some c' ->
  decode (H0 := WasmMerkleProof) (merkle_to_vec (MkMerkleProof [c])) = Some (MkMerkleProof [c']).
Proof.
  intros Hc. unfold decode, merge, merkle_to_vec, encode_to_vec. rewrite get_put_fields
    by (apply put_messages_ok; split; lia).
  cbn [mbind option_bind msg_fields Ics23MerkleProof MerkleProof_schema put_messages proofs fmap
       list_fmap foldM merge_field WasmMerkleProof get_message get_bytes].
  unfold decode, merge at 1, encode_to_vec. rewrite get_put_fields.
  2: { cbn. rewrite exist_number, nonexist_number.
       destruct (cp_proof c) as [[]|]; repeat constructor; simpl; lia. }
  cbn [mbind option_bind].
  change (foldM _ _ msg_default) with (foldM (@merge_field _ WasmCommitmentProof)
    (@msg_fields _ (CommitmentProof_schema exist_tag nonexist_tag) c) (MkCommitmentProof None)).
  rewrite Hc. reflexivity.
Qed.

Lemma wasm_reads_exist e :
  msg_ok e -> decode (H0 := WasmMerkleProof) (merkle_to_vec (exist_merkle e)) = Some (exist_merkle e).
Proof.
  intros He. apply wasm_reads_commitment.
  cbn [msg_fields CommitmentProof_schema cp_proof foldM merge_field WasmCommitmentProof fst snd].
  rewrite exist_number. cbn [Z.eqb Pos.eqb get_bytes mbind option_bind].
  rewrite merge_encode by done. done.
Qed.

Lemma decode_exist e siblings :
  msg_ok e -> extract_siblings (ep_path e) = Ok siblings ->
  decode_membership_proof (merkle_to_vec (exist_merkle e)) = Ok (ep_key e, ep_value e, siblings).
Proof.
  intros He Hx. unfold decode_membership_proof. rewrite wasm_reads_exist by done.
  cbn [ok_or mbind result_bind proofs exist_merkle head cp_proof]. by rewrite Hx.
Qed.

Lemma wasm_drops_nonexist key e :
  decode (H0 := WasmMerkleProof) (merkle_to_vec (nonexist_merkle key e)) =
  Some (MkMerkleProof [MkCommitmentProof None]).
Proof.
  apply wasm_reads_commitment. unfold msg_fields, CommitmentProof_schema, cp_proof.
  rewrite nonexist_number. reflexivity.
Qed.

Lemma existence_leaf_ok : msg_ok existence_leaf.
Proof. simpl. rewrite sha256_number, no_hash_number. unfold in_i32. lia. Qed.

Lemma inner_op_with_parity_ok s b : msg_ok (inner_op_with_parity s b).
Proof. destruct b; simpl; rewrite sha256_number; unfold in_i32; lia. Qed.

Lemma inner_ops_ok siblings index : Forall msg_ok (inner_ops siblings index).
Proof.
  revert index. induction siblings as [|s ss IH]; intros index; cbn [inner_ops]; constructor; [|done].
  apply inner_op_with_parity_ok.
Qed.

Lemma decode_exist_with_index key value siblings index :
  Forall (fun s => length s = HASH_SIZE) siblings ->
  decode_membership_proof
    (merkle_to_vec (exist_merkle (build_existence_proof_with_index key value siblings index))) =
  Ok (key, value, siblings).
Proof.
  intros Hs. apply (decode_exist (build_existence_proof_with_index key value siblings index)).
  - split; [intros ? [= <-]; apply existence_leaf_ok|apply inner_ops_ok].
  - by apply extract_inner_ops.
Qed.

End Published.

(** The light client takes a sibling from exactly the two layouts of the gateway, whatever the hash
    number says. *)
Lemma extract_sibling_Ok op s :
  extract_sibling op = Ok s <->
  length s = HASH_SIZE /\
  ((prefix op = [Byte.x01] /\ suffix op = s) \/ (prefix op = Byte.x01 :: s /\ suffix op = [])).
Proof.
  destruct op as [h p x]. unfold extract_sibling. cbn [prefix suffix]. split.
  - destruct (decide (x = [])) as [->|Hx].
    + change (bool_decide (([] : bytes) = [])) with true. cbn [negb andb].
      destruct p as [|b p]; [by intros|]. cbn [lookup list_lookup length].
      destruct (Nat.eqb_spec (S (length p)) (1 + HASH_SIZE)) as [Hl|]; [|by intros].
      case_bool_decide as Hb; [|by intros]. simplify_eq. cbn [andb]. intros [= <-].
      split; [by injection Hl|]. by right.
    + rewrite (bool_decide_eq_false_2 (x = [])) by done. cbn [negb andb].
      destruct (Nat.eqb_spec (length x) HASH_SIZE) as [Hl|]; [|by intros].
      destruct p as [|b [|b2 p]]; [by intros| |by intros]. cbn [lookup list_lookup length].
      case_bool_decide as Hb; [|by intros]. simplify_eq. cbn. intros [= <-].
      split; [done|]. by left.
  - intros [Hl Hop]. set (N := {| HashOp_Sha256 := h; HashOp_NoHash := 0; exist_tag := 1;
                                 nonexist_tag := 2 |}).
    destruct Hop as [[-> ->]|[-> ->]];
      [apply (@extract_parity N s true)|apply (@extract_parity N s false)]; done.
Qed.

End ProofLaws.

(** a membership proof survives the wire: what the gateway serialises — in either layout, with or
    without the index — the light client decodes to the same key, value and siblings. *)
Theorem membership_proof_roundtrip `{ProstWireLaws} `{Ics23Published} proof key value index :
  Forall (fun s => length s = HASH_SIZE) (CoreSmt.mp_siblings proof) ->
  decode_membership_proof (serialize_membership_proof_with_index proof key value index) =
    Ok (key, value, CoreSmt.mp_siblings proof) /\
  decode_membership_proof (serialize_membership_proof proof key value) =
    Ok (key, value, CoreSmt.mp_siblings proof).
Proof.
  intros Hs.
  split; [by apply decode_exist_with_index|].
  apply (decode_exist (build_existence_proof key value (CoreSmt.mp_siblings proof))).
  - split; [intros ? [= <-]; apply existence_leaf_ok|].
    apply list.Forall_fmap, list.Forall_forall. intros s _. apply (inner_op_with_parity_ok s true).
  - by apply extract_plain.
Qed.

(** C39: no non-membership proof of the gateway is readable by the light client: the [ics23] crate
    writes the [Nonexist] variant under tag 2, the light client's schema expects it under tag 3 and
    drops it, and the decoder fails with [MerkleVerificationFailed], with or without
    the index. *)
Theorem gateway_non_membership_is_unreadable `{ProstWireLaws} `{Ics23Published} proof key index :
  decode_non_membership_proof (serialize_non_membership_proof_with_index proof key index) =
    Err MerkleVerificationFailed /\
  decode_non_membership_proof (serialize_non_membership_proof proof key) =
    Err MerkleVerificationFailed.
Proof.
  unfold decode_non_membership_proof, serialize_non_membership_proof_with_index,
    serialize_non_membership_proof. by rewrite !wasm_drops_nonexist.
Qed.

(** The published numbers, for evaluating examples. *)
Definition ics23_v0_12 : Ics23Numbers :=
  {| HashOp_Sha256 := 1; HashOp_NoHash := 0; exist_tag := 1; nonexist_tag := 2 |}.
Lemma ics23_v0_12_published : @Ics23Published ics23_v0_12.
Proof. by constructor. Qed.

Definition sample_siblings : list bytes := [replicate 32 Byte.x07; replicate 32 Byte.x09].

Lemma membership_proof_roundtrip_witness :
  @decode_membership_proof Protobuf.wire
    (@serialize_membership_proof_with_index Protobuf.wire ics23_v0_12
      (CoreSmt.MkMembership [] [] sample_siblings) (bstr "k") (bstr "v") 1) =
  Ok (bstr "k", bstr "v", sample_siblings).
Proof.
  refine (proj1 (@membership_proof_roundtrip Protobuf.wire Protobuf.wire_laws ics23_v0_12
    ics23_v0_12_published (CoreSmt.MkMembership [] [] sample_siblings) (bstr "k") (bstr "v") 1 _)).
  repeat constructor.
Defined.

Lemma gateway_non_membership_is_unreadable_witness :
  @decode_non_membership_proof Protobuf.wire
    (@serialize_non_membership_proof_with_index Protobuf.wire ics23_v0_12
      (CoreSmt.MkNonMembership [] sample_siblings) (bstr "k") 1) = Err MerkleVerificationFailed.
Proof.
  exact (proj1 (@gateway_non_membership_is_unreadable Protobuf.wire Protobuf.wire_laws ics23_v0_12
    ics23_v0_12_published (CoreSmt.MkNonMembership [] sample_siblings) (bstr "k") 1)).
Defined.

(** The decoder reads the bytes themselves, without the laws. *)
Example sample_proof_decodes :
  @decode_membership_proof Protobuf.wire
    (@serialize_membership_proof Protobuf.wire ics23_v0_12
      (CoreSmt.MkMembership [] [] sample_siblings) (bstr "k") (bstr "v")) =
  Ok (bstr "k", bstr "v", sample_siblings).
Proof. vm_compute. reflexivity. Qed.
