(* ===== verification/Conversion.v ===== *)
(** * Soroban values ([crates/core/src/conversion.rs])

    The gateway reads and builds [ScVal]s, the values of Soroban contracts.  The type is the XDR
    enum of [soroban_client]: the variants the code distinguishes are constructors, the others are
    one opaque constructor.  How a [StringM] prints is a parameter, [StringText]: the XDR crate
    escapes the bytes that are not printable ASCII. *)

From Stdlib Require Import ZArith Lia Strings.Byte Strings.String.
From stdpp Require Import base option list gmap numbers sorting.
From S2P Require Import Prelude Bytes Crypto CoreCommitment.
Open Scope Z_scope.

Inductive ScAddress : Type :=
| AddrAccount (key : bytes)
| AddrContract (id : bytes)
| AddrOther (discriminant : Z).

Set Warnings "-register-all".
Inductive ScVal : Type :=
| ScBool (b : bool)
| ScU32 (n : Z)
| ScU64 (n : Z)
| ScI128 (hi lo : Z)
| ScBytes (b : bytes)
| ScString (s : bytes)
| ScSymbol (s : bytes)
| ScVec (items : option (list ScVal))
| ScMap (entries : option (list (ScVal * ScVal)))
| ScAddr (a : ScAddress)
| ScOther (discriminant : Z).
Abbreviation ScMapEntries := (list (ScVal * ScVal)).

(** What can go wrong in the constructors and accessors. *)
Inductive ConversionError : Type :=
| InvalidString (s : bytes)
| InvalidSymbol (s : bytes)
| InvalidBytes
| VecTooLarge
| MapTooLarge
| MissingField (name : bytes)
| FieldIsNot (name : bytes) (what : string).

(** [StringM::to_string]. *)
Class StringText := { string_to_string : bytes -> bytes }.
(** Printable ASCII other than the backslash prints as itself. *)
Definition plain_text (s : bytes) : Prop :=
  Forall (fun b => 0x20 <= Z_of_byte b <= 0x7E /\ Z_of_byte b <> 0x5C) s.
Class StringTextLaws `{StringText} : Prop := {
  plain_text_prints s : plain_text s -> string_to_string s = s;
  printing_plain s t : plain_text t -> string_to_string s = t -> s = t;
}.

(** ** Constructors *)

(** [try_into] for [StringM<MAX>], [BytesM<MAX>] and [VecM<_, MAX>]. *)
Definition fits (max : Z) {A} (l : list A) : bool := Z.of_nat (length l) <=? max.

Definition scval_string (s : bytes) : result ConversionError ScVal :=
  if fits u32_max s then Ok (ScString s) else Err (InvalidString s).
Definition scval_symbol (s : bytes) : result ConversionError ScVal :=
  if fits 32 s then Ok (ScSymbol s) else Err (InvalidSymbol s).
Definition scval_bytes (b : bytes) : result ConversionError ScVal :=
  if fits u32_max b then Ok (ScBytes b) else Err InvalidBytes.
Definition scval_u64 (v : Z) : ScVal := ScU64 v.
Definition scval_vec (items : list ScVal) : result ConversionError ScVal :=
  if fits u32_max items then Ok (ScVec (Some items)) else Err VecTooLarge.
Definition scval_vec_of_bytes (items : list bytes) : result ConversionError ScVal :=
  inner ← collect scval_bytes items; scval_vec inner.

(** The order of two symbols; [entries.sort_by(|a, b| a.key.cmp(&b.key))] is a stable sort and all
    keys it sees are symbols. *)
Fixpoint bytes_leb (a b : bytes) : bool :=
  match a, b with
  | [], _ => true
  | _ :: _, [] => false
  | x :: a, y :: b =>
      if Z_of_byte x <? Z_of_byte y then true
      else if Z_of_byte y <? Z_of_byte x then false else bytes_leb a b
  end.
Fixpoint insert_entry (e : bytes * ScVal) (l : list (bytes * ScVal)) : list (bytes * ScVal) :=
  match l with
  | [] => [e]
  | f :: l => if bytes_leb e.1 f.1 then e :: f :: l else f :: insert_entry e l
  end.
Definition sort_entries (l : list (bytes * ScVal)) : list (bytes * ScVal) :=
  foldr insert_entry [] l.

Definition scval_struct (fields : list (bytes * ScVal)) : result ConversionError ScVal :=
  _ ← collect (fun f => scval_symbol f.1) fields;
  let entries := sort_entries fields in
  if fits u32_max entries then Ok (ScMap (Some ((fun e => (ScSymbol e.1, e.2)) <$> entries)))
  else Err MapTooLarge.

Definition scval_height (revision_number revision_height : Z) : result ConversionError ScVal :=
  scval_struct [(bstr "revision_number", ScU64 revision_number);
                (bstr "revision_height", ScU64 revision_height)].

(** ** Accessors *)

Definition scval_as_map (val : ScVal) : option ScMapEntries :=
  match val with ScMap (Some m) => Some m | _ => None end.
Definition scval_as_u64 (val : ScVal) : option Z := match val with ScU64 n => Some n | _ => None end.
Definition scval_as_u32 (val : ScVal) : option Z := match val with ScU32 n => Some n | _ => None end.
Definition scval_as_bytes (val : ScVal) : option bytes :=
  match val with ScBytes b => Some b | _ => None end.
(** [((parts.hi as i128) << 64) | (parts.lo as i128)]. *)
Definition scval_as_i128 (val : ScVal) : option Z :=
  match val with ScI128 hi lo => Some (Z.lor (Z.shiftl hi 64) lo) | _ => None end.

Section Text.
Context `{StringText}.

Definition scval_as_string (val : ScVal) : option bytes :=
  match val with ScString s => Some (string_to_string s) | _ => None end.
Definition scval_as_symbol (val : ScVal) : option bytes :=
  match val with ScSymbol s => Some (string_to_string s) | _ => None end.

Definition is_symbol_named (name : bytes) (key : ScVal) : bool :=
  match key with ScSymbol s => bool_decide (string_to_string s = name) | _ => false end.
(** [map.0.iter().find(..).map(|e| &e.val)]. *)
Definition scval_field (map : ScMapEntries) (name : bytes) : option ScVal :=
  snd <$> head (filter (fun e => is_symbol_named name e.1 = true) map).

Definition scval_map_field (map : ScMapEntries) (name : bytes) : result ConversionError ScVal :=
  ok_or (MissingField name) (scval_field map name).
Definition scval_map_as_map (map : ScMapEntries) (name : bytes) : result ConversionError ScMapEntries :=
  v ← scval_map_field map name; ok_or (FieldIsNot name "a map") (scval_as_map v).
Definition scval_map_u64 (map : ScMapEntries) (name : bytes) : result ConversionError Z :=
  v ← scval_map_field map name; ok_or (FieldIsNot name "u64") (scval_as_u64 v).
Definition scval_map_u32 (map : ScMapEntries) (name : bytes) : result ConversionError Z :=
  v ← scval_map_field map name; ok_or (FieldIsNot name "u32") (scval_as_u32 v).
Definition scval_map_string (map : ScMapEntries) (name : bytes) : result ConversionError bytes :=
  v ← scval_map_field map name; ok_or (FieldIsNot name "a string") (scval_as_string v).
Definition scval_map_bytes (map : ScMapEntries) (name : bytes) : result ConversionError bytes :=
  v ← scval_map_field map name; ok_or (FieldIsNot name "bytes") (scval_as_bytes v).

Definition first_payload_value (packet : ScVal) : option bytes :=
  m ← scval_as_map packet;
  payloads ← scval_field m (bstr "payloads");
  match payloads with
  | ScVec (Some items) =>
      first ← head items;
      m1 ← scval_as_map first;
      value ← scval_field m1 (bstr "value");
      scval_as_bytes value
  | _ => None
  end.

End Text.

Definition is_v2_provable_path (key : bytes) : bool :=
  if (length key <? 10)%nat then false
  else match key !! (length key - 9)%nat with
       | Some d => (1 <=? Z_of_byte d) && (Z_of_byte d <=? 3)
       | None => false
       end.
Definition scval_to_v2_path (key : ScVal) : option bytes :=
  b ← scval_as_bytes key; if is_v2_provable_path b then Some b else None.

(** ** Structs *)

Definition entry_le (a b : bytes * ScVal) : Prop := bytes_leb a.1 b.1 = true.

Lemma bytes_leb_total a b : bytes_leb a b = true \/ bytes_leb b a = true.
Proof.
  revert b. induction a as [|x a IH]; intros [|y b]; simpl; auto.
  destruct (Z.ltb_spec (Z_of_byte x) (Z_of_byte y)); [auto|].
  destruct (Z.ltb_spec (Z_of_byte y) (Z_of_byte x)); auto.
Qed.

Lemma insert_entry_perm e l : insert_entry e l ≡ₚ e :: l.
Proof.
  induction l as [|f l IH]; simpl; [done|]. destruct (bytes_leb _ _); [done|].
  rewrite IH. constructor.
Qed.

Lemma sort_entries_perm l : sort_entries l ≡ₚ l.
Proof. induction l as [|e l IH]; simpl; [done|]. by rewrite insert_entry_perm, IH. Qed.

Lemma insert_entry_sorted e l : Sorted entry_le l -> Sorted entry_le (insert_entry e l).
Proof.
  induction 1 as [|f l Hs IH Hd]; simpl; [by repeat constructor|].
  destruct (bytes_leb e.1 f.1) eqn:Hef; [by repeat constructor|]. constructor; [done|].
  assert (entry_le f e) as Hfe by (destruct (bytes_leb_total e.1 f.1); [congruence|done]).
  destruct l as [|g l]; simpl; [by constructor|]. destruct (bytes_leb e.1 g.1); constructor; [done|].
  by inversion Hd.
Qed.

Lemma sort_entries_sorted l : Sorted entry_le (sort_entries l).
Proof. induction l as [|e l IH]; simpl; [constructor|]. by apply insert_entry_sorted. Qed.

Section Structs.
Context `{StringTextLaws}.

Definition struct_entries (fields : list (bytes * ScVal)) : ScMapEntries :=
  (fun e => (ScSymbol e.1, e.2)) <$> sort_entries fields.

Lemma named_spec name s : plain_text name -> is_symbol_named name (ScSymbol s) = true <-> s = name.
Proof.
  intros Hn. simpl. rewrite bool_decide_eq_true. split; [by apply printing_plain|].
  intros ->. by apply plain_text_prints.
Qed.

Lemma field_lookup name (entries : list (bytes * ScVal)) :
  plain_text name ->
  scval_field ((fun e => (ScSymbol e.1, e.2)) <$> entries) name =
  snd <$> head (filter (fun e => e.1 = name) entries).
Proof.
  intros Hn. unfold scval_field. induction entries as [|[s v] entries IH]; [done|].
  rewrite fmap_cons. cbn [fst snd]. destruct (decide (s = name)) as [->|Hne].
  - rewrite (filter_cons_True _ (name, v)) by done. rewrite filter_cons_True by by apply named_spec.
    done.
  - rewrite (filter_cons_False _ (s, v)) by done.
    rewrite filter_cons_False by (by intros Hx%named_spec). exact IH.
Qed.

Lemma filter_unique (entries : list (bytes * ScVal)) name v :
  NoDup entries.*1 -> (name, v) ∈ entries -> filter (fun e => e.1 = name) entries = [(name, v)].
Proof.
  induction entries as [|[s w] entries IH]; [by intros _ ?%elem_of_nil|].
  rewrite fmap_cons, list.NoDup_cons. intros [Hs Hnd] Hin. cbn [fst] in Hs.
  apply elem_of_cons in Hin as [[= -> ->]|Hin].
  - rewrite filter_cons_True by done. f_equal. clear IH Hnd.
    induction entries as [|[s' v'] entries IH']; [done|].
    rewrite fmap_cons, not_elem_of_cons in Hs. cbn [fst] in Hs. destruct Hs as [Hne Hs].
    rewrite filter_cons_False by (simpl; congruence). by apply IH'.
  - rewrite filter_cons_False; [by apply IH|]. simpl. intros ->. apply Hs. apply list_elem_of_fmap.
    by exists (name, v).
Qed.

End Structs.

Lemma collect_symbols fields :
  Forall (fun f => fits 32 f.1 = true) fields ->
  is_ok (collect (fun f : bytes * ScVal => scval_symbol f.1) fields) = true.
Proof.
  induction 1 as [|f fields Hf _ IH]; [done|]. cbn [collect].
  assert (scval_symbol f.1 = Ok (ScSymbol f.1)) as -> by (unfold scval_symbol; by rewrite Hf).
  cbn [mbind result_bind]. destruct (collect _ fields); done.
Qed.

(** a struct the gateway builds is a map sorted by field name in which every field, and only
    those, is found again by name. *)
Theorem scval_struct_fields `{StringTextLaws} fields :
  NoDup fields.*1 ->
  Forall (fun f => plain_text f.1 /\ fits 32 f.1 = true) fields ->
  fits u32_max fields = true ->
  exists m, scval_struct fields = Ok (ScMap (Some ((fun e => (ScSymbol e.1, e.2)) <$> m))) /\
    m ≡ₚ fields /\ Sorted entry_le m /\
    let map := (fun e => (ScSymbol e.1, e.2)) <$> m in
    (forall name v, (name, v) ∈ fields -> scval_field map name = Some v) /\
    (forall name, plain_text name -> name ∉ fields.*1 ->
       scval_map_field map name = Err (MissingField name)).
Proof.
  intros Hnd Hf Hlen. exists (sort_entries fields).
  pose proof (sort_entries_perm fields) as Hp. cbn zeta. split_and!.
  - unfold scval_struct. destruct (collect _ fields) as [l|e] eqn:Hc.
    + cbn [mbind result_bind]. assert (fits u32_max (sort_entries fields) = true) as ->; [|done].
      unfold fits in *. by rewrite Hp.
    + exfalso. pose proof (collect_symbols fields) as Hok. rewrite Hc in Hok. simpl in Hok.
      discriminate Hok. eapply list.Forall_impl; [exact Hf|]. by intros f [_ ?].
  - done.
  - apply sort_entries_sorted.
  - intros name v Hin. rewrite field_lookup.
    + erewrite filter_unique; [done|by rewrite Hp|by rewrite Hp].
    + rewrite list.Forall_forall in Hf. by apply (Hf (name, v)).
  - intros name Hn Hnot. unfold scval_map_field. rewrite field_lookup by done.
    destruct (filter _ _) as [|[s v] l] eqn:Hfl; [done|]. exfalso. apply Hnot.
    assert ((s, v) ∈ filter (fun e : bytes * ScVal => e.1 = name) (sort_entries fields)) as Hin
      by (rewrite Hfl; left).
    apply list_elem_of_filter in Hin as [<- Hin]. rewrite Hp in Hin. apply list_elem_of_fmap.
    by exists (s, v).
Qed.

(** ** Provable paths *)

Lemma to_of_be_bytes bs n : length bs = n -> to_be_bytes n (of_be_bytes bs) = bs.
Proof.
  unfold to_be_bytes, of_be_bytes. revert n. induction bs as [|b bs IH] using rev_ind; intros n Hn.
  - by subst.
  - rewrite length_app in Hn. simpl in Hn. destruct n as [|n]; [lia|].
    rewrite of_be_bytes_acc_app. cbn [of_be_bytes_acc le_bytes rev].
    pose proof (Z_of_byte_range b). set (z := of_be_bytes_acc 0 bs) in *.
    assert (byte_of_Z (z * 256 + Z_of_byte b) = b) as ->.
    { apply Z_of_byte_inj. rewrite Z_of_byte_of_Z, Z.add_comm, Z.mod_add, Z.mod_small; lia. }
    rewrite Z.div_add_l, (Z.div_small (Z_of_byte b)), Z.add_0_r by lia. unfold z.
    rewrite IH by lia. done.
Qed.

Lemma provable_discriminator d :
  (1 <=? Z_of_byte d) && (Z_of_byte d <=? 3) = true <->
  d = Core.PACKET_COMMITMENT_DISCRIMINATOR \/ d = Core.PACKET_RECEIPT_DISCRIMINATOR \/
  d = Core.ACK_COMMITMENT_DISCRIMINATOR.
Proof.
  rewrite andb_true_iff, !Z.leb_le. split.
  - intros [? ?]. assert (Z_of_byte d = 1 \/ Z_of_byte d = 2 \/ Z_of_byte d = 3) as [Hd|[Hd|Hd]] by lia;
      [left|right; left|right; right]; by apply Z_of_byte_inj.
  - intros [->|[->| ->]]; vm_compute; split; discriminate.
Qed.

(** the gateway takes a storage key for a provable path exactly when it is the commitment, receipt
    or acknowledgement path of some packet of a client with a non-empty identifier. *)
Theorem is_v2_provable_path_spec key :
  is_v2_provable_path key = true <->
  exists client_id d n, client_id <> [] /\ in_u64 n /\
    (d = Core.PACKET_COMMITMENT_DISCRIMINATOR \/ d = Core.PACKET_RECEIPT_DISCRIMINATOR \/
     d = Core.ACK_COMMITMENT_DISCRIMINATOR) /\ key = Core.v2_path client_id d n.
Proof.
  unfold is_v2_provable_path. destruct (Nat.ltb_spec (length key) 10) as [Hl|Hl].
  { split; [done|]. intros (c & d & n & Hc & _ & _ & ->). rewrite Core.v2_path_length in Hl.
    destruct c; [done|]. simpl in Hl. lia. }
  destruct (key !! (length key - 9)%nat) as [d|] eqn:Hd.
  2: { apply lookup_ge_None in Hd. lia. }
  rewrite provable_discriminator. split.
  - intros Hk. exists (take (length key - 9) key), d, (of_be_bytes (drop (S (length key - 9)) key)).
    split_and!; [| |done|].
    + intros Hc%(f_equal length). rewrite length_take in Hc. simpl in Hc. lia.
    + apply of_be_bytes_u64. rewrite length_drop. lia.
    + unfold Core.v2_path. rewrite to_of_be_bytes by (rewrite length_drop; lia).
      symmetry. by apply take_drop_middle.
  - intros (c & d' & n & _ & _ & Hd' & ->). rewrite Core.v2_path_length in Hd.
    replace (length c + 9 - 9)%nat with (length c) in Hd by lia. unfold Core.v2_path in Hd.
    rewrite lookup_app_r, Nat.sub_diag in Hd by lia. injection Hd as <-. done.
Qed.

(** The two halves of an [i128] make the number they stand for. *)
Lemma scval_as_i128_value hi lo : in_u64 lo -> scval_as_i128 (ScI128 hi lo) = Some (hi * 2 ^ 64 + lo).
Proof.
  intros Hlo. simpl. f_equal. rewrite Z.shiftl_mul_pow2 by lia. symmetry. apply Z.add_nocarry_lor.
  apply Z.bits_inj'. intros n Hn. rewrite Z.land_spec, Z.bits_0.
  destruct (Z.lt_ge_cases n 64) as [Hlt|Hge].
  - by rewrite Z.mul_pow2_bits_low by lia.
  - rewrite (Z.bits_above_log2 lo); [by rewrite andb_false_r|unfold in_u64 in Hlo; lia|].
    unfold in_u64, u64_max in Hlo. destruct (decide (lo = 0)) as [->|]; [simpl; lia|].
    apply Z.lt_le_trans with 64; [|done]. apply Z.log2_lt_pow2; lia.
Qed.

(** ** An escaping printer, for evaluating examples *)

Definition plain_byte (b : byte) : Prop := 0x20 <= Z_of_byte b <= 0x7E /\ Z_of_byte b <> 0x5C.
Definition hex_nibble (n : Z) : byte := byte_of_Z (if n <? 10 then 48 + n else 87 + n).
Definition escape_byte (b : byte) : bytes :=
  if decide (plain_byte b) then [b]
  else [Byte.x5c; Byte.x78; hex_nibble (Z_of_byte b / 16); hex_nibble (Z_of_byte b mod 16)].
Definition escaped_text : StringText := {| string_to_string s := mjoin (escape_byte <$> s) |}.

Lemma escaped_text_laws : @StringTextLaws escaped_text.
Proof.
  constructor; cbn [string_to_string escaped_text].
  - intros s Hs. induction Hs as [|b s Hb _ IH]; [done|]. csimpl. rewrite IH. unfold escape_byte.
    by rewrite decide_True.
  - intros s. induction s as [|b s IH]; intros t Ht; csimpl; [done|]. intros Heq.
    unfold escape_byte in Heq. case_decide as Hb.
    + destruct t as [|c t]; [done|]. injection Heq as -> Heq. f_equal. apply IH; [|done].
      by eapply Forall_cons_1.
    + destruct t as [|c t]; [done|]. injection Heq as <- Heq.
      apply Forall_cons_1 in Ht as [[_ Hc] _]. by vm_compute in Hc.
Qed.

Lemma scval_struct_fields_witness :
  exists m, scval_height 7 9 = Ok (ScMap (Some ((fun e => (ScSymbol e.1, e.2)) <$> m))) /\
    @scval_field escaped_text ((fun e => (ScSymbol e.1, e.2)) <$> m) (bstr "revision_height") =
      Some (ScU64 9).
Proof.
  destruct (@scval_struct_fields escaped_text escaped_text_laws
    [(bstr "revision_number", ScU64 7); (bstr "revision_height", ScU64 9)]) as (m & Hm & _ & _ & Hin & _).
  - apply (bool_decide_unpack _). vm_compute. done.
  - repeat constructor; vm_compute; try done; intros; discriminate.
  - vm_compute. reflexivity.
  - exists m. split; [exact Hm|]. apply Hin. right. left.
Defined.
