(* ===== verification/GatewayState.v ===== *)
(** * The gateway's mirror of the router's store ([crates/core/src/ibc/state.rs])

    The gateway replays the ledger: from the metadata of every closed ledger it collects the changes
    of contract data, keeps those of the router contract whose key is a provable path, and applies
    them to a sparse Merkle tree, from which it answers with roots and proofs.

    The ledger service ([ApiClient::get_ledger]) and the XDR decoder of the ledger metadata are
    parameters.  A Rust method on [&mut self] that returns an error keeps the changes it made, so
    operations return the state together with a result. *)

From Stdlib Require Import ZArith Lia Strings.Byte Strings.String.
From stdpp Require Import base option list gmap sets numbers.
From S2P Require Import Prelude Bytes Crypto CoreCommitment Smt Prost MerkleProof Conversion.
Open Scope Z_scope.

(** ** Ledger metadata (the variants of the XDR types the code distinguishes) *)

Inductive LedgerEntryData : Type :=
| EntryContractData (contract : ScAddress) (key val : ScVal)
| EntryOther (discriminant : Z).
Inductive LedgerKey : Type :=
| KeyContractData (contract : ScAddress) (key : ScVal)
| KeyOther (discriminant : Z).
Inductive LedgerEntryChange : Type :=
| Created (e : LedgerEntryData)
| Updated (e : LedgerEntryData)
| Removed (k : LedgerKey)
| StateChange (e : LedgerEntryData)
| Restored (e : LedgerEntryData).
Abbreviation changes := (list LedgerEntryChange).

(** An operation's metadata is its list of changes. *)
Inductive TransactionMeta : Type :=
| TxV0 (operations : list changes)
| TxV1 (tx_changes : changes) (operations : list changes)
| TxV2 (before : changes) (operations : list changes) (after : changes)
| TxV3 (before : changes) (operations : list changes) (after : changes)
| TxV4 (before : changes) (operations : list changes) (after : changes).
Inductive LedgerCloseMeta : Type :=
| CloseV0 (tx_processing : list TransactionMeta)
| CloseV1 (tx_processing : list TransactionMeta)
| CloseV2 (tx_processing : list TransactionMeta).

Inductive GatewayError : Type :=
| LedgerUnavailable (seq : Z)
| MetaXdr
| NonMembershipUnavailable.

Definition collect_tx_changes (meta : TransactionMeta) : changes :=
  match meta with
  | TxV0 operations => mjoin operations
  | TxV1 tx_changes operations => tx_changes ++ mjoin operations
  | TxV2 before operations after
  | TxV3 before operations after
  | TxV4 before operations after => before ++ mjoin operations ++ after
  end.

Definition ledger_changes (meta : LedgerCloseMeta) : changes :=
  match meta with
  | CloseV0 txs | CloseV1 txs | CloseV2 txs => mjoin (collect_tx_changes <$> txs)
  end.

(** ** The state *)

Record State : Type := MkState {
  roots : gmap Z bytes;
  ibc_contract_id : option bytes;
  smt : CoreSmt.Smt;
  last_processed : option Z;
}.
Definition with_smt (t : CoreSmt.Smt) (st : State) : State :=
  MkState (roots st) (ibc_contract_id st) t (last_processed st).

Inductive PathLookup : Type :=
| Found (value_hash proof_bytes : bytes)
| Absent (proof_bytes : bytes).

Definition new (contract_id : option bytes) : State := MkState ∅ contract_id CoreSmt.new None.

Definition matches (st : State) (addr : ScAddress) : bool :=
  match addr with
  | AddrContract hash =>
      match ibc_contract_id st with
      | None => true
      | Some id => bool_decide (hash = id)
      end
  | _ => false
  end.

(** An answer of the ledger service: the ledger's metadata, if it has any. *)
Definition ledger_api : Type := Z -> result GatewayError (option bytes).

Section Replay.
Context `{Sha256}.

Definition apply_contract_data_write (data : LedgerEntryData) (is_update : bool) (st : State) :
    State * bool :=
  match data with
  | EntryOther _ => (st, false)
  | EntryContractData contract key val =>
      if negb (matches st contract) then (st, false)
      else match scval_to_v2_path key with
      | None => (st, false)
      | Some path =>
          match scval_as_bytes val with
          | None => (st, false)
          | Some value =>
              (with_smt (if is_update then CoreSmt.update path value (smt st)
                         else CoreSmt.insert path value (smt st)) st, true)
          end
      end
  end.

Definition apply (change : LedgerEntryChange) (st : State) : State * bool :=
  match change with
  | Created e => apply_contract_data_write e false st
  | Updated e => apply_contract_data_write e true st
  | Removed (KeyContractData contract key) =>
      if negb (matches st contract) then (st, false)
      else match scval_to_v2_path key with
      | None => (st, false)
      | Some path => (with_smt (CoreSmt.remove path (smt st)) st, true)
      end
  | _ => (st, false)
  end.

(** [for change in ledger_changes(&meta) { self.apply(change); }]. *)
Definition apply_all (cs : changes) (st : State) : State :=
  foldl (fun st c => (apply c st).1) st cs.

Variable meta_from_xdr : bytes -> option LedgerCloseMeta.
Variable get_ledger : ledger_api.

Definition apply_ledger (seq : Z) (st : State) : State * result GatewayError unit :=
  match get_ledger seq with
  | Err e => (st, Err e)
  | Ok None => (st, Ok tt)
  | Ok (Some meta_xdr) =>
      match meta_from_xdr meta_xdr with
      | None => (st, Err MetaXdr)
      | Some meta => (apply_all (ledger_changes meta) st, Ok tt)
      end
  end.

(** [for ledger_seq in ls { self.apply_ledger(ledger_seq).await?; }]. *)
Fixpoint apply_ledgers (ls : list Z) (st : State) : State * result GatewayError unit :=
  match ls with
  | [] => (st, Ok tt)
  | l :: ls =>
      let '(st, r) := apply_ledger l st in
      match r with Ok _ => apply_ledgers ls st | Err e => (st, Err e) end
  end.

Definition record_root (seq : Z) (last : option Z) (st : State) : State * result GatewayError bytes :=
  let root := CoreSmt.root (smt st) in
  (MkState (<[seq := root]> (roots st)) (ibc_contract_id st) (smt st) last, Ok root).

Definition process_through (seq : Z) (st : State) : State * result GatewayError bytes :=
  let replay start :=
    let '(st, r) := apply_ledgers (seqZ start (seq - start + 1)) st in
    match r with
    | Err e => (st, Err e)
    | Ok _ => record_root seq (Some seq) st
    end in
  match last_processed st with
  | Some last => if seq <=? last then record_root seq (last_processed st) st else replay (last + 1)
  | None => replay seq
  end.

Definition root_at (seq : Z) (st : State) : State * result GatewayError bytes :=
  match roots st !! seq with
  | Some root => (st, Ok root)
  | None => process_through seq st
  end.

Context `{ProstWire} `{Ics23Numbers}.

Definition proof_for_path (seq : Z) (key : bytes) (st : State) :
    State * result GatewayError PathLookup :=
  let '(st, r) := root_at seq st in
  match r with
  | Err e => (st, Err e)
  | Ok _ =>
      let index := CoreSmt.key_index key in
      match CoreSmt.generate_membership_proof key (smt st) with
      | Some proof =>
          let value_hash := CoreSmt.mp_value_hash proof in
          let b := serialize_membership_proof_with_index proof key value_hash index in
          (st, Ok (Found value_hash b))
      | None =>
          match CoreSmt.generate_non_membership_proof key (smt st) with
          | None => (st, Err NonMembershipUnavailable)
          | Some proof =>
              (st, Ok (Absent (serialize_non_membership_proof_with_index proof key index)))
          end
      end
  end.

End Replay.

(** ** What a change means *)

Definition is_router (id : option bytes) (addr : ScAddress) : bool := matches (new id) addr.

(** The write a change makes to the provable store: an empty value stands for a removal, as it does
    in [Smt::insert]. *)
Definition effect (id : option bytes) (c : LedgerEntryChange) : option (bytes * bytes) :=
  match c with
  | Created (EntryContractData contract key val) | Updated (EntryContractData contract key val) =>
      if is_router id contract then
        path ← scval_to_v2_path key; value ← scval_as_bytes val; Some (path, value)
      else None
  | Removed (KeyContractData contract key) =>
      if is_router id contract then path ← scval_to_v2_path key; Some (path, []) else None
  | _ => None
  end.
Definition writes_of (id : option bytes) (cs : changes) : list (bytes * bytes) := omap (effect id) cs.

(** The store after a sequence of writes. *)
Definition store_write (m : gmap bytes bytes) (w : bytes * bytes) : gmap bytes bytes :=
  if decide (w.2 = []) then delete w.1 m else <[w.1 := w.2]> m.
Definition store_after (ws : list (bytes * bytes)) : gmap bytes bytes := foldl store_write ∅ ws.

(** The changes the ledgers [first .. last] committed. *)
Definition committed (ledger : Z -> changes) (first last : Z) : changes :=
  mjoin (ledger <$> seqZ first (last - first + 1)).

Section Mirror.
Context `{Sha256}.

Definition tree_write (t : CoreSmt.Smt) (w : bytes * bytes) : CoreSmt.Smt := CoreSmt.insert w.1 w.2 t.
Definition tree_after (t : CoreSmt.Smt) (ws : list (bytes * bytes)) : CoreSmt.Smt :=
  foldl tree_write t ws.

(** The leaves of the tree are exactly the entries of the store. *)
Definition tree_is (t : CoreSmt.Smt) (m : gmap bytes bytes) : Prop :=
  forall idx kh vh, CoreSmt.leaves t !! idx = Some (kh, vh) <->
    exists path value, m !! path = Some value /\ idx = CoreSmt.key_index path /\
      kh = sha256 path /\ vh = sha256 value.

(** No two of these paths share a position in the tree. *)
Definition no_collision (paths : list bytes) : Prop :=
  forall p q, p ∈ paths -> q ∈ paths -> CoreSmt.key_index p = CoreSmt.key_index q -> p = q.

Lemma remove_is_insert path t : CoreSmt.remove path t = CoreSmt.insert path [] t.
Proof. done. Qed.

Lemma with_smt_same st : with_smt (smt st) st = st.
Proof. by destruct st. Qed.

Lemma apply_effect c st :
  (apply c st).1 = match effect (ibc_contract_id st) c with
                   | Some w => with_smt (tree_write (smt st) w) st
                   | None => st
                   end.
Proof.
  unfold apply, effect. destruct c as [[]|[]|[]| |]; try done; unfold apply_contract_data_write;
    change (is_router (ibc_contract_id st) contract) with (matches st contract);
    destruct (matches st contract); cbn [negb]; try done;
    destruct (scval_to_v2_path key) as [path|]; try done;
    cbn [mbind option_bind]; by destruct (scval_as_bytes val).
Qed.

Lemma apply_all_spec cs st :
  apply_all cs st = with_smt (tree_after (smt st) (writes_of (ibc_contract_id st) cs)) st.
Proof.
  unfold apply_all, writes_of. revert st. induction cs as [|c cs IH]; intros st; cbn [foldl omap list_omap].
  - symmetry. apply with_smt_same.
  - rewrite IH, apply_effect. by destruct (effect _ c) as [w|].
Qed.

(** *** The tree holds the last write to every position *)

Definition last_write (i : Z) (ws : list (bytes * bytes)) : option (bytes * bytes) :=
  foldl (fun acc w => if decide (CoreSmt.key_index w.1 = i) then Some w else acc) None ws.

Definition leaf_of (w : bytes * bytes) : option (bytes * bytes) :=
  if decide (w.2 = []) then None else Some (sha256 w.1, sha256 w.2).

Lemma tree_write_lookup t w i :
  CoreSmt.leaves (tree_write t w) !! i =
  if decide (CoreSmt.key_index w.1 = i) then leaf_of w else CoreSmt.leaves t !! i.
Proof.
  unfold tree_write, CoreSmt.insert, leaf_of, CoreSmt.remove. destruct (decide (w.2 = [])) as [Hv|Hv].
  - rewrite bool_decide_eq_true_2 by done. cbn [CoreSmt.leaves]. case_decide as Hi.
    + subst. apply lookup_delete_eq.
    + by apply lookup_delete_ne.
  - rewrite bool_decide_eq_false_2 by done. cbn [CoreSmt.leaves]. case_decide as Hi.
    + subst. apply lookup_insert_eq.
    + by apply lookup_insert_ne.
Qed.

Lemma last_write_snoc i ws w :
  last_write i (ws ++ [w]) = if decide (CoreSmt.key_index w.1 = i) then Some w else last_write i ws.
Proof. unfold last_write. by rewrite foldl_app. Qed.

Lemma tree_after_lookup t ws i :
  CoreSmt.leaves (tree_after t ws) !! i =
  match last_write i ws with Some w => leaf_of w | None => CoreSmt.leaves t !! i end.
Proof.
  induction ws as [|w ws IH] using rev_ind; [done|].
  unfold tree_after in *. rewrite foldl_app, last_write_snoc. cbn [foldl].
  rewrite tree_write_lookup. by case_decide.
Qed.

Lemma last_write_app i l1 l2 :
  last_write i (l1 ++ l2) = match last_write i l2 with Some w => Some w | None => last_write i l1 end.
Proof.
  induction l2 as [|w l2 IH] using rev_ind; [by rewrite app_nil_r|].
  rewrite app_assoc, !last_write_snoc, IH. by case_decide.
Qed.

(** Writing a prefix of the writes first makes no difference. *)
Lemma tree_after_replay t l1 l2 :
  tree_after (tree_after t l1) (l1 ++ l2) = tree_after t (l1 ++ l2).
Proof.
  destruct (tree_after _ (l1 ++ l2)) as [a] eqn:Ha, (tree_after t (l1 ++ l2)) as [b] eqn:Hb. f_equal.
  apply map_eq. intros i. change a with (CoreSmt.leaves (CoreSmt.MkSmt a)).
  change b with (CoreSmt.leaves (CoreSmt.MkSmt b)). rewrite <-Ha, <-Hb, !tree_after_lookup.
  rewrite last_write_app. by destruct (last_write i l2), (last_write i l1).
Qed.

Lemma last_write_Some i ws w :
  last_write i ws = Some w -> w ∈ ws /\ CoreSmt.key_index w.1 = i.
Proof.
  induction ws as [|x ws IH] using rev_ind; [done|]. rewrite last_write_snoc, elem_of_app.
  case_decide; [intros [= <-]; split; [right; left|done]|]. intros [? ?]%IH. auto.
Qed.

Lemma store_after_snoc ws w : store_after (ws ++ [w]) = store_write (store_after ws) w.
Proof. unfold store_after. by rewrite foldl_app. Qed.

Lemma store_after_lookup ws p :
  no_collision (p :: ws.*1) ->
  store_after ws !! p = match last_write (CoreSmt.key_index p) ws with
                        | Some w => if decide (w.2 = []) then None else Some w.2
                        | None => None
                        end.
Proof.
  induction ws as [|w ws IH] using rev_ind; intros Hnc; [done|].
  assert (no_collision (p :: ws.*1)) as Hnc'.
  { intros x y Hx Hy. apply Hnc; rewrite fmap_app, app_comm_cons, elem_of_app; auto. }
  rewrite store_after_snoc, last_write_snoc. unfold store_write.
  case_decide as Hv; case_decide as Hi.
  - assert (w.1 = p) as <-.
    { apply Hnc; [|left|done]. right. rewrite fmap_app, elem_of_app. right. left. }
    rewrite decide_True by done. apply lookup_delete_eq.
  - rewrite lookup_delete_ne by (intros <-; done). by apply IH.
  - assert (w.1 = p) as <-.
    { apply Hnc; [|left|done]. right. rewrite fmap_app, elem_of_app. right. left. }
    rewrite decide_False by done. apply lookup_insert_eq.
  - rewrite lookup_insert_ne by (intros <-; done). by apply IH.
Qed.

Lemma store_after_dom ws p v : store_after ws !! p = Some v -> p ∈ ws.*1.
Proof.
  intros Hp. induction ws as [|w ws IH] using rev_ind; [done|].
  rewrite store_after_snoc in Hp. rewrite fmap_app, elem_of_app. unfold store_write in Hp.
  case_decide.
  - apply lookup_delete_Some in Hp as [_ Hp]. left. auto.
  - apply lookup_insert_Some in Hp as [[<- _]|[_ Hp]]; [right; left|left; auto].
Qed.

Lemma tree_is_store ws : no_collision ws.*1 -> tree_is (tree_after CoreSmt.new ws) (store_after ws).
Proof.
  intros Hnc idx kh vh. rewrite tree_after_lookup.
  assert (forall w, w ∈ ws -> no_collision (w.1 :: ws.*1)) as Hnc'.
  { intros w Hw. assert (w.1 ∈ ws.*1) by by apply list_elem_of_fmap_2.
    intros x y Hx Hy. apply Hnc; [by apply elem_of_cons in Hx as [->|]|by apply elem_of_cons in Hy as [->|]]. }
  split.
  - destruct (last_write idx ws) as [w|] eqn:Hl; [|done]. unfold leaf_of. case_decide as Hv; [done|].
    intros [= <- <-]. pose proof (last_write_Some _ _ _ Hl) as [Hw Hi].
    exists w.1, w.2. split; [|done]. rewrite store_after_lookup by by apply Hnc'.
    by rewrite Hi, Hl, decide_False.
  - intros (p & v & Hp & -> & -> & ->).
    pose proof (store_after_dom _ _ _ Hp) as Hin. apply list_elem_of_fmap in Hin as (w & -> & Hw). rewrite store_after_lookup in Hp by by apply Hnc'.
    destruct (last_write _ ws) as [w'|] eqn:Hl; [|done]. case_decide; [done|]. injection Hp as <-.
    apply last_write_Some in Hl as [Hw' Hi]. unfold leaf_of. rewrite decide_False by done.
    assert (w'.1 = w.1) as ->; [|done]. apply Hnc; [by apply list_elem_of_fmap_2..|done].
Qed.

End Mirror.

(** ** Runs of the gateway *)

Section Runs.
Context `{Sha256} `{ProstWire} `{Ics23Numbers}.
Variable meta_from_xdr : bytes -> option LedgerCloseMeta.
(** What each closed ledger committed; a service may be unavailable, but what it answers is this. *)
Variable ledger : Z -> changes.
Definition serves (get_ledger : ledger_api) : Prop :=
  forall seq r, get_ledger seq = Ok r ->
    match r with
    | None => ledger seq = []
    | Some x => forall meta, meta_from_xdr x = Some meta -> ledger_changes meta = ledger seq
    end.

(** A call the gateway answered. *)
Inductive gateway_call : Type :=
| CallRoot (seq : Z)
| CallProof (seq : Z) (key : bytes).
Definition call_seq (c : gateway_call) : Z := match c with CallRoot s | CallProof s _ => s end.

Inductive answers : State -> gateway_call -> State -> Prop :=
| answers_root api st seq st' r :
    serves api -> root_at meta_from_xdr api seq st = (st', Ok r) -> answers st (CallRoot seq) st'
| answers_proof api st seq key st' l :
    serves api -> proof_for_path meta_from_xdr api seq key st = (st', Ok l) ->
    answers st (CallProof seq key) st'.

Lemma apply_ledgers_smt api ls st st' r :
  serves api -> apply_ledgers meta_from_xdr api ls st = (st', r) ->
  exists l1 l2, ls = l1 ++ l2 /\ (r = Ok tt -> l2 = []) /\
    st' = with_smt (tree_after (smt st) (writes_of (ibc_contract_id st) (mjoin (ledger <$> l1)))) st.
Proof.
  intros Hs. revert st. induction ls as [|l ls IH]; intros st Hrun; cbn [apply_ledgers] in Hrun.
  { injection Hrun as <- <-. exists [], []. split_and!; [done..|]. symmetry. apply with_smt_same. }
  destruct (apply_ledger meta_from_xdr api l st) as [st1 r1] eqn:Hone.
  assert (match r1 with
          | Ok _ => st1 = with_smt (tree_after (smt st) (writes_of (ibc_contract_id st) (ledger l))) st
          | Err _ => st1 = st end) as Hst1.
  { unfold apply_ledger in Hone. destruct (api l) as [[x|]|e] eqn:Hl.
    - apply Hs in Hl. destruct (meta_from_xdr x) as [meta|] eqn:Hx; injection Hone as <- <-; [|done].
      by rewrite apply_all_spec, (Hl meta).
    - apply Hs in Hl. injection Hone as <- <-. rewrite Hl. symmetry. apply with_smt_same.
    - by injection Hone as <- <-. }
  destruct r1 as [[]|e].
  - apply IH in Hrun as (l1 & l2 & -> & Hr & ->). exists (l :: l1), l2. split_and!; [done..|].
    subst st1. csimpl. unfold tree_after, writes_of. rewrite omap_app, foldl_app. done.
  - injection Hrun as <- <-. exists [], (l :: ls). split_and!; [done..|]. subst. symmetry.
    apply with_smt_same.
Qed.

(** The state after a run of answered calls: nothing yet, or the tree of the ledgers from the first
    height asked for to the greatest. *)
Definition synced (id : option bytes) (range : option (Z * Z)) (st : State) : Prop :=
  ibc_contract_id st = id /\
  match range with
  | None => st = new id
  | Some (first, last) =>
      first <= last /\ last_processed st = Some last /\
      (forall seq, is_Some (roots st !! seq) -> seq <= last) /\
      smt st = tree_after CoreSmt.new (writes_of id (committed ledger first last))
  end.
Definition extend (range : option (Z * Z)) (seq : Z) : option (Z * Z) :=
  Some (match range with None => (seq, seq) | Some (first, last) => (first, Z.max last seq) end).

Lemma committed_app first mid last :
  first <= mid <= last ->
  committed ledger first last = committed ledger first mid ++ mjoin (ledger <$> seqZ (mid + 1) (last - mid)).
Proof.
  intros. unfold committed.
  replace (last - first + 1) with ((mid - first + 1) + (last - mid)) by lia.
  rewrite seqZ_app by lia. rewrite fmap_app, join_app. do 4 f_equal. lia.
Qed.

Lemma root_at_synced id range api seq st st' r :
  serves api -> synced id range st -> root_at meta_from_xdr api seq st = (st', Ok r) ->
  synced id (extend range seq) st'.
Proof.
  intros Hs [Hid Hrange] Hrun. unfold root_at in Hrun.
  destruct (roots st !! seq) as [r'|] eqn:Hroot.
  { injection Hrun as <- <-. destruct range as [[first last]|].
    - destruct Hrange as (Hle & Hlast & Hroots & Hsmt). split; [done|]. cbn [extend].
      rewrite Z.max_l; [done|]. apply Hroots. by eexists.
    - subst st. done. }
  unfold process_through, record_root in Hrun. destruct range as [[first last]|].
  - destruct Hrange as (Hle & Hlast & Hroots & Hsmt). rewrite Hlast in Hrun.
    destruct (Z.leb_spec seq last) as [Hseq|Hseq].
    + injection Hrun as <- <-. split; [done|]. cbn [extend]. rewrite Z.max_l by done.
      split_and!; [done..| |done]. intros s. cbn [roots]. rewrite lookup_insert.
      case_decide; [by subst|]. apply Hroots.
    + destruct (apply_ledgers _ _ _ st) as [st1 r1] eqn:Hall. destruct r1 as [[]|]; [|done].
      apply apply_ledgers_smt in Hall as (l1 & l2 & Hl & Hr & ->); [|done].
      rewrite (Hr eq_refl), app_nil_r in Hl. subst l1. injection Hrun as <- <-.
      split; [done|]. cbn [extend]. rewrite Z.max_r by lia. split_and!; [lia|done| |].
      * intros s. cbn [roots with_smt]. rewrite lookup_insert. case_decide; [lia|].
        intros ?%Hroots. lia.
      * cbn [smt with_smt]. rewrite Hsmt, Hid, (committed_app first last seq) by lia.
        unfold tree_after, writes_of. rewrite omap_app, foldl_app.
        by replace (seq - (last + 1) + 1) with (seq - last) by lia.
  - subst st. cbn [last_processed new] in Hrun.
    destruct (apply_ledgers _ _ _ _) as [st1 r1] eqn:Hall. destruct r1 as [[]|]; [|done].
    apply apply_ledgers_smt in Hall as (l1 & l2 & Hl & Hr & ->); [|done].
    rewrite (Hr eq_refl), app_nil_r in Hl. subst l1. injection Hrun as <- <-.
    split; [done|]. cbn [extend]. split_and!; [lia|done| |done].
    intros s. cbn [roots with_smt new]. rewrite lookup_insert. case_decide; [lia|].
    rewrite lookup_empty. by intros [? ?].
Qed.

Lemma proof_for_path_root api seq key st st' l :
  proof_for_path meta_from_xdr api seq key st = (st', Ok l) ->
  exists r, root_at meta_from_xdr api seq st = (st', Ok r).
Proof.
  unfold proof_for_path. destruct (root_at _ _ _ _) as [st1 [r|e]]; [|done]. intros Hrun.
  exists r. destruct (CoreSmt.generate_membership_proof _ _) as [p|]; [by injection Hrun as <- _|].
  destruct (CoreSmt.generate_non_membership_proof _ _); [by injection Hrun as <- _|done].
Qed.

Lemma answers_synced id range st c st' :
  synced id range st -> answers st c st' -> synced id (extend range (call_seq c)) st'.
Proof.
  intros Hst Hc. destruct Hc as [api st seq st' r Hs Hr|api st seq key st' l Hs Hl].
  - by eapply root_at_synced.
  - apply proof_for_path_root in Hl as [r Hr]. by eapply root_at_synced.
Qed.

Definition range_of (calls : list gateway_call) : option (Z * Z) :=
  foldl (fun range c => extend range (call_seq c)) None calls.

Lemma run_synced id calls st : steps answers (new id) calls st -> synced id (range_of calls) st.
Proof.
  unfold range_of. assert (synced id None (new id)) as Hinit by done. revert Hinit.
  generalize (None : option (Z * Z)) as range. generalize (new id) as st0.
  intros st0 range Hinit Hrun. revert range Hinit.
  induction Hrun as [|s c s1 cs s2 Hc _ IH]; intros range Hinit; [done|]. cbn [foldl].
  apply IH. by eapply answers_synced.
Qed.

End Runs.

(** ** Theorems *)

Section GatewayLemmas.
Context `{Sha256} `{ProstWire} `{Ics23Numbers}.

Lemma store_value_nonempty ws p v : store_after ws !! p = Some v -> v <> [].
Proof.
  induction ws as [|w ws IH] using rev_ind; [done|]. rewrite store_after_snoc. unfold store_write.
  case_decide.
  - intros [_ Hp]%lookup_delete_Some. auto.
  - intros [[_ <-]|[_ Hp]]%lookup_insert_Some; auto.
Qed.

(** What the tree answers about a path, when no path of the store shares its position. *)
Lemma tree_holds ws key v :
  no_collision (key :: ws.*1) -> store_after ws !! key = Some v ->
  CoreSmt.leaves (tree_after CoreSmt.new ws) !! CoreSmt.key_index key = Some (sha256 key, sha256 v).
Proof.
  intros Hnc Hs. rewrite tree_after_lookup. rewrite store_after_lookup in Hs by done.
  destruct (last_write _ ws) as [w|] eqn:Hl; [|done]. case_decide as Hv; [done|]. injection Hs as <-.
  unfold leaf_of. rewrite decide_False by done. apply last_write_Some in Hl as [Hw Hi].
  assert (w.1 = key) as <-; [|done]. apply Hnc; [|left|done]. right. by apply list_elem_of_fmap_2.
Qed.

Lemma tree_empty_at ws key :
  no_collision (key :: ws.*1) -> store_after ws !! key = None ->
  CoreSmt.leaves (tree_after CoreSmt.new ws) !! CoreSmt.key_index key = None.
Proof.
  intros Hnc Hs. rewrite tree_after_lookup. rewrite store_after_lookup in Hs by done.
  destruct (last_write _ ws) as [w|] eqn:Hl; [|apply lookup_empty]. unfold leaf_of.
  by destruct (decide (w.2 = [])).
Qed.

(** Whether ledgers can be applied depends on the service only. *)
Lemma apply_ledgers_available meta_from_xdr api ls st st' :
  apply_ledgers meta_from_xdr api ls st = (st', Ok tt) ->
  forall s, exists s', apply_ledgers meta_from_xdr api ls s = (s', Ok tt).
Proof.
  revert st. induction ls as [|l ls IH]; intros st Hrun s; [by exists s|].
  cbn [apply_ledgers] in *. unfold apply_ledger in *.
  destruct (api l) as [[x|]|e]; [|by eapply IH|done].
  destruct (meta_from_xdr x); [by eapply IH|done].
Qed.

(** Applying some of the ledgers, then all of them, is applying all of them. *)
Lemma apply_ledgers_retried meta_from_xdr ledger api1 api2 ls st st1 e st2 :
  serves meta_from_xdr ledger api1 -> serves meta_from_xdr ledger api2 ->
  apply_ledgers meta_from_xdr api1 ls st = (st1, Err e) ->
  apply_ledgers meta_from_xdr api2 ls st1 = (st2, Ok tt) ->
  apply_ledgers meta_from_xdr api2 ls st = (st2, Ok tt) /\ last_processed st1 = last_processed st.
Proof.
  intros Hs1 Hs2 Hr1 Hr2. destruct (apply_ledgers_available _ _ _ _ _ Hr2 st) as [s Hr].
  apply (apply_ledgers_smt _ _ _ _ _ _ _ Hs1) in Hr1 as (l1 & l2 & Hl & _ & Hst1).
  apply (apply_ledgers_smt _ _ _ _ _ _ _ Hs2) in Hr2 as (k & nil' & Hk & Hnil & Hst2).
  pose proof (apply_ledgers_smt _ _ _ _ _ _ _ Hs2 Hr) as (k' & nil'' & Hk' & Hnil' & Hst).
  rewrite (Hnil eq_refl), app_nil_r in Hk. rewrite (Hnil' eq_refl), app_nil_r in Hk'.
  split; [|by rewrite Hst1]. rewrite Hr. f_equal. rewrite Hst, Hst2. subst k k' st1.
  unfold with_smt. cbn [roots ibc_contract_id smt last_processed]. f_equal. rewrite Hl.
  unfold writes_of. rewrite fmap_app, join_app, omap_app. symmetry. apply tree_after_replay.
Qed.

End GatewayLemmas.

(** The store the router has after the ledgers a run of calls has made the gateway replay. *)
Definition replayed_writes (id : option bytes) (ledger : Z -> changes) (calls : list gateway_call) :
    list (bytes * bytes) :=
  match range_of calls with
  | Some (first, last) => writes_of id (committed ledger first last)
  | None => []
  end.

(** C13: the gateway mirrors the router: after any run of answered calls, with a ledger service that may
    fail between them but answers with what the ledgers committed, the ledgers replayed are those
    from the first height asked for to the greatest, and the leaves of the tree are exactly the
    entries of the router's provable store written over them (as long as no two of its paths share
    a 64-bit position). *)
Theorem gateway_mirrors_ledger `{Sha256} `{ProstWire} `{Ics23Numbers} meta_from_xdr ledger id calls st :
  steps (answers meta_from_xdr ledger) (new id) calls st ->
  no_collision (replayed_writes id ledger calls).*1 ->
  last_processed st = snd <$> range_of calls /\
  tree_is (smt st) (store_after (replayed_writes id ledger calls)).
Proof.
  intros Hrun Hnc. apply (run_synced meta_from_xdr ledger) in Hrun as [Hid Hsync]. unfold replayed_writes in *.
  destruct (range_of calls) as [[first last]|].
  - destruct Hsync as (_ & Hlast & _ & Hsmt). split; [done|]. rewrite Hsmt. by apply tree_is_store.
  - subst st. split; [done|]. by apply (tree_is_store []).
Qed.

(** What [proof_for_path] answers after a run of calls. *)
Lemma proof_for_path_answers `{Sha256} `{ProstWire} `{Ics23Numbers} meta_from_xdr ledger id calls st
    api seq key st' res :
  steps (answers meta_from_xdr ledger) (new id) calls st ->
  serves meta_from_xdr ledger api ->
  proof_for_path meta_from_xdr api seq key st = (st', res) ->
  let ws := replayed_writes id ledger (calls ++ [CallProof seq key]) in
  no_collision (key :: ws.*1) ->
  match res with
  | Ok (Found value_hash b) => exists v p,
      store_after ws !! key = Some v /\ value_hash = sha256 v /\
      b = serialize_membership_proof_with_index p key value_hash (CoreSmt.key_index key) /\
      CoreSmt.verify_membership (CoreSmt.root (smt st')) p key v = true
  | Ok (Absent b) => exists p,
      store_after ws !! key = None /\
      b = serialize_non_membership_proof_with_index p key (CoreSmt.key_index key) /\
      CoreSmt.verify_non_membership (CoreSmt.root (smt st')) p key = true
  | Err e => root_at meta_from_xdr api seq st = (st', Err e)
  end.
Proof.
  intros Hrun Hs Hproof ws Hnc. unfold proof_for_path in Hproof.
  destruct (root_at meta_from_xdr api seq st) as [st1 [r|e]] eqn:Hroot.
  2: { by injection Hproof as <- <-. }
  assert (smt st1 = tree_after CoreSmt.new ws) as Hsmt.
  { apply (root_at_synced meta_from_xdr ledger id (range_of calls)) in Hroot as [_ Hsync];
      [|done|by eapply run_synced].
    unfold ws, replayed_writes, range_of. rewrite foldl_app. cbn [foldl call_seq].
    fold (range_of calls). by destruct (range_of calls) as [[first last]|]; apply Hsync. }
  destruct (store_after ws !! key) as [v|] eqn:Hv.
  - pose proof (tree_holds ws key v Hnc Hv) as Hl.
    destruct (membership_complete (smt st1) key v) as (p & Hp & Hver).
    { by eapply store_value_nonempty. } { unfold holds. by rewrite Hsmt. }
    rewrite Hp in Hproof. injection Hproof as <- <-. exists v, p. split_and!; [done| |done|done].
    unfold CoreSmt.verify_membership in Hver. case_bool_decide; [done|].
    do 2 (case_bool_decide; [cbn [negb] in Hver|done]). done.
  - pose proof (tree_empty_at ws key Hnc Hv) as Hl.
    destruct (non_membership_complete (smt st1) key) as (p & Hp & Hver); [by rewrite Hsmt|].
    assert (CoreSmt.generate_membership_proof key (smt st1) = None) as Hm.
    { unfold CoreSmt.generate_membership_proof. cbn zeta. unfold CoreSmt.key_index in Hl.
      rewrite Hsmt, Hl. done. }
    rewrite Hm, Hp in Hproof. injection Hproof as <- <-. by exists p.
Qed.


(** a failed replay does no harm: if processing up to a height fails half-way and is asked again,
    the state and the root are those of processing it at once — the ledgers applied before the
    failure are applied twice, and the second time changes nothing. *)
Theorem failed_replay_can_be_retried `{Sha256} meta_from_xdr ledger api1 api2 seq st st1 e st2 r :
  serves meta_from_xdr ledger api1 -> serves meta_from_xdr ledger api2 ->
  process_through meta_from_xdr api1 seq st = (st1, Err e) ->
  process_through meta_from_xdr api2 seq st1 = (st2, Ok r) ->
  process_through meta_from_xdr api2 seq st = (st2, Ok r).
Proof.
  intros Hs1 Hs2 H1 H2.
  assert (forall start,
    (let '(s, x) := apply_ledgers meta_from_xdr api1 (seqZ start (seq - start + 1)) st in
     match x with Err e => (s, Err e) | Ok _ => record_root seq (Some seq) s end) = (st1, Err e) ->
    last_processed st1 = last_processed st /\
    forall s2, apply_ledgers meta_from_xdr api2 (seqZ start (seq - start + 1)) st1 = (s2, Ok tt) ->
      apply_ledgers meta_from_xdr api2 (seqZ start (seq - start + 1)) st = (s2, Ok tt)) as Hreplay.
  { intros start Hrun. destruct (apply_ledgers _ api1 _ st) as [s x] eqn:Ha.
    destruct x as [[]|e']; [done|]. injection Hrun as -> ->. split.
    - apply (apply_ledgers_smt _ _ _ _ _ _ _ Hs1) in Ha as (l1 & l2 & _ & _ & ->). done.
    - intros s2 Hs. exact (proj1 (apply_ledgers_retried meta_from_xdr ledger api1 api2 _ st st1 e s2 Hs1 Hs2 Ha Hs)). }
  unfold process_through in *. destruct (last_processed st) as [last|] eqn:Hlast.
  - destruct (seq <=? last) eqn:Hseq; [done|]. apply Hreplay in H1 as [Hl1 Hagain].
    rewrite Hl1, Hseq in H2. destruct (apply_ledgers _ api2 _ st1) as [s2 x2] eqn:Ha2.
    destruct x2 as [[]|]; [|done]. by rewrite (Hagain s2).
  - apply Hreplay in H1 as [Hl1 Hagain].
    rewrite Hl1 in H2. destruct (apply_ledgers _ api2 _ st1) as [s2 x2] eqn:Ha2.
    destruct x2 as [[]|]; [|done]. by rewrite (Hagain s2).
Qed.

(** a height below the last one replayed, whose root was not recorded on the way, is answered with
    the root of the latest tree, which is recorded for it: [root_at] does not go back in time. *)
Theorem past_root_is_latest_root `{Sha256} meta_from_xdr api seq last st :
  last_processed st = Some last -> seq <= last -> roots st !! seq = None ->
  exists st', root_at meta_from_xdr api seq st = (st', Ok (CoreSmt.root (smt st))) /\
    smt st' = smt st /\ roots st' !! seq = Some (CoreSmt.root (smt st)).
Proof.
  intros Hl Hle Hr. unfold root_at, process_through. rewrite Hr, Hl.
  rewrite (proj2 (Z.leb_le seq last)) by done. eexists. split_and!; [done..|]. apply lookup_insert_eq.
Qed.

(** The service has a ledger: it has no metadata, or metadata that decodes. *)
Definition available (meta_from_xdr : bytes -> option LedgerCloseMeta) (api : ledger_api) (seq : Z) : Prop :=
  match api seq with Ok None => True | Ok (Some x) => is_Some (meta_from_xdr x) | Err _ => False end.
(** The ledgers still to be replayed for a height. *)
Definition pending (st : State) (seq l : Z) : Prop :=
  match last_processed st with Some last => last < l <= seq | None => l = seq end.

Lemma apply_ledgers_complete `{Sha256} meta_from_xdr api ls st :
  Forall (available meta_from_xdr api) ls -> exists st', apply_ledgers meta_from_xdr api ls st = (st', Ok tt).
Proof.
  intros Hls. revert st. induction Hls as [|l ls Hl _ IH]; intros st; [by exists st|].
  cbn [apply_ledgers]. unfold apply_ledger, available in *.
  destruct (api l) as [[x|]|e]; [|apply IH|done]. destruct Hl as [meta ->]. apply IH.
Qed.

Lemma root_at_complete `{Sha256} meta_from_xdr api seq st :
  (forall l, pending st seq l -> available meta_from_xdr api l) ->
  exists st' r, root_at meta_from_xdr api seq st = (st', Ok r).
Proof.
  intros Hav. unfold root_at. destruct (roots st !! seq); [by eexists _, _|]. unfold process_through.
  assert (forall start, (forall l, start <= l <= seq -> available meta_from_xdr api l) ->
    exists st', apply_ledgers meta_from_xdr api (seqZ start (seq - start + 1)) st = (st', Ok tt)) as Hrun.
  { intros start Hs. apply apply_ledgers_complete. apply list.Forall_forall. intros l Hl%elem_of_seqZ.
    apply Hs. lia. }
  unfold pending in Hav. destruct (last_processed st) as [last|].
  - destruct (seq <=? last); [by eexists _, _|]. destruct (Hrun (last + 1)) as [st' ->]; [|by eexists _, _].
    intros l Hl. apply Hav. lia.
  - destruct (Hrun seq) as [st' ->]; [|by eexists _, _]. intros l Hl. apply Hav. lia.
Qed.

(** C34: whatever happened before, failures included, the gateway answers as soon as the service has the
    ledgers it still has to replay: it returns a root for the height and, for a path, a proof one way
    or the other; the only path it cannot answer for is one whose position in the tree another path
    occupies. *)
Theorem gateway_answers_when_served `{Sha256} `{ProstWire} `{Ics23Numbers} meta_from_xdr api seq key st :
  (forall l, pending st seq l -> available meta_from_xdr api l) ->
  (exists st' r, root_at meta_from_xdr api seq st = (st', Ok r)) /\
  exists st' res, proof_for_path meta_from_xdr api seq key st = (st', res) /\
    match res with
    | Ok _ => True
    | Err e => e = NonMembershipUnavailable /\
        exists kh vh, CoreSmt.leaves (smt st') !! CoreSmt.key_index key = Some (kh, vh) /\ kh <> sha256 key
    end.
Proof.
  intros Hav. destruct (root_at_complete meta_from_xdr api seq st Hav) as (st' & r & Hr).
  split; [by eexists _, _|]. exists st'. unfold proof_for_path. rewrite Hr.
  unfold CoreSmt.generate_membership_proof, CoreSmt.generate_non_membership_proof. cbn zeta. unfold CoreSmt.key_index.
  destruct (CoreSmt.leaves (smt st') !! CoreSmt.key_index_from_hash (sha256 key)) as [[kh vh]|];
    cbn [mbind option_bind]; [|by eexists].
  destruct (bool_decide (kh = sha256 key)) eqn:Hk; cbn [negb]; eexists; (split; [reflexivity|]); [done|].
  apply bool_decide_eq_false in Hk. split; [done|]. by exists kh, vh.
Qed.

(** ** A small ledger, for evaluating the theorems

    Ledger 10 creates the commitment of packet 1, ledger 11 is empty, ledger 12 creates its receipt and
    removes the commitment; ledger 13 has no metadata.  The metadata of ledger [n] is the byte [n]. *)
Module Demo.
#[local] Existing Instances toy_sha256 Protobuf.wire ics23_v0_12.

Definition router_id : bytes := replicate 32 Byte.x05.
Definition commitment_key : bytes := Core.packet_commitment_path (bstr "tm-0") 1.
Definition receipt_key : bytes := Core.packet_receipt_path (bstr "tm-0") 1.
Definition meta (x : bytes) : option LedgerCloseMeta :=
  let entry k v := EntryContractData (AddrContract router_id) (ScBytes k) (ScBytes v) in
  if decide (x = [Byte.x0a]) then
    Some (CloseV1 [TxV3 [] [[Created (entry commitment_key (bstr "c"))]] []])
  else if decide (x = [Byte.x0b]) then Some (CloseV1 [TxV1 [] []])
  else if decide (x = [Byte.x0c]) then
    Some (CloseV1 [TxV4 [Created (entry receipt_key [Byte.x01])]
                        [[Removed (KeyContractData (AddrContract router_id) (ScBytes commitment_key))]] []])
  else None.
(** The ledger service, answering for the ledgers from 10 to [top]. *)
Definition api (top : Z) : ledger_api := fun seq =>
  if (seq <? 10) || (top <? seq) then Err (LedgerUnavailable seq)
  else if seq =? 13 then Ok None
  else Ok (Some [byte_of_Z seq]).
Definition ledger (seq : Z) : changes :=
  match api 20 seq with
  | Ok (Some x) => default [] (ledger_changes <$> meta x)
  | _ => []
  end.

Lemma api_serves top : top <= 20 -> serves meta ledger (api top).
Proof.
  intros Htop seq r. unfold ledger, api.
  destruct ((seq <? 10) || (top <? seq)) eqn:Hr; [done|].
  apply orb_false_iff in Hr as [?%Z.ltb_ge ?%Z.ltb_ge].
  assert ((seq <? 10) || (20 <? seq) = false) as -> by (apply orb_false_iff; rewrite !Z.ltb_ge; lia).
  destruct (seq =? 13); intros [= <-]; [done|]. intros m ->. done.
Qed.

Definition st0 : State := new (Some router_id).
Definition st1 : State := fst (root_at meta (api 20) 10 st0).
Definition st2 : State := fst (root_at meta (api 20) 12 st1).

Lemma run_demo : steps (answers meta ledger) st0 [CallRoot 10; CallRoot 12] st2.
Proof.
  econstructor; [|econstructor; [|constructor]].
  - eapply (answers_root _ _ (api 20) _ _ _ _ (api_serves 20 ltac:(lia))).
    rewrite (surjective_pairing (root_at _ _ _ _)). f_equal.
  - eapply (answers_root _ _ (api 20) _ _ _ _ (api_serves 20 ltac:(lia))).
    rewrite (surjective_pairing (root_at _ _ _ _)). f_equal.
Qed.

Lemma no_collision_check (paths : list bytes) :
  forallb (fun p => forallb (fun q => negb (CoreSmt.key_index p =? CoreSmt.key_index q) ||
    bool_decide (p = q)) paths) paths = true -> no_collision paths.
Proof.
  rewrite forallb_forall. intros Hall p q Hp Hq Heq.
  specialize (Hall p (proj1 (list_elem_of_In _ _) Hp)). rewrite forallb_forall in Hall.
  specialize (Hall q (proj1 (list_elem_of_In _ _) Hq)). rewrite Heq, Z.eqb_refl in Hall.
  by apply bool_decide_eq_true in Hall.
Qed.

Lemma gateway_mirrors_ledger_witness :
  last_processed st2 = Some 12 /\
  tree_is (smt st2) (store_after [(commitment_key, bstr "c"); (receipt_key, [Byte.x01]);
                                  (commitment_key, [])]).
Proof.
  apply (gateway_mirrors_ledger meta ledger (Some router_id) [CallRoot 10; CallRoot 12] st2).
  - exact run_demo.
  - apply no_collision_check. vm_compute. reflexivity.
Defined.


(** The service stops before ledger 12: ledger 11 is replayed, then 11 and 12 are. *)
Definition st1f : State := fst (process_through meta (api 11) 12 st1).
Definition st2r : State := fst (process_through meta (api 20) 12 st1f).

Lemma failed_replay_can_be_retried_witness :
  process_through meta (api 20) 12 st1 = (st2r, Ok (CoreSmt.root (smt st2r))).
Proof.
  apply (failed_replay_can_be_retried meta ledger (api 11) (api 20) 12 st1 st1f (LedgerUnavailable 12)).
  - apply api_serves. lia.
  - apply api_serves. lia.
  - vm_compute. reflexivity.
  - vm_compute. reflexivity.
Defined.

(** After the failure, the ledgers left are served. *)
Lemma gateway_answers_when_served_witness :
  exists st' l, proof_for_path meta (api 20) 12 receipt_key st1f = (st', Ok l).
Proof.
  destruct (gateway_answers_when_served meta (api 20) 12 receipt_key st1f) as (_ & st' & res & Hrun & Hres).
  - intros l Hl. unfold pending in Hl. assert (last_processed st1f = Some 10) as He by (vm_compute; reflexivity). rewrite He in Hl.
    assert (l = 11 \/ l = 12) as [->| ->] by lia; vm_compute; by eexists.
  - destruct res as [l|e]; [by exists st', l|]. exfalso. apply (f_equal snd) in Hrun. vm_compute in Hrun. discriminate Hrun.
Defined.

Lemma past_root_is_latest_root_witness :
  (exists st', root_at meta (api 20) 11 st2 = (st', Ok (CoreSmt.root (smt st2)))) /\
  CoreSmt.root (smt st2) <> CoreSmt.root (smt st1).
Proof.
  split.
  - destruct (past_root_is_latest_root meta (api 20) 11 12 st2) as (st' & Hr & _);
      [vm_compute; reflexivity|lia|vm_compute; reflexivity|by exists st'].
  - vm_compute. discriminate.
Defined.

End Demo.
