(* ===== verification/WasmLightClient.v ===== *)
(** * The CosmWasm Stellar light client
      ([contracts/cosmwasm/light-client/src/{store,entrypoint}.rs])

    The contract that a Cosmos chain runs to verify Stellar: its storage holds the client state and a
    consensus state per ledger sequence, wrapped in the messages [ibc-go] expects; headers are checked
    against the trusted validators, packets against the root of a consensus state.

    [Storage] is a map from keys to bytes.  An entry point that returns an error is reverted by the
    chain, so it is a run of the monad [M ContractError Storage].  [prost], SHA-256 and Ed25519 are
    parameters; an answer is kept as the value that [to_json_binary] serialises. *)

From Stdlib Require Import ZArith Lia Strings.Byte Strings.String.
From stdpp Require Import base option list gmap numbers.
From S2P Require Import Prelude Bytes Crypto CoreCommitment Smt Prost WasmTypes MerkleProof.
Open Scope Z_scope.

Abbreviation Storage := (gmap bytes bytes).

(** ** The store *)

Definition CLIENT_STATE_KEY : bytes := bstr "clientState".
Definition CHECKSUM_KEY : bytes := bstr "wasmChecksum".
Definition STELLAR_REVISION_NUMBER : Z := 0.
Definition WASM_CLIENT_STATE_TYPE_URL : bytes := bstr "/ibc.lightclients.wasm.v1.ClientState".
Definition WASM_CONSENSUS_STATE_TYPE_URL : bytes := bstr "/ibc.lightclients.wasm.v1.ConsensusState".

(** [format!("consensusStates/{STELLAR_REVISION_NUMBER}-{height}")]; a [u64] has at most twenty
    digits. *)
Definition consensus_state_key (height : Z) : bytes :=
  bstr "consensusStates/" ++ dec 20 STELLAR_REVISION_NUMBER ++ bstr "-" ++ dec 20 height.

Definition set_checksum (checksum : bytes) (st : Storage) : Storage :=
  if decide (checksum = []) then st else <[CHECKSUM_KEY := checksum]> st.
Definition checksum (st : Storage) : bytes := default [] (st !! CHECKSUM_KEY).

Section Store.
Context `{ProstWire}.

Definition set_client_state (cs : ClientState) (st : Storage) : Storage :=
  let wasm := MkWasmClientState (encode_to_vec cs) (checksum st) (latest_height cs) in
  let any := MkAny WASM_CLIENT_STATE_TYPE_URL (encode_to_vec wasm) in
  <[CLIENT_STATE_KEY := encode_to_vec any]> st.

Definition client_state (st : Storage) : option ClientState :=
  raw ← st !! CLIENT_STATE_KEY;
  any ← decode (A := Any) raw;
  wasm ← decode (A := WasmClientState) (any_value any);
  decode (A := ClientState) (wcs_data wasm).

Definition set_consensus_state (height : Z) (cons : ConsensusState) (st : Storage) : Storage :=
  let wasm := MkWasmConsensusState (encode_to_vec cons) in
  let any := MkAny WASM_CONSENSUS_STATE_TYPE_URL (encode_to_vec wasm) in
  <[consensus_state_key height := encode_to_vec any]> st.

Definition consensus_state (st : Storage) (height : Z) : option ConsensusState :=
  raw ← st !! consensus_state_key height;
  any ← decode (A := Any) raw;
  wasm ← decode (A := WasmConsensusState) (any_value any);
  decode (A := ConsensusState) (wcons_data wasm).

End Store.

(** ** Entry points *)

Definition ENVELOPE_TYPE_SCPVALUE : bytes := [Byte.x00; Byte.x00; Byte.x00; Byte.x04].

(** What [sudo] and [query] put in their response. *)
Inductive sudo_data : Type :=
| NoData
| UpdateStateResult (heights : list MsgHeight)
| CheckForMisbehaviourResult (found_misbehaviour : bool).
Inductive query_data : Type :=
| RawBinary (b : bytes)
| LatestHeightResult (height : MsgHeight)
| StatusResult (status : ClientStatus)
| TimestampAtHeightResult (timestamp : Z)
| Empty
| QueryMisbehaviourResult (found_misbehaviour : bool).

Definition hex_char (n : Z) : byte := byte_of_Z (if n <? 10 then 48 + n else 87 + n).
Definition hex_encode (b : bytes) : bytes :=
  mjoin ((fun x => [hex_char (Z_of_byte x / 16); hex_char (Z_of_byte x mod 16)]) <$> b).

Definition concat_path (path : list bytes) : bytes := mjoin path.

(** [bytes.try_into::<[u8; HASH_SIZE]>()]. *)
Definition as_hash (b : bytes) : result ContractError bytes :=
  if (length b =? HASH_SIZE)%nat then Ok b else Err MerkleVerificationFailed.

Section EntryPoints.
Context `{ProstWire} `{Sha256} `{Ed25519}.

Definition require_client_state (st : Storage) : result ContractError ClientState :=
  ok_or NotInitialised (client_state st).
Definition require_client_state_mut (st : Storage) : result ContractError ClientState :=
  require_client_state st.
Definition require_consensus_state (st : Storage) (height : Z) : result ContractError ConsensusState :=
  ok_or (ConsensusStateMissing height) (consensus_state st height).
Definition decode_header (b : bytes) : result ContractError StellarHeader :=
  ok_or (InvalidWire "header") (decode (A := StellarHeader) b).

(** The variables of the loop of [verify_scp_quorum]. *)
Record scp_progress : Type := MkScp {
  matched : nat;
  last_raw_ok : bool;
  last_hash_ok : bool;
  last_statement_len : nat;
}.

Definition scp_preimage (cs : ClientState) (env : ScpEnvelope) : bytes :=
  network_id cs ++ ENVELOPE_TYPE_SCPVALUE ++ statement_xdr env.

(** The loop: [None] is the [return Ok(())] of an accepted envelope. *)
Fixpoint scp_loop (cs : ClientState) (envelopes : list ScpEnvelope) (p : scp_progress) :
    option scp_progress :=
  match envelopes with
  | [] => Some p
  | env :: envelopes =>
      if negb (length (node_id env) =? 32)%nat || negb (length (signature env) =? 64)%nat
      then scp_loop cs envelopes p
      else if negb (existsb (fun v => bool_decide (v = node_id env)) (trusted_validators cs))
      then scp_loop cs envelopes p
      else
        let m := S (matched p) in
        if bool_decide (statement_xdr env = [])
        then scp_loop cs envelopes (MkScp m (last_raw_ok p) (last_hash_ok p) (last_statement_len p))
        else
          let preimage := scp_preimage cs env in
          let digest := sha256 preimage in
          let raw_ok := ed25519_verify (node_id env) preimage (signature env) in
          if raw_ok then None
          else
            let hash_ok := ed25519_verify (node_id env) digest (signature env) in
            if hash_ok then None
            else scp_loop cs envelopes (MkScp m raw_ok hash_ok (length (statement_xdr env)))
  end.

Definition verify_scp_quorum (cs : ClientState) (envelopes : list ScpEnvelope) :
    result ContractError unit :=
  if bool_decide (network_id cs = []) then Err NetworkIdMissing
  else if negb (length (network_id cs) =? 32)%nat then Err (ScpSignatureError (length (network_id cs)))
  else
    match scp_loop cs envelopes (MkScp 0 false false 0) with
    | None => Ok tt
    | Some p =>
        Err (QuorumNotMet (length envelopes) (matched p) (last_raw_ok p) (last_hash_ok p)
               (default [] ((fun e => hex_encode (node_id e)) <$> head envelopes))
               (hex_encode (network_id cs)) (last_statement_len p))
    end.

Definition verify_client_message (st : Storage) (client_message : bytes) :
    result ContractError StellarHeader :=
  cs ← require_client_state st;
  match frozen_height cs with
  | Some h => Err (Frozen (revision_height h))
  | None =>
      header ← decode_header client_message;
      trusted ← ok_or (InvalidWire "header.trusted_height") (hdr_trusted_height header);
      let trusted_height := revision_height trusted in
      if hdr_ledger_seq header <=? trusted_height
      then Err (NonAdvancingHeight trusted_height (hdr_ledger_seq header))
      else
        _ ← require_consensus_state st trusted_height;
        _ ← verify_scp_quorum cs (hdr_scp_envelopes header);
        Ok header
  end.

Definition instantiate (msg : InstantiateMsg) : M ContractError Storage unit :=
  cur ← gets client_state;
  match cur with
  | Some _ => fail AlreadyInitialised
  | None =>
      cs ← lift (ok_or (InvalidWire "client_state") (decode (im_client_state msg)));
      cons ← lift (ok_or (InvalidWire "consensus_state") (decode (im_consensus_state msg)));
      h ← lift (ok_or (InvalidWire "client_state.latest_height") (latest_height cs));
      _ ← modify (set_checksum (im_checksum msg));
      _ ← modify (set_client_state cs);
      modify (set_consensus_state (revision_height h) cons)
  end.

(** The consensus state a header proposes. *)
Definition header_consensus (header : StellarHeader) : ConsensusState :=
  MkConsensusState (hdr_timestamp header) (hdr_ledger_hash header) (hdr_ibc_state_root header).

Definition update_state (client_message : bytes) : M ContractError Storage (list MsgHeight) :=
  st ← gets id;
  header ← lift (verify_client_message st client_message);
  cs ← lift (require_client_state_mut st);
  let new_consensus := header_consensus header in
  _ ← match consensus_state st (hdr_ledger_seq header) with
      | Some existing =>
          fail_if (negb (bool_decide (existing = new_consensus)))
            (ConsensusStateConflict (hdr_ledger_seq header))
      | None => mret tt
      end;
  _ ← modify (set_consensus_state (hdr_ledger_seq header) new_consensus);
  _ ← (if default 0 (revision_height <$> latest_height cs) <? hdr_ledger_seq header
       then modify (set_client_state
              (MkClientState (chain_id cs) (Some (MkHeight 0 (hdr_ledger_seq header)))
                 (frozen_height cs) (trusted_validators cs) (proof_specs cs) (network_id cs)))
       else mret tt);
  mret [MkMsgHeight 0 (hdr_ledger_seq header)].

Definition update_state_on_misbehaviour : M ContractError Storage unit :=
  st ← gets id;
  cs ← lift (require_client_state_mut st);
  let latest := default (MkHeight 0 0) (latest_height cs) in
  modify (set_client_state
    (MkClientState (chain_id cs) (latest_height cs) (Some latest) (trusted_validators cs)
       (proof_specs cs) (network_id cs))).

Definition check_for_misbehaviour (st : Storage) (client_message : bytes) : result ContractError bool :=
  cs ← require_client_state_mut st;
  match frozen_height cs with
  | Some _ => Ok false
  | None =>
      header ← decode_header client_message;
      match consensus_state st (hdr_ledger_seq header) with
      | Some existing => Ok (negb (bool_decide (existing = header_consensus header)))
      | None => Ok false
      end
  end.

Definition verify_membership (st : Storage) (msg : VerifyMembershipMsg) : result ContractError unit :=
  cs ← require_client_state_mut st;
  match frozen_height cs with
  | Some h => Err (Frozen (revision_height h))
  | None =>
      consensus ← require_consensus_state st (m_revision_height (vm_height msg));
      root ← as_hash (root consensus);
      let key := concat_path (vm_key_path msg) in
      '(proof_key, proof_value, siblings) ← decode_membership_proof (vm_proof msg);
      let key_match := bool_decide (proof_key = key) in
      let value_match := bool_decide (proof_value = sha256 (vm_value msg)) in
      let computed_root :=
        if (length siblings =? TREE_DEPTH)%nat && negb (bool_decide (vm_value msg = [])) then
          let leaf := WasmSmt.leaf_hash (sha256 key) (sha256 (vm_value msg)) in
          Some (WasmSmt.fold_siblings (WasmSmt.key_index key) leaf siblings)
        else None in
      let root_match := default false ((fun r => bool_decide (r = root)) <$> computed_root) in
      if key_match && value_match && root_match then Ok tt
      else Err (MembershipMismatch key_match value_match (length siblings)
                  (m_revision_height (vm_height msg)) (hex_encode key) (hex_encode proof_key)
                  (length (vm_value msg)) (length proof_value) (hex_encode root)
                  (default [] (hex_encode <$> computed_root)))
  end.

Definition verify_non_membership (st : Storage) (msg : VerifyNonMembershipMsg) :
    result ContractError unit :=
  cs ← require_client_state_mut st;
  match frozen_height cs with
  | Some h => Err (Frozen (revision_height h))
  | None =>
      consensus ← require_consensus_state st (m_revision_height (vn_height msg));
      root ← as_hash (root consensus);
      let key := concat_path (vn_key_path msg) in
      '(proof_key, siblings) ← decode_non_membership_proof (vn_proof msg);
      if negb (bool_decide (proof_key = key)) then Err MerkleVerificationFailed
      else if negb (WasmSmt.verify_non_membership_raw root key siblings)
      then Err MerkleVerificationFailed
      else Ok tt
  end.

Definition sudo (msg : SudoMsg) : M ContractError Storage sudo_data :=
  match msg with
  | UpdateState m => hs ← update_state m; mret (UpdateStateResult hs)
  | UpdateStateOnMisbehaviour _ => _ ← update_state_on_misbehaviour; mret NoData
  | CheckForMisbehaviour m =>
      st ← gets id; b ← lift (check_for_misbehaviour st m); mret (CheckForMisbehaviourResult b)
  | VerifyMembership m => st ← gets id; _ ← lift (verify_membership st m); mret NoData
  | VerifyNonMembership m => st ← gets id; _ ← lift (verify_non_membership st m); mret NoData
  end.

Definition query (st : Storage) (msg : QueryMsg) : result ContractError query_data :=
  match msg with
  | QClientState => cs ← require_client_state st; Ok (RawBinary (encode_to_vec cs))
  | QConsensusState height =>
      cons ← require_consensus_state st (m_revision_height height); Ok (RawBinary (encode_to_vec cons))
  | QLatestHeight =>
      cs ← require_client_state st;
      let h := default (MkHeight 0 0) (latest_height cs) in
      Ok (LatestHeightResult (MkMsgHeight (revision_number h) (revision_height h)))
  | QStatus =>
      cs ← require_client_state st;
      Ok (StatusResult (match frozen_height cs with Some _ => StatusFrozen | None => Active end))
  | QTimestampAtHeight height =>
      cons ← require_consensus_state st (m_revision_height height);
      Ok (TimestampAtHeightResult (timestamp cons))
  | QVerifyClientMessage m => _ ← verify_client_message st m; Ok Empty
  | QCheckForMisbehaviour _ => Ok (QueryMisbehaviourResult false)
  end.

End EntryPoints.

(** ** The store reads back what was written *)

Lemma consensus_state_key_inj h1 h2 :
  in_u64 h1 -> in_u64 h2 -> consensus_state_key h1 = consensus_state_key h2 -> h1 = h2.
Proof.
  unfold consensus_state_key, in_u64, u64_max. intros H1 H2 Heq.
  do 3 apply app_inv_head in Heq. apply (f_equal undec) in Heq. rewrite !undec_dec in Heq; [done|..];
    change (10 ^ Z.of_nat 20) with 100000000000000000000; lia.
Qed.

Lemma consensus_state_key_length h : (16 <= length (consensus_state_key h))%nat.
Proof. unfold consensus_state_key. rewrite length_app. simpl. lia. Qed.

Lemma consensus_key_not_client h : consensus_state_key h <> CLIENT_STATE_KEY.
Proof. intros Heq%(f_equal length). pose proof (consensus_state_key_length h). simpl in Heq. lia. Qed.

Lemma checksum_key_not_client : CHECKSUM_KEY <> CLIENT_STATE_KEY.
Proof. done. Qed.

Lemma consensus_key_not_checksum h : consensus_state_key h <> CHECKSUM_KEY.
Proof. intros Heq%(f_equal length). pose proof (consensus_state_key_length h). simpl in Heq. lia. Qed.

Section StoreLemmas.
Context `{ProstWireLaws}.

Lemma client_state_set cs st : msg_ok cs -> client_state (set_client_state cs st) = Some cs.
Proof.
  intros Hok. unfold client_state, set_client_state. rewrite lookup_insert_eq. cbn [mbind option_bind].
  rewrite decode_encode by done. cbn [mbind option_bind any_value].
  rewrite decode_encode by apply Hok. cbn [mbind option_bind wcs_data]. by apply decode_encode.
Qed.

Lemma consensus_state_set_same h c st :
  msg_ok c -> consensus_state (set_consensus_state h c st) h = Some c.
Proof.
  intros Hok. unfold consensus_state, set_consensus_state. rewrite lookup_insert_eq.
  cbn [mbind option_bind]. rewrite decode_encode by done. cbn [mbind option_bind any_value].
  rewrite decode_encode by done. cbn [mbind option_bind wcons_data]. by apply decode_encode.
Qed.

Lemma consensus_state_set_ne h h' c st :
  in_u64 h -> in_u64 h' -> h <> h' ->
  consensus_state (set_consensus_state h c st) h' = consensus_state st h'.
Proof.
  intros Hh Hh' Hne. unfold consensus_state, set_consensus_state. rewrite lookup_insert_ne; [done|].
  intros Heq. by apply consensus_state_key_inj in Heq.
Qed.

Lemma client_state_set_consensus h c st : client_state (set_consensus_state h c st) = client_state st.
Proof.
  unfold client_state, set_consensus_state. rewrite lookup_insert_ne; [done|].
  apply consensus_key_not_client.
Qed.

Lemma consensus_state_set_client cs h st : consensus_state (set_client_state cs st) h = consensus_state st h.
Proof.
  unfold consensus_state, set_client_state. rewrite lookup_insert_ne; [done|].
  intros Heq. by apply (consensus_key_not_client h).
Qed.

Lemma client_state_ok st cs : client_state st = Some cs -> msg_ok cs.
Proof.
  unfold client_state. intros Hcs. do 3 (apply bind_Some in Hcs as (? & ? & Hcs)).
  by apply decode_msg_ok in Hcs.
Qed.

Lemma consensus_state_ok st h c : consensus_state st h = Some c -> msg_ok c.
Proof.
  unfold consensus_state. intros Hcs. do 3 (apply bind_Some in Hcs as (? & ? & Hcs)).
  by apply decode_msg_ok in Hcs.
Qed.

Lemma header_ok b header : decode_header b = Ok header -> msg_ok header.
Proof. unfold decode_header. intros ?%ok_or_Ok. by eapply decode_msg_ok. Qed.

End StoreLemmas.

(** ** Headers *)

Section Headers.
Context `{ProstWireLaws} `{Sha256} `{Ed25519}.

(** An envelope the light client accepts: a trusted validator's signature on some statement. *)
Definition accepts_envelope (cs : ClientState) (env : ScpEnvelope) : Prop :=
  length (node_id env) = 32%nat /\ length (signature env) = 64%nat /\
  node_id env ∈ trusted_validators cs /\ statement_xdr env <> [] /\
  (ed25519_verify (node_id env) (scp_preimage cs env) (signature env) = true \/
   ed25519_verify (node_id env) (sha256 (scp_preimage cs env)) (signature env) = true).

Lemma trusted_spec cs env :
  existsb (fun v => bool_decide (v = node_id env)) (trusted_validators cs) = true <->
  node_id env ∈ trusted_validators cs.
Proof.
  rewrite existsb_exists, list_elem_of_In. split.
  - intros (v & Hv & ->%bool_decide_eq_true). done.
  - intros Hv. exists (node_id env). by rewrite bool_decide_eq_true.
Qed.

Lemma scp_loop_spec cs envs p :
  scp_loop cs envs p = None <-> Exists (accepts_envelope cs) envs.
Proof.
  revert p. induction envs as [|env envs IH]; intros p; cbn [scp_loop]; [by rewrite Exists_nil|].
  rewrite Exists_cons. unfold accepts_envelope at 1.
  destruct (Nat.eqb_spec (length (node_id env)) 32) as [Hn|Hn]; cbn [negb orb]; [|rewrite IH; tauto].
  destruct (Nat.eqb_spec (length (signature env)) 64) as [Hs|Hs]; cbn [negb]; [|rewrite IH; tauto].
  destruct (existsb _ _) eqn:Ht; cbn [negb].
  2: { rewrite IH, <-trusted_spec, Ht. split; [tauto|]. intros [(_ & _ & [=] & _)|]; done. }
  apply trusted_spec in Ht. case_bool_decide as He; [rewrite IH; tauto|]. cbn zeta.
  destruct (ed25519_verify _ _ _) eqn:Hr; [split; [|done]; intros _; left; tauto|].
  destruct (ed25519_verify _ (sha256 _) _) eqn:Hh; [split; [|done]; intros _; left; tauto|].
  rewrite IH. split; [tauto|]. intros [(_ & _ & _ & _ & [|])|]; congruence || tauto.
Qed.

Lemma verify_scp_quorum_Ok cs envs :
  verify_scp_quorum cs envs = Ok tt <->
  length (network_id cs) = 32%nat /\ Exists (accepts_envelope cs) envs.
Proof.
  unfold verify_scp_quorum. case_bool_decide as Hn.
  { rewrite Hn. split; [done|]. by intros [[=] _]. }
  destruct (Nat.eqb_spec (length (network_id cs)) 32) as [Hl|Hl]; cbn [negb]; [|split; [done|tauto]].
  destruct (scp_loop _ _ _) as [p|] eqn:Hs.
  - split; [done|]. intros [_ Hex]. apply (scp_loop_spec _ _ (MkScp 0 false false 0)) in Hex. congruence.
  - apply scp_loop_spec in Hs. done.
Qed.

(** The conditions under which a header is accepted. *)
Definition accepts_header (st : Storage) (cs : ClientState) (b : bytes) (header : StellarHeader) : Prop :=
  client_state st = Some cs /\ frozen_height cs = None /\ decode b = Some header /\
  exists trusted, hdr_trusted_height header = Some trusted /\
    revision_height trusted < hdr_ledger_seq header /\
    is_Some (consensus_state st (revision_height trusted)) /\
    length (network_id cs) = 32%nat /\ Exists (accepts_envelope cs) (hdr_scp_envelopes header).

Lemma verify_client_message_Ok st b header :
  verify_client_message st b = Ok header <-> exists cs, accepts_header st cs b header.
Proof.
  unfold verify_client_message, require_client_state, decode_header, require_consensus_state. split.
  - rewrite result_bind_Ok. intros (cs & Hcs%ok_or_Ok & Hrun).
    destruct (frozen_height cs) as [h|] eqn:Hf; [done|].
    apply result_bind_Ok in Hrun as (h & Hh%ok_or_Ok & Hrun).
    apply result_bind_Ok in Hrun as (t & Ht%ok_or_Ok & Hrun). cbn zeta in Hrun.
    destruct (Z.leb_spec (hdr_ledger_seq h) (revision_height t)) as [|Hlt]; [done|].
    apply result_bind_Ok in Hrun as (c & Hc%ok_or_Ok & Hrun).
    apply result_bind_Ok in Hrun as ([] & Hq%verify_scp_quorum_Ok & [= <-]).
    exists cs. split_and!; [done..|]. exists t. split_and!; [done..|by eexists|apply Hq|apply Hq].
  - intros (cs & Hcs & Hf & Hd & t & Ht & Hlt & [c Hc] & Hn & Hex).
    rewrite Hcs. cbn [ok_or mbind result_bind]. rewrite Hf, Hd. cbn [ok_or mbind result_bind].
    rewrite Ht. cbn [ok_or mbind result_bind]. cbn zeta. rewrite (proj2 (Z.leb_gt _ _)) by done.
    rewrite Hc. cbn [ok_or mbind result_bind].
    by rewrite (proj2 (verify_scp_quorum_Ok cs (hdr_scp_envelopes header))).
Qed.

(** The client state after accepting a header. *)
Definition with_latest (cs : ClientState) (seq : Z) : ClientState :=
  if default 0 (revision_height <$> latest_height cs) <? seq
  then MkClientState (chain_id cs) (Some (MkHeight 0 seq)) (frozen_height cs) (trusted_validators cs)
         (proof_specs cs) (network_id cs)
  else cs.

Lemma with_latest_ok cs seq : msg_ok cs -> in_u64 seq -> msg_ok (with_latest cs seq).
Proof.
  intros (Hc & Hl & Hf) Hs. unfold with_latest. case_match; [|done]. split_and!; [done| |done].
  intros h [= <-]. split; [by vm_compute|done].
Qed.

Definition compatible (st : Storage) (header : StellarHeader) : Prop :=
  forall c, consensus_state st (hdr_ledger_seq header) = Some c -> c = header_consensus header.

Definition update_storage (cs : ClientState) (header : StellarHeader) (st : Storage) : Storage :=
  let st1 := set_consensus_state (hdr_ledger_seq header) (header_consensus header) st in
  if default 0 (revision_height <$> latest_height cs) <? hdr_ledger_seq header
  then set_client_state (with_latest cs (hdr_ledger_seq header)) st1 else st1.

Lemma wasm_update_state_Ok b st st' hs :
  update_state b st = Ok (st', hs) <->
  exists cs header, accepts_header st cs b header /\ compatible st header /\
    st' = update_storage cs header st /\ hs = [MkMsgHeight 0 (hdr_ledger_seq header)].
Proof.
  unfold update_state, update_storage, with_latest, compatible. unfold gets, id.
  unfold mbind at 1, M_bind at 1. cbv beta iota.
  rewrite (M_bind_Ok (lift (verify_client_message st b))). setoid_rewrite lift_Ok. split.
  - intros (s & header & [-> Hv] & Hrun). apply verify_client_message_Ok in Hv as (cs & Hacc).
    exists cs, header. split; [done|]. destruct Hacc as (Hcs & _).
    unfold require_client_state_mut, require_client_state in Hrun. rewrite Hcs in Hrun.
    cbn [ok_or] in Hrun. apply M_bind_Ok in Hrun as (s & x & [-> [= <-]]%lift_Ok & Hrun).
    apply M_bind_Ok in Hrun as (s & [] & Hc & Hrun). minv Hrun.
    assert (s = st /\ forall c, consensus_state st (hdr_ledger_seq header) = Some c ->
            c = header_consensus header) as [-> Hcompat].
    { destruct (consensus_state st _) as [c|]; [|by apply M_ret_Ok in Hc as [-> _]].
      apply fail_if_Ok in Hc as (Hb & -> & _). apply negb_false_iff, bool_decide_eq_true in Hb.
      split; [done|]. by intros ? [= <-]. }
    split; [done|]. split; [|done].
    match goal with Hm : (if _ then _ else _) _ = Ok _ |- _ => destruct (_ <? _) in Hm |- *; minv Hm end;
      done.
  - intros (cs & header & Hacc & Hc & -> & ->). pose proof Hacc as (Hcs & _).
    exists st, header. split; [split; [done|by apply verify_client_message_Ok; exists cs]|].
    unfold require_client_state_mut, require_client_state. rewrite Hcs. cbn [ok_or].
    erewrite M_bind_run by done. cbn zeta.
    erewrite (M_bind_run _ _ st st tt).
    2: { destruct (consensus_state st _) as [c|]; [|done]. rewrite (Hc c) by done.
         by rewrite bool_decide_eq_true_2. }
    erewrite M_bind_run by done. destruct (_ <? _); by erewrite M_bind_run by done.
Qed.

End Headers.

(** ** Runs *)

(** What a client keeps for ever, whatever messages it is sent. *)
Definition same_trust (cs cs' : ClientState) : Prop :=
  chain_id cs' = chain_id cs /\ trusted_validators cs' = trusted_validators cs /\
  proof_specs cs' = proof_specs cs /\ network_id cs' = network_id cs.
Definition latest_seq (cs : ClientState) : Z := default 0 (revision_height <$> latest_height cs).

Section WasmRuns.
Context `{ProstWireLaws} `{Sha256} `{Ed25519}.

(** A [sudo] call the contract did not reject. *)
Definition sudo_step (st : Storage) (msg : SudoMsg) (st' : Storage) : Prop :=
  exists d, sudo msg st = Ok (st', d).

(** How a step may change a client. *)
Definition evolves (st st' : Storage) : Prop :=
  (forall h c, in_u64 h -> consensus_state st h = Some c -> consensus_state st' h = Some c) /\
  forall cs, client_state st = Some cs -> exists cs', client_state st' = Some cs' /\
    same_trust cs cs' /\ latest_seq cs <= latest_seq cs' /\
    (is_Some (frozen_height cs) -> is_Some (frozen_height cs')).

Lemma evolves_refl st : evolves st st.
Proof. split; [done|]. intros cs Hcs. exists cs. split_and!; done. Qed.

Lemma evolves_trans st1 st2 st3 : evolves st1 st2 -> evolves st2 st3 -> evolves st1 st3.
Proof.
  intros [Hc1 Hs1] [Hc2 Hs2]. split; [auto|]. intros cs Hcs.
  destruct (Hs1 cs Hcs) as (cs2 & Hcs2 & (? & ? & ? & ?) & ? & Hf1).
  destruct (Hs2 cs2 Hcs2) as (cs3 & Hcs3 & (? & ? & ? & ?) & ? & Hf2).
  exists cs3. split; [done|]. split; [split_and!; congruence|]. split; [lia|auto].
Qed.

Lemma update_storage_effect cs header st :
  client_state st = Some cs -> msg_ok header ->
  let st' := update_storage cs header st in
  client_state st' = Some (with_latest cs (hdr_ledger_seq header)) /\
  consensus_state st' (hdr_ledger_seq header) = Some (header_consensus header) /\
  forall h, in_u64 h -> h <> hdr_ledger_seq header -> consensus_state st' h = consensus_state st h.
Proof.
  intros Hcs (Hseq & _ & Hts) st'. subst st'. unfold update_storage.
  pose proof (client_state_ok _ _ Hcs) as Hok.
  pose proof (with_latest_ok cs (hdr_ledger_seq header) Hok Hseq) as Hok'.
  destruct (_ <? _) eqn:Hlt.
  - rewrite client_state_set, !consensus_state_set_client, consensus_state_set_same by done.
    split_and!; [done..|]. intros h Hh Hne. rewrite consensus_state_set_client.
    by apply consensus_state_set_ne.
  - rewrite client_state_set_consensus, consensus_state_set_same by done. unfold with_latest.
    rewrite Hlt. split_and!; [done..|]. intros h Hh Hne. by apply consensus_state_set_ne.
Qed.

Lemma update_evolves b st st' hs : update_state b st = Ok (st', hs) -> evolves st st'.
Proof.
  intros (cs & header & Hacc & Hc & -> & _)%wasm_update_state_Ok. destruct Hacc as (Hcs & Hf & Hd & _).
  apply decode_msg_ok in Hd. destruct (update_storage_effect cs header st Hcs Hd) as (He1 & He2 & He3).
  split.
  - intros h c Hh Hst. destruct (decide (h = hdr_ledger_seq header)) as [->|Hne].
    + rewrite He2. f_equal. symmetry. by apply Hc.
    + by rewrite He3.
  - intros cs0 Hcs0. rewrite Hcs in Hcs0. injection Hcs0 as <-. eexists. split; [done|].
    unfold with_latest, latest_seq. destruct (Z.ltb_spec (default 0 (revision_height <$> latest_height cs))
      (hdr_ledger_seq header)); split_and!; try done. simpl. lia.
Qed.

Lemma misbehaviour_Ok st st' u :
  update_state_on_misbehaviour st = Ok (st', u) <->
  u = tt /\ exists cs, client_state st = Some cs /\
    st' = set_client_state (MkClientState (chain_id cs) (latest_height cs)
            (Some (default (MkHeight 0 0) (latest_height cs))) (trusted_validators cs)
            (proof_specs cs) (network_id cs)) st.
Proof.
  unfold update_state_on_misbehaviour, require_client_state_mut, require_client_state. split.
  - intros Hrun. minv Hrun. unfold id in *.
    match goal with Hr : ok_or _ _ = Ok _ |- _ => apply ok_or_Ok in Hr end. eauto.
  - intros (-> & cs & Hcs & ->). unfold mbind, M_bind, gets, lift, id. by rewrite Hcs.
Qed.

Lemma frozen_client_ok cs : msg_ok cs ->
  msg_ok (MkClientState (chain_id cs) (latest_height cs)
    (Some (default (MkHeight 0 0) (latest_height cs))) (trusted_validators cs) (proof_specs cs)
    (network_id cs)).
Proof.
  intros (Hc & Hl & _). split_and!; [done..|]. intros h [= <-].
  destruct (latest_height cs) as [h|] eqn:Heq; simpl; [by apply Hl|by vm_compute].
Qed.

Lemma misbehaviour_evolves st st' u : update_state_on_misbehaviour st = Ok (st', u) -> evolves st st'.
Proof.
  intros (_ & cs & Hcs & ->)%misbehaviour_Ok. split.
  - intros h c _. by rewrite consensus_state_set_client.
  - intros cs0 Hcs0. rewrite Hcs in Hcs0. injection Hcs0 as <-. eexists.
    split; [apply client_state_set, frozen_client_ok, (client_state_ok _ _ Hcs)|].
    split_and!; done.
Qed.

Lemma sudo_evolves st msg st' : sudo_step st msg st' -> evolves st st'.
Proof.
  intros [d Hrun]. destruct msg; cbn [sudo] in Hrun; apply M_bind_Ok in Hrun as (s1 & x & Hone & Hrun).
  - apply M_ret_Ok in Hrun as [-> _]. by eapply update_evolves.
  - apply M_ret_Ok in Hrun as [-> _]. by eapply misbehaviour_evolves.
  - apply gets_Ok in Hone as [-> _]. minv Hrun. apply evolves_refl.
  - apply gets_Ok in Hone as [-> _]. minv Hrun. apply evolves_refl.
  - apply gets_Ok in Hone as [-> _]. minv Hrun. apply evolves_refl.
Qed.

Lemma run_evolves st msgs st' : steps sudo_step st msgs st' -> evolves st st'.
Proof.
  induction 1 as [st|st msg st1 msgs st2 Hm _ IH]; [apply evolves_refl|].
  eapply evolves_trans; [by eapply sudo_evolves|done].
Qed.

End WasmRuns.

(** ** Theorems *)

(** C15: a header is accepted exactly when the client is active, the header advances past a height whose
    consensus state is stored, one of its envelopes carries a trusted validator's signature, and no
    different consensus state is stored at its height; the client then holds the header's consensus
    state at that height, keeps every other one, and has the greater of the two latest heights. *)
Theorem wasm_update_spec `{ProstWireLaws} `{Sha256} `{Ed25519} b st :
  (forall st' hs, update_state b st = Ok (st', hs) ->
     exists cs header, accepts_header st cs b header /\ compatible st header /\
       hs = [MkMsgHeight 0 (hdr_ledger_seq header)] /\
       client_state st' = Some (with_latest cs (hdr_ledger_seq header)) /\
       consensus_state st' (hdr_ledger_seq header) = Some (header_consensus header) /\
       (forall h, in_u64 h -> h <> hdr_ledger_seq header ->
          consensus_state st' h = consensus_state st h)) /\
  (forall cs header, accepts_header st cs b header -> compatible st header ->
     is_ok (update_state b st) = true).
Proof.
  split.
  - intros st' hs (cs & header & Hacc & Hc & -> & ->)%wasm_update_state_Ok.
    exists cs, header. split_and!; [done..| | |]; destruct Hacc as (Hcs & _ & Hd & _);
      apply decode_msg_ok in Hd; by apply update_storage_effect.
  - intros cs header Hacc Hc.
    assert (update_state b st = Ok (update_storage cs header st, [MkMsgHeight 0 (hdr_ledger_seq header)]))
      as ->; [|done]. apply wasm_update_state_Ok. by exists cs, header.
Qed.

Lemma frozen_rejects `{ProstWire} `{Sha256} `{Ed25519} st cs h :
  client_state st = Some cs -> frozen_height cs = Some h ->
  (forall b, update_state b st = Err (Frozen (revision_height h))) /\
  (forall m, verify_membership st m = Err (Frozen (revision_height h))) /\
  (forall m, verify_non_membership st m = Err (Frozen (revision_height h))) /\
  query st QStatus = Ok (StatusResult StatusFrozen).
Proof.
  intros Hcs Hf. unfold update_state, verify_client_message, verify_membership, verify_non_membership,
    query, require_client_state_mut, require_client_state. split_and!; intros;
    unfold mbind, M_bind, gets, lift, id; rewrite Hcs; cbn [ok_or result_bind mbind]; by rewrite Hf.
Qed.

(** C16: whatever messages the contract is sent, a stored consensus state is never changed or removed,
    the trusted validators, network and chain identifiers never change, the latest height never
    goes back, and a client once frozen stays frozen: it rejects every header and every proof and
    reports the status [Frozen]. *)
Theorem wasm_client_history `{ProstWireLaws} `{Sha256} `{Ed25519} st msgs st' :
  steps sudo_step st msgs st' ->
  evolves st st' /\
  forall cs, client_state st = Some cs -> is_Some (frozen_height cs) ->
    exists h, (forall b, update_state b st' = Err (Frozen h)) /\
      (forall m, verify_membership st' m = Err (Frozen h)) /\
      (forall m, verify_non_membership st' m = Err (Frozen h)) /\
      query st' QStatus = Ok (StatusResult StatusFrozen).
Proof.
  intros Hrun%run_evolves. split; [done|]. intros cs Hcs Hf.
  destruct (proj2 Hrun cs Hcs) as (cs' & Hcs' & _ & _ & Hf'). destruct (Hf' Hf) as [h Hh].
  exists (revision_height h). by eapply frozen_rejects.
Qed.

Lemma verify_membership_Ok `{ProstWire} `{Sha256} `{Ed25519} st m :
  verify_membership st m = Ok tt <->
  exists cs cons siblings, client_state st = Some cs /\ frozen_height cs = None /\
    consensus_state st (m_revision_height (vm_height m)) = Some cons /\
    length (root cons) = HASH_SIZE /\
    decode_membership_proof (vm_proof m) =
      Ok (concat_path (vm_key_path m), sha256 (vm_value m), siblings) /\
    WasmSmt.verify_membership_raw (root cons) (concat_path (vm_key_path m)) (vm_value m) siblings = true.
Proof.
  unfold verify_membership, require_client_state_mut, require_client_state, require_consensus_state, as_hash.
  unfold WasmSmt.verify_membership_raw. split.
  - intros (cs & Hcs%ok_or_Ok & Hrun)%result_bind_Ok.
    destruct (frozen_height cs) eqn:Hf; [done|].
    apply result_bind_Ok in Hrun as (cons & Hcons%ok_or_Ok & Hrun).
    apply result_bind_Ok in Hrun as (r & Hr & Hrun).
    destruct (Nat.eqb_spec (length (root cons)) HASH_SIZE); [|done]. apply Ok_inj in Hr as <-.
    apply result_bind_Ok in Hrun as ([[k v] ss] & Hdec & Hrun). cbn zeta in Hrun.
    exists cs, cons, ss. do 4 (split; [done|]).
    case_bool_decide as Hk; [|done]. case_bool_decide as Hv; [|done]. subst k v. split; [done|].
    destruct (length ss =? TREE_DEPTH)%nat; [|done].
    destruct (bool_decide (vm_value m = [])); [done|]. cbn [andb negb orb] in *.
    cbn [fmap option_fmap option_map default] in Hrun. cbn zeta. unfold default in Hrun.
    simpl in Hrun. by destruct (bool_decide _).
  - intros (cs & cons & ss & Hcs & Hf & Hcons & Hl & Hdec & Hver). rewrite Hcs.
    cbn [ok_or mbind result_bind]. rewrite Hf, Hcons. cbn [ok_or mbind result_bind].
    rewrite Hl, Nat.eqb_refl, Hdec. cbn [mbind result_bind]. cbn zeta.
    rewrite !(bool_decide_eq_true_2 (_ = _)) by done. cbn [andb].
    destruct (bool_decide (vm_value m = [])); [done|].
    destruct (length ss =? TREE_DEPTH)%nat; [|done]. cbn [andb negb orb] in *. cbn zeta in Hver.
    simpl. by rewrite Hver.
Qed.

Lemma verify_non_membership_Ok `{ProstWire} `{Sha256} `{Ed25519} st m :
  verify_non_membership st m = Ok tt <->
  exists cs cons siblings, client_state st = Some cs /\ frozen_height cs = None /\
    consensus_state st (m_revision_height (vn_height m)) = Some cons /\
    length (root cons) = HASH_SIZE /\
    decode_non_membership_proof (vn_proof m) = Ok (concat_path (vn_key_path m), siblings) /\
    WasmSmt.verify_non_membership_raw (root cons) (concat_path (vn_key_path m)) siblings = true.
Proof.
  unfold verify_non_membership, require_client_state_mut, require_client_state, require_consensus_state, as_hash.
  split.
  - intros (cs & Hcs%ok_or_Ok & Hrun)%result_bind_Ok.
    destruct (frozen_height cs) eqn:Hf; [done|].
    apply result_bind_Ok in Hrun as (cons & Hcons%ok_or_Ok & Hrun).
    apply result_bind_Ok in Hrun as (r & Hr & Hrun).
    destruct (Nat.eqb_spec (length (root cons)) HASH_SIZE); [|done]. apply Ok_inj in Hr as <-.
    apply result_bind_Ok in Hrun as ([k ss] & Hdec & Hrun).
    case_bool_decide as Hk; [|done]. subst k. exists cs, cons, ss. split_and!; try done.
    by destruct (WasmSmt.verify_non_membership_raw _ _ _).
  - intros (cs & cons & ss & Hcs & Hf & Hcons & Hl & Hdec & Hver). rewrite Hcs.
    cbn [ok_or mbind result_bind]. rewrite Hf, Hcons. cbn [ok_or mbind result_bind].
    rewrite Hl, Nat.eqb_refl, Hdec. cbn [mbind result_bind].
    by rewrite bool_decide_eq_true_2, Hver by done.
Qed.

(** C21: a membership proof is accepted exactly when the client is active, has a consensus state with a
    32-byte root at the height, and the proof decodes to the requested key, the hash of the requested
    value and siblings that lead from the leaf of that key and (non-empty) value to the root; a
    non-membership proof exactly when it decodes to the key and siblings that lead from the empty
    leaf to the root. *)
Theorem wasm_proofs_spec `{ProstWire} `{Sha256} `{Ed25519} st :
  (forall m, verify_membership st m = Ok tt <->
     exists cs cons siblings, client_state st = Some cs /\ frozen_height cs = None /\
       consensus_state st (m_revision_height (vm_height m)) = Some cons /\
       length (root cons) = HASH_SIZE /\
       decode_membership_proof (vm_proof m) =
         Ok (concat_path (vm_key_path m), sha256 (vm_value m), siblings) /\
       WasmSmt.verify_membership_raw (root cons) (concat_path (vm_key_path m)) (vm_value m) siblings =
         true) /\
  (forall m, verify_non_membership st m = Ok tt <->
     exists cs cons siblings, client_state st = Some cs /\ frozen_height cs = None /\
       consensus_state st (m_revision_height (vn_height m)) = Some cons /\
       length (root cons) = HASH_SIZE /\
       decode_non_membership_proof (vn_proof m) = Ok (concat_path (vn_key_path m), siblings) /\
       WasmSmt.verify_non_membership_raw (root cons) (concat_path (vn_key_path m)) siblings = true).
Proof. split; intros m; [apply verify_membership_Ok|apply verify_non_membership_Ok]. Qed.

(** an accepted signature vouches for nothing in the header: one trusted signature suffices, and a
    header that is accepted is still accepted with any other root, timestamp, ledger hash and (later)
    sequence, since the signed statement is not compared with them. *)
Theorem scp_signature_does_not_bind_header `{ProstWireLaws} `{Sha256} `{Ed25519} st b header
    trusted seq' root' timestamp' ledger_hash' :
  verify_client_message st b = Ok header ->
  hdr_trusted_height header = Some trusted ->
  in_u64 seq' -> revision_height trusted < seq' -> in_u64 timestamp' ->
  let header' := MkStellarHeader seq' (hdr_ledger_header_xdr header) root'
    (hdr_scp_envelopes header) (hdr_trusted_height header) timestamp' ledger_hash'
    (hdr_previous_ledger_hash header) in
  verify_client_message st (encode_to_vec header') = Ok header'.
Proof.
  intros (cs & Hcs & Hf & Hd & t & Ht & _ & Hc & Hn & Hex)%verify_client_message_Ok Htr Hseq Hlt Hts
    header'. rewrite Htr in Ht. injection Ht as <-. apply verify_client_message_Ok. exists cs.
  apply decode_msg_ok in Hd as (_ & Hth & _). split_and!; [done..| |].
  - apply decode_encode. split_and!; done.
  - exists trusted. split_and!; done.
Qed.

(** ** A small client, for evaluating the theorems *)
Module WasmDemo.
#[local] Existing Instances toy_sha256 Protobuf.wire Protobuf.wire_laws.

(** A signature scheme whose only valid signature is 64 times the byte 51. *)
#[local] Instance demo_ed25519 : Ed25519 :=
  {| ed25519_verify pk m s := bool_decide (s = replicate 64 Byte.x33) |}.

Definition validator : bytes := replicate 32 Byte.x11.
Definition cs0 : ClientState :=
  MkClientState (bstr "stellar") (Some (MkHeight 0 10)) None [validator] [] (replicate 32 Byte.x22).
Definition cons0 : ConsensusState := MkConsensusState 5 (bstr "lh") (replicate 32 Byte.x01).
Definition st0 : Storage :=
  run_state ∅ (instantiate (MkInstantiateMsg (encode_to_vec cs0) (encode_to_vec cons0) (bstr "sum")) ∅).
Definition header12 : StellarHeader :=
  MkStellarHeader 12 [] (replicate 32 Byte.x02)
    [MkScpEnvelope validator (bstr "statement") (replicate 64 Byte.x33)]
    (Some (MkHeight 0 10)) 7 (bstr "lh2") [].

Example instantiated : client_state st0 = Some cs0 /\ consensus_state st0 10 = Some cons0.
Proof. split; vm_compute; reflexivity. Qed.

(** A header whose root is not the one a validator signed is accepted all the same. *)
Definition forged : StellarHeader :=
  MkStellarHeader 99 [] (replicate 32 Byte.xff) (hdr_scp_envelopes header12)
    (hdr_trusted_height header12) 8 [] [].

Lemma scp_signature_does_not_bind_header_witness :
  verify_client_message st0 (encode_to_vec forged) = Ok forged.
Proof.
  apply (scp_signature_does_not_bind_header st0 (encode_to_vec header12) header12 (MkHeight 0 10) 99
    (replicate 32 Byte.xff) 8 []).
  - vm_compute. reflexivity.
  - reflexivity.
  - vm_compute. split; discriminate.
  - vm_compute. reflexivity.
  - vm_compute. split; discriminate.
Defined.

Definition st1 : Storage := run_state ∅ (sudo (UpdateState (encode_to_vec header12)) st0).

Lemma wasm_update_spec_witness :
  is_ok (update_state (encode_to_vec header12) st0) = true.
Proof.
  apply (proj2 (wasm_update_spec (encode_to_vec header12) st0) cs0 header12).
  - split; [vm_compute; reflexivity|]. split; [reflexivity|]. split; [vm_compute; reflexivity|].
    exists (MkHeight 0 10). split; [reflexivity|]. split; [vm_compute; reflexivity|].
    split; [exists cons0; vm_compute; reflexivity|]. split; [reflexivity|].
    left. split; [reflexivity|]. split; [reflexivity|]. split; [left|]. split; [discriminate|].
    left. reflexivity.
  - intros c Hc. exfalso. vm_compute in Hc. discriminate Hc.
Defined.

Definition misbehaved : Storage := run_state ∅ (sudo (UpdateStateOnMisbehaviour []) st1).

Lemma wasm_client_history_witness :
  consensus_state misbehaved 10 = Some cons0 /\
  exists h, forall b, update_state b misbehaved = Err (Frozen h).
Proof.
  assert (steps sudo_step st0 [UpdateState (encode_to_vec header12)] st1) as Hrun1.
  { econstructor; [|constructor]. exists (UpdateStateResult [MkMsgHeight 0 12]).
    apply run_value_Ok. vm_compute. reflexivity. }
  assert (steps sudo_step st1 [UpdateStateOnMisbehaviour []] misbehaved) as Hrun2.
  { econstructor; [|constructor]. exists NoData. apply run_value_Ok. vm_compute. reflexivity. }
  split.
  - apply (proj1 (wasm_client_history st0 _ misbehaved (steps_app _ _ _ _ _ _ Hrun1 Hrun2)));
      [vm_compute; split; discriminate|vm_compute; reflexivity].
  - destruct (proj2 (wasm_client_history misbehaved [] misbehaved (steps_nil _ _))
      (MkClientState (bstr "stellar") (Some (MkHeight 0 12)) (Some (MkHeight 0 12)) [validator] []
         (replicate 32 Byte.x22))) as (h & Hb & _); [vm_compute; reflexivity|by eexists|].
    by exists h.
Defined.

End WasmDemo.
