(* ===== verification/EndToEnd.v ===== *)
(** * From the router's store to the Cosmos light client

    The chain of components that carries a packet commitment from Stellar to Cosmos: the gateway
    mirrors the router's provable writes ([GatewayState]), proves a path from its tree ([Smt]),
    serialises the proof ([MerkleProof]), and the CosmWasm light client checks it against the root of a
    stored consensus state ([WasmLightClient]). *)

From Stdlib Require Import ZArith Lia Strings.Byte Strings.String.
From stdpp Require Import base option list gmap numbers.
From S2P Require Import Prelude Bytes Crypto CoreCommitment Smt Prost WasmTypes MerkleProof.
From S2P Require Import Conversion GatewayState WasmLightClient.
Open Scope Z_scope.

(** An active client whose consensus state at a height has a given root. *)
Definition trusts_root `{ProstWire} (st : Storage) (height : Z) (r : bytes) : Prop :=
  exists cs cons, client_state st = Some cs /\ frozen_height cs = None /\
    consensus_state st height = Some cons /\ root cons = r.

Section Links.
Context `{Sha256}.

Lemma root_length t : length (CoreSmt.root t) = HASH_SIZE.
Proof.
  rewrite root_node. apply node_length. change TREE_DEPTH with (S 63). rewrite Nat.iter_succ.
  apply parent_lengths.
Qed.

Lemma generated_siblings key t p :
  CoreSmt.generate_membership_proof key t = Some p ->
  Forall (fun s => length s = HASH_SIZE) (CoreSmt.mp_siblings p) /\
  p = CoreSmt.MkMembership (sha256 key) (CoreSmt.mp_value_hash p) (CoreSmt.mp_siblings p).
Proof.
  unfold CoreSmt.generate_membership_proof. intros ([kh vh] & _ & Hp)%bind_Some.
  case_bool_decide; [|done]. injection Hp as <-. split; [|done]. cbn [CoreSmt.mp_siblings].
  unfold CoreSmt.siblings_for, CoreSmt.materialize_levels. apply siblings_lengths, level0_lengths.
Qed.

Lemma tree_after_wf t ws : leaves_wf t -> leaves_wf (tree_after t ws).
Proof.
  revert t. induction ws as [|w ws IH]; intros t Ht; [done|]. apply IH. by apply insert_leaves_wf.
Qed.

Lemma decoded_siblings `{ProstWire} b k v ss :
  decode_membership_proof b = Ok (k, v, ss) -> Forall (fun s => length s = HASH_SIZE) ss.
Proof.
  unfold decode_membership_proof. intros (m & _ & Hd)%result_bind_Ok.
  apply result_bind_Ok in Hd as (f & _ & Hd). apply result_bind_Ok in Hd as (e & _ & Hd).
  apply result_bind_Ok in Hd as (ss' & Hss & Hd). apply Ok_inj in Hd. injection Hd as _ _ <-.
  apply collect_Ok in Hss. apply list.Forall_forall. intros s Hs.
  apply list_elem_of_lookup in Hs as [i Hi].
  destruct (Forall2_lookup_r _ _ _ _ _ Hss Hi) as (op & _ & Hop). by apply extract_sibling_Ok in Hop as [? _].
Qed.

(** The tree of a gateway after a run of answered calls. *)
Lemma run_tree `{ProstWire} `{Ics23Numbers} meta_from_xdr ledger id calls g :
  steps (answers meta_from_xdr ledger) (new id) calls g ->
  smt g = tree_after CoreSmt.new (replayed_writes id ledger calls).
Proof.
  intros Hrun%run_synced. destruct Hrun as [_ Hs]. unfold replayed_writes.
  destruct (range_of calls) as [[first last]|]; [by apply Hs|]. by subst g.
Qed.

End Links.

(** a proof travels from Stellar to Cosmos: when the gateway answers [Found] for a path, the bytes
    it returns make the light client accept, at every height whose consensus state carries the root
    of the gateway's tree, the membership of that path — cut into any chunks — with the value the
    router's store has. *)
Theorem gateway_proof_verifies_on_cosmos `{ProstWireLaws} `{Ics23Published} `{Sha256} `{Ed25519}
    meta_from_xdr ledger id calls g api seq key g' value_hash b st height msg v :
  steps (answers meta_from_xdr ledger) (new id) calls g ->
  serves meta_from_xdr ledger api ->
  proof_for_path meta_from_xdr api seq key g = (g', Ok (Found value_hash b)) ->
  let ws := replayed_writes id ledger (calls ++ [CallProof seq key]) in
  no_collision (key :: ws.*1) ->
  store_after ws !! key = Some v ->
  trusts_root st height (CoreSmt.root (smt g')) ->
  m_revision_height (vm_height msg) = height -> vm_proof msg = b -> vm_value msg = v ->
  mjoin (vm_key_path msg) = key ->
  verify_membership st msg = Ok tt.
Proof.
  intros Hrun Hs Hp ws Hnc Hv (cs & cons & Hcs & Hf & Hcons & Hroot) <- Hb Hval Hkey.
  apply verify_membership_Ok. exists cs, cons.
  assert (steps (answers meta_from_xdr ledger) (new id) (calls ++ [CallProof seq key]) g') as Hrun'.
  { eapply steps_app; [done|]. econstructor; [|constructor]. by eapply answers_proof. }
  pose proof (run_tree _ _ _ _ _ Hrun') as Htree. fold ws in Htree.
  destruct (membership_complete (smt g') key v) as (p & Hgen & Hver).
  { by eapply store_value_nonempty. } { unfold holds. rewrite Htree. by apply tree_holds. }
  destruct (generated_siblings _ _ _ Hgen) as [Hss Hpeq]. exists (CoreSmt.mp_siblings p).
  assert (CoreSmt.mp_value_hash p = sha256 v) as Hvh.
  { unfold CoreSmt.verify_membership in Hver. case_bool_decide; [done|].
    do 2 (case_bool_decide; [cbn [negb] in Hver|done]). done. }
  split_and!; [done|done|done|by rewrite Hroot; apply root_length| |].
  - unfold proof_for_path in Hp. destruct (root_at _ _ _ _) as [g1 [r|e]]; [|done].
    assert (g1 = g') as ->.
    { destruct (CoreSmt.generate_membership_proof key (smt g1)); [by injection Hp|].
      by destruct (CoreSmt.generate_non_membership_proof key (smt g1)). }
    rewrite Hgen in Hp. injection Hp as _ <-. rewrite Hb, Hval, Hvh. unfold concat_path. rewrite Hkey.
    by apply decode_exist_with_index.
  - rewrite Hval, Hroot. unfold concat_path. rewrite Hkey, (proj1 (raw_verifiers _ _ _ _)), <-Hvh, <-Hpeq.
    exact Hver.
Qed.

(** Cosmos accepts only what the router wrote: if the light client accepts the membership of a key
    and value at a height whose consensus state carries the root of a gateway's tree, then the
    mirrored store of the router has a value with that hash under that key — unless SHA-256 collides
    (or hits the empty node) on the messages hashed along the proof and the tree's own path. *)
Theorem cosmos_accepts_only_router_writes `{ProstWire} `{Ics23Numbers} `{Sha256} `{Ed25519}
    meta_from_xdr ledger id calls g st msg :
  steps (answers meta_from_xdr ledger) (new id) calls g ->
  let ws := replayed_writes id ledger calls in
  let key := mjoin (vm_key_path msg) in
  no_collision (key :: ws.*1) ->
  trusts_root st (m_revision_height (vm_height msg)) (CoreSmt.root (smt g)) ->
  (forall k v siblings, decode_membership_proof (vm_proof msg) = Ok (k, v, siblings) ->
     sound_hashes (leaf_messages (smt g) key ++ [[Byte.x00] ++ sha256 key ++ sha256 (vm_value msg)] ++
       path_messages (smt g) key ++
       fold_messages (CoreSmt.key_index key)
         (CoreSmt.leaf_hash (sha256 key) (sha256 (vm_value msg))) siblings)) ->
  verify_membership st msg = Ok tt ->
  exists v, store_after ws !! key = Some v /\ sha256 v = sha256 (vm_value msg).
Proof.
  intros Hrun ws key Hnc (cs0 & cons0 & _ & _ & Hcons0 & Hroot) Hms Hok.
  apply verify_membership_Ok in Hok as (cs & cons & ss & _ & _ & Hcons & _ & Hdec & Hver).
  rewrite Hcons0 in Hcons. injection Hcons as <-. change (concat_path (vm_key_path msg)) with key in *.
  rewrite Hroot, (proj1 (raw_verifiers _ _ _ _)) in Hver.
  pose proof (run_tree _ _ _ _ _ Hrun) as Htree. fold ws in Htree.
  apply membership_sound in Hver; [| |by eapply decoded_siblings|by eapply Hms].
  2: { rewrite Htree. apply tree_after_wf, map_Forall_empty. }
  unfold holds in Hver. rewrite Htree in Hver.
  apply (tree_is_store ws) in Hver as (path & v & Hv & Hi & _ & Hvh).
  2: { intros p q Hp Hq. apply Hnc; by right. }
  exists v. split; [|by symmetry]. assert (path = key) as <-; [|done].
  apply Hnc; [right; by eapply store_after_dom|left|by symmetry].
Qed.

(** ** The small ledger of [GatewayState], verified by a small client *)
Module CosmosDemo.
Import GatewayState.Demo.
#[local] Existing Instances toy_sha256 Protobuf.wire Protobuf.wire_laws ics23_v0_12
  ics23_v0_12_published WasmDemo.demo_ed25519.

Definition cosmos : Storage :=
  set_consensus_state 12 (MkConsensusState 5 [] (CoreSmt.root (smt st2)))
    (set_client_state WasmDemo.cs0 ∅).

Lemma cosmos_trusts : trusts_root cosmos 12 (CoreSmt.root (smt st2)).
Proof.
  exists WasmDemo.cs0, (MkConsensusState 5 [] (CoreSmt.root (smt st2))). unfold cosmos.
  rewrite client_state_set_consensus, client_state_set, consensus_state_set_same; [done|..].
  - vm_compute. split; discriminate.
  - split; [reflexivity|]. split; [|intros h [=]]. intros h [= <-]. vm_compute.
    repeat split; discriminate.
Qed.

Definition proof_bytes : bytes :=
  match snd (proof_for_path meta (api 20) 12 receipt_key st2) with
  | Ok (Found _ b) => b
  | _ => []
  end.
Definition receipt_msg : VerifyMembershipMsg :=
  MkVerifyMembershipMsg (MkMsgHeight 0 12) 0 0 proof_bytes [receipt_key] [Byte.x01].

Lemma gateway_proof_verifies_on_cosmos_witness : verify_membership cosmos receipt_msg = Ok tt.
Proof.
  refine (gateway_proof_verifies_on_cosmos meta ledger (Some router_id) [CallRoot 10; CallRoot 12] st2
    (api 20) 12 receipt_key st2 (sha256 [Byte.x01]) proof_bytes cosmos 12 receipt_msg [Byte.x01]
    run_demo (api_serves 20 ltac:(lia)) _ _ _ cosmos_trusts eq_refl eq_refl eq_refl _).
  - vm_compute. reflexivity.
  - apply no_collision_check. vm_compute. reflexivity.
  - vm_compute. reflexivity.
  - apply app_nil_r.
Defined.

Lemma cosmos_accepts_only_router_writes_witness :
  exists v, store_after (replayed_writes (Some router_id) ledger [CallRoot 10; CallRoot 12]) !!
    receipt_key = Some v /\ sha256 v = sha256 [Byte.x01].
Proof.
  assert (mjoin (vm_key_path receipt_msg) = receipt_key) as Hkey by apply app_nil_r.
  rewrite <-Hkey. change [Byte.x01] with (vm_value receipt_msg).
  refine (cosmos_accepts_only_router_writes meta ledger (Some router_id) [CallRoot 10; CallRoot 12] st2
    cosmos receipt_msg run_demo _ cosmos_trusts _ _).
  - apply no_collision_check. vm_compute. reflexivity.
  - intros k v ss Hdec. set (d := decode_membership_proof (vm_proof receipt_msg)) in Hdec.
    assert (ss = match d with Ok (_, _, s) => s | Err _ => [] end) as -> by by rewrite Hdec.
    subst d. apply sound_hashesb_spec. vm_compute. reflexivity.
  - vm_compute. reflexivity.
Defined.

End CosmosDemo.
