(* ===== verification/Xdr.v ===== *)
(** * The XDR of Soroban values

    [ScVal::to_xdr] and [ScVal::from_xdr] belong to the XDR crate and are the parameter [ScvalXdr];
    the law used of them is that a value that was written reads back ([ScvalXdrLaws]).
    [crates/core/src/conversion.rs] wraps them ([scval_from_xdr], [scval_to_xdr]).  [Rfc4506] is the
    published format for the values modelled, with which the examples are evaluated. *)

From Stdlib Require Import ZArith Lia Strings.Byte Strings.String.
From stdpp Require Import base option list gmap numbers.
From S2P Require Import Prelude Bytes Crypto CoreCommitment Conversion.
Open Scope Z_scope.

Class ScvalXdr := {
  to_xdr : ScVal -> option bytes;
  from_xdr : bytes -> option ScVal;
}.
Class ScvalXdrLaws `{ScvalXdr} : Prop := {
  from_to_xdr v b : to_xdr v = Some b -> from_xdr b = Some v;
}.

(** What can go wrong when a value crosses: the text of an [anyhow] error is kept as a cause. *)
Inductive XdrError : Type :=
| XdrWrite
| XdrRead
| XdrConversion (e : ConversionError)
| XdrNotAMap (what : string)
| XdrForeign (what : string).

Definition scval_to_xdr `{ScvalXdr} (val : ScVal) : result XdrError bytes := ok_or XdrWrite (to_xdr val).
Definition scval_from_xdr `{ScvalXdr} (b : bytes) : result XdrError ScVal := ok_or XdrRead (from_xdr b).

(** The [?] operator on a conversion. *)
Definition converted {A} (r : result ConversionError A) : result XdrError A :=
  match r with Ok a => Ok a | Err e => Err (XdrConversion e) end.

(** ** Induction on values *)

Section ScValInd.
Variable P : ScVal -> Prop.
Hypothesis Hleaf : forall v, (match v with ScVec (Some _) | ScMap (Some _) => False | _ => True end) -> P v.
Hypothesis Hvec : forall l, Forall P l -> P (ScVec (Some l)).
Hypothesis Hmap : forall m, Forall (fun e => P e.1 /\ P e.2) m -> P (ScMap (Some m)).

Fixpoint ScVal_nested_ind (v : ScVal) : P v :=
  match v with
  | ScVec (Some l) =>
      Hvec l ((fix go (l : list ScVal) : Forall P l :=
        match l with
        | [] => Forall_nil _
        | x :: l => Forall_cons _ _ _ (ScVal_nested_ind x) (go l)
        end) l)
  | ScMap (Some m) =>
      Hmap m ((fix go (m : ScMapEntries) : Forall (fun e => P e.1 /\ P e.2) m :=
        match m with
        | [] => Forall_nil _
        | e :: m =>
            Forall_cons _ _ _ (conj (ScVal_nested_ind e.1) (ScVal_nested_ind e.2)) (go m)
        end) m)
  | v => Hleaf v I
  end.
End ScValInd.

(** ** The published format *)

Module Rfc4506.

Definition be4 (n : Z) : bytes := to_be_bytes 4 n.
Definition be8 (n : Z) : bytes := to_be_bytes 8 n.
Definition padding (n : nat) : bytes := zeros ((4 - n mod 4) mod 4).
Definition opaque (b : bytes) : bytes := be4 (Z.of_nat (length b)) ++ b ++ padding (length b).
Definition in_i64 (n : Z) : Prop := - 2 ^ 63 <= n < 2 ^ 63.

Definition guard_fits {A} (max : Z) (l : list A) (b : bytes) : option bytes :=
  if fits max l then Some b else None.

Fixpoint put_val (v : ScVal) : option bytes :=
  match v with
  | ScBool b => Some (be4 0 ++ be4 (if b then 1 else 0))
  | ScU32 n => if decide (in_u32 n) then Some (be4 3 ++ be4 n) else None
  | ScU64 n => if decide (in_u64 n) then Some (be4 5 ++ be8 n) else None
  | ScI128 hi lo =>
      if decide (- 2 ^ 63 <= hi < 2 ^ 63 /\ in_u64 lo) then Some (be4 10 ++ be8 (hi mod 2 ^ 64) ++ be8 lo)
      else None
  | ScBytes b => guard_fits u32_max b (be4 13 ++ opaque b)
  | ScString s => guard_fits u32_max s (be4 14 ++ opaque s)
  | ScSymbol s => guard_fits 32 s (be4 15 ++ opaque s)
  | ScVec None => Some (be4 16 ++ be4 0)
  | ScVec (Some l) =>
      body ← (fix go (l : list ScVal) : option bytes :=
        match l with
        | [] => Some []
        | x :: l => a ← put_val x; b ← go l; Some (a ++ b)
        end) l;
      guard_fits u32_max l (be4 16 ++ be4 1 ++ be4 (Z.of_nat (length l)) ++ body)
  | ScMap None => Some (be4 17 ++ be4 0)
  | ScMap (Some m) =>
      body ← (fix go (m : ScMapEntries) : option bytes :=
        match m with
        | [] => Some []
        | e :: m => a ← put_val e.1; c ← put_val e.2; b ← go m; Some (a ++ c ++ b)
        end) m;
      guard_fits u32_max m (be4 17 ++ be4 1 ++ be4 (Z.of_nat (length m)) ++ body)
  | ScAddr (AddrAccount k) =>
      if decide (length k = 32%nat) then Some (be4 18 ++ be4 0 ++ be4 0 ++ k) else None
  | ScAddr (AddrContract i) =>
      if decide (length i = 32%nat) then Some (be4 18 ++ be4 1 ++ i) else None
  | ScAddr (AddrOther _) | ScOther _ => None
  end.

Fixpoint put_items (l : list ScVal) : option bytes :=
  match l with
  | [] => Some []
  | x :: l => a ← put_val x; b ← put_items l; Some (a ++ b)
  end.
Fixpoint put_entries (m : ScMapEntries) : option bytes :=
  match m with
  | [] => Some []
  | e :: m => a ← put_val e.1; c ← put_val e.2; b ← put_entries m; Some (a ++ c ++ b)
  end.

(** [n] bytes of the input. *)
Definition get_bytes (n : nat) (bs : bytes) : option (bytes * bytes) :=
  if (n <=? length bs)%nat then Some (take n bs, drop n bs) else None.
Definition get_uint (n : nat) (bs : bytes) : option (Z * bytes) :=
  '(b, bs) ← get_bytes n bs; Some (of_be_bytes b, bs).
Definition get_opaque (max : Z) (bs : bytes) : option (bytes * bytes) :=
  '(n, bs) ← get_uint 4 bs;
  if max <? n then None
  else if (length bs <? Z.to_nat n)%nat then None
  else
    '(b, bs) ← get_bytes (Z.to_nat n) bs;
    '(p, bs) ← get_bytes (length (padding (length b))) bs;
    if decide (p = padding (length b)) then Some (b, bs) else None.
(** [v as i64]. *)
Definition to_i64 (n : Z) : Z := if n <? 2 ^ 63 then n else n - 2 ^ 64.

Fixpoint get_val (fuel : nat) (bs : bytes) : option (ScVal * bytes) :=
  match fuel with
  | O => None
  | S fuel =>
      '(tag, bs) ← get_uint 4 bs;
      if tag =? 0 then '(n, bs) ← get_uint 4 bs; if n <=? 1 then Some (ScBool (n =? 1), bs) else None
      else if tag =? 3 then '(n, bs) ← get_uint 4 bs; Some (ScU32 n, bs)
      else if tag =? 5 then '(n, bs) ← get_uint 8 bs; Some (ScU64 n, bs)
      else if tag =? 10 then
        '(hi, bs) ← get_uint 8 bs; '(lo, bs) ← get_uint 8 bs; Some (ScI128 (to_i64 hi) lo, bs)
      else if tag =? 13 then '(b, bs) ← get_opaque u32_max bs; Some (ScBytes b, bs)
      else if tag =? 14 then '(b, bs) ← get_opaque u32_max bs; Some (ScString b, bs)
      else if tag =? 15 then '(b, bs) ← get_opaque 32 bs; Some (ScSymbol b, bs)
      else if tag =? 16 then
        '(present, bs) ← get_uint 4 bs;
        if present =? 0 then Some (ScVec None, bs)
        else if present =? 1 then
          '(n, bs) ← get_uint 4 bs; '(l, bs) ← get_items fuel n bs; Some (ScVec (Some l), bs)
        else None
      else if tag =? 17 then
        '(present, bs) ← get_uint 4 bs;
        if present =? 0 then Some (ScMap None, bs)
        else if present =? 1 then
          '(n, bs) ← get_uint 4 bs; '(m, bs) ← get_entries fuel n bs; Some (ScMap (Some m), bs)
        else None
      else if tag =? 18 then
        '(kind, bs) ← get_uint 4 bs;
        if kind =? 0 then
          '(key_type, bs) ← get_uint 4 bs;
          if key_type =? 0 then '(k, bs) ← get_bytes 32 bs; Some (ScAddr (AddrAccount k), bs) else None
        else if kind =? 1 then '(i, bs) ← get_bytes 32 bs; Some (ScAddr (AddrContract i), bs)
        else None
      else None
  end
with get_items (fuel : nat) (n : Z) (bs : bytes) : option (list ScVal * bytes) :=
  match fuel with
  | O => None
  | S fuel =>
      if n =? 0 then Some ([], bs)
      else '(v, bs) ← get_val fuel bs; '(l, bs) ← get_items fuel (n - 1) bs; Some (v :: l, bs)
  end
with get_entries (fuel : nat) (n : Z) (bs : bytes) : option (ScMapEntries * bytes) :=
  match fuel with
  | O => None
  | S fuel =>
      if n =? 0 then Some ([], bs)
      else
        '(k, bs) ← get_val fuel bs; '(v, bs) ← get_val fuel bs;
        '(m, bs) ← get_entries fuel (n - 1) bs; Some ((k, v) :: m, bs)
  end.

Definition read_to_end (b : bytes) : option ScVal :=
  match get_val (length b) b with Some (v, []) => Some v | _ => None end.
#[export] Instance scval_xdr : ScvalXdr := {| to_xdr := put_val; from_xdr := read_to_end |}.

(** ** Reading what was written *)

Lemma get_bytes_app a r : get_bytes (length a) (a ++ r) = Some (a, r).
Proof.
  unfold get_bytes. rewrite length_app. destruct (Nat.leb_spec (length a) (length a + length r)); [|lia].
  by rewrite take_app_length, drop_app_length.
Qed.

Lemma get_uint_be n z r :
  0 <= z < 256 ^ Z.of_nat n -> get_uint n (to_be_bytes n z ++ r) = Some (z, r).
Proof.
  intros Hz. unfold get_uint. rewrite <-(to_be_bytes_length n z) at 1. rewrite get_bytes_app.
  cbn [mbind option_bind]. by rewrite of_to_be_bytes, Z.mod_small.
Qed.

Lemma get_be4 n r : in_u32 n -> get_uint 4 (be4 n ++ r) = Some (n, r).
Proof. unfold in_u32, u32_max. intros. apply get_uint_be. change (256 ^ Z.of_nat 4) with (2 ^ 32). lia. Qed.
Lemma get_be8 n r : in_u64 n -> get_uint 8 (be8 n ++ r) = Some (n, r).
Proof. unfold in_u64, u64_max. intros. apply get_uint_be. change (256 ^ Z.of_nat 8) with (2 ^ 64). lia. Qed.

Lemma get_opaque_app max b r :
  fits max b = true -> max <= u32_max -> get_opaque max (opaque b ++ r) = Some (b, r).
Proof.
  unfold fits. intros Hb%Z.leb_le Hm. unfold get_opaque, opaque. rewrite <-!app_assoc.
  rewrite get_be4 by (unfold in_u32; lia). cbn [mbind option_bind].
  destruct (Z.ltb_spec max (Z.of_nat (length b))); [lia|]. rewrite Nat2Z.id, length_app.
  match goal with |- context [(?x <? ?y)%nat] => destruct (Nat.ltb_spec x y) end; [lia|].
  rewrite get_bytes_app. cbn [mbind option_bind]. rewrite get_bytes_app. cbn [mbind option_bind].
  by rewrite decide_True.
Qed.

Lemma to_i64_mod n : - 2 ^ 63 <= n < 2 ^ 63 -> to_i64 (n mod 2 ^ 64) = n.
Proof.
  intros Hn. unfold to_i64. destruct (Z.le_gt_cases 0 n).
  - rewrite Z.mod_small by lia. destruct (Z.ltb_spec n (2 ^ 63)); lia.
  - rewrite <-(Z.mod_unique n (2 ^ 64) (-1) (n + 2 ^ 64)) by lia.
    destruct (Z.ltb_spec (n + 2 ^ 64) (2 ^ 63)); lia.
Qed.

Definition reads (v : ScVal) : Prop := forall b fuel r,
  put_val v = Some b -> (4 <= length b)%nat /\ ((length b <= fuel)%nat -> get_val fuel (b ++ r) = Some (v, r)).

Lemma items_read l b fuel r :
  Forall reads l -> put_items l = Some b -> (1 + length b <= fuel)%nat ->
  get_items fuel (Z.of_nat (length l)) (b ++ r) = Some (l, r).
Proof.
  intros Hl. revert b fuel. induction Hl as [|x l Hx Hl IH]; intros b fuel Hb Hf.
  - injection Hb as <-. destruct fuel; [simpl in Hf; lia|]. done.
  - cbn [put_items] in Hb. apply bind_Some in Hb as (a & Ha & (c & Hc & [= <-])%bind_Some).
    destruct fuel as [|fuel]; [lia|]. cbn [get_items length]. rewrite length_app in Hf.
    destruct (Hx a fuel (c ++ r) Ha) as [Hlen Hget].
    destruct (Z.eqb_spec (Z.of_nat (S (length l))) 0); [lia|].
    rewrite <-app_assoc, Hget by lia. cbn [mbind option_bind].
    replace (Z.of_nat (S (length l)) - 1) with (Z.of_nat (length l)) by lia.
    by rewrite (IH c fuel Hc) by lia.
Qed.

Lemma entries_read m b fuel r :
  Forall (fun e => reads e.1 /\ reads e.2) m -> put_entries m = Some b -> (1 + length b <= fuel)%nat ->
  get_entries fuel (Z.of_nat (length m)) (b ++ r) = Some (m, r).
Proof.
  intros Hm. revert b fuel. induction Hm as [|[k v] m [Hk Hv] Hm IH]; intros b fuel Hb Hf.
  - injection Hb as <-. destruct fuel; [simpl in Hf; lia|]. done.
  - cbn [put_entries fst snd] in *.
    apply bind_Some in Hb as (a & Ha & (d & Hd & (c & Hc & [= <-])%bind_Some)%bind_Some).
    destruct fuel as [|fuel]; [lia|]. cbn [get_entries length]. rewrite !length_app in Hf.
    destruct (Hk a fuel (d ++ c ++ r) Ha) as [Hlk Hgk]. destruct (Hv d fuel (c ++ r) Hd) as [Hlv Hgv].
    destruct (Z.eqb_spec (Z.of_nat (S (length m))) 0); [lia|].
    rewrite <-!app_assoc, Hgk by lia. cbn [mbind option_bind]. rewrite Hgv by lia.
    cbn [mbind option_bind]. replace (Z.of_nat (S (length m)) - 1) with (Z.of_nat (length m)) by lia.
    by rewrite (IH c fuel Hc) by lia.
Qed.

Lemma guard_fits_Some {A} max (l : list A) b b' :
  guard_fits max l b = Some b' <-> fits max l = true /\ b = b'.
Proof. unfold guard_fits. destruct (fits max l); naive_solver. Qed.

Lemma tag_read (tag : Z) rest r :
  in_u32 tag -> get_uint 4 ((be4 tag ++ rest) ++ r) = Some (tag, rest ++ r).
Proof. intros Ht. rewrite <-app_assoc. by apply get_be4. Qed.

Lemma be4_length n : length (be4 n) = 4%nat.
Proof. apply to_be_bytes_length. Qed.

Ltac read_tag fuel :=
  split; [rewrite length_app, be4_length; lia|];
  intros Hfuel; destruct fuel as [|fuel]; [rewrite length_app, be4_length in Hfuel; lia|];
  cbn [get_val]; rewrite tag_read by (unfold in_u32, u32_max; lia); cbn [mbind option_bind Z.eqb Pos.eqb].

Lemma leaf_reads v :
  (match v with ScVec (Some _) | ScMap (Some _) => False | _ => True end) -> reads v.
Proof.
  intros Hv b fuel r Hb.
  destruct v as [x|n|n|hi lo|s|s|s|[l|]|[m|]|[k|i|d]|d]; try done; cbn [put_val] in Hb.
  - apply (inj Some) in Hb as <-. read_tag fuel. rewrite get_be4 by (destruct x; unfold in_u32, u32_max; lia).
    by destruct x.
  - case_decide; [|done]. apply (inj Some) in Hb as <-. read_tag fuel. by rewrite get_be4.
  - case_decide; [|done]. apply (inj Some) in Hb as <-. read_tag fuel. by rewrite get_be8.
  - case_decide as Hr; [|done]. destruct Hr as [Hhi Hlo]. apply (inj Some) in Hb as <-. read_tag fuel.
    rewrite <-app_assoc, get_be8. 2: { pose proof (Z.mod_pos_bound hi (2 ^ 64)). unfold in_u64, u64_max. lia. }
    cbn [mbind option_bind]. rewrite get_be8 by done. cbn [mbind option_bind]. by rewrite to_i64_mod.
  - apply guard_fits_Some in Hb as [Hf <-]. read_tag fuel. by rewrite get_opaque_app.
  - apply guard_fits_Some in Hb as [Hf <-]. read_tag fuel. by rewrite get_opaque_app.
  - apply guard_fits_Some in Hb as [Hf <-]. read_tag fuel. rewrite get_opaque_app; [done..|unfold u32_max; lia].
  - apply (inj Some) in Hb as <-. read_tag fuel. by rewrite get_be4 by (unfold in_u32, u32_max; lia).
  - apply (inj Some) in Hb as <-. read_tag fuel. by rewrite get_be4 by (unfold in_u32, u32_max; lia).
  - case_decide as Hk; [|done]. apply (inj Some) in Hb as <-. read_tag fuel.
    rewrite <-!app_assoc, !get_be4 by (unfold in_u32, u32_max; lia). cbn [mbind option_bind Z.eqb].
    rewrite get_be4 by (unfold in_u32, u32_max; lia). cbn [mbind option_bind Z.eqb].
    rewrite <-Hk, get_bytes_app. done.
  - case_decide as Hk; [|done]. apply (inj Some) in Hb as <-. read_tag fuel.
    rewrite <-!app_assoc, !get_be4 by (unfold in_u32, u32_max; lia). cbn [mbind option_bind Z.eqb Pos.eqb].
    rewrite <-Hk, get_bytes_app. done.
Qed.

Lemma vec_reads l : Forall reads l -> reads (ScVec (Some l)).
Proof.
  intros Hl b fuel r Hb. change (put_val (ScVec (Some l))) with
    (body ← put_items l; guard_fits u32_max l (be4 16 ++ be4 1 ++ be4 (Z.of_nat (length l)) ++ body)) in Hb.
  apply bind_Some in Hb as (body & Hbody & [Hf <-]%guard_fits_Some). read_tag fuel.
  rewrite <-app_assoc, get_be4 by (unfold in_u32, u32_max; lia). cbn [mbind option_bind Z.eqb Pos.eqb].
  rewrite <-app_assoc, get_be4 by (unfold fits in Hf; apply Z.leb_le in Hf; unfold in_u32; lia).
  cbn [mbind option_bind]. rewrite (items_read l body); [done..|].
  unfold be4 in Hfuel. rewrite !length_app, !to_be_bytes_length in Hfuel. lia.
Qed.

Lemma map_reads m : Forall (fun e => reads e.1 /\ reads e.2) m -> reads (ScMap (Some m)).
Proof.
  intros Hm b fuel r Hb. change (put_val (ScMap (Some m))) with
    (body ← put_entries m; guard_fits u32_max m (be4 17 ++ be4 1 ++ be4 (Z.of_nat (length m)) ++ body)) in Hb.
  apply bind_Some in Hb as (body & Hbody & [Hf <-]%guard_fits_Some). read_tag fuel.
  rewrite <-app_assoc, get_be4 by (unfold in_u32, u32_max; lia). cbn [mbind option_bind Z.eqb Pos.eqb].
  rewrite <-app_assoc, get_be4 by (unfold fits in Hf; apply Z.leb_le in Hf; unfold in_u32; lia).
  cbn [mbind option_bind]. rewrite (entries_read m body); [done..|].
  unfold be4 in Hfuel. rewrite !length_app, !to_be_bytes_length in Hfuel. lia.
Qed.

#[export] Instance scval_xdr_laws : ScvalXdrLaws.
Proof.
  constructor. intros v b Hb. cbn [from_xdr scval_xdr to_xdr] in *. unfold read_to_end.
  assert (reads v) as Hv by (apply ScVal_nested_ind; auto using leaf_reads, vec_reads, map_reads).
  destruct (Hv b (length b) [] Hb) as [_ Hget]. rewrite app_nil_r in Hget. by rewrite Hget.
Qed.

End Rfc4506.
