(* ===== verification/ContractValues.v ===== *)
(** * The router's types as Soroban values

    What the SDK's macros make of the declarations of [contracts/soroban/ibc-router/src]: a
    [#[contracttype]] struct is a map from the field names, in their order as symbols, to the fields;
    an event of [#[contractevent]] has its name in snake case and its [#[topic]] fields as topics and
    the other fields as a map; a [#[contractimpl]] function takes its arguments in the order of its
    parameters.  Reading a struct asks for exactly its fields. *)

From Stdlib Require Import ZArith Lia Strings.Byte Strings.String.
From stdpp Require Import base option list gmap numbers.
From S2P Require Import Prelude Bytes Crypto Host RouterTypes CoreCommitment Conversion.
From S2P Require Import Router.
Open Scope Z_scope.

(** ** Structs *)

Definition pack_struct (fields : list (bytes * ScVal)) : ScVal := ScMap (Some (struct_entries fields)).

Fixpoint unpack_entries (names : list bytes) (m : ScMapEntries) : option (list ScVal) :=
  match names, m with
  | [], [] => Some []
  | n :: ns, (ScSymbol k, v) :: m => if decide (k = n) then vs ← unpack_entries ns m; Some (v :: vs) else None
  | _, _ => None
  end.
(** The fields of a struct, its [names] in the order of symbols. *)
Definition unpack_struct (names : list bytes) (v : ScVal) : option (list ScVal) :=
  m ← scval_as_map v; unpack_entries names m.

(** A [String] argument, and a [Vec] of some element type. *)
Definition as_string (v : ScVal) : option bytes := match v with ScString s => Some s | _ => None end.
Fixpoint all_some {A B} (f : A -> option B) (l : list A) : option (list B) :=
  match l with [] => Some [] | x :: l => y ← f x; ys ← all_some f l; Some (y :: ys) end.
Definition as_vec {A} (f : ScVal -> option A) (v : ScVal) : option (list A) :=
  match v with ScVec (Some l) => all_some f l | _ => None end.
(** A [BytesN<N>] is bytes of that length. *)
Definition as_bytes_n (n : nat) (v : ScVal) : option bytes :=
  b ← scval_as_bytes v; if decide (length b = n) then Some b else None.

Lemma all_some_map {A B} (f : A -> option B) (g : B -> A) l :
  (forall b, f (g b) = Some b) -> all_some f (g <$> l) = Some l.
Proof. intros Hf. induction l as [|b l IH]; csimpl; [done|]. by rewrite Hf, IH. Qed.

#[export] Instance plain_text_dec s : Decision (plain_text s).
Proof. unfold plain_text. apply _. Defined.

Ltac plain := apply (bool_decide_unpack _); vm_compute; exact I.

(** What the gateway builds with [scval_struct] is the struct. *)
Lemma scval_struct_pack fields :
  forallb (fun f => fits 32 f.1) fields = true -> fits u32_max fields = true ->
  scval_struct fields = Ok (pack_struct fields).
Proof.
  intros Hn Hl. unfold scval_struct. destruct (collect _ fields) as [l|e] eqn:Hc.
  - cbn [mbind result_bind]. unfold fits in *. by rewrite (Permutation_length (sort_entries_perm fields)), Hl.
  - exfalso. pose proof (collect_symbols fields) as Hok. rewrite Hc in Hok. discriminate Hok.
    apply List.Forall_forall. intros f Hf. rewrite forallb_forall in Hn. by apply Hn.
Qed.

Section PackedFields.
Context `{StringTextLaws}.

(** The fields of a packed struct, found by name. *)
Lemma packed_field fields name o :
  plain_text name -> snd <$> head (filter (fun e => e.1 = name) (sort_entries fields)) = o ->
  scval_field (struct_entries fields) name = o.
Proof. intros Hn <-. by apply field_lookup. Qed.

Lemma packed_map_field fields name v :
  plain_text name -> snd <$> head (filter (fun e => e.1 = name) (sort_entries fields)) = Some v ->
  scval_map_field (struct_entries fields) name = Ok v.
Proof. intros Hn Hf. unfold scval_map_field. by rewrite (packed_field _ _ _ Hn Hf). Qed.

End PackedFields.

Ltac read_field fields name o := rewrite (packed_field fields name o); [|plain|reflexivity].

(** ** [types.rs] *)

Definition payload_fields (p : Payload) : list (bytes * ScVal) :=
  [(bstr "source_port", ScString (source_port p)); (bstr "dest_port", ScString (dest_port p));
   (bstr "version", ScString (version p)); (bstr "encoding", ScString (encoding p));
   (bstr "value", ScBytes (value p))].
Definition payload_to_scval (p : Payload) : ScVal := pack_struct (payload_fields p).
Definition payload_of_scval (v : ScVal) : option Payload :=
  fs ← unpack_struct [bstr "dest_port"; bstr "encoding"; bstr "source_port"; bstr "value"; bstr "version"] v;
  match fs with
  | [dp; en; sp; va; ve] =>
      dp ← as_string dp; en ← as_string en; sp ← as_string sp; va ← scval_as_bytes va; ve ← as_string ve;
      Some (MkPayload sp dp ve en va)
  | _ => None
  end.

Definition packet_fields (p : Packet) : list (bytes * ScVal) :=
  [(bstr "sequence", ScU64 (sequence p)); (bstr "source_client", ScString (source_client p));
   (bstr "dest_client", ScString (dest_client p)); (bstr "timeout_timestamp", ScU64 (timeout_timestamp p));
   (bstr "payloads", ScVec (Some (payload_to_scval <$> payloads p)))].
Definition packet_to_scval (p : Packet) : ScVal := pack_struct (packet_fields p).
Definition packet_of_scval (v : ScVal) : option Packet :=
  fs ← unpack_struct [bstr "dest_client"; bstr "payloads"; bstr "sequence"; bstr "source_client";
                      bstr "timeout_timestamp"] v;
  match fs with
  | [dc; ps; sq; sc; tm] =>
      dc ← as_string dc; ps ← as_vec payload_of_scval ps; sq ← scval_as_u64 sq; sc ← as_string sc;
      tm ← scval_as_u64 tm; Some (MkPacket sq sc dc tm ps)
  | _ => None
  end.

Lemma payload_of_to_scval p : payload_of_scval (payload_to_scval p) = Some p.
Proof. by destruct p. Qed.

Lemma packet_of_to_scval p : packet_of_scval (packet_to_scval p) = Some p.
Proof.
  destruct p as [sq sc dc tm ps]. unfold packet_of_scval.
  change (unpack_struct _ _) with
    (Some [ScString dc; ScVec (Some (payload_to_scval <$> ps)); ScU64 sq; ScString sc; ScU64 tm]).
  cbn [mbind option_bind as_string as_vec scval_as_u64].
  by rewrite (all_some_map _ _ ps payload_of_to_scval).
Qed.

(** ** [events.rs] *)

Definition event_topics (e : Event) : list ScVal :=
  match e with
  | SendPacketEvent cid n _ => [ScSymbol (bstr "send_packet"); ScString cid; ScU64 n]
  | RecvPacketEvent cid n _ => [ScSymbol (bstr "recv_packet"); ScString cid; ScU64 n]
  | WriteAckEvent cid n _ => [ScSymbol (bstr "write_ack"); ScString cid; ScU64 n]
  | AckPacketEvent cid n _ _ => [ScSymbol (bstr "ack_packet"); ScString cid; ScU64 n]
  | TimeoutPacketEvent cid n _ => [ScSymbol (bstr "timeout_packet"); ScString cid; ScU64 n]
  end.

Definition data_fields (e : Event) : list (bytes * ScVal) :=
  match e with
  | SendPacketEvent _ _ p | RecvPacketEvent _ _ p | TimeoutPacketEvent _ _ p =>
      [(bstr "packet", packet_to_scval p)]
  | WriteAckEvent _ _ acks => [(bstr "acknowledgements", ScVec (Some (ScBytes <$> acks)))]
  | AckPacketEvent _ _ p acks =>
      [(bstr "packet", packet_to_scval p); (bstr "acknowledgements", ScVec (Some (ScBytes <$> acks)))]
  end.
Definition event_data (e : Event) : ScVal := pack_struct (data_fields e).

(** ** [lib.rs] *)

(** The invocation of the router by function name and arguments.  [register_client_type] and
    [register_port], whose arguments are addresses, are not called this way by the gateway and are left
    out. *)
Definition router_call (method : bytes) (args : list ScVal) : option Call :=
  let named (name : string) : bool := bool_decide (method = bstr name) in
  let on_packet_id (f : bytes -> Z -> Call) : option Call :=
    match args with
    | [c; n] => c ← as_string c; n ← scval_as_u64 n; Some (f c n)
    | _ => None
    end in
  let on_id (f : bytes -> Call) : option Call :=
    match args with [c] => c ← as_string c; Some (f c) | _ => None end in
  let on_hash (f : bytes -> Z -> bytes -> Call) : option Call :=
    match args with
    | [c; n; h] => c ← as_string c; n ← scval_as_u64 n; h ← as_bytes_n 32 h; Some (f c n h)
    | _ => None
    end in
  let on_packet (f : Packet -> bytes -> Z -> Call) : option Call :=
    match args with
    | [p; pr; h] => p ← packet_of_scval p; pr ← scval_as_bytes pr; h ← scval_as_u64 h; Some (f p pr h)
    | _ => None
    end in
  if named "create_client"%string then
    match args with
    | [t; s; c; h] =>
        t ← as_string t; s ← scval_as_bytes s; c ← scval_as_bytes c; h ← scval_as_u64 h;
        Some (CCreateClient t s c h)
    | _ => None
    end
  else if named "register_counterparty"%string then
    match args with
    | [c; d; p] =>
        c ← as_string c; d ← as_string d; p ← as_vec scval_as_bytes p; Some (CRegisterCounterparty c d p)
    | _ => None
    end
  else if named "update_client"%string then
    match args with
    | [c; m] => c ← as_string c; m ← scval_as_bytes m; Some (CUpdateClient c m)
    | _ => None
    end
  else if named "send_packet"%string then
    match args with
    | [c; t; p] =>
        c ← as_string c; t ← scval_as_u64 t; p ← as_vec payload_of_scval p; Some (CSendPacket c t p)
    | _ => None
    end
  else if named "recv_packet"%string then on_packet CRecvPacket
  else if named "timeout_packet"%string then on_packet CTimeoutPacket
  else if named "acknowledge_packet"%string then
    match args with
    | [p; a; pr; h] =>
        p ← packet_of_scval p; a ← as_vec scval_as_bytes a; pr ← scval_as_bytes pr; h ← scval_as_u64 h;
        Some (CAcknowledgePacket p a pr h)
    | _ => None
    end
  else if named "write_acknowledgement"%string then
    match args with
    | [c; n; a] =>
        c ← as_string c; n ← scval_as_u64 n; a ← as_vec scval_as_bytes a; Some (CWriteAcknowledgement c n a)
    | _ => None
    end
  else if named "lc_address"%string then on_id CLcAddress
  else if named "counterparty"%string then on_id CCounterparty
  else if named "client_lc_address"%string then on_id CClientLcAddress
  else if named "frozen"%string then on_id CFrozen
  else if named "port_app"%string then on_id CPortApp
  else if named "set_packet_commitment"%string then on_hash CSetPacketCommitment
  else if named "set_ack_commitment"%string then on_hash CSetAckCommitment
  else if named "packet_commitment"%string then on_packet_id CPacketCommitment
  else if named "delete_packet_commitment"%string then on_packet_id CDeletePacketCommitment
  else if named "set_packet_receipt"%string then on_packet_id CSetPacketReceipt
  else if named "has_packet_receipt"%string then on_packet_id CHasPacketReceipt
  else if named "acknowledgement"%string then on_packet_id CAcknowledgement
  else None.
