(* ===== verification/EventAttributes.v ===== *)
(** * The text of router events ([crates/core/src/ibc/event.rs])

    The gateway adds to every router event a text for the relayer: its kind and, when its data has a
    packet, the sequence, clients and first ports, one [name=value] line each. *)

From Stdlib Require Import ZArith Lia Strings.Byte Strings.String.
From stdpp Require Import base option list gmap numbers.
From S2P Require Import Prelude Bytes Crypto Host RouterTypes CoreCommitment Conversion Xdr.
From S2P Require Import ContractValues.
Open Scope Z_scope.

Definition newline : byte := Byte.x0a.
(** [format!("{name}={value}\n")]. *)
Definition line (name : string) (value : bytes) : bytes :=
  bstr name ++ bstr "=" ++ value ++ [newline].

Section Attributes.
Context `{StringText} `{ScvalXdr}.

Definition first_payload_ports (packet : ScMapEntries) : bytes * bytes :=
  let default_ports := (bstr "transfer", bstr "transfer") in
  match scval_field packet (bstr "payloads") with
  | Some (ScVec (Some payloads)) =>
      match p ← head payloads; scval_as_map p with
      | Some payload =>
          (default (bstr "transfer") (v ← scval_field payload (bstr "source_port"); scval_as_string v),
           default (bstr "transfer") (v ← scval_field payload (bstr "dest_port"); scval_as_string v))
      | None => default_ports
      end
  | _ => default_ports
  end.

Definition event_attributes (topics_xdr : list bytes) (value_xdr : bytes) : option bytes :=
  topic ← head topics_xdr;
  kind ← (t ← result_ok (scval_from_xdr topic); scval_as_symbol t);
  value ← result_ok (scval_from_xdr value_xdr);
  root ← scval_as_map value;
  match v ← scval_field root (bstr "packet"); scval_as_map v with
  | Some packet =>
      let sequence := default 0 (v ← scval_field packet (bstr "sequence"); scval_as_u64 v) in
      let source_client := default [] (v ← scval_field packet (bstr "source_client"); scval_as_string v) in
      let dest_client := default [] (v ← scval_field packet (bstr "dest_client"); scval_as_string v) in
      let '(source_port, dest_port) := first_payload_ports packet in
      let text := line "type" kind ++ line "packet_sequence" (dec 20 sequence) in
      let text := if decide (source_client = []) then text
                  else text ++ line "packet_src_channel" source_client in
      let text := if decide (dest_client = []) then text
                  else text ++ line "packet_dst_channel" dest_client in
      Some (text ++ line "packet_src_port" source_port ++ line "packet_dst_port" dest_port)
  | None =>
      let text := line "type" kind in
      match v ← scval_field root (bstr "client_id"); scval_as_string v with
      | Some client_id => Some (text ++ line "client_id" client_id)
      | None => Some text
      end
  end.

End Attributes.

(** ** The events of the router *)

(** An event as the ledger records it. *)
Definition recorded `{ScvalXdr} (e : Event) (topics_xdr : list bytes) (value_xdr : bytes) : Prop :=
  Forall2 (fun t b => to_xdr t = Some b) (event_topics e) topics_xdr /\ to_xdr (event_data e) = Some value_xdr.

Definition event_kind (e : Event) : bytes :=
  match e with
  | SendPacketEvent _ _ _ => bstr "send_packet"
  | RecvPacketEvent _ _ _ => bstr "recv_packet"
  | WriteAckEvent _ _ _ => bstr "write_ack"
  | AckPacketEvent _ _ _ _ => bstr "ack_packet"
  | TimeoutPacketEvent _ _ _ => bstr "timeout_packet"
  end.
Definition event_packet (e : Event) : option Packet :=
  match e with
  | SendPacketEvent _ _ p | RecvPacketEvent _ _ p | AckPacketEvent _ _ p _ | TimeoutPacketEvent _ _ p => Some p
  | WriteAckEvent _ _ _ => None
  end.
Definition packet_ports (p : Packet) : bytes * bytes :=
  match payloads p with
  | q :: _ => (source_port q, dest_port q)
  | [] => (bstr "transfer", bstr "transfer")
  end.
(** The identifiers of the packet are printable ASCII without a backslash, as ICS-24 asks. *)
Definition plain_packet (p : Packet) : Prop :=
  plain_text (source_client p) /\ plain_text (dest_client p) /\
  Forall (fun q => plain_text (source_port q) /\ plain_text (dest_port q)) (payloads p).

Definition packet_lines (kind : bytes) (p : Packet) : bytes :=
  line "type" kind ++ line "packet_sequence" (dec 20 (sequence p)) ++
  line "packet_src_channel" (source_client p) ++ line "packet_dst_channel" (dest_client p) ++
  line "packet_src_port" (packet_ports p).1 ++ line "packet_dst_port" (packet_ports p).2.

Section Identify.
Context `{StringTextLaws} `{!ScvalXdr} `{!ScvalXdrLaws}.

Lemma kind_read e topics value :
  recorded e topics value ->
  (topic ← head topics; t ← result_ok (scval_from_xdr topic); scval_as_symbol t) = Some (event_kind e).
Proof.
  intros [Ht _]. destruct e; inversion Ht as [|? b ? ? Hb]; subst; cbn [head mbind option_bind];
    unfold scval_from_xdr; rewrite (from_to_xdr _ _ Hb); cbn [ok_or result_ok mbind option_bind scval_as_symbol];
    rewrite plain_text_prints; try reflexivity; apply (bool_decide_unpack _); vm_compute; exact I.
Qed.

Lemma packed_field_text fields name s :
  plain_text name -> plain_text s ->
  snd <$> head (filter (fun e => e.1 = name) (sort_entries fields)) = Some (ScString s) ->
  (v ← scval_field (struct_entries fields) name; scval_as_string v) = Some s.
Proof.
  intros Hn Hs Hf. rewrite (packed_field _ _ _ Hn Hf). cbn [mbind option_bind scval_as_string].
  by rewrite plain_text_prints.
Qed.

Ltac read_text fields name s :=
  rewrite (packed_field_text fields name s); [|plain|assumption|reflexivity].

Lemma ports_read p :
  plain_packet p -> first_payload_ports (struct_entries (packet_fields p)) = packet_ports p.
Proof.
  intros (_ & _ & Hps). unfold first_payload_ports, packet_ports.
  read_field (packet_fields p) (bstr "payloads") (Some (ScVec (Some (payload_to_scval <$> payloads p)))).
  destruct (payloads p) as [|q ps]; [done|]. apply list.Forall_cons in Hps as [[Hsp Hdp] _].
  change (p ← head (payload_to_scval <$> q :: ps); scval_as_map p)
    with (Some (struct_entries (payload_fields q))).
  cbn iota. read_text (payload_fields q) (bstr "source_port") (source_port q).
  read_text (payload_fields q) (bstr "dest_port") (dest_port q). done.
Qed.

Lemma attributes_of_packet e topics value p :
  recorded e topics value -> event_packet e = Some p -> plain_packet p ->
  source_client p <> [] -> dest_client p <> [] ->
  event_attributes topics value = Some (packet_lines (event_kind e) p).
Proof.
  intros Hrec Hp Hplain Hs Hd. pose proof (kind_read _ _ _ Hrec) as Hkind. destruct Hrec as [_ Hv].
  unfold event_attributes. destruct (head topics) as [t|]; [|done]. cbn [mbind option_bind] in Hkind |- *.
  rewrite Hkind. cbn [mbind option_bind]. unfold scval_from_xdr at 1. rewrite (from_to_xdr _ _ Hv).
  cbn [ok_or result_ok mbind option_bind].
  change (scval_as_map (event_data e)) with (Some (struct_entries (data_fields e))). cbn [mbind option_bind].
  assert (scval_field (struct_entries (data_fields e)) (bstr "packet") = Some (packet_to_scval p)) as ->.
  { apply packed_field; [plain|]. destruct e; try discriminate Hp; injection Hp as ->; reflexivity. }
  cbn [mbind option_bind].
  change (scval_as_map (packet_to_scval p)) with (Some (struct_entries (packet_fields p))). cbn iota.
  pose proof Hplain as (Hps & Hpd & _).
  read_field (packet_fields p) (bstr "sequence") (Some (ScU64 (sequence p))).
  read_text (packet_fields p) (bstr "source_client") (source_client p).
  read_text (packet_fields p) (bstr "dest_client") (dest_client p). rewrite ports_read by done.
  cbn [mbind option_bind scval_as_u64 default]. rewrite (surjective_pairing (packet_ports p)).
  rewrite !decide_False by done. unfold packet_lines. by rewrite <-!app_assoc.
Qed.

Lemma attributes_of_write_ack cid n acks topics value :
  recorded (WriteAckEvent cid n acks) topics value ->
  event_attributes topics value = Some (line "type" (bstr "write_ack")).
Proof.
  intros Hrec. pose proof (kind_read _ _ _ Hrec) as Hkind. destruct Hrec as [_ Hv].
  unfold event_attributes. destruct (head topics) as [t|]; [|done]. cbn [mbind option_bind] in Hkind |- *.
  rewrite Hkind. cbn [mbind option_bind]. unfold scval_from_xdr. rewrite (from_to_xdr _ _ Hv).
  cbn [ok_or result_ok mbind option_bind].
  change (scval_as_map (event_data (WriteAckEvent cid n acks)))
    with (Some (struct_entries (data_fields (WriteAckEvent cid n acks)))). cbn [mbind option_bind].
  read_field (data_fields (WriteAckEvent cid n acks)) (bstr "packet") (@None ScVal). cbn [mbind option_bind].
  read_field (data_fields (WriteAckEvent cid n acks)) (bstr "client_id") (@None ScVal). done.
Qed.

End Identify.

(** ** What the text determines *)

Lemma plain_no_newline s : plain_text s -> newline ∉ s.
Proof.
  intros Hs Hin. unfold plain_text in Hs. rewrite list.Forall_forall in Hs. apply Hs in Hin as [[Hb _] _].
  by vm_compute in Hb.
Qed.

Lemma dec_no_newline fuel n : newline ∉ dec fuel n.
Proof.
  intros Hin. pose proof (dec_all_digits fuel n) as Hd. rewrite list.Forall_forall in Hd.
  apply Hd in Hin. unfold is_digit in Hin. vm_compute in Hin. destruct Hin as [Hin _]. by apply Hin.
Qed.

Lemma split_newline s1 s2 r1 r2 :
  newline ∉ s1 -> newline ∉ s2 -> s1 ++ newline :: r1 = s2 ++ newline :: r2 -> s1 = s2 /\ r1 = r2.
Proof.
  revert s2. induction s1 as [|a s1 IH]; intros [|b s2] H1 H2 Heq.
  - by injection Heq.
  - injection Heq as <- _. exfalso. apply H2. left.
  - injection Heq as -> _. exfalso. apply H1. left.
  - injection Heq as -> Heq. rewrite not_elem_of_cons in H1, H2.
    destruct (IH s2) as [-> ->]; naive_solver.
Qed.

Lemma line_inj name s1 s2 r1 r2 :
  newline ∉ s1 -> newline ∉ s2 -> line name s1 ++ r1 = line name s2 ++ r2 -> s1 = s2 /\ r1 = r2.
Proof.
  intros H1 H2. unfold line. rewrite <-!app_assoc. intros Heq%(app_inv_head _)%(app_inv_head _).
  by apply split_newline.
Qed.

Lemma packet_lines_inj k1 k2 p1 p2 :
  newline ∉ k1 -> newline ∉ k2 -> in_u64 (sequence p1) -> in_u64 (sequence p2) ->
  plain_packet p1 -> plain_packet p2 -> packet_lines k1 p1 = packet_lines k2 p2 ->
  k1 = k2 /\ sequence p1 = sequence p2 /\ source_client p1 = source_client p2 /\
  dest_client p1 = dest_client p2 /\ packet_ports p1 = packet_ports p2.
Proof.
  intros Hk1 Hk2 Hn1 Hn2 (Hs1 & Hd1 & Hp1) (Hs2 & Hd2 & Hp2) Heq. unfold packet_lines in Heq.
  assert (forall p, Forall (fun q => plain_text (source_port q) /\ plain_text (dest_port q)) (payloads p) ->
    (newline ∉ fst (packet_ports p)) /\ (newline ∉ snd (packet_ports p))) as Hports.
  { intros p Hp. unfold packet_ports. destruct Hp as [|q ps [? ?] _]; [|by split; apply plain_no_newline].
    split; apply plain_no_newline; apply (bool_decide_unpack _); vm_compute; exact I. }
  destruct (Hports p1 Hp1) as [? ?], (Hports p2 Hp2) as [? ?].
  apply line_inj in Heq as [-> Heq]; [|done..].
  apply line_inj in Heq as [Hdec Heq]; [|apply dec_no_newline..].
  apply line_inj in Heq as [-> Heq]; [|by apply plain_no_newline..].
  apply line_inj in Heq as [-> Heq]; [|by apply plain_no_newline..].
  apply line_inj in Heq as [Hsp Heq]; [|done..].
  rewrite <-(app_nil_r (line _ (packet_ports p1).2)), <-(app_nil_r (line _ (packet_ports p2).2)) in Heq.
  apply line_inj in Heq as [Hdp _]; [|done..]. split_and!; [done| |done|done|].
  - apply (f_equal undec) in Hdec. unfold in_u64, u64_max in *. rewrite !undec_dec in Hdec; lia.
  - by rewrite (surjective_pairing (packet_ports p1)), (surjective_pairing (packet_ports p2)), Hsp, Hdp.
Qed.

Lemma kind_no_newline e : newline ∉ event_kind e.
Proof. destruct e; apply plain_no_newline; plain. Qed.

(** A packet the router can have: its identifiers are not empty and its numbers are [u64]s. *)
Definition relayable (p : Packet) : Prop :=
  plain_packet p /\ source_client p <> [] /\ dest_client p <> [] /\ in_u64 (sequence p).

(** the text the gateway attaches to the router's packet events tells the relayer which packet an
    event is about: every packet event has one, and two of them have the same text exactly when they
    have the same kind and their packets the same sequence, clients and first ports. *)
Theorem event_attributes_identify `{StringTextLaws} `{!ScvalXdr} `{!ScvalXdrLaws} e1 e2 t1 t2 v1 v2 p1 p2 :
  recorded e1 t1 v1 -> recorded e2 t2 v2 ->
  event_packet e1 = Some p1 -> event_packet e2 = Some p2 -> relayable p1 -> relayable p2 ->
  event_attributes t1 v1 = Some (packet_lines (event_kind e1) p1) /\
  (event_attributes t1 v1 = event_attributes t2 v2 <->
   event_kind e1 = event_kind e2 /\ sequence p1 = sequence p2 /\ source_client p1 = source_client p2 /\
   dest_client p1 = dest_client p2 /\ packet_ports p1 = packet_ports p2).
Proof.
  intros Hr1 Hr2 He1 He2 (Hp1 & Hs1 & Hd1 & Hn1) (Hp2 & Hs2 & Hd2 & Hn2).
  rewrite (attributes_of_packet e1 t1 v1 p1), (attributes_of_packet e2 t2 v2 p2) by done.
  split; [done|]. split.
  - intros Heq. apply (inj Some) in Heq. by apply packet_lines_inj in Heq; auto using kind_no_newline.
  - unfold packet_lines. by intros (-> & -> & -> & -> & ->).
Qed.

(** an acknowledgement event has no packet in its data, and its client is among its topics, which are
    not searched: its text names neither, so all acknowledgement events have the same text. *)
Theorem write_ack_attributes `{StringTextLaws} `{!ScvalXdr} `{!ScvalXdrLaws} cid n acks topics value :
  recorded (WriteAckEvent cid n acks) topics value ->
  event_attributes topics value = Some (line "type" (bstr "write_ack")).
Proof. apply attributes_of_write_ack. Qed.

(** ** An example *)

Module EventDemo.
#[local] Existing Instances escaped_text escaped_text_laws Rfc4506.scval_xdr Rfc4506.scval_xdr_laws.

Definition packet : Packet :=
  MkPacket 7 (bstr "tm-0") (bstr "08-wasm-1") 1700000000
    [MkPayload (bstr "transfer") (bstr "transfer") (bstr "ics20-1") (bstr "application/json") (bstr "x")].
Definition sent : Event := SendPacketEvent (bstr "tm-0") 7 packet.
Definition topics : list bytes := Eval vm_compute in default [] (all_some to_xdr (event_topics sent)).
Definition value : bytes := Eval vm_compute in default [] (to_xdr (event_data sent)).

Lemma event_attributes_identify_witness :
  event_attributes topics value =
    Some (bstr "type=send_packet" ++ [newline] ++ bstr "packet_sequence=7" ++ [newline] ++
          bstr "packet_src_channel=tm-0" ++ [newline] ++ bstr "packet_dst_channel=08-wasm-1" ++ [newline] ++
          bstr "packet_src_port=transfer" ++ [newline] ++ bstr "packet_dst_port=transfer" ++ [newline]).
Proof.
  assert (relayable packet) as Hp.
  { split; [|split_and!; [done|done|by vm_compute]].
    split_and!; [plain|plain|]. repeat constructor; plain. }
  assert (recorded sent topics value) as Hr.
  { split; [|vm_compute; reflexivity]. repeat constructor; vm_compute; reflexivity. }
  exact (proj1 (event_attributes_identify sent sent topics topics value value packet packet
    Hr Hr eq_refl eq_refl Hp Hp)).
Defined.

End EventDemo.
