(* ===== verification/Text.v ===== *)
(** * Text of bytes and numbers

    The hexadecimal codec of the [hex] crate and the decimal text of Rust's integers ([to_string] and
    [parse]), as the services and the command-line tool use them, with their round trips. *)

From Stdlib Require Import ZArith Lia Strings.Byte Strings.String.
From stdpp Require Import base option list gmap numbers.
From S2P Require Import Prelude Bytes.
Open Scope Z_scope.

Module Hex.

Definition char_of (n : Z) : byte := byte_of_Z (if n <? 10 then 48 + n else 87 + n).
(** Both cases of a letter are read. *)
Definition value_of (b : byte) : option Z :=
  let c := Z_of_byte b in
  if (48 <=? c) && (c <? 58) then Some (c - 48)
  else if (97 <=? c) && (c <? 103) then Some (c - 87)
  else if (65 <=? c) && (c <? 71) then Some (c - 55)
  else None.

(** [hex::encode], also [bytes.iter().map(|b| format!("{b:02x}")).collect()]. *)
Fixpoint encode (bs : bytes) : bytes :=
  match bs with
  | [] => []
  | b :: bs => char_of (Z_of_byte b / 16) :: char_of (Z_of_byte b mod 16) :: encode bs
  end.
(** [hex::decode]: an odd length or a foreign character is an error. *)
Fixpoint decode (s : bytes) : option bytes :=
  match s with
  | [] => Some []
  | [_] => None
  | h :: l :: s =>
      h ← value_of h; l ← value_of l; bs ← decode s; Some (byte_of_Z (h * 16 + l) :: bs)
  end.

Lemma value_of_char n : 0 <= n < 16 -> value_of (char_of n) = Some n.
Proof.
  intros Hn. assert (Forall (fun n => value_of (char_of n) = Some n) (seqZ 0 16)) as Hall
    by (vm_compute; repeat constructor).
  exact (proj1 (list.Forall_forall _ _) Hall n (proj2 (elem_of_seqZ 0 16 n) Hn)).
Qed.

Lemma hex_roundtrip bs : decode (encode bs) = Some bs.
Proof.
  induction bs as [|b bs IH]; [done|]. cbn [encode decode]. pose proof (Z_of_byte_range b).
  rewrite !value_of_char; [|split; [apply Z.div_pos|apply Z.div_lt_upper_bound]; lia|apply Z.mod_pos_bound; lia].
  cbn [mbind option_bind]. rewrite IH. cbn [mbind option_bind].
  rewrite (Z.mul_comm _ 16), <-Z.div_mod by lia. by rewrite byte_of_Z_of_byte.
Qed.

Lemma encode_inj a b : encode a = encode b -> a = b.
Proof. intros Heq. apply (inj Some). by rewrite <-!hex_roundtrip, Heq. Qed.

Lemma encode_length bs : length (encode bs) = (2 * length bs)%nat.
Proof. induction bs as [|b bs IH]; simpl; [done|]. rewrite IH. lia. Qed.

End Hex.

Module Decimal.

Definition is_digitb (b : byte) : bool := (48 <=? Z_of_byte b) && (Z_of_byte b <? 58).
Definition digits_value (s : bytes) : option Z :=
  if decide (s = []) then None else if forallb is_digitb s then Some (undec s) else None.
Definition plus_sign : byte := Byte.x2b.
Definition minus_sign : byte := Byte.x2d.

(** [s.parse::<u64>()] and [s.parse::<u32>()]: an optional plus sign, digits, and a value in range. *)
Definition parse_unsigned (max : Z) (s : bytes) : option Z :=
  let digits := match s with c :: t => if decide (c = plus_sign) then t else s | [] => [] end in
  n ← digits_value digits; if n <=? max then Some n else None.
(** [s.parse::<i128>()]. *)
Definition parse_i128 (s : bytes) : option Z :=
  match s with
  | c :: t =>
      if decide (c = minus_sign) then n ← digits_value t; if decide (in_i128 (- n)) then Some (- n) else None
      else
        n ← digits_value (if decide (c = plus_sign) then t else s);
        if decide (in_i128 n) then Some n else None
  | [] => None
  end.

(** [n.to_string()]. *)
Definition show_u64 (n : Z) : bytes := dec 20 n.
Definition show_i128 (n : Z) : bytes := if n <? 0 then minus_sign :: dec 40 (- n) else dec 40 n.

Lemma is_digitb_spec b : is_digitb b = true <-> is_digit b.
Proof. unfold is_digitb, is_digit. rewrite andb_true_iff, Z.leb_le, Z.ltb_lt. done. Qed.

Lemma dec_nonempty fuel n : 0 <= n < 10 ^ Z.of_nat fuel -> dec fuel n <> [].
Proof.
  intros Hn Hd. unfold dec in Hd. destruct (Z.leb_spec n 0) as [|Hpos]; [done|].
  destruct fuel as [|fuel]; [simpl in Hn; lia|]. cbn [dec_digits] in Hd.
  destruct (Z.leb_spec n 0); [lia|]. cbn [rev] in Hd. by destruct (rev (dec_digits fuel (n / 10))).
Qed.

Lemma digits_value_dec fuel n : 0 <= n < 10 ^ Z.of_nat fuel -> digits_value (dec fuel n) = Some n.
Proof.
  intros Hn. unfold digits_value. rewrite decide_False by by apply dec_nonempty.
  assert (forallb is_digitb (dec fuel n) = true) as ->.
  { apply forallb_forall. intros b Hb. apply is_digitb_spec.
    pose proof (dec_all_digits fuel n) as Hd. rewrite List.Forall_forall in Hd. auto. }
  by rewrite undec_dec.
Qed.

Lemma dec_head fuel n c t : dec fuel n = c :: t -> is_digit c.
Proof. intros Hd. pose proof (dec_all_digits fuel n) as Hall. rewrite Hd in Hall. by inversion Hall. Qed.

Lemma digit_not_sign c : is_digit c -> c <> plus_sign /\ c <> minus_sign.
Proof. intros Hc. split; intros ->; unfold is_digit in Hc; vm_compute in Hc; intuition congruence. Qed.

Lemma parse_unsigned_dec fuel max n :
  0 <= n < 10 ^ Z.of_nat fuel -> n <= max -> parse_unsigned max (dec fuel n) = Some n.
Proof.
  intros Hn Hm. unfold parse_unsigned. destruct (dec fuel n) as [|c t] eqn:Hd.
  { by apply dec_nonempty in Hd. }
  rewrite decide_False by by apply digit_not_sign, (dec_head fuel n c t).
  rewrite <-Hd, digits_value_dec by done. cbn [mbind option_bind]. by rewrite (proj2 (Z.leb_le _ _)).
Qed.

Lemma parse_show_i128 n : in_i128 n -> parse_i128 (show_i128 n) = Some n.
Proof.
  intros Hn. unfold show_i128. assert (0 <= Z.abs n < 10 ^ Z.of_nat 40) as Hr.
  { change (10 ^ Z.of_nat 40) with 10000000000000000000000000000000000000000.
    unfold in_i128, i128_min, i128_max in Hn. lia. }
  destruct (Z.ltb_spec n 0) as [Hneg|Hpos].
  - cbn [parse_i128]. rewrite decide_True by done.
    rewrite digits_value_dec by lia. cbn [mbind option_bind]. rewrite Z.opp_involutive. by rewrite decide_True.
  - unfold parse_i128. destruct (dec 40 n) as [|c t] eqn:Hd; [by apply dec_nonempty in Hd; [|lia]|].
    destruct (digit_not_sign c) as [Hp Hm]; [by eapply dec_head|].
    rewrite !decide_False by done. rewrite <-Hd, digits_value_dec by lia.
    cbn [mbind option_bind]. by rewrite decide_True.
Qed.

End Decimal.
