(* ===== verification/Json.v ===== *)
(** * JSON values and HTTP exchanges

    The part of [serde_json::Value] the services use (its numbers here are the integers), an HTTP exchange as
    a request and an answer, and the split of a request target into path segments and query
    parameters. *)

From Stdlib Require Import ZArith Lia Strings.Byte Strings.String.
From stdpp Require Import base option list gmap numbers.
From S2P Require Import Prelude Bytes Text.
Open Scope Z_scope.

Set Warnings "-register-all".
Inductive Value : Type :=
| JNull
| JBool (b : bool)
| JNumber (n : Z)
| JString (s : bytes)
| JArray (items : list Value)
| JObject (fields : list (bytes * Value)).

(** [json!({ "name": value, .. })]. *)
Definition jobject (fields : list (string * Value)) : Value :=
  JObject ((fun f => (bstr f.1, f.2)) <$> fields).
Definition jtext (s : string) : Value := JString (bstr s).
(** How an [Option<String>] is serialised. *)
Definition joption (o : option bytes) : Value := match o with Some s => JString s | None => JNull end.

(** [value.get(key)]. *)
Definition get (v : Value) (key : string) : option Value :=
  match v with
  | JObject fields => snd <$> head (filter (fun f => f.1 = bstr key) fields)
  | _ => None
  end.
(** [value.pointer("/a/b")], on objects. *)
Fixpoint pointer (v : Value) (keys : list string) : option Value :=
  match keys with [] => Some v | k :: keys => v ← get v k; pointer v keys end.
Definition as_str (v : Value) : option bytes := match v with JString s => Some s | _ => None end.
Definition as_u64 (v : Value) : option Z :=
  match v with JNumber n => if decide (in_u64 n) then Some n else None | _ => None end.
Definition as_array (v : Value) : option (list Value) := match v with JArray l => Some l | _ => None end.

(** [string_field] of [crates/core/src/conversion.rs]. *)
Definition string_field (value : Value) (key : string) : bytes :=
  default [] (v ← get value key; as_str v).

(** ** HTTP *)

Inductive Method : Type := GET | POST.
(** The target is the path with its query; the body is present for [POST]. *)
Record Request : Type := MkRequest { req_method : Method; req_target : bytes; req_body : Value }.
Record Answer : Type := MkAnswer { status : Z; answer_body : Value }.

(** [status.is_success()]. *)
Definition is_success (code : Z) : bool := (200 <=? code) && (code <? 300).

(** What a client sees: no connection or an unreadable body, or an answer. *)
Definition Http : Type := Request -> option Answer.

(** [s.split(sep)]. *)
Fixpoint split_on (sep : byte) (s : bytes) : list bytes :=
  match s with
  | [] => [[]]
  | c :: s =>
      if decide (c = sep) then [] :: split_on sep s
      else match split_on sep s with [] => [[c]] | w :: ws => (c :: w) :: ws end
  end.
(** [s.split_once(sep)]. *)
Fixpoint split_once (sep : byte) (s : bytes) : option (bytes * bytes) :=
  match s with
  | [] => None
  | c :: s =>
      if decide (c = sep) then Some ([], s) else '(a, b) ← split_once sep s; Some (c :: a, b)
  end.

Definition slash : byte := Byte.x2f.
Definition question : byte := Byte.x3f.
Definition ampersand : byte := Byte.x26.
Definition equals : byte := Byte.x3d.

(** The segments of the path, without the empty one before the leading slash, and the parameters. *)
Definition target_parts (target : bytes) : list bytes * list (bytes * bytes) :=
  let '(path, query) :=
    match split_once question target with Some (p, q) => (p, q) | None => (target, []) end in
  (drop 1 (split_on slash path),
   omap (split_once equals) (split_on ampersand query)).

(** Characters that stand for themselves in a target ([unreserved] in RFC 3986), and the few ICS-24
    identifiers add that no URL parser changes. *)
Definition url_safe_byte (b : byte) : Prop :=
  let c := Z_of_byte b in
  48 <= c < 58 \/ 65 <= c < 91 \/ 97 <= c < 123 \/ c = 45 \/ c = 46 \/ c = 95 \/ c = 126.
Definition url_safe (s : bytes) : Prop := Forall url_safe_byte s.
#[export] Instance url_safe_byte_dec b : Decision (url_safe_byte b).
Proof. unfold url_safe_byte. apply _. Defined.
#[export] Instance url_safe_dec s : Decision (url_safe s).
Proof. unfold url_safe. apply _. Defined.

(** ** Lemmas *)

Lemma split_on_plain sep s : sep ∉ s -> split_on sep s = [s].
Proof.
  induction s as [|c s IH]; [done|]. rewrite not_elem_of_cons. intros [Hc Hs]. cbn [split_on].
  rewrite decide_False by congruence. by rewrite IH.
Qed.

Lemma split_on_app sep s r : sep ∉ s -> split_on sep (s ++ sep :: r) = s :: split_on sep r.
Proof.
  induction s as [|c s IH]; cbn [app split_on]; [by rewrite decide_True|].
  rewrite not_elem_of_cons. intros [Hc Hs]. rewrite decide_False by congruence. by rewrite IH.
Qed.

Lemma split_once_plain sep s : sep ∉ s -> split_once sep s = None.
Proof.
  induction s as [|c s IH]; [done|]. rewrite not_elem_of_cons. intros [Hc Hs]. cbn [split_once].
  rewrite decide_False by congruence. by rewrite IH.
Qed.

Lemma split_once_app sep s r : sep ∉ s -> split_once sep (s ++ sep :: r) = Some (s, r).
Proof.
  induction s as [|c s IH]; cbn [app split_once]; [by rewrite decide_True|].
  rewrite not_elem_of_cons. intros [Hc Hs]. rewrite decide_False by congruence. by rewrite IH.
Qed.

Lemma url_safe_no s b : url_safe s -> ~ url_safe_byte b -> b ∉ s.
Proof. intros Hs Hb Hin. unfold url_safe in Hs. rewrite list.Forall_forall in Hs. by apply Hb, Hs. Qed.

Lemma separators_unsafe :
  ~ url_safe_byte slash /\ ~ url_safe_byte question /\ ~ url_safe_byte ampersand /\ ~ url_safe_byte equals.
Proof. unfold url_safe_byte. split_and!; vm_compute; intuition congruence. Qed.

Lemma dec_url_safe fuel n : url_safe (dec fuel n).
Proof.
  eapply list.Forall_impl; [apply dec_all_digits|]. intros b Hb. left. exact Hb.
Qed.

Definition segment_path (segments : list bytes) : bytes := mjoin ((fun s => slash :: s) <$> segments).

Lemma segment_path_no b segments :
  b <> slash -> Forall (fun s => b ∉ s) segments -> b ∉ segment_path segments.
Proof.
  intros Hb Hs. unfold segment_path. induction Hs as [|s l Hs Hl IH]; csimpl.
  - apply not_elem_of_nil.
  - rewrite elem_of_cons, elem_of_app. naive_solver.
Qed.

Lemma split_segments s l :
  Forall (fun s => slash ∉ s) (s :: l) -> split_on slash (s ++ segment_path l) = s :: l.
Proof.
  revert s. induction l as [|t l IH]; intros s Hs; apply list.Forall_cons in Hs as [Hs Hl].
  - unfold segment_path. csimpl. rewrite app_nil_r. by apply split_on_plain.
  - change (segment_path (t :: l)) with (slash :: (t ++ segment_path l)).
    rewrite split_on_app by done. by rewrite IH.
Qed.

(** A path of safe segments is read as these segments. *)
Lemma target_of_segments segments :
  Forall url_safe segments -> target_parts (segment_path segments) = (segments, []).
Proof.
  intros Hs. destruct separators_unsafe as (Hsl & Hq & _ & _). unfold target_parts.
  rewrite split_once_plain.
  2: { apply segment_path_no; [done|]. eapply list.Forall_impl; [exact Hs|]. intros. by apply url_safe_no. }
  change (segment_path segments) with ([] ++ segment_path segments).
  rewrite (split_segments []); [done|]. constructor; [apply not_elem_of_nil|].
  eapply list.Forall_impl; [exact Hs|]. intros. by apply url_safe_no.
Qed.
