(* ===== verification/TendermintStates.v ===== *)
(** * Tendermint states on their way to Soroban
      ([crates/core/src/ibc/{client_state,consensus_state,soroban}.rs])

    The gateway receives Tendermint client states, consensus states and headers as protocol-buffer
    messages and hands them to the light-client contract as XDR structs, and back.  The types of the
    [ibc] and [ibc-proto] crates are the parameter [IbcTendermint]: what the code reads of them, and how
    they are decoded, encoded and checked. *)

From Stdlib Require Import ZArith Lia Strings.Byte Strings.String.
From stdpp Require Import base option list gmap numbers.
From S2P Require Import Prelude Bytes Crypto Host CoreCommitment LcTendermint Prost WasmTypes.
From S2P Require Import Conversion Xdr ContractValues.
Open Scope Z_scope.
Import TendermintLightClient.

(** ** The types of the crates *)

Record RawHeight : Type := MkRawHeight { rh_number : Z; rh_height : Z }.
Record StdDuration : Type := MkStdDuration { as_secs : Z; subsec_nanos : Z }.
(** [google.protobuf.Duration] and [Timestamp]: [i64] seconds. *)
Record ProtoTime : Type := MkProtoTime { seconds : Z; nanos : Z }.
Record Fraction : Type := MkFraction { fr_numerator : Z; fr_denominator : Z }.

(** What the code reads of [ClientState::inner()] and [ConsensusState::inner()]. *)
Record ClientInner : Type := MkClientInner {
  in_chain_id : bytes;
  in_trust_numerator : Z;
  in_trust_denominator : Z;
  in_trusting_period : StdDuration;
  in_unbonding_period : StdDuration;
  in_max_clock_drift : StdDuration;
  in_latest_height : RawHeight;
  in_frozen_height : option RawHeight;
}.
Record ConsensusInner : Type := MkConsensusInner {
  in_unix_timestamp : Z;
  in_next_validators_hash : bytes;
  in_root : bytes;
}.

(** [RawTmClientState]; [P] is the type of the proof specifications. *)
Record RawTmClientState (P : Type) : Type := MkRawClient {
  raw_chain_id : bytes;
  raw_trust_level : option Fraction;
  raw_trusting_period : option ProtoTime;
  raw_unbonding_period : option ProtoTime;
  raw_max_clock_drift : option ProtoTime;
  raw_frozen_height : option RawHeight;
  raw_latest_height : option RawHeight;
  raw_proof_specs : P;
  raw_upgrade_path : list bytes;
  raw_allow_update_after_expiry : bool;
  raw_allow_update_after_misbehaviour : bool;
}.
Arguments MkRawClient {P}.
Record RawTmConsensusState : Type := MkRawConsensus {
  raw_timestamp : option ProtoTime;
  raw_root : option bytes;
  raw_next_validators_hash : bytes;
}.

(** The inner header of a signed header, and [RawTmHeader]; [S] and [V] are the types of signed headers
    and validator sets. *)
Record InnerHeader : Type := MkInnerHeader {
  ih_height : Z;
  ih_time : option ProtoTime;
  ih_next_validators_hash : bytes;
  ih_app_hash : bytes;
}.
Record RawTmHeader (S V : Type) : Type := MkRawHeader {
  raw_signed_header : option S;
  raw_validator_set : option V;
  raw_trusted_height : option RawHeight;
}.
Arguments raw_signed_header {S V}.
Arguments raw_validator_set {S V}.
Arguments raw_trusted_height {S V}.
Arguments MkRawHeader {S V}.

Class IbcTendermint := {
  ProofSpecs : Type;
  cosmos_proof_specs : ProofSpecs;                      (* ProofSpecs::cosmos().into() *)
  TmClientState : Type;
  TmConsensusState : Type;
  client_inner : TmClientState -> ClientInner;
  consensus_inner : TmConsensusState -> ConsensusInner;
  client_decode_vec : bytes -> option TmClientState;    (* Protobuf::<RawTmClientState>::decode_vec *)
  client_encode_vec : TmClientState -> bytes;
  consensus_decode_vec : bytes -> option TmConsensusState;
  consensus_encode_vec : TmConsensusState -> bytes;
  client_try_from : RawTmClientState ProofSpecs -> option TmClientState;
  consensus_try_from : RawTmConsensusState -> option TmConsensusState;
  SignedHeader : Type;
  ValidatorSet : Type;
  signed_header_inner : SignedHeader -> option InnerHeader;
  signed_header_encode : SignedHeader -> bytes;
  validator_set_encode : ValidatorSet -> bytes;
  header_decode : bytes -> option (RawTmHeader SignedHeader ValidatorSet);
}.
(** [Protobuf] decodes what it encoded. *)
Class IbcTendermintLaws `{IbcTendermint} : Prop := {
  client_decode_encode cs : client_decode_vec (client_encode_vec cs) = Some cs;
  consensus_decode_encode cs : consensus_decode_vec (consensus_encode_vec cs) = Some cs;
}.

(** [n as u32], and [n as i64] of a [u64]. *)
Definition as_u32 (n : Z) : Z := n mod 2 ^ 32.
Definition as_i64 (n : Z) : Z := if n <? 2 ^ 63 then n else n - 2 ^ 64.
(** [n.max(0) as u64] of an [i64]. *)
Definition at_least_zero (n : Z) : Z := Z.max n 0.

(** ** [client_state.rs] and [consensus_state.rs] *)

Definition TENDERMINT_CLIENT_STATE_TYPE_URL : bytes := bstr "/ibc.lightclients.tendermint.v1.ClientState".
Definition TENDERMINT_CONSENSUS_STATE_TYPE_URL : bytes :=
  bstr "/ibc.lightclients.tendermint.v1.ConsensusState".

Section Gateway.
Context `{IbcTendermint}.

Inductive AnyClientState : Type := TendermintClient (cs : TmClientState).
Inductive AnyConsensusState : Type := TendermintConsensus (cs : TmConsensusState).

Definition client_try_from_any (raw : Any) : result XdrError AnyClientState :=
  if decide (type_url raw = TENDERMINT_CLIENT_STATE_TYPE_URL) then
    cs ← ok_or (XdrForeign "decode tendermint client state") (client_decode_vec (any_value raw));
    Ok (TendermintClient cs)
  else Err (XdrForeign "unknown client state type_url").
Definition client_to_any (value : AnyClientState) : Any :=
  match value with
  | TendermintClient cs => MkAny TENDERMINT_CLIENT_STATE_TYPE_URL (client_encode_vec cs)
  end.
Definition client_decode_value (b : bytes) : result XdrError AnyClientState :=
  cs ← ok_or (XdrForeign "decode tendermint client state value") (client_decode_vec b);
  Ok (TendermintClient cs).
Definition client_encode_value (value : AnyClientState) : bytes :=
  match value with TendermintClient cs => client_encode_vec cs end.
Definition client_chain_id (value : AnyClientState) : bytes :=
  match value with TendermintClient cs => in_chain_id (client_inner cs) end.
Definition client_revision_number (value : AnyClientState) : Z :=
  match value with TendermintClient cs => rh_number (in_latest_height (client_inner cs)) end.
Definition client_latest_height (value : AnyClientState) : Z :=
  match value with TendermintClient cs => rh_height (in_latest_height (client_inner cs)) end.

Definition consensus_try_from_any (raw : Any) : result XdrError AnyConsensusState :=
  if decide (type_url raw = TENDERMINT_CONSENSUS_STATE_TYPE_URL) then
    cs ← ok_or (XdrForeign "decode tendermint consensus state") (consensus_decode_vec (any_value raw));
    Ok (TendermintConsensus cs)
  else Err (XdrForeign "unknown consensus state type_url").
Definition consensus_to_any (value : AnyConsensusState) : Any :=
  match value with
  | TendermintConsensus cs => MkAny TENDERMINT_CONSENSUS_STATE_TYPE_URL (consensus_encode_vec cs)
  end.
Definition consensus_decode_value (b : bytes) : result XdrError AnyConsensusState :=
  cs ← ok_or (XdrForeign "decode tendermint consensus state value") (consensus_decode_vec b);
  Ok (TendermintConsensus cs).
Definition consensus_encode_value (value : AnyConsensusState) : bytes :=
  match value with TendermintConsensus cs => consensus_encode_vec cs end.
(** [unix_timestamp() as u64]. *)
Definition consensus_timestamp_secs (value : AnyConsensusState) : Z :=
  match value with TendermintConsensus cs => in_unix_timestamp (consensus_inner cs) mod 2 ^ 64 end.

(** ** [soroban.rs] *)

Context `{StringText} `{ScvalXdr}.

Definition sc_get_height (map : ScMapEntries) (name : bytes) : result XdrError RawHeight :=
  h ← converted (scval_map_as_map map name);
  number ← converted (scval_map_u64 h (bstr "revision_number"));
  height ← converted (scval_map_u64 h (bstr "revision_height"));
  Ok (MkRawHeight number height).

Definition client_to_soroban_xdr (value : AnyClientState) : result XdrError bytes :=
  let '(TendermintClient cs) := value in
  let cs := client_inner cs in
  trust_level ← converted (scval_struct
    [(bstr "numerator", ScU32 (as_u32 (in_trust_numerator cs)));
     (bstr "denominator", ScU32 (as_u32 (in_trust_denominator cs)))]);
  let '(frozen_rn, frozen_rh) :=
    match in_frozen_height cs with Some h => (rh_number h, rh_height h) | None => (0, 0) end in
  chain_id ← converted (scval_string (in_chain_id cs));
  latest_height ← converted (scval_height (rh_number (in_latest_height cs)) (rh_height (in_latest_height cs)));
  frozen_height ← converted (scval_height frozen_rn frozen_rh);
  proof_specs ← converted (scval_bytes []);
  state ← converted (scval_struct
    [(bstr "chain_id", chain_id); (bstr "trust_level", trust_level);
     (bstr "trusting_period_secs", ScU64 (as_secs (in_trusting_period cs)));
     (bstr "unbonding_period_secs", ScU64 (as_secs (in_unbonding_period cs)));
     (bstr "max_clock_drift_secs", ScU64 (as_secs (in_max_clock_drift cs)));
     (bstr "latest_height", latest_height);
     (bstr "is_frozen", ScBool (bool_decide (is_Some (in_frozen_height cs))));
     (bstr "frozen_height", frozen_height); (bstr "proof_specs", proof_specs)]);
  scval_to_xdr state.

Definition client_from_soroban_xdr (b : bytes) : result XdrError AnyClientState :=
  val ← scval_from_xdr b;
  map ← ok_or (XdrNotAMap "client_state") (scval_as_map val);
  trust ← converted (scval_map_as_map map (bstr "trust_level"));
  frozen_height ← sc_get_height map (bstr "frozen_height");
  chain_id ← converted (scval_map_string map (bstr "chain_id"));
  numerator ← converted (scval_map_u32 trust (bstr "numerator"));
  denominator ← converted (scval_map_u32 trust (bstr "denominator"));
  trusting ← converted (scval_map_u64 map (bstr "trusting_period_secs"));
  unbonding ← converted (scval_map_u64 map (bstr "unbonding_period_secs"));
  drift ← converted (scval_map_u64 map (bstr "max_clock_drift_secs"));
  latest_height ← sc_get_height map (bstr "latest_height");
  let raw := MkRawClient chain_id (Some (MkFraction numerator denominator))
    (Some (MkProtoTime (as_i64 trusting) 0)) (Some (MkProtoTime (as_i64 unbonding) 0))
    (Some (MkProtoTime (as_i64 drift) 0)) (Some frozen_height) (Some latest_height)
    cosmos_proof_specs [bstr "upgrade"; bstr "upgradedIBCState"] false false in
  cs ← ok_or (XdrForeign "tendermint client state from raw") (client_try_from raw);
  Ok (TendermintClient cs).

Definition tendermint_header_to_soroban_xdr (header_bytes : bytes) : result XdrError bytes :=
  header ← ok_or (XdrForeign "decode tendermint header") (header_decode header_bytes);
  signed_header ← ok_or (XdrForeign "tendermint header missing signed_header") (raw_signed_header header);
  inner ← ok_or (XdrForeign "signed_header missing inner header") (signed_header_inner signed_header);
  trusted_height ← ok_or (XdrForeign "tendermint header missing trusted_height") (raw_trusted_height header);
  target_revision_height ←
    (if ih_height inner <? 0 then Err (XdrForeign "negative target height") else Ok (ih_height inner));
  let secs := match ih_time inner with Some t => at_least_zero (seconds t) | None => 0 end in
  _ ← (if decide (length (ih_next_validators_hash inner) = 32%nat) then Ok tt
       else Err (XdrForeign "next_validators_hash length"));
  _ ← (if decide (length (ih_app_hash inner) = 32%nat) then Ok tt
       else Err (XdrForeign "app_hash length"));
  let validator_set_bytes := default [] (validator_set_encode <$> raw_validator_set header) in
  let signed_header_bytes := signed_header_encode signed_header in
  trusted ← converted (scval_height (rh_number trusted_height) (rh_height trusted_height));
  target ← converted (scval_height (rh_number trusted_height) target_revision_height);
  nvh ← converted (scval_bytes (ih_next_validators_hash inner));
  app ← converted (scval_bytes (ih_app_hash inner));
  shb ← converted (scval_bytes signed_header_bytes);
  vsb ← converted (scval_bytes validator_set_bytes);
  state ← converted (scval_struct
    [(bstr "trusted_height", trusted); (bstr "target_height", target); (bstr "timestamp_secs", ScU64 secs);
     (bstr "next_validators_hash", nvh); (bstr "app_hash", app); (bstr "signed_header_bytes", shb);
     (bstr "validator_set_bytes", vsb)]);
  scval_to_xdr state.

Definition consensus_to_soroban_xdr (value : AnyConsensusState) : result XdrError bytes :=
  let '(TendermintConsensus cs) := value in
  let cs := consensus_inner cs in
  nvh ← converted (scval_bytes (in_next_validators_hash cs));
  root ← converted (scval_bytes (in_root cs));
  state ← converted (scval_struct
    [(bstr "timestamp_secs", ScU64 (at_least_zero (in_unix_timestamp cs)));
     (bstr "next_validators_hash", nvh); (bstr "root", root)]);
  scval_to_xdr state.

Definition consensus_from_soroban_xdr (b : bytes) : result XdrError AnyConsensusState :=
  val ← scval_from_xdr b;
  map ← ok_or (XdrNotAMap "consensus_state") (scval_as_map val);
  secs ← converted (scval_map_u64 map (bstr "timestamp_secs"));
  nvh ← converted (scval_map_bytes map (bstr "next_validators_hash"));
  root ← converted (scval_map_bytes map (bstr "root"));
  let raw := MkRawConsensus (Some (MkProtoTime (as_i64 secs) 0)) (Some root) nvh in
  cs ← ok_or (XdrForeign "tendermint consensus state from raw") (consensus_try_from raw);
  Ok (TendermintConsensus cs).

End Gateway.

(** ** The contract's types ([light-clients/tendermint/src/lib.rs]) as Soroban values *)

Definition height_fields (h : Height) : list (bytes * ScVal) :=
  [(bstr "revision_number", ScU64 (revision_number h)); (bstr "revision_height", ScU64 (revision_height h))].
Definition height_to_scval (h : Height) : ScVal := pack_struct (height_fields h).
Definition height_of_scval (v : ScVal) : option Height :=
  fs ← unpack_struct [bstr "revision_height"; bstr "revision_number"] v;
  match fs with
  | [h; n] => h ← scval_as_u64 h; n ← scval_as_u64 n; Some (MkHeight n h)
  | _ => None
  end.

Definition trust_fields (t : TrustThreshold) : list (bytes * ScVal) :=
  [(bstr "numerator", ScU32 (numerator t)); (bstr "denominator", ScU32 (denominator t))].
Definition trust_of_scval (v : ScVal) : option TrustThreshold :=
  fs ← unpack_struct [bstr "denominator"; bstr "numerator"] v;
  match fs with
  | [d; n] => d ← scval_as_u32 d; n ← scval_as_u32 n; Some (MkTrust n d)
  | _ => None
  end.

Definition as_boolean (v : ScVal) : option bool := match v with ScBool b => Some b | _ => None end.

Definition client_fields (c : TendermintClientState) : list (bytes * ScVal) :=
  [(bstr "chain_id", ScString (chain_id c)); (bstr "trust_level", pack_struct (trust_fields (trust_level c)));
   (bstr "trusting_period_secs", ScU64 (trusting_period_secs c));
   (bstr "unbonding_period_secs", ScU64 (unbonding_period_secs c));
   (bstr "max_clock_drift_secs", ScU64 (max_clock_drift_secs c));
   (bstr "latest_height", height_to_scval (cs_latest_height c)); (bstr "is_frozen", ScBool (is_frozen c));
   (bstr "frozen_height", height_to_scval (frozen_height c)); (bstr "proof_specs", ScBytes (proof_specs c))].
Definition client_to_scval (c : TendermintClientState) : ScVal := pack_struct (client_fields c).
Definition client_of_scval (v : ScVal) : option TendermintClientState :=
  fs ← unpack_struct [bstr "chain_id"; bstr "frozen_height"; bstr "is_frozen"; bstr "latest_height";
    bstr "max_clock_drift_secs"; bstr "proof_specs"; bstr "trust_level"; bstr "trusting_period_secs";
    bstr "unbonding_period_secs"] v;
  match fs with
  | [ci; fh; fr; lh; md; ps; tl; tp; up] =>
      ci ← as_string ci; fh ← height_of_scval fh; fr ← as_boolean fr; lh ← height_of_scval lh;
      md ← scval_as_u64 md; ps ← scval_as_bytes ps; tl ← trust_of_scval tl; tp ← scval_as_u64 tp;
      up ← scval_as_u64 up; Some (MkClientState ci tl tp up md lh fr fh ps)
  | _ => None
  end.

Definition consensus_fields (c : TendermintConsensusState) : list (bytes * ScVal) :=
  [(bstr "timestamp_secs", ScU64 (cons_timestamp_secs c));
   (bstr "next_validators_hash", ScBytes (cons_next_validators_hash c)); (bstr "root", ScBytes (root c))].
Definition consensus_to_scval (c : TendermintConsensusState) : ScVal := pack_struct (consensus_fields c).
Definition consensus_of_scval (v : ScVal) : option TendermintConsensusState :=
  fs ← unpack_struct [bstr "next_validators_hash"; bstr "root"; bstr "timestamp_secs"] v;
  match fs with
  | [nv; rt; ts] =>
      nv ← as_bytes_n 32 nv; rt ← as_bytes_n 32 rt; ts ← scval_as_u64 ts; Some (MkConsensus ts nv rt)
  | _ => None
  end.

Definition header_fields (h : TendermintHeader) : list (bytes * ScVal) :=
  [(bstr "trusted_height", height_to_scval (trusted_height h));
   (bstr "target_height", height_to_scval (target_height h)); (bstr "timestamp_secs", ScU64 (timestamp_secs h));
   (bstr "next_validators_hash", ScBytes (next_validators_hash h)); (bstr "app_hash", ScBytes (app_hash h));
   (bstr "signed_header_bytes", ScBytes (signed_header_bytes h));
   (bstr "validator_set_bytes", ScBytes (validator_set_bytes h))].
Definition header_of_scval (v : ScVal) : option TendermintHeader :=
  fs ← unpack_struct [bstr "app_hash"; bstr "next_validators_hash"; bstr "signed_header_bytes";
    bstr "target_height"; bstr "timestamp_secs"; bstr "trusted_height"; bstr "validator_set_bytes"] v;
  match fs with
  | [ah; nv; sh; ta; ts; tr; vs] =>
      ah ← as_bytes_n 32 ah; nv ← as_bytes_n 32 nv; sh ← scval_as_bytes sh; ta ← height_of_scval ta;
      ts ← scval_as_u64 ts; tr ← height_of_scval tr; vs ← scval_as_bytes vs;
      Some (MkHeader tr ta ts nv ah sh vs)
  | _ => None
  end.

(** The SDK's codecs of these types: XDR of the value. *)
Definition sdk_tm_xdr `{ScvalXdr} : TmXdr := {|
  client_state_from_xdr b := xdr_typed client_of_scval (from_xdr b);
  client_state_to_xdr c := default [] (to_xdr (client_to_scval c));
  consensus_state_from_xdr b := xdr_typed consensus_of_scval (from_xdr b);
  consensus_state_to_xdr c := default [] (to_xdr (consensus_to_scval c));
  header_from_xdr b := xdr_typed header_of_scval (from_xdr b);
|}.

Lemma client_of_to_scval c : client_of_scval (client_to_scval c) = Some c.
Proof. by destruct c as [ci [n d] tp up md [ln lh] fr [fn fh] ps]. Qed.

Lemma as_bytes_n_eq n b : length b = n -> as_bytes_n n (ScBytes b) = Some b.
Proof. intros Hb. unfold as_bytes_n. cbn [scval_as_bytes mbind option_bind]. by rewrite decide_True. Qed.
Lemma as_bytes_n_ne n b : length b <> n -> as_bytes_n n (ScBytes b) = None.
Proof. intros Hb. unfold as_bytes_n. cbn [scval_as_bytes mbind option_bind]. by rewrite decide_False. Qed.

Lemma consensus_of_to_scval c :
  consensus_of_scval (consensus_to_scval c) =
  if decide (length (cons_next_validators_hash c) = 32%nat /\ length (root c) = 32%nat) then Some c else None.
Proof.
  destruct c as [ts nv rt]. unfold consensus_of_scval.
  change (unpack_struct _ _) with (Some [ScBytes nv; ScBytes rt; ScU64 ts]). cbn [mbind option_bind].
  cbn [cons_next_validators_hash root].
  case_decide as Hlen; [destruct Hlen; by rewrite !as_bytes_n_eq|].
  destruct (decide (length nv = 32%nat)) as [Hn|Hn]; [|by rewrite (as_bytes_n_ne 32 nv)].
  rewrite (as_bytes_n_eq 32 nv) by done. cbn [mbind option_bind]. rewrite (as_bytes_n_ne 32 rt); [done|tauto].
Qed.

Lemma header_of_to_scval h :
  length (app_hash h) = 32%nat -> length (next_validators_hash h) = 32%nat ->
  header_of_scval (pack_struct (header_fields h)) = Some h.
Proof.
  destruct h as [[trn trh] [tan tah] ts nv ah sh vs]. cbn [app_hash next_validators_hash]. intros Ha Hn.
  unfold header_of_scval.
  change (unpack_struct _ _) with
    (Some [ScBytes ah; ScBytes nv; ScBytes sh; height_to_scval (MkHeight tan tah); ScU64 ts;
           height_to_scval (MkHeight trn trh); ScBytes vs]).
  cbn [mbind option_bind]. rewrite !as_bytes_n_eq by done. done.
Qed.

(** ** What crosses *)

(** The contract's view of a client state, a consensus state and a header. *)
Definition contract_height (h : RawHeight) : Height := MkHeight (rh_number h) (rh_height h).
Definition contract_client (cs : ClientInner) : TendermintClientState :=
  MkClientState (in_chain_id cs)
    (MkTrust (as_u32 (in_trust_numerator cs)) (as_u32 (in_trust_denominator cs)))
    (as_secs (in_trusting_period cs)) (as_secs (in_unbonding_period cs)) (as_secs (in_max_clock_drift cs))
    (contract_height (in_latest_height cs)) (bool_decide (is_Some (in_frozen_height cs)))
    (match in_frozen_height cs with Some h => contract_height h | None => MkHeight 0 0 end) [].
Definition contract_consensus (cs : ConsensusInner) : TendermintConsensusState :=
  MkConsensus (at_least_zero (in_unix_timestamp cs)) (in_next_validators_hash cs) (in_root cs).

Section Crossing.
Context `{IbcTendermint} `{StringTextLaws} `{!ScvalXdr} `{!ScvalXdrLaws}.

Definition contract_header (header : RawTmHeader SignedHeader ValidatorSet) (sh : SignedHeader)
    (inner : InnerHeader) (trusted : RawHeight) : TendermintHeader :=
  MkHeader (contract_height trusted) (MkHeight (rh_number trusted) (ih_height inner))
    (match ih_time inner with Some t => at_least_zero (seconds t) | None => 0 end)
    (ih_next_validators_hash inner) (ih_app_hash inner) (signed_header_encode sh)
    (default [] (validator_set_encode <$> raw_validator_set header)).

(** The message [ibc] builds of a stored client state. *)
Definition raw_of_contract (c : TendermintClientState) : RawTmClientState ProofSpecs :=
  MkRawClient (chain_id c) (Some (MkFraction (numerator (trust_level c)) (denominator (trust_level c))))
    (Some (MkProtoTime (as_i64 (trusting_period_secs c)) 0))
    (Some (MkProtoTime (as_i64 (unbonding_period_secs c)) 0))
    (Some (MkProtoTime (as_i64 (max_clock_drift_secs c)) 0))
    (Some (MkRawHeight (revision_number (frozen_height c)) (revision_height (frozen_height c))))
    (Some (MkRawHeight (revision_number (cs_latest_height c)) (revision_height (cs_latest_height c))))
    cosmos_proof_specs [bstr "upgrade"; bstr "upgradedIBCState"] false false.
Definition raw_of_contract_consensus (c : TendermintConsensusState) : RawTmConsensusState :=
  MkRawConsensus (Some (MkProtoTime (as_i64 (cons_timestamp_secs c)) 0)) (Some (root c))
    (cons_next_validators_hash c).

Lemma converted_Ok {A} (a : A) : converted (Ok a) = Ok a.
Proof. done. Qed.

Lemma scval_height_pack n h : scval_height n h = Ok (height_to_scval (MkHeight n h)).
Proof. by apply scval_struct_pack. Qed.

Lemma client_to_soroban cs :
  client_to_soroban_xdr (TendermintClient cs) =
  if fits u32_max (in_chain_id (client_inner cs))
  then scval_to_xdr (client_to_scval (contract_client (client_inner cs)))
  else Err (XdrConversion (InvalidString (in_chain_id (client_inner cs)))).
Proof.
  unfold client_to_soroban_xdr. destruct (client_inner cs) as [ci tn td tp up md lh fh].
  cbn [in_chain_id in_trust_numerator in_trust_denominator in_trusting_period in_unbonding_period
       in_max_clock_drift in_latest_height in_frozen_height].
  rewrite scval_struct_pack by done. cbn [converted mbind result_bind]. unfold scval_string.
  destruct fh as [[fn fh]|]; (destruct (fits u32_max ci); [|done]); cbn [converted mbind result_bind rh_number rh_height];
    rewrite !scval_height_pack; change (scval_bytes []) with (Ok (E:=ConversionError) (ScBytes []));
    cbn [converted mbind result_bind]; (rewrite scval_struct_pack by done); done.
Qed.

Lemma consensus_to_soroban cs :
  fits u32_max (in_next_validators_hash (consensus_inner cs)) = true ->
  fits u32_max (in_root (consensus_inner cs)) = true ->
  consensus_to_soroban_xdr (TendermintConsensus cs) =
  scval_to_xdr (consensus_to_scval (contract_consensus (consensus_inner cs))).
Proof.
  intros Hn Hr. unfold consensus_to_soroban_xdr, scval_bytes. rewrite Hn, Hr.
  cbn [converted mbind result_bind]. by rewrite scval_struct_pack.
Qed.

Ltac read_map fields name v :=
  rewrite (packed_map_field fields name v); [|plain|reflexivity];
  cbn [converted mbind result_bind ok_or scval_as_u64 scval_as_u32 scval_as_bytes scval_as_string].

Lemma height_read fields name h :
  plain_text name ->
  snd <$> head (filter (fun e => e.1 = name) (sort_entries fields)) = Some (height_to_scval h) ->
  sc_get_height (struct_entries fields) name = Ok (MkRawHeight (revision_number h) (revision_height h)).
Proof.
  intros Hn Hf. unfold sc_get_height, scval_map_as_map. rewrite (packed_map_field _ _ _ Hn Hf).
  cbn [mbind result_bind]. change (scval_as_map (height_to_scval h)) with (Some (struct_entries (height_fields h))).
  cbn [converted mbind result_bind ok_or]. unfold scval_map_u64.
  read_map (height_fields h) (bstr "revision_number") (ScU64 (revision_number h)).
  read_map (height_fields h) (bstr "revision_height") (ScU64 (revision_height h)). done.
Qed.

Lemma client_from_soroban b c :
  from_xdr b = Some (client_to_scval c) -> plain_text (chain_id c) ->
  client_from_soroban_xdr b =
  match client_try_from (raw_of_contract c) with
  | Some cs => Ok (TendermintClient cs)
  | None => Err (XdrForeign "tendermint client state from raw")
  end.
Proof.
  intros Hb Hc. unfold client_from_soroban_xdr, scval_from_xdr. rewrite Hb.
  cbn [ok_or mbind result_bind].
  change (scval_as_map (client_to_scval c)) with (Some (struct_entries (client_fields c))).
  cbn [ok_or mbind result_bind]. unfold scval_map_as_map, scval_map_u64, scval_map_u32, scval_map_string.
  read_map (client_fields c) (bstr "trust_level") (pack_struct (trust_fields (trust_level c))).
  change (scval_as_map (pack_struct (trust_fields (trust_level c))))
    with (Some (struct_entries (trust_fields (trust_level c)))). cbn [converted mbind result_bind ok_or].
  rewrite (height_read (client_fields c) (bstr "frozen_height") (frozen_height c)); [|plain|reflexivity].
  cbn [mbind result_bind].
  read_map (client_fields c) (bstr "chain_id") (ScString (chain_id c)). rewrite (plain_text_prints _ Hc).
  read_map (trust_fields (trust_level c)) (bstr "numerator") (ScU32 (numerator (trust_level c))).
  read_map (trust_fields (trust_level c)) (bstr "denominator") (ScU32 (denominator (trust_level c))).
  read_map (client_fields c) (bstr "trusting_period_secs") (ScU64 (trusting_period_secs c)).
  read_map (client_fields c) (bstr "unbonding_period_secs") (ScU64 (unbonding_period_secs c)).
  read_map (client_fields c) (bstr "max_clock_drift_secs") (ScU64 (max_clock_drift_secs c)).
  rewrite (height_read (client_fields c) (bstr "latest_height") (cs_latest_height c)); [|plain|reflexivity].
  cbn [mbind result_bind]. fold (raw_of_contract c). by destruct (client_try_from (raw_of_contract c)).
Qed.

Lemma consensus_from_soroban b c :
  from_xdr b = Some (consensus_to_scval c) ->
  consensus_from_soroban_xdr b =
  match consensus_try_from (raw_of_contract_consensus c) with
  | Some cs => Ok (TendermintConsensus cs)
  | None => Err (XdrForeign "tendermint consensus state from raw")
  end.
Proof.
  intros Hb. unfold consensus_from_soroban_xdr, scval_from_xdr. rewrite Hb. cbn [ok_or mbind result_bind].
  change (scval_as_map (consensus_to_scval c)) with (Some (struct_entries (consensus_fields c))).
  cbn [ok_or mbind result_bind]. unfold scval_map_u64, scval_map_bytes.
  read_map (consensus_fields c) (bstr "timestamp_secs") (ScU64 (cons_timestamp_secs c)).
  read_map (consensus_fields c) (bstr "next_validators_hash") (ScBytes (cons_next_validators_hash c)).
  read_map (consensus_fields c) (bstr "root") (ScBytes (root c)).
  fold (raw_of_contract_consensus c). by destruct (consensus_try_from _).
Qed.

Lemma client_to_soroban_Ok cs x :
  client_to_soroban_xdr (TendermintClient cs) = Ok x ->
  to_xdr (client_to_scval (contract_client (client_inner cs))) = Some x.
Proof.
  rewrite client_to_soroban. destruct (fits _ _); [|done]. unfold scval_to_xdr. apply ok_or_Ok.
Qed.

Lemma scval_bytes_Ok b v : scval_bytes b = Ok v -> fits u32_max b = true /\ v = ScBytes b.
Proof. unfold scval_bytes. destruct (fits u32_max b); [|done]. by intros [= <-]. Qed.

Lemma converted_inv {A} (r : result ConversionError A) a : converted r = Ok a -> r = Ok a.
Proof. destruct r; [|done]. by intros [= ->]. Qed.

Lemma consensus_to_soroban_Ok cs y :
  consensus_to_soroban_xdr (TendermintConsensus cs) = Ok y ->
  to_xdr (consensus_to_scval (contract_consensus (consensus_inner cs))) = Some y.
Proof.
  intros Hy. pose proof Hy as Hrun. unfold consensus_to_soroban_xdr in Hrun.
  apply result_bind_Ok in Hrun as (a & Ha%converted_inv%scval_bytes_Ok & Hrun).
  apply result_bind_Ok in Hrun as (r & Hr%converted_inv%scval_bytes_Ok & _).
  rewrite consensus_to_soroban in Hy by naive_solver. unfold scval_to_xdr in Hy. by apply ok_or_Ok in Hy.
Qed.

End Crossing.

(** C20: a client the gateway creates from Tendermint states is the client the light-client contract
    stores: the contract reads the gateway's bytes as the same chain, heights, periods (in whole
    seconds), trust level and frozen flag, and refuses a consensus state whose hashes are not of 32
    bytes; and the gateway reads such a stored client, if its chain identifier is plain text, back as the
    message it would build of these fields. *)
Theorem tendermint_states_cross `{IbcTendermint} `{StringTextLaws} `{!ScvalXdr} `{!ScvalXdrLaws}
    cs cons x y env cid h s :
  client_to_soroban_xdr (TendermintClient cs) = Ok x ->
  consensus_to_soroban_xdr (TendermintConsensus cons) = Ok y ->
  let c := contract_client (client_inner cs) in
  let k := contract_consensus (consensus_inner cons) in
  initialise (H:=sdk_tm_xdr) env cid x y h s =
    (if decide (length (cons_next_validators_hash k) = 32%nat /\ length (root k) = 32%nat)
     then Ok (storage_set (min_persistent_ttl env) (Consensus cid h) (TmConsensus k)
                (storage_set (min_persistent_ttl env) (Client cid) (TmClient c) s), tt)
     else Err (error_of InvalidConsensusState)) /\
  (plain_text (in_chain_id (client_inner cs)) ->
   client_from_soroban_xdr x =
     match client_try_from (raw_of_contract c) with
     | Some cs' => Ok (TendermintClient cs')
     | None => Err (XdrForeign "tendermint client state from raw")
     end) /\
  consensus_from_soroban_xdr y =
    match consensus_try_from (raw_of_contract_consensus k) with
    | Some cons' => Ok (TendermintConsensus cons')
    | None => Err (XdrForeign "tendermint consensus state from raw")
    end.
Proof.
  intros Hx%client_to_soroban_Ok%from_to_xdr Hy%consensus_to_soroban_Ok%from_to_xdr c k. split_and!.
  - unfold initialise. cbn [client_state_from_xdr consensus_state_from_xdr sdk_tm_xdr].
    rewrite Hx, Hy. cbn [xdr_typed]. rewrite client_of_to_scval, consensus_of_to_scval.
    fold k. by case_decide.
  - intros Hp. by apply client_from_soroban.
  - by apply consensus_from_soroban.
Qed.

(** a header the gateway relays is the header the contract checks: its bytes are produced only from a
    Tendermint header with a signed header, a trusted height, a height that is not negative and hashes
    of 32 bytes, and the contract reads them as the trusted height, the target height in the revision
    of the trusted one, the time in whole seconds and the hashes of that header. *)
Theorem tendermint_header_crosses `{IbcTendermint} `{StringTextLaws} `{!ScvalXdr} `{!ScvalXdrLaws} b x :
  tendermint_header_to_soroban_xdr b = Ok x ->
  exists header sh inner trusted,
    header_decode b = Some header /\ raw_signed_header header = Some sh /\
    signed_header_inner sh = Some inner /\ raw_trusted_height header = Some trusted /\
    0 <= ih_height inner /\ length (ih_next_validators_hash inner) = 32%nat /\
    length (ih_app_hash inner) = 32%nat /\
    decode_header (H:=sdk_tm_xdr) x = Ok (contract_header header sh inner trusted).
Proof.
  unfold tendermint_header_to_soroban_xdr. intros Hrun.
  apply result_bind_Ok in Hrun as (header & Hh%ok_or_Ok & Hrun).
  apply result_bind_Ok in Hrun as (sh & Hs%ok_or_Ok & Hrun).
  apply result_bind_Ok in Hrun as (inner & Hi%ok_or_Ok & Hrun).
  apply result_bind_Ok in Hrun as (trusted & Ht%ok_or_Ok & Hrun).
  apply result_bind_Ok in Hrun as (target & Hg & Hrun).
  destruct (Z.ltb_spec (ih_height inner) 0) as [|Hpos]; [done|]. apply Ok_inj in Hg as <-.
  apply result_bind_Ok in Hrun as (u1 & Hn & Hrun). case_decide as Hln; [|done].
  apply result_bind_Ok in Hrun as (u2 & Ha & Hrun). case_decide as Hla; [|done].
  rewrite !scval_height_pack in Hrun. rewrite !converted_Ok in Hrun. cbn [mbind result_bind] in Hrun.
  apply result_bind_Ok in Hrun as (nv & [_ ->]%converted_inv%scval_bytes_Ok & Hrun).
  apply result_bind_Ok in Hrun as (ap & [_ ->]%converted_inv%scval_bytes_Ok & Hrun).
  apply result_bind_Ok in Hrun as (sb & [_ ->]%converted_inv%scval_bytes_Ok & Hrun).
  apply result_bind_Ok in Hrun as (vb & [_ ->]%converted_inv%scval_bytes_Ok & Hrun).
  rewrite scval_struct_pack, converted_Ok in Hrun by done. cbn [mbind result_bind] in Hrun.
  unfold scval_to_xdr in Hrun. apply ok_or_Ok, from_to_xdr in Hrun.
  exists header, sh, inner, trusted. split_and!; [done..|]. unfold decode_header. cbn [header_from_xdr sdk_tm_xdr].
  rewrite Hrun. cbn [xdr_typed].
  exact (f_equal (fun o => from_xdr_or _ (match o with None => XdrMistyped | Some a => XdrValue a end))
    (header_of_to_scval (contract_header header sh inner trusted) Hln Hla)).
Qed.

(** ** Examples *)

Module StatesDemo.
#[local] Existing Instances escaped_text escaped_text_laws Rfc4506.scval_xdr Rfc4506.scval_xdr_laws.

Definition inner : ClientInner :=
  MkClientInner (bstr "cosmoshub-4") 1 3 (MkStdDuration 1209600 0) (MkStdDuration 1814400 500)
    (MkStdDuration 40 0) (MkRawHeight 4 100) None.
Definition consensus : ConsensusInner :=
  MkConsensusInner 1700000000 (replicate 32 Byte.x01) (replicate 32 Byte.x02).
Definition tm_header : RawTmHeader InnerHeader bytes :=
  MkRawHeader (Some (MkInnerHeader 120 (Some (MkProtoTime 1700000100 7)) (replicate 32 Byte.x03) (replicate 32 Byte.x04)))
    (Some (bstr "validators")) (Some (MkRawHeight 4 100)).

(** States and headers are their encodings here, which stand for the samples above. *)
#[export] Instance sample_crates : IbcTendermint := {|
  ProofSpecs := unit; cosmos_proof_specs := tt;
  TmClientState := bytes; TmConsensusState := bytes;
  client_inner _ := inner; consensus_inner _ := consensus;
  client_decode_vec := Some; client_encode_vec b := b;
  consensus_decode_vec := Some; consensus_encode_vec b := b;
  client_try_from raw := Some (raw_chain_id _ raw); consensus_try_from raw := raw_root raw;
  SignedHeader := InnerHeader; ValidatorSet := bytes;
  signed_header_inner := Some; signed_header_encode _ := bstr "signed"; validator_set_encode b := b;
  header_decode b := if decide (b = bstr "header") then Some tm_header else None;
|}.
#[export] Instance sample_crates_laws : IbcTendermintLaws.
Proof. by constructor. Qed.

Definition client_xdr : bytes :=
  Eval vm_compute in match client_to_soroban_xdr (TendermintClient []) with Ok x => x | Err _ => [] end.
Definition consensus_xdr : bytes :=
  Eval vm_compute in match consensus_to_soroban_xdr (TendermintConsensus []) with Ok x => x | Err _ => [] end.
Definition header_xdr : bytes :=
  Eval vm_compute in match tendermint_header_to_soroban_xdr (bstr "header") with Ok x => x | Err _ => [] end.
Definition env : Env := MkEnv 1700000000 (ContractAddress (replicate 32 Byte.x13)) None ∅ 100.

Lemma tendermint_states_cross_witness :
  initialise (H:=sdk_tm_xdr) env (bstr "07-tendermint-0") client_xdr consensus_xdr 100 empty_storage =
    Ok (storage_set 100 (Consensus (bstr "07-tendermint-0") 100) (TmConsensus (contract_consensus consensus))
          (storage_set 100 (Client (bstr "07-tendermint-0")) (TmClient (contract_client inner)) empty_storage), tt).
Proof.
  exact (proj1 (tendermint_states_cross [] [] client_xdr consensus_xdr env
    (bstr "07-tendermint-0") 100 empty_storage
    ltac:(vm_compute; reflexivity) ltac:(vm_compute; reflexivity))).
Defined.

Lemma tendermint_header_crosses_witness :
  decode_header (H:=sdk_tm_xdr) header_xdr =
    Ok (MkHeader (MkHeight 4 100) (MkHeight 4 120) 1700000100 (replicate 32 Byte.x03) (replicate 32 Byte.x04)
          (bstr "signed") (bstr "validators")).
Proof.
  destruct (tendermint_header_crosses (bstr "header") header_xdr) as (hd & sh & ih & tr & Hh & Hs & Hi & Ht & Hr).
  - vm_compute. reflexivity.
  - injection Hh as <-. injection Hs as <-. injection Hi as <-. injection Ht as <-. apply Hr.
Defined.

End StatesDemo.
