(* ===== verification/ApiTypes.v ===== *)
(** * What the gateway asks of the API service ([crates/core/src/types.rs])

    The values that travel between the gateway and the HTTP service in front of Stellar, and the service
    as the gateway sees it: the class [Api].  [ApiClient] is its implementation over HTTP; the
    gateway's theorems are proved against the class. *)

From Stdlib Require Import ZArith Strings.Byte Strings.String.
From stdpp Require Import base option list gmap numbers.
From S2P Require Import Prelude Bytes Crypto CoreCommitment Conversion.
Open Scope Z_scope.

(** An [anyhow::Error]: the constant part of its text. *)
Definition ApiError : Type := string.

Record LedgerData : Type := MkLedgerData {
  ld_sequence : Z;
  header_xdr : bytes;
  metadata_xdr : option bytes;
}.
Record SubmittedTx : Type := MkSubmittedTx { tx_hash : bytes; return_value : option ScVal }.
Record EventRecord : Type := MkEventRecord {
  ev_id : bytes;
  ev_ledger : Z;
  ev_ledger_closed_at : bytes;
  ev_contract_id : bytes;
  ev_tx_hash : bytes;
  topics_xdr : list bytes;
  value_xdr : bytes;
}.
Record EventsPage : Type := MkEventsPage {
  page_latest_ledger : Z;
  page_cursor : bytes;
  page_events : list EventRecord;
}.
Inductive EventCursor : Type := Cursor (c : bytes) | StartLedger (s : Z).

Class Api := {
  api_latest_ledger : result ApiError Z;
  api_ledger : Z -> result ApiError LedgerData;
  api_transfer_balance : bytes -> bytes -> result ApiError Z;
  api_list_client_ids : result ApiError (list bytes);
  api_client_state_xdr : bytes -> result ApiError bytes;
  api_consensus_state_xdr : bytes -> Z -> result ApiError bytes;
  api_events : bytes -> EventCursor -> option Z -> result ApiError EventsPage;
  api_build_unsigned_tx : bytes -> bytes -> list ScVal -> result ApiError bytes;
  api_submit_and_wait : bytes -> result ApiError SubmittedTx;
}.

(** ** gRPC statuses *)

Inductive Code : Type := InvalidArgument | Internal | NotFound | Unimplemented.
(** [tonic::Status]: its code and the constant part of its text. *)
Record Status : Type := MkStatus { code : Code; message : string }.

(** [.map_err(|e| Status::code(format!("..: {e}")))]. *)
Definition with_status {E A} (c : Code) (text : string) (r : result E A) : result Status A :=
  match r with Ok a => Ok a | Err _ => Err (MkStatus c text) end.

Lemma with_status_Ok {E A} c text (r : result E A) a : with_status c text r = Ok a <-> r = Ok a.
Proof. destruct r; simpl; naive_solver. Qed.
