(* ===== verification/GatewayMsg.v ===== *)
(** * The gateway's message service ([crates/gateway/src/msg.rs])

    Each handler turns a request of the relayer into the arguments of a router function and asks the
    API service for the unsigned transaction that calls it.  The theorem is that the transaction asked
    for is the call of the router the request means.

    Reading the JSON of a payload ([serde_json::from_slice]) is a parameter; it only feeds the log. *)

From Stdlib Require Import ZArith Lia Strings.Byte Strings.String.
From stdpp Require Import base option list gmap numbers.
From S2P Require Import Prelude Bytes Text Crypto Host RouterTypes CoreCommitment Router LcTendermint Prost WasmTypes.
From S2P Require Import Conversion Json Xdr ContractValues TendermintStates ApiTypes.
Open Scope Z_scope.

(** ** Requests *)

Record MsgCreateClientRequest : Type := MkCreateClient {
  cc_client_state : bytes;
  cc_consensus_state : bytes;
  cc_signer : bytes;
  cc_client_type : bytes;
  cc_height : Z;
}.
Record MsgUpdateClientRequest : Type := MkUpdateClient {
  uc_client_id : bytes; uc_header : bytes; uc_signer : bytes;
}.
Record MsgRegisterCounterpartyRequest : Type := MkRegisterCounterparty {
  rc_client_id : bytes; rc_counterparty_client_id : bytes; rc_commitment_prefix : list bytes; rc_signer : bytes;
}.
Record MsgPacketRequest : Type := MkPacketMsg {   (* MsgRecvPacketRequest and MsgTimeoutPacketRequest *)
  pm_packet : bytes; pm_proof : bytes; pm_proof_height : Z; pm_signer : bytes;
}.
Record MsgAckPacketRequest : Type := MkAckPacket {
  ap_packet : bytes; ap_acknowledgement : bytes; ap_proof : bytes; ap_proof_height : Z; ap_signer : bytes;
}.
Record MsgSubmitMisbehaviourRequest : Type := MkSubmitMisbehaviour {
  sm_client_id : bytes; sm_client_message : bytes; sm_signer : bytes;
}.
Record SubmitSignedTxResponse : Type := MkSubmitted {
  st_tx_hash : bytes; st_events : list bytes; st_return_value : bytes;
}.
Record MsgCreateClientResponse : Type := MkCreated { ccr_client_id : bytes; ccr_tx_xdr : bytes }.

(** ** Handlers *)

Definition msg_scval_string (s : bytes) : result Status ScVal :=
  with_status InvalidArgument "invalid string for ScVal" (Conversion.scval_string s).
Definition msg_scval_bytes (b : bytes) : result Status ScVal :=
  with_status InvalidArgument "invalid bytes for ScVal" (Conversion.scval_bytes b).
Definition msg_scval_vec_of_bytes (items : list bytes) : result Status ScVal :=
  with_status InvalidArgument "invalid bytes for ScVal" (Conversion.scval_vec_of_bytes items).

(** [s.starts_with(p)]. *)
Definition starts_with (p s : bytes) : bool := bool_decide (take (length p) s = p).

Section Handlers.
Context `{Api} `{IbcTendermint} `{StringText} `{ScvalXdr}.

Definition decode_packet_scval (b : bytes) : result Status ScVal :=
  with_status InvalidArgument "packet ScVal XDR decode" (scval_from_xdr b).

Definition prepare_msg_tx (signer : bytes) (method : string) (args : list ScVal) : result Status bytes :=
  with_status Internal "invoke" (api_build_unsigned_tx signer (bstr method) args).

(** The line [log_wallet_change] logs: denomination, sender, and the balances before and after. *)
Definition log_wallet_change (from_slice : bytes -> option Value) (packet : ScVal) :
    option (bytes * bytes * Z * Z) :=
  value_bytes ← first_payload_value packet;
  parsed ← from_slice value_bytes;
  denom ← (v ← get parsed "denom"; as_str v);
  sender ← (v ← get parsed "sender"; as_str v);
  amount ← (v ← get parsed "amount"; s ← as_str v; Decimal.parse_i128 s);
  new_balance ← result_ok (api_transfer_balance denom sender);
  Some (denom, sender, Z.max i128_min (Z.min i128_max (new_balance + amount)), new_balance).

Definition submit_signed_tx (tx_xdr : bytes) : result Status SubmitSignedTxResponse :=
  submitted ← with_status Internal "submit_and_wait" (api_submit_and_wait tx_xdr);
  let return_value := default [] (v ← return_value submitted; result_ok (scval_to_xdr v)) in
  Ok (MkSubmitted (tx_hash submitted) [] return_value).

Definition create_client (req : MsgCreateClientRequest) : result Status MsgCreateClientResponse :=
  if decide (cc_client_type req = []) then
    Err (MkStatus InvalidArgument "MsgCreateClientRequest.client_type is required")
  else
    client_state ← with_status InvalidArgument "decode client state" (client_decode_value (cc_client_state req));
    let height := client_latest_height client_state in
    client_state_xdr ← with_status Internal "client state to soroban xdr" (client_to_soroban_xdr client_state);
    consensus_state ←
      with_status InvalidArgument "decode consensus state" (consensus_decode_value (cc_consensus_state req));
    consensus_state_xdr ←
      with_status Internal "consensus state to soroban xdr" (consensus_to_soroban_xdr consensus_state);
    client_type ← msg_scval_string (cc_client_type req);
    cs ← msg_scval_bytes client_state_xdr;
    cons ← msg_scval_bytes consensus_state_xdr;
    tx_xdr ← prepare_msg_tx (cc_signer req) "create_client" [client_type; cs; cons; scval_u64 height];
    Ok (MkCreated [] tx_xdr).

Definition update_client (req : MsgUpdateClientRequest) : result Status bytes :=
  if decide (uc_client_id req = []) then
    Err (MkStatus InvalidArgument "MsgUpdateClientRequest.client_id is required")
  else
    header_xdr ←
      (if starts_with (bstr "07-tendermint") (uc_client_id req)
       then with_status InvalidArgument "tendermint header to soroban xdr"
              (tendermint_header_to_soroban_xdr (uc_header req))
       else Ok (uc_header req));
    client_id ← msg_scval_string (uc_client_id req);
    header ← msg_scval_bytes header_xdr;
    prepare_msg_tx (uc_signer req) "update_client" [client_id; header].

Definition register_counterparty (req : MsgRegisterCounterpartyRequest) : result Status bytes :=
  if decide (rc_client_id req = [] \/ rc_counterparty_client_id req = []) then
    Err (MkStatus InvalidArgument "client_id and counterparty_client_id are required")
  else
    client_id ← msg_scval_string (rc_client_id req);
    counterparty ← msg_scval_string (rc_counterparty_client_id req);
    prefix ← msg_scval_vec_of_bytes (rc_commitment_prefix req);
    prepare_msg_tx (rc_signer req) "register_counterparty" [client_id; counterparty; prefix].

Definition recv_packet (req : MsgPacketRequest) : result Status bytes :=
  packet ← decode_packet_scval (pm_packet req);
  proof ← msg_scval_bytes (pm_proof req);
  prepare_msg_tx (pm_signer req) "recv_packet" [packet; proof; scval_u64 (pm_proof_height req)].

(** The call of [log_wallet_change] changes nothing and is left out. *)
Definition ack_packet (req : MsgAckPacketRequest) : result Status bytes :=
  packet ← decode_packet_scval (ap_packet req);
  acks ← msg_scval_vec_of_bytes [ap_acknowledgement req];
  proof ← msg_scval_bytes (ap_proof req);
  prepare_msg_tx (ap_signer req) "acknowledge_packet" [packet; acks; proof; scval_u64 (ap_proof_height req)].

Definition timeout_packet (req : MsgPacketRequest) : result Status bytes :=
  packet ← decode_packet_scval (pm_packet req);
  proof ← msg_scval_bytes (pm_proof req);
  prepare_msg_tx (pm_signer req) "timeout_packet" [packet; proof; scval_u64 (pm_proof_height req)].

Definition submit_misbehaviour (req : MsgSubmitMisbehaviourRequest) : result Status bytes :=
  if decide (sm_client_id req = []) then
    Err (MkStatus InvalidArgument "MsgSubmitMisbehaviourRequest.client_id is required")
  else
    client_id ← msg_scval_string (sm_client_id req);
    msg ← msg_scval_bytes (sm_client_message req);
    prepare_msg_tx (sm_signer req) "update_client" [client_id; msg].

End Handlers.

(** ** What a message means *)

Inductive Msg : Type :=
| MCreateClient (req : MsgCreateClientRequest)
| MUpdateClient (req : MsgUpdateClientRequest)
| MRegisterCounterparty (req : MsgRegisterCounterpartyRequest)
| MRecvPacket (req : MsgPacketRequest)
| MAckPacket (req : MsgAckPacketRequest)
| MTimeoutPacket (req : MsgPacketRequest)
| MSubmitMisbehaviour (req : MsgSubmitMisbehaviourRequest).

Definition msg_signer (m : Msg) : bytes :=
  match m with
  | MCreateClient r => cc_signer r
  | MUpdateClient r => uc_signer r
  | MRegisterCounterparty r => rc_signer r
  | MRecvPacket r | MTimeoutPacket r => pm_signer r
  | MAckPacket r => ap_signer r
  | MSubmitMisbehaviour r => sm_signer r
  end.

Section Meaning.
Context `{Api} `{IbcTendermint} `{StringText} `{ScvalXdr}.

(** The unsigned transaction a message is answered with. *)
Definition handle (m : Msg) : result Status bytes :=
  match m with
  | MCreateClient r => c ← create_client r; Ok (ccr_tx_xdr c)
  | MUpdateClient r => update_client r
  | MRegisterCounterparty r => register_counterparty r
  | MRecvPacket r => recv_packet r
  | MAckPacket r => ack_packet r
  | MTimeoutPacket r => timeout_packet r
  | MSubmitMisbehaviour r => submit_misbehaviour r
  end.

Definition packet_of_xdr (b : bytes) : option Packet := v ← from_xdr b; packet_of_scval v.
(** The bytes an update hands to the light client. *)
Definition update_bytes (client_id header : bytes) : result XdrError bytes :=
  if starts_with (bstr "07-tendermint") client_id then tendermint_header_to_soroban_xdr header else Ok header.

(** The call of the router a message stands for. *)
Inductive means : Msg -> Call -> Prop :=
| means_create r cs cons x y :
    cc_client_type r <> [] ->
    client_decode_vec (cc_client_state r) = Some cs -> consensus_decode_vec (cc_consensus_state r) = Some cons ->
    client_to_soroban_xdr (TendermintClient cs) = Ok x ->
    consensus_to_soroban_xdr (TendermintConsensus cons) = Ok y ->
    means (MCreateClient r) (CCreateClient (cc_client_type r) x y (client_latest_height (TendermintClient cs)))
| means_update r x :
    uc_client_id r <> [] -> update_bytes (uc_client_id r) (uc_header r) = Ok x ->
    means (MUpdateClient r) (CUpdateClient (uc_client_id r) x)
| means_register r :
    rc_client_id r <> [] -> rc_counterparty_client_id r <> [] ->
    means (MRegisterCounterparty r)
      (CRegisterCounterparty (rc_client_id r) (rc_counterparty_client_id r) (rc_commitment_prefix r))
| means_recv r p :
    packet_of_xdr (pm_packet r) = Some p ->
    means (MRecvPacket r) (CRecvPacket p (pm_proof r) (pm_proof_height r))
| means_ack r p :
    packet_of_xdr (ap_packet r) = Some p ->
    means (MAckPacket r) (CAcknowledgePacket p [ap_acknowledgement r] (ap_proof r) (ap_proof_height r))
| means_timeout r p :
    packet_of_xdr (pm_packet r) = Some p ->
    means (MTimeoutPacket r) (CTimeoutPacket p (pm_proof r) (pm_proof_height r))
| means_misbehaviour r :
    sm_client_id r <> [] ->
    means (MSubmitMisbehaviour r) (CUpdateClient (sm_client_id r) (sm_client_message r)).

(** The byte strings of a call are no longer than XDR allows. *)
Definition call_fits (c : Call) : Prop :=
  match c with
  | CCreateClient t x y _ => fits u32_max t = true /\ fits u32_max x = true /\ fits u32_max y = true
  | CUpdateClient c m => fits u32_max c = true /\ fits u32_max m = true
  | CRegisterCounterparty c d p =>
      fits u32_max c = true /\ fits u32_max d = true /\ fits u32_max p = true /\
      Forall (fun b => fits u32_max b = true) p
  | CRecvPacket _ pr _ | CTimeoutPacket _ pr _ => fits u32_max pr = true
  | CAcknowledgePacket _ a pr _ =>
      fits u32_max pr = true /\ fits u32_max a = true /\ Forall (fun b => fits u32_max b = true) a
  | _ => True
  end.

End Meaning.

(** ** Arguments *)

Lemma msg_string_ok s : fits u32_max s = true -> msg_scval_string s = Ok (ScString s).
Proof. intros Hs. unfold msg_scval_string, Conversion.scval_string. by rewrite Hs. Qed.
Lemma msg_bytes_ok b : fits u32_max b = true -> msg_scval_bytes b = Ok (ScBytes b).
Proof. intros Hb. unfold msg_scval_bytes, Conversion.scval_bytes. by rewrite Hb. Qed.

Lemma collect_bytes l :
  Forall (fun b => fits u32_max b = true) l -> collect Conversion.scval_bytes l = Ok (ScBytes <$> l).
Proof.
  intros Hl. apply collect_Ok. induction Hl as [|b l Hb Hl IH]; csimpl; constructor; [|done].
  unfold Conversion.scval_bytes. by rewrite Hb.
Qed.

Lemma msg_vec_ok l :
  fits u32_max l = true -> Forall (fun b => fits u32_max b = true) l ->
  msg_scval_vec_of_bytes l = Ok (ScVec (Some (ScBytes <$> l))).
Proof.
  intros Hl Hb. unfold msg_scval_vec_of_bytes, Conversion.scval_vec_of_bytes.
  rewrite collect_bytes by done. cbn [mbind result_bind]. unfold scval_vec.
  assert (fits u32_max (ScBytes <$> l) = true) as ->; [|done]. unfold fits in *. by rewrite length_fmap.
Qed.

Lemma msg_string_inv s v : msg_scval_string s = Ok v -> v = ScString s.
Proof. unfold msg_scval_string, Conversion.scval_string. destruct (fits _ _); [|done]. by intros [= <-]. Qed.
Lemma msg_bytes_inv b v : msg_scval_bytes b = Ok v -> v = ScBytes b.
Proof. unfold msg_scval_bytes, Conversion.scval_bytes. destruct (fits _ _); [|done]. by intros [= <-]. Qed.

Lemma collect_bytes_inv l vs : collect Conversion.scval_bytes l = Ok vs -> vs = ScBytes <$> l.
Proof.
  intros Hc%collect_Ok. induction Hc as [|b v l vs Hb _ IH]; csimpl; [done|]. subst. f_equal.
  unfold Conversion.scval_bytes in Hb. destruct (fits _ _); [|done]. by injection Hb.
Qed.
Lemma msg_vec_inv l v : msg_scval_vec_of_bytes l = Ok v -> v = ScVec (Some (ScBytes <$> l)).
Proof.
  unfold msg_scval_vec_of_bytes, Conversion.scval_vec_of_bytes.
  intros Hv%with_status_Ok. apply result_bind_Ok in Hv as (vs & ->%collect_bytes_inv & Hv).
  unfold scval_vec in Hv. destruct (fits _ _); [|done]. by injection Hv.
Qed.

Lemma bytes_args l : as_vec scval_as_bytes (ScVec (Some (ScBytes <$> l))) = Some l.
Proof. cbn [as_vec]. by apply all_some_map. Qed.

(** How the router reads each method. *)
Lemma call_create t x y h :
  router_call (bstr "create_client") [ScString t; ScBytes x; ScBytes y; ScU64 h] = Some (CCreateClient t x y h).
Proof. reflexivity. Qed.
Lemma call_update c m : router_call (bstr "update_client") [ScString c; ScBytes m] = Some (CUpdateClient c m).
Proof. reflexivity. Qed.
Lemma call_register c d l :
  router_call (bstr "register_counterparty") [ScString c; ScString d; ScVec (Some (ScBytes <$> l))] =
  Some (CRegisterCounterparty c d l).
Proof.
  change (router_call _ _) with
    (p ← as_vec scval_as_bytes (ScVec (Some (ScBytes <$> l))); Some (CRegisterCounterparty c d p)).
  by rewrite bytes_args.
Qed.
Lemma call_recv v pr h :
  router_call (bstr "recv_packet") [v; ScBytes pr; ScU64 h] = (p ← packet_of_scval v; Some (CRecvPacket p pr h)).
Proof. reflexivity. Qed.
Lemma call_timeout v pr h :
  router_call (bstr "timeout_packet") [v; ScBytes pr; ScU64 h] =
  (p ← packet_of_scval v; Some (CTimeoutPacket p pr h)).
Proof. reflexivity. Qed.
Lemma call_ack v l pr h :
  router_call (bstr "acknowledge_packet") [v; ScVec (Some (ScBytes <$> l)); ScBytes pr; ScU64 h] =
  (p ← packet_of_scval v; Some (CAcknowledgePacket p l pr h)).
Proof.
  change (router_call _ _) with
    (p ← packet_of_scval v; a ← as_vec scval_as_bytes (ScVec (Some (ScBytes <$> l)));
     Some (CAcknowledgePacket p a pr h)).
  by rewrite bytes_args.
Qed.

Section Prepared.
Context `{Api} `{IbcTendermint} `{StringText} `{ScvalXdr}.

(** Inverts the chain of arguments of a handler that was answered. *)
Ltac answered Hrun :=
  repeat lazymatch type of Hrun with
  | (_ ≫= _) = Ok _ =>
      let a := fresh "a" in let Ha := fresh "Ha" in apply result_bind_Ok in Hrun as (a & Ha & Hrun);
      first [apply msg_string_inv in Ha as -> | apply msg_bytes_inv in Ha as ->
            | apply msg_vec_inv in Ha as -> | idtac]
  end.

Lemma prepare_Ok signer method args tx :
  prepare_msg_tx signer method args = Ok tx <-> api_build_unsigned_tx signer (bstr method) args = Ok tx.
Proof. unfold prepare_msg_tx. apply with_status_Ok. Qed.

Lemma packet_decoded b v : decode_packet_scval b = Ok v <-> from_xdr b = Some v.
Proof. unfold decode_packet_scval, scval_from_xdr. by rewrite with_status_Ok, ok_or_Ok. Qed.

Lemma client_decoded b cs :
  with_status InvalidArgument "decode client state" (client_decode_value b) = Ok cs <->
  exists c, client_decode_vec b = Some c /\ cs = TendermintClient c.
Proof.
  rewrite with_status_Ok. unfold client_decode_value. rewrite result_bind_Ok. split.
  - intros (c & Hc%ok_or_Ok & [= <-]). eauto.
  - intros (c & Hc & ->). exists c. by rewrite ok_or_Ok.
Qed.
Lemma consensus_decoded b cs :
  with_status InvalidArgument "decode consensus state" (consensus_decode_value b) = Ok cs <->
  exists c, consensus_decode_vec b = Some c /\ cs = TendermintConsensus c.
Proof.
  rewrite with_status_Ok. unfold consensus_decode_value. rewrite result_bind_Ok. split.
  - intros (c & Hc%ok_or_Ok & [= <-]). eauto.
  - intros (c & Hc & ->). exists c. by rewrite ok_or_Ok.
Qed.

Lemma update_converted id hdr x :
  (if starts_with (bstr "07-tendermint") id
   then with_status InvalidArgument "tendermint header to soroban xdr" (tendermint_header_to_soroban_xdr hdr)
   else Ok hdr) = Ok x <-> update_bytes id hdr = Ok x.
Proof. unfold update_bytes. destruct (starts_with _ _); [apply with_status_Ok|]. naive_solver. Qed.

(** What is prepared for a message that means a call. *)
Lemma prepared_for m call :
  means m call -> call_fits call ->
  exists method args, router_call (bstr method) args = Some call /\
    handle m = prepare_msg_tx (msg_signer m) method args.
Proof.
  intros Hm Hf.
  destruct Hm as [r cs cons x y Ht Hcs Hcons Hx Hy|r x Hid Hx|r Hc Hd|r p Hp|r p Hp|r p Hp|r Hid];
    cbn [call_fits handle msg_signer] in *.
  - destruct Hf as (Hft & Hfx & Hfy). eexists _, _. split; [apply call_create|]. unfold create_client.
    rewrite decide_False by done. rewrite (proj2 (client_decoded _ _)) by eauto. cbn [mbind result_bind].
    rewrite Hx. cbn [with_status mbind result_bind]. rewrite (proj2 (consensus_decoded _ _)) by eauto.
    cbn [mbind result_bind]. rewrite Hy. cbn [with_status mbind result_bind].
    rewrite msg_string_ok, !msg_bytes_ok by done. cbn [mbind result_bind].
    by destruct (prepare_msg_tx _ _ _).
  - destruct Hf as [Hfc Hfm]. eexists _, _. split; [apply call_update|]. unfold update_client.
    rewrite decide_False by done. rewrite (proj2 (update_converted _ _ _) Hx). cbn [mbind result_bind].
    by rewrite msg_string_ok, msg_bytes_ok.
  - destruct Hf as (Hfc & Hfd & Hfl & Hfp). eexists _, _. split; [apply call_register|].
    unfold register_counterparty. rewrite decide_False by naive_solver.
    by rewrite !msg_string_ok, msg_vec_ok.
  - unfold packet_of_xdr in Hp. apply bind_Some in Hp as (v & Hv & Hp). eexists _, [v; _; _].
    split; [rewrite call_recv, Hp; done|]. unfold recv_packet.
    by rewrite (proj2 (packet_decoded _ _) Hv), msg_bytes_ok.
  - destruct Hf as (Hfp & Hfl & Hfa). unfold packet_of_xdr in Hp. apply bind_Some in Hp as (v & Hv & Hp).
    eexists _, [v; _; _; _]. split; [rewrite call_ack, Hp; done|]. unfold ack_packet.
    by rewrite (proj2 (packet_decoded _ _) Hv), msg_vec_ok, msg_bytes_ok.
  - unfold packet_of_xdr in Hp. apply bind_Some in Hp as (v & Hv & Hp). eexists _, [v; _; _].
    split; [rewrite call_timeout, Hp; done|]. unfold timeout_packet.
    by rewrite (proj2 (packet_decoded _ _) Hv), msg_bytes_ok.
  - destruct Hf as [Hfc Hfm]. eexists _, _. split; [apply call_update|]. unfold submit_misbehaviour.
    rewrite decide_False by done. by rewrite msg_string_ok, msg_bytes_ok.
Qed.

(** What an answered message was prepared with. *)
Lemma answered_means m tx :
  handle m = Ok tx ->
  exists method args, api_build_unsigned_tx (msg_signer m) (bstr method) args = Ok tx /\
    forall call, router_call (bstr method) args = Some call -> means m call.
Proof.
  intros Hrun. destruct m as [r|r|r|r|r|r|r]; cbn [handle msg_signer] in *.
  - apply result_bind_Ok in Hrun as (c & Hrun & Htx). apply Ok_inj in Htx. unfold create_client in Hrun.
    case_decide as Ht; [done|]. answered Hrun. apply Ok_inj in Hrun as <-. cbn [ccr_tx_xdr] in Htx. subst.
    match goal with Hp : prepare_msg_tx _ _ _ = Ok _ |- _ => apply prepare_Ok in Hp; eexists _, _; split; [exact Hp|] end.
    intros call. rewrite call_create. intros [= <-].
    apply client_decoded in Ha as (cs & Hcs & ->). apply with_status_Ok in Ha0.
    apply consensus_decoded in Ha1 as (cons & Hcons & ->). apply with_status_Ok in Ha2. by econstructor.
  - unfold update_client in Hrun. case_decide as Hid; [done|]. answered Hrun. apply prepare_Ok in Hrun.
    eexists _, _. split; [exact Hrun|]. intros call. rewrite call_update. intros [= <-].
    apply update_converted in Ha. by constructor.
  - unfold register_counterparty in Hrun. case_decide as Hid; [done|]. answered Hrun. apply prepare_Ok in Hrun.
    eexists _, _. split; [exact Hrun|]. intros call. rewrite call_register. intros [= <-].
    constructor; naive_solver.
  - unfold recv_packet in Hrun. answered Hrun. apply prepare_Ok in Hrun. apply packet_decoded in Ha.
    eexists _, _. split; [exact Hrun|]. intros call. rewrite call_recv.
    intros (p & Hp & [= <-])%bind_Some. constructor. unfold packet_of_xdr. by rewrite Ha.
  - unfold ack_packet in Hrun. answered Hrun. apply prepare_Ok in Hrun. apply packet_decoded in Ha.
    eexists _, _. split; [exact Hrun|]. intros call. rewrite call_ack.
    intros (p & Hp & [= <-])%bind_Some. constructor. unfold packet_of_xdr. by rewrite Ha.
  - unfold timeout_packet in Hrun. answered Hrun. apply prepare_Ok in Hrun. apply packet_decoded in Ha.
    eexists _, _. split; [exact Hrun|]. intros call. rewrite call_timeout.
    intros (p & Hp & [= <-])%bind_Some. constructor. unfold packet_of_xdr. by rewrite Ha.
  - unfold submit_misbehaviour in Hrun. case_decide as Hid; [done|]. answered Hrun. apply prepare_Ok in Hrun.
    eexists _, _. split; [exact Hrun|]. intros call. rewrite call_update. intros [= <-]. by constructor.
Qed.

End Prepared.

(** the gateway prepares the calls the relayer asked for: a message that means a call of the router is
    answered with the unsigned transaction of exactly that call by its signer, or with the failure of
    the service that builds it; and whatever transaction it answers with, if the router can read its
    arguments at all, calls the router as the message means. *)
Theorem gateway_prepares_router_calls `{Api} `{IbcTendermint} `{StringText} `{ScvalXdr} (m : Msg) :
  (forall call, means m call -> call_fits call ->
     exists method args, router_call (bstr method) args = Some call /\
       handle m = with_status Internal "invoke" (api_build_unsigned_tx (msg_signer m) (bstr method) args)) /\
  (forall tx, handle m = Ok tx ->
     exists method args, api_build_unsigned_tx (msg_signer m) (bstr method) args = Ok tx /\
       forall call, router_call (bstr method) args = Some call -> means m call).
Proof. split; [apply prepared_for|apply answered_means]. Qed.

(** the handlers refuse a request without its identifiers, or whose packet is no Soroban value, as an
    invalid argument, before anything is prepared. *)
Theorem gateway_rejects `{Api} `{IbcTendermint} `{StringText} `{ScvalXdr} :
  (forall r, cc_client_type r = [] ->
     create_client r = Err (MkStatus InvalidArgument "MsgCreateClientRequest.client_type is required")) /\
  (forall r, uc_client_id r = [] ->
     update_client r = Err (MkStatus InvalidArgument "MsgUpdateClientRequest.client_id is required")) /\
  (forall r, rc_client_id r = [] \/ rc_counterparty_client_id r = [] ->
     register_counterparty r =
       Err (MkStatus InvalidArgument "client_id and counterparty_client_id are required")) /\
  (forall r, from_xdr (pm_packet r) = None ->
     recv_packet r = Err (MkStatus InvalidArgument "packet ScVal XDR decode") /\
     timeout_packet r = Err (MkStatus InvalidArgument "packet ScVal XDR decode")) /\
  (forall r, from_xdr (ap_packet r) = None ->
     ack_packet r = Err (MkStatus InvalidArgument "packet ScVal XDR decode")) /\
  (forall r, sm_client_id r = [] ->
     submit_misbehaviour r =
       Err (MkStatus InvalidArgument "MsgSubmitMisbehaviourRequest.client_id is required")).
Proof.
  split_and!; intros r Hr.
  - unfold create_client. by rewrite decide_True.
  - unfold update_client. by rewrite decide_True.
  - unfold register_counterparty. by rewrite decide_True.
  - unfold recv_packet, timeout_packet, decode_packet_scval, scval_from_xdr. by rewrite Hr.
  - unfold ack_packet, decode_packet_scval, scval_from_xdr. by rewrite Hr.
  - unfold submit_misbehaviour. by rewrite decide_True.
Qed.
