(* ===== verification/GatewayQuery.v ===== *)
(** * The gateway's query service ([crates/gateway/src/query.rs])

    Heights, client and consensus states, proofs of packet commitments, receipts and acknowledgements,
    headers for the light client, and pages of router events.  The handlers share the mirrored [State]
    behind a mutex, so one handler is one step on it; what a handler returns carries the state it left.

    The XDR decoder of ledger headers is a parameter; the [StellarHeader] message is the one of
    [crates/gateway/proto/stellar_gateway.proto]. *)

From Stdlib Require Import ZArith Lia Strings.Byte Strings.String.
From stdpp Require Import base option list gmap sets numbers.
From S2P Require Import Prelude Bytes Crypto Host RouterTypes CoreCommitment Smt Prost WasmTypes MerkleProof.
From S2P Require Import LcTendermint Conversion Xdr ContractValues EventAttributes GatewayState.
From S2P Require Import TendermintStates ApiTypes.
Open Scope Z_scope.

(** ** Messages *)

Record LatestHeightResponse : Type := MkLatestHeight { lh_revision_number : Z; lh_revision_height : Z }.
Record StateResponse : Type := MkStateResponse {   (* QueryClientStateResponse, QueryConsensusStateResponse *)
  sr_state : bytes; sr_proof : bytes; sr_proof_height : Z;
}.
Record IdentifiedClientState : Type := MkIdentified { ics_client_id : bytes; ics_client_state : bytes }.
(** [QueryPacketCommitmentRequest], [QueryPacketReceiptRequest] and [QueryAcknowledgementRequest]. *)
Record PacketQuery : Type := MkPacketQuery { pq_client_id : bytes; pq_sequence : Z; pq_height : Z }.
Record HashResponse : Type := MkHashResponse { hr_hash : bytes; hr_proof : bytes; hr_proof_height : Z }.
Record ReceiptResponse : Type := MkReceiptResponse { rr_received : bool; rr_proof : bytes; rr_proof_height : Z }.
Record EventsRequest : Type := MkEventsRequest { er_start_ledger : Z; er_cursor : bytes; er_limit : Z }.
Record GatewayContractEvent : Type := MkGatewayEvent { ge_record : EventRecord; ge_attributes : bytes }.
Record EventsResponse : Type := MkEventsResponse {
  es_latest_ledger : Z; es_cursor : bytes; es_events : list GatewayContractEvent;
}.

Record GatewayHeader : Type := MkGatewayHeader {   (* StellarHeader of stellar_gateway.proto *)
  gh_ledger_seq : Z;
  gh_ledger_header_xdr : bytes;
  gh_ibc_state_root : bytes;
  gh_scp_node_id : bytes;
  gh_scp_signature : bytes;
  gh_signed_value_xdr : bytes;
}.
#[export] Instance GatewayHeader_message : Message GatewayHeader := {|
  msg_default := MkGatewayHeader 0 [] [] [] [] [];
  msg_fields h := put_uint64 1 (gh_ledger_seq h) ++ put_bytes 2 (gh_ledger_header_xdr h) ++
    put_bytes 3 (gh_ibc_state_root h) ++ put_bytes 4 (gh_scp_node_id h) ++
    put_bytes 5 (gh_scp_signature h) ++ put_bytes 6 (gh_signed_value_xdr h);
  merge_field h f := match f with
    | (1, v) => n ← get_uint64 v; Some (MkGatewayHeader (n mod 2 ^ 32) (gh_ledger_header_xdr h)
        (gh_ibc_state_root h) (gh_scp_node_id h) (gh_scp_signature h) (gh_signed_value_xdr h))
    | (2, v) => b ← get_bytes v; Some (MkGatewayHeader (gh_ledger_seq h) b
        (gh_ibc_state_root h) (gh_scp_node_id h) (gh_scp_signature h) (gh_signed_value_xdr h))
    | (3, v) => b ← get_bytes v; Some (MkGatewayHeader (gh_ledger_seq h) (gh_ledger_header_xdr h)
        b (gh_scp_node_id h) (gh_scp_signature h) (gh_signed_value_xdr h))
    | (4, v) => b ← get_bytes v; Some (MkGatewayHeader (gh_ledger_seq h) (gh_ledger_header_xdr h)
        (gh_ibc_state_root h) b (gh_scp_signature h) (gh_signed_value_xdr h))
    | (5, v) => b ← get_bytes v; Some (MkGatewayHeader (gh_ledger_seq h) (gh_ledger_header_xdr h)
        (gh_ibc_state_root h) (gh_scp_node_id h) b (gh_signed_value_xdr h))
    | (6, v) => b ← get_bytes v; Some (MkGatewayHeader (gh_ledger_seq h) (gh_ledger_header_xdr h)
        (gh_ibc_state_root h) (gh_scp_node_id h) (gh_scp_signature h) b)
    | _ => Some h
    end;
|}.

(** The parts of a [LedgerHeader]'s [scp_value] that are used. *)
Inductive StellarValueExt : Type := Basic | Signed (node_id signature : bytes).
Record StellarValue : Type := MkStellarValue { tx_set_hash : bytes; close_time : Z; sv_ext : StellarValueExt }.

(** [u32::try_from(height)]. *)
Definition u32_try_from (n : Z) : option Z := if decide (in_u32 n) then Some n else None.

(** A handler that runs on the shared state. *)
Definition Handler (A : Type) : Type := State -> State * result Status A.

Section Queries.
Context `{Api} `{IbcTendermint} `{StringText} `{ScvalXdr} `{Sha256} `{ProstWire} `{Ics23Numbers}.
Variable meta_from_xdr : bytes -> option LedgerCloseMeta.
(** [LedgerHeader::from_xdr(..)?.scp_value]. *)
Variable header_scp_value : bytes -> option StellarValue.

(** The state reads ledgers through the same client ([State::new(api.clone(), ..)]). *)
Definition state_ledgers : ledger_api := fun seq =>
  match api_ledger seq with Ok d => Ok (metadata_xdr d) | Err _ => Err (LedgerUnavailable seq) end.

Definition latest_height : result Status LatestHeightResponse :=
  latest_sequence ← with_status Internal "get_latest_ledger failed" api_latest_ledger;
  Ok (MkLatestHeight 0 latest_sequence).

Definition query_client_state (client_id : bytes) (height : Z) : result Status StateResponse :=
  xdr ← with_status Internal "get client state" (api_client_state_xdr client_id);
  cs ← with_status Internal "decode soroban client state" (client_from_soroban_xdr xdr);
  Ok (MkStateResponse (encode_to_vec (client_to_any cs)) [] height).

(** One round of the loop: a client whose state cannot be fetched or decoded is skipped. *)
Definition identified_client (client_id : bytes) : option IdentifiedClientState :=
  xdr ← result_ok (api_client_state_xdr client_id);
  cs ← result_ok (client_from_soroban_xdr xdr);
  Some (MkIdentified client_id (encode_to_vec (client_to_any cs))).
Definition query_client_states : result Status (list IdentifiedClientState) :=
  ids ← with_status Internal "list clients" api_list_client_ids;
  Ok (omap (M:=list) identified_client ids).

Definition query_consensus_state (client_id : bytes) (revision_height : Z) : result Status StateResponse :=
  xdr ← with_status NotFound "consensus state fetch failed" (api_consensus_state_xdr client_id revision_height);
  cs ← with_status Internal "consensus state decode failed" (consensus_from_soroban_xdr xdr);
  Ok (MkStateResponse (encode_to_vec (consensus_to_any cs)) [] revision_height).

(** The common part of the three packet queries: the proof of the path at the height. *)
Definition lookup_path {A} (req : PacketQuery) (path : bytes) (answer : PathLookup -> A) : Handler A := fun st =>
  match u32_try_from (pq_height req) with
  | None => (st, Err (MkStatus InvalidArgument "height does not fit in u32"))
  | Some seq =>
      let '(st, r) := proof_for_path meta_from_xdr state_ledgers seq path st in
      (st, match r with
           | Err _ => Err (MkStatus Internal "proof_for_path failed")
           | Ok l => Ok (answer l)
           end)
  end.

Definition query_packet_commitment (req : PacketQuery) : Handler HashResponse :=
  lookup_path req (Core.packet_commitment_path (pq_client_id req) (pq_sequence req)) (fun l =>
    let '(commitment, proof) := match l with Found h b => (h, b) | Absent b => ([], b) end in
    MkHashResponse commitment proof (pq_height req)).

Definition query_packet_receipt (req : PacketQuery) : Handler ReceiptResponse :=
  lookup_path req (Core.packet_receipt_path (pq_client_id req) (pq_sequence req)) (fun l =>
    let '(received, proof) := match l with Found _ b => (true, b) | Absent b => (false, b) end in
    MkReceiptResponse received proof (pq_height req)).

Definition query_acknowledgement (req : PacketQuery) : Handler HashResponse :=
  lookup_path req (Core.ack_commitment_path (pq_client_id req) (pq_sequence req)) (fun l =>
    let '(acknowledgement, proof) := match l with Found h b => (h, b) | Absent b => ([], b) end in
    MkHashResponse acknowledgement proof (pq_height req)).

Definition query_next_seq_recv : result Status Z :=
  Err (MkStatus Unimplemented "QueryNextSeqRecv: nextSequenceSend path was removed in IBC v2").

(** [height as u32] here, unlike in the packet queries. *)
Definition query_ibc_header (height : Z) : Handler bytes := fun st =>
  let seq := as_u32 height in
  match api_ledger seq with
  | Err _ => (st, Err (MkStatus Internal "getLedger failed"))
  | Ok ledger =>
      match header_scp_value (header_xdr ledger) with
      | None => (st, Err (MkStatus Internal "LedgerHeader XDR decode"))
      | Some scp_value =>
          let '(scp_node_id, scp_signature) :=
            match sv_ext scp_value with Signed n s => (n, s) | Basic => ([], []) end in
          let signed_value_xdr := tx_set_hash scp_value ++ to_be_bytes 8 (close_time scp_value) in
          let '(st, r) := root_at meta_from_xdr state_ledgers seq st in
          (st, match r with
               | Err _ => Err (MkStatus Internal "state root computation failed")
               | Ok root =>
                   Ok (encode_to_vec (MkGatewayHeader seq (header_xdr ledger) root scp_node_id scp_signature
                         signed_value_xdr))
               end)
      end
  end.

Definition events (ibc_contract_id : option bytes) (req : EventsRequest) : result Status EventsResponse :=
  match ibc_contract_id with
  | None | Some [] =>
      latest ← with_status Internal "get_latest_ledger failed" api_latest_ledger;
      Ok (MkEventsResponse latest [] [])
  | Some contract_id =>
      cursor ←
        (if decide (er_cursor req <> []) then Ok (Cursor (er_cursor req))
         else if 0 <? er_start_ledger req then Ok (StartLedger (er_start_ledger req))
         else Err (MkStatus InvalidArgument "events: must set either start_ledger or cursor"));
      let limit := if er_limit req =? 0 then None else Some (er_limit req) in
      page ← with_status Internal "getEvents failed" (api_events contract_id cursor limit);
      Ok (MkEventsResponse (page_latest_ledger page) (page_cursor page)
            ((fun ev => MkGatewayEvent ev (default [] (event_attributes (topics_xdr ev) (value_xdr ev)))) <$>
             page_events page))
  end.

End Queries.

(** ** What the packet queries answer *)

Section PacketQueries.
Context `{Api} `{Sha256} `{ProstWire} `{Ics23Numbers}.
Variable meta_from_xdr : bytes -> option LedgerCloseMeta.

(** The writes the gateway has replayed once it has answered for [seq] after [calls]. *)
Definition writes_for (id : option bytes) (ledger : Z -> changes) (calls : list gateway_call) (seq : Z)
    (path : bytes) : list (bytes * bytes) :=
  replayed_writes id ledger (calls ++ [CallProof seq path]).

Lemma lookup_path_answers {A} ledger id calls st (req : PacketQuery) path (answer : PathLookup -> A) st' a :
  steps (answers meta_from_xdr ledger) (new id) calls st ->
  serves meta_from_xdr ledger state_ledgers ->
  lookup_path meta_from_xdr req path answer st = (st', Ok a) ->
  let ws := writes_for id ledger calls (pq_height req) path in
  no_collision (path :: ws.*1) ->
  answers meta_from_xdr ledger st (CallProof (pq_height req) path) st' /\
  exists b, a = answer (match store_after ws !! path with Some v => Found (sha256 v) b | None => Absent b end).
Proof.
  intros Hrun Hs Hq ws Hnc. unfold lookup_path in Hq.
  destruct (u32_try_from (pq_height req)) as [seq|] eqn:Hu; [|done].
  unfold u32_try_from in Hu. case_decide; [|done]. injection Hu as <-.
  destruct (proof_for_path meta_from_xdr state_ledgers (pq_height req) path st) as [st1 r] eqn:Hp.
  injection Hq as -> Hr. destruct r as [l|e]; [|done]. injection Hr as <-.
  pose proof (proof_for_path_answers meta_from_xdr ledger id calls st state_ledgers (pq_height req) path st' (Ok l)
    Hrun Hs Hp Hnc) as Hans.
  split; [by econstructor|]. unfold ws, writes_for in *. destruct l as [vh b|b].
  - destruct Hans as (v & p & -> & -> & _ & _). by exists b.
  - destruct Hans as (p & -> & _ & _). by exists b.
Qed.

End PacketQueries.


(** C35: heights are 32-bit on Stellar.  The packet queries refuse a height that does not fit, without
    touching the state; the header query cuts it to its low 32 bits and answers with the header of that
    other ledger. *)
Theorem query_heights `{Api} `{Sha256} `{ProstWire} `{Ics23Numbers} meta_from_xdr header_scp_value st :
  (forall req, ~ in_u32 (pq_height req) ->
     let refused := MkStatus InvalidArgument "height does not fit in u32" in
     query_packet_commitment meta_from_xdr req st = (st, Err refused) /\
     query_packet_receipt meta_from_xdr req st = (st, Err refused) /\
     query_acknowledgement meta_from_xdr req st = (st, Err refused)) /\
  (forall height, query_ibc_header meta_from_xdr header_scp_value (height + 2 ^ 32) st =
     query_ibc_header meta_from_xdr header_scp_value height st).
Proof.
  split.
  - intros req Hr. unfold query_packet_commitment, query_packet_receipt, query_acknowledgement, lookup_path, u32_try_from.
    by rewrite decide_False.
  - intros height. unfold query_ibc_header, as_u32.
    replace ((height + 2 ^ 32) mod 2 ^ 32) with (height mod 2 ^ 32); [done|].
    rewrite <-(Z.mul_1_l (2 ^ 32)) at 2. by rewrite Z.mod_add.
Qed.

(** ** Client states *)

Section StateQueries.
Context `{Api} `{IbcTendermintLaws} `{StringTextLaws} `{!ScvalXdr} `{!ScvalXdrLaws} `{ProstWireLaws}.

(** The answer for a client whose stored state the service returns; a state the [ibc] crate refuses is an
    internal error. *)
Lemma client_state_answer client_id height b c :
  api_client_state_xdr client_id = Ok b ->
  from_xdr b = Some (client_to_scval c) -> plain_text (TendermintLightClient.chain_id c) ->
  match client_try_from (raw_of_contract c) with
  | Some cs =>
      exists answer, query_client_state client_id height = Ok (MkStateResponse answer [] height) /\
        (any ← decode answer; result_ok (client_try_from_any any)) = Some (TendermintClient cs)
  | None => query_client_state client_id height = Err (MkStatus Internal "decode soroban client state")
  end.
Proof.
  intros Hapi Hb Hp. unfold query_client_state. rewrite Hapi. cbn [with_status mbind result_bind].
  rewrite (client_from_soroban b c) by done. destruct (client_try_from (raw_of_contract c)) as [cs|]; [|done].
  eexists. split; [reflexivity|]. rewrite decode_encode.
  - cbn [mbind option_bind]. unfold client_try_from_any, client_to_any. cbn [type_url any_value].
    rewrite decide_True by done. by rewrite client_decode_encode.
  - cbn [msg_ok Any_laws client_to_any type_url any_value]. by vm_compute.
Qed.

Lemma consensus_state_answer client_id height b c :
  api_consensus_state_xdr client_id height = Ok b -> from_xdr b = Some (consensus_to_scval c) ->
  match consensus_try_from (raw_of_contract_consensus c) with
  | Some cs =>
      exists answer, query_consensus_state client_id height = Ok (MkStateResponse answer [] height) /\
        (any ← decode answer; result_ok (consensus_try_from_any any)) = Some (TendermintConsensus cs)
  | None => query_consensus_state client_id height = Err (MkStatus Internal "consensus state decode failed")
  end.
Proof.
  intros Hapi Hb. unfold query_consensus_state. rewrite Hapi. cbn [with_status mbind result_bind].
  rewrite (consensus_from_soroban b c) by done.
  destruct (consensus_try_from (raw_of_contract_consensus c)) as [cs|]; [|done].
  eexists. split; [reflexivity|]. rewrite decode_encode.
  - cbn [mbind option_bind]. unfold consensus_try_from_any, consensus_to_any. cbn [type_url any_value].
    rewrite decide_True by done. by rewrite consensus_decode_encode.
  - cbn [msg_ok Any_laws consensus_to_any type_url any_value]. by vm_compute.
Qed.

End StateQueries.

(** ** Examples *)

Module QueryDemo.
#[local] Existing Instances toy_sha256 Protobuf.wire Protobuf.wire_laws ics23_v0_12.
#[local] Existing Instances escaped_text escaped_text_laws Rfc4506.scval_xdr Rfc4506.scval_xdr_laws.
Import GatewayState.Demo StatesDemo.

(** A service that answers for the ledgers of [GatewayState.Demo] and has one Tendermint client. *)
#[export] Instance sample_api : Api := {|
  api_latest_ledger := Ok 20;
  api_ledger seq := match api 20 seq with
    | Ok m => Ok (MkLedgerData seq [] m)
    | Err _ => Err "GET /ledger failed"%string
    end;
  api_transfer_balance _ _ := Ok 0;
  api_list_client_ids := Ok [bstr "07-tendermint-0"];
  api_client_state_xdr _ := Ok client_xdr;
  api_consensus_state_xdr _ _ := Ok consensus_xdr;
  api_events _ _ _ := Ok (MkEventsPage 20 [] []);
  api_build_unsigned_tx _ m _ := Ok m;
  api_submit_and_wait _ := Err "POST /tx/submit failed"%string;
|}.

Lemma sample_serves : serves meta ledger state_ledgers.
Proof.
  intros seq r Hr. apply (api_serves 20 ltac:(lia)). rewrite <-Hr. unfold state_ledgers. cbn [api_ledger sample_api].
  unfold api. destruct ((seq <? 10) || (20 <? seq)); [done|]. by destruct (seq =? 13).
Qed.

Definition query : PacketQuery := MkPacketQuery (bstr "tm-0") 1 12.


End QueryDemo.
