(* ===== verification/LedgerEntries.v ===== *)
(** * Contract storage as ledger entries

    The entries of the contracts' persistent storage as the ledger keeps them: a variant of a
    [#[contracttype]] enum used as a key is a vector of its name and its fields, a value is the Soroban
    value of its type.  [conversion.rs] builds the keys and reads the values; the XDR codecs of ledger
    keys and entries are the parameter [LedgerXdr]. *)

From Stdlib Require Import ZArith Lia Strings.Byte Strings.String.
From stdpp Require Import base option list gmap numbers.
From S2P Require Import Prelude Bytes Crypto Host RouterTypes CoreCommitment Transfer LcMock LcTendermint Smt Prost WasmTypes MerkleProof.
From S2P Require Import Conversion GatewayState Xdr ContractValues TendermintStates.
Open Scope Z_scope.

Class LedgerXdr := {
  key_to_xdr : LedgerKey -> option bytes;
  key_from_xdr : bytes -> option LedgerKey;
  entry_to_xdr : LedgerEntryData -> option bytes;
  entry_from_xdr : bytes -> option LedgerEntryData;
}.
(** Reading gives back what was written; values that respect the limits of the format can be written. *)
Class LedgerXdrLaws `{LedgerXdr} `{ScvalXdr} : Prop := {
  key_from_to k b : key_to_xdr k = Some b -> key_from_xdr b = Some k;
  entry_from_to e b : entry_to_xdr e = Some b -> entry_from_xdr b = Some e;
  entry_value_writes c k v b : entry_to_xdr (EntryContractData c k v) = Some b -> is_Some (to_xdr v);
  string_writes s : fits u32_max s = true -> is_Some (to_xdr (ScString s));
  u64_writes n : in_u64 n -> is_Some (to_xdr (ScU64 n));
  key_writes contract variant args :
    length contract = 32%nat -> fits 32 variant = true -> fits 1000 args = true ->
    Forall (fun v => is_Some (to_xdr v)) args ->
    is_Some (key_to_xdr (KeyContractData (AddrContract contract) (ScVec (Some (ScSymbol variant :: args)))));
}.

(** ** [conversion.rs] *)

Definition persistent_contract_data_key `{LedgerXdr} (contract : bytes) (key_val : ScVal) :
    result XdrError bytes :=
  ok_or XdrWrite (key_to_xdr (KeyContractData (AddrContract contract) key_val)).

Definition ledger_entry_contract_val `{LedgerXdr} (entry_xdr : bytes) : option ScVal :=
  e ← entry_from_xdr entry_xdr;
  match e with EntryContractData _ _ val => Some val | EntryOther _ => None end.

(** ** Keys and values of the contracts *)

Definition enum_key (variant : string) (args : list ScVal) : ScVal :=
  ScVec (Some (ScSymbol (bstr variant) :: args)).

Definition sc_address (a : Address) : ScAddress :=
  match a with AccountAddress k => AddrAccount k | ContractAddress i => AddrContract i end.
Definition address_of_sc (a : ScAddress) : option Address :=
  match a with
  | AddrAccount k => Some (AccountAddress k)
  | AddrContract i => Some (ContractAddress i)
  | AddrOther _ => None
  end.

(** [i128] in two halves. *)
Definition i128_to_scval (n : Z) : ScVal := ScI128 (n / 2 ^ 64) (n mod 2 ^ 64).

(** The administrator is in the contract's instance entry, the rest is persistent. *)
Definition router_key (k : RKey) : option ScVal :=
  match k with
  | KPath p => Some (ScBytes p)
  | KData RouterTypes.Admin => None
  | KData (RouterTypes.NextClientId s) => Some (enum_key "NextClientId" [ScString s])
  | KData (RouterTypes.ClientTypeAddr s) => Some (enum_key "ClientTypeAddr" [ScString s])
  | KData (RouterTypes.ClientType s) => Some (enum_key "ClientType" [ScString s])
  | KData (RouterTypes.ClientLcAddr s) => Some (enum_key "ClientLcAddr" [ScString s])
  | KData (RouterTypes.CounterpartyKey s) => Some (enum_key "Counterparty" [ScString s])
  | KData (RouterTypes.Frozen s) => Some (enum_key "Frozen" [ScString s])
  | KData (RouterTypes.Port s) => Some (enum_key "Port" [ScString s])
  | KData (RouterTypes.NextSeqSend s) => Some (enum_key "NextSeqSend" [ScString s])
  end.
Definition router_val (v : RVal) : ScVal :=
  match v with
  | RvU32 n => ScU32 n
  | RvU64 n => ScU64 n
  | RvBool b => ScBool b
  | RvAddress a => ScAddr (sc_address a)
  | RvString s => ScString s
  | RvBytes b => ScBytes b
  | RvCounterparty c =>
      pack_struct [(bstr "client_id", ScString (cp_client_id c));
                   (bstr "commitment_prefix", ScVec (Some (ScBytes <$> commitment_prefix c)))]
  end.

Definition tm_key (k : TendermintLightClient.DataKey) : option ScVal :=
  match k with
  | TendermintLightClient.Client s => Some (enum_key "Client" [ScString s])
  | TendermintLightClient.Consensus s h => Some (enum_key "Consensus" [ScString s; ScU64 h])
  | TendermintLightClient.Frozen s => Some (enum_key "Frozen" [ScString s])
  end.
Definition tm_val (v : TendermintLightClient.Val) : ScVal :=
  match v with
  | TendermintLightClient.TmClient c => client_to_scval c
  | TendermintLightClient.TmConsensus c => consensus_to_scval c
  | TendermintLightClient.TmBool b => ScBool b
  end.

Definition mock_key (k : MockLightClient.DataKey) : option ScVal :=
  match k with
  | MockLightClient.ClientState s => Some (enum_key "ClientState" [ScString s])
  | MockLightClient.ConsensusState s h => Some (enum_key "ConsensusState" [ScString s; ScU64 h])
  | MockLightClient.LatestHeight s => Some (enum_key "LatestHeight" [ScString s])
  | MockLightClient.Frozen s => Some (enum_key "Frozen" [ScString s])
  end.
Definition mock_val (v : MockLightClient.Val) : ScVal :=
  match v with
  | MockLightClient.MvBytes b => ScBytes b
  | MockLightClient.MvU64 n => ScU64 n
  | MockLightClient.MvBool b => ScBool b
  end.

Definition transfer_key (k : IbcTransfer.DataKey) : option ScVal :=
  match k with
  | IbcTransfer.Router | IbcTransfer.Admin => None
  | IbcTransfer.Balance a d => Some (enum_key "Balance" [ScAddr (sc_address a); ScString d])
  | IbcTransfer.DailyCap d => Some (enum_key "DailyCap" [ScString d])
  | IbcTransfer.Usage d n => Some (enum_key "Usage" [ScString d; ScU64 n])
  end.
Definition transfer_val (v : IbcTransfer.Val) : ScVal :=
  match v with IbcTransfer.TvAddress a => ScAddr (sc_address a) | IbcTransfer.TvI128 n => i128_to_scval n end.

Lemma i128_of_to n : scval_as_i128 (i128_to_scval n) = Some n.
Proof.
  unfold i128_to_scval. rewrite scval_as_i128_value.
  - f_equal. pose proof (Z.div_mod n (2 ^ 64)). lia.
  - pose proof (Z.mod_pos_bound n (2 ^ 64)). unfold in_u64, u64_max. lia.
Qed.

(** ** Ledgers *)

(** The entries of a ledger, by key. *)
Definition ledger_view : Type := LedgerKey -> option LedgerEntryData.

(** The ledger has the persistent storage [m] of the contract [id], its keys and values as given, and
    nothing else for it. *)
Definition stores {K V} `{Countable K} (L : ledger_view) (id : bytes) (key : K -> option ScVal)
    (val : V -> ScVal) (m : gmap K V) : Prop :=
  (forall k kv, key k = Some kv -> L (KeyContractData (AddrContract id) kv) =
    (fun v => EntryContractData (AddrContract id) kv (val v)) <$> m !! k) /\
  (forall kv, (forall k, key k <> Some kv) -> L (KeyContractData (AddrContract id) kv) = None).

(** ** The keys read back *)

(** [key_of] reads the keys [key] writes, and no others. *)
Definition reads_keys {K} (key : K -> option ScVal) (key_of : ScVal -> option K) : Prop :=
  forall k kv, key_of kv = Some k <-> key k = Some kv.

Definition variant_of (kv : ScVal) : option (bytes * list ScVal) :=
  match kv with ScVec (Some (ScSymbol v :: args)) => Some (v, args) | _ => None end.

(** The constructor whose name is the variant's. *)
Fixpoint by_variant {A} (table : list (string * A)) (variant : bytes) : option A :=
  match table with
  | [] => None
  | (name, a) :: table => if decide (variant = bstr name) then Some a else by_variant table variant
  end.

Definition one_string {K} (f : bytes -> K) (args : list ScVal) : option K :=
  match args with [ScString s] => Some (f s) | _ => None end.
Definition string_u64 {K} (f : bytes -> Z -> K) (args : list ScVal) : option K :=
  match args with [ScString s; ScU64 n] => Some (f s n) | _ => None end.
Definition address_string {K} (f : Address -> bytes -> K) (args : list ScVal) : option K :=
  match args with
  | [ScAddr a; ScString s] => a ← address_of_sc a; Some (f a s)
  | _ => None
  end.

Definition read_variant {K} (table : list (string * (list ScVal -> option K))) (kv : ScVal) : option K :=
  '(variant, args) ← variant_of kv; read ← by_variant table variant; read args.

Definition router_key_of (kv : ScVal) : option RKey :=
  match kv with
  | ScBytes p => Some (KPath p)
  | _ => KData <$> read_variant
      [("NextClientId", one_string RouterTypes.NextClientId);
       ("ClientTypeAddr", one_string RouterTypes.ClientTypeAddr);
       ("ClientType", one_string RouterTypes.ClientType);
       ("ClientLcAddr", one_string RouterTypes.ClientLcAddr);
       ("Counterparty", one_string RouterTypes.CounterpartyKey);
       ("Frozen", one_string RouterTypes.Frozen);
       ("Port", one_string RouterTypes.Port);
       ("NextSeqSend", one_string RouterTypes.NextSeqSend)]%string kv
  end.
Definition tm_key_of (kv : ScVal) : option TendermintLightClient.DataKey :=
  read_variant
    [("Client", one_string TendermintLightClient.Client);
     ("Consensus", string_u64 TendermintLightClient.Consensus);
     ("Frozen", one_string TendermintLightClient.Frozen)]%string kv.
Definition mock_key_of (kv : ScVal) : option MockLightClient.DataKey :=
  read_variant
    [("ClientState", one_string MockLightClient.ClientState);
     ("ConsensusState", string_u64 MockLightClient.ConsensusState);
     ("LatestHeight", one_string MockLightClient.LatestHeight);
     ("Frozen", one_string MockLightClient.Frozen)]%string kv.
Definition transfer_key_of (kv : ScVal) : option IbcTransfer.DataKey :=
  read_variant
    [("Balance", address_string IbcTransfer.Balance);
     ("DailyCap", one_string IbcTransfer.DailyCap);
     ("Usage", string_u64 IbcTransfer.Usage)]%string kv.

Lemma address_of_to a : address_of_sc (sc_address a) = Some a.
Proof. by destruct a. Qed.
Lemma address_of_sc_inv a a' : address_of_sc a = Some a' -> sc_address a' = a.
Proof. by destruct a; intros [= <-]. Qed.

(** What a table reads: one of its names, with arguments of its kind. *)
Lemma read_variant_inv {K} (table : list (string * (list ScVal -> option K))) kv k :
  read_variant table kv = Some k ->
  Exists (fun entry => exists args, kv = enum_key entry.1 args /\ entry.2 args = Some k) table.
Proof.
  unfold read_variant. intros ([v args] & Hv & (read & Hread & Hk)%bind_Some)%bind_Some.
  destruct kv as [| | | | | | |[[|[| | | | | |s| | | |] l]|]| | |]; try done. injection Hv as -> ->.
  induction table as [|[name f] table IH]; [done|]. cbn [by_variant] in Hread. case_decide as Hd.
  - injection Hread as ->. subst v. left. by exists args.
  - right. by apply IH.
Qed.

Ltac read_table :=
  repeat match goal with H : Exists _ (_ :: _) |- _ => apply Exists_cons in H as [H|H] end;
  match goal with
  | H : Exists _ [] |- _ => by apply Exists_nil in H
  | H : exists _, _ |- _ => destruct H as (args & -> & H); cbn [snd] in H
  end;
  unfold one_string, string_u64, address_string in *;
  repeat match goal with
  | H : match ?x with _ => _ end = Some _ |- _ => destruct x; try discriminate H
  end.

Lemma router_keys_read : reads_keys router_key router_key_of.
Proof.
  intros k kv. split.
  - intros Hk. destruct kv; try (injection Hk as <-; done);
      apply fmap_Some in Hk as (d & Hd & ->); apply read_variant_inv in Hd; read_table; by injection Hd as <-.
  - destruct k as [[]|]; intros [= <-]; vm_compute; reflexivity.
Qed.

Lemma tm_keys_read : reads_keys tm_key tm_key_of.
Proof.
  intros k kv. split.
  - intros Hk%read_variant_inv. read_table; by injection Hk as <-.
  - destruct k; intros [= <-]; vm_compute; reflexivity.
Qed.
Lemma mock_keys_read : reads_keys mock_key mock_key_of.
Proof.
  intros k kv. split.
  - intros Hk%read_variant_inv. read_table; by injection Hk as <-.
  - destruct k; intros [= <-]; vm_compute; reflexivity.
Qed.
Lemma transfer_keys_read : reads_keys transfer_key transfer_key_of.
Proof.
  intros k kv. split.
  - intros Hk%read_variant_inv. read_table; try by injection Hk as <-.
    apply bind_Some in Hk as (a' & <-%address_of_sc_inv & [= <-]). done.
  - destruct k as [| |a d| |]; intros [= <-]; try destruct a; vm_compute; reflexivity.
Qed.

(** The ledger of one contract. *)
Definition contract_view {K V} `{Countable K} (id : bytes) (key_of : ScVal -> option K) (val : V -> ScVal)
    (m : gmap K V) : ledger_view := fun k =>
  match k with
  | KeyContractData (AddrContract c) kv =>
      if decide (c = id) then
        k ← key_of kv; v ← m !! k; Some (EntryContractData (AddrContract id) kv (val v))
      else None
  | _ => None
  end.

Lemma contract_view_stores {K V} `{Countable K} id key key_of (val : V -> ScVal) (m : gmap K V) :
  reads_keys key key_of -> stores (contract_view id key_of val m) id key val m.
Proof.
  intros Hk. split.
  - intros k kv Hkv%Hk. unfold contract_view. rewrite decide_True by done. rewrite Hkv. cbn [mbind option_bind].
    by destruct (m !! k).
  - intros kv Hno. unfold contract_view. rewrite decide_True by done.
    destruct (key_of kv) as [k|] eqn:He; [|done]. apply Hk in He. by destruct (Hno k).
Qed.

(** Contracts with different identities do not disturb each other. *)
Definition both (L L' : ledger_view) : ledger_view := fun k => match L k with Some e => Some e | None => L' k end.

Lemma both_stores_l {K V} `{Countable K} L L' id key (val : V -> ScVal) (m : gmap K V) :
  (forall kv, L' (KeyContractData (AddrContract id) kv) = None) ->
  stores L id key val m -> stores (both L L') id key val m.
Proof.
  intros Hn [Hin Hout]. unfold both. split.
  - intros k kv Hkv. rewrite (Hin k kv Hkv). by destruct (m !! k); cbn [fmap option_fmap option_map].
  - intros kv Hno. by rewrite (Hout kv Hno).
Qed.
Lemma both_stores_r {K V} `{Countable K} L L' id key (val : V -> ScVal) (m : gmap K V) :
  (forall kv, L (KeyContractData (AddrContract id) kv) = None) ->
  stores L' id key val m -> stores (both L L') id key val m.
Proof.
  intros Hn [Hin Hout]. unfold both. split.
  - intros k kv Hkv. by rewrite Hn, (Hin k kv Hkv).
  - intros kv Hno. by rewrite Hn, (Hout kv Hno).
Qed.
Lemma contract_view_other {K V} `{Countable K} id id' key_of (val : V -> ScVal) (m : gmap K V) kv :
  id <> id' -> contract_view id key_of val m (KeyContractData (AddrContract id') kv) = None.
Proof. intros Hne. unfold contract_view. by rewrite decide_False by congruence. Qed.

(** ** The published format of contract-data keys and entries *)

Module LedgerFormat.
Import Rfc4506.

(** An address is the value without its tag. *)
Definition put_address (a : ScAddress) : option bytes := drop 4 <$> put_val (ScAddr a).
Definition get_address (fuel : nat) (bs : bytes) : option (ScAddress * bytes) :=
  match get_val fuel (be4 18 ++ bs) with Some (ScAddr a, bs) => Some (a, bs) | _ => None end.
Definition expect (n : Z) (bs : bytes) : option bytes :=
  '(m, bs) ← get_uint 4 bs; if m =? n then Some bs else None.

(** Contract data is kind 6; persistent durability is 1. *)
Definition put_key (k : LedgerKey) : option bytes :=
  match k with
  | KeyContractData c kv => a ← put_address c; b ← put_val kv; Some (be4 6 ++ a ++ b ++ be4 1)
  | KeyOther _ => None
  end.
Definition put_entry (e : LedgerEntryData) : option bytes :=
  match e with
  | EntryContractData c kv v =>
      a ← put_address c; b ← put_val kv; d ← put_val v;
      Some (be4 6 ++ be4 0 ++ a ++ b ++ be4 1 ++ d)
  | EntryOther _ => None
  end.
Definition at_end {A} (r : option (A * bytes)) : option A :=
  match r with Some (a, []) => Some a | _ => None end.
Definition get_key (b : bytes) : option LedgerKey :=
  let fuel := (4 + length b)%nat in
  bs ← expect 6 b; '(c, bs) ← get_address fuel bs; '(kv, bs) ← get_val fuel bs;
  bs ← expect 1 bs; at_end (Some (KeyContractData c kv, bs)).
Definition get_entry (b : bytes) : option LedgerEntryData :=
  let fuel := (4 + length b)%nat in
  bs ← expect 6 b; bs ← expect 0 bs; '(c, bs) ← get_address fuel bs; '(kv, bs) ← get_val fuel bs;
  bs ← expect 1 bs; '(v, bs) ← get_val fuel bs; at_end (Some (EntryContractData c kv v, bs)).

#[export] Instance ledger_xdr : LedgerXdr := {|
  key_to_xdr := put_key; key_from_xdr := get_key; entry_to_xdr := put_entry; entry_from_xdr := get_entry;
|}.

Lemma expect_be4 n r : in_u32 n -> expect n (be4 n ++ r) = Some r.
Proof. intros Hn. unfold expect. rewrite get_be4 by done. cbn [mbind option_bind]. by rewrite Z.eqb_refl. Qed.

Lemma reads_all v : reads v.
Proof. apply ScVal_nested_ind; auto using leaf_reads, vec_reads, map_reads. Qed.

Lemma get_put_val v b fuel r : put_val v = Some b -> (length b <= fuel)%nat -> get_val fuel (b ++ r) = Some (v, r).
Proof. intros Hb Hf. by apply reads_all. Qed.

Lemma put_address_tag a b : put_address a = Some b -> put_val (ScAddr a) = Some (be4 18 ++ b).
Proof.
  unfold put_address. intros (c & Hc & ->)%fmap_Some. rewrite Hc. f_equal.
  destruct a; cbn [put_val] in Hc; try case_decide; try done; by injection Hc as <-.
Qed.

Lemma get_put_address a b fuel r :
  put_address a = Some b -> (4 + length b <= fuel)%nat -> get_address fuel (b ++ r) = Some (a, r).
Proof.
  intros Hb%put_address_tag Hf. unfold get_address. rewrite app_assoc, (get_put_val _ _ fuel r Hb); [done|].
  by rewrite length_app, be4_length.
Qed.

Lemma get_put_key k b : put_key k = Some b -> get_key b = Some k.
Proof.
  destruct k as [c kv|]; [|done]. cbn [put_key].
  intros (a & Ha & (d & Hd & Hb)%bind_Some)%bind_Some. apply (inj Some) in Hb as <-. unfold get_key.
  rewrite expect_be4 by (unfold in_u32, u32_max; lia). cbn [mbind option_bind].
  rewrite (get_put_address c a) by (done || (rewrite !length_app; lia)). cbn [mbind option_bind].
  rewrite (get_put_val kv d) by (done || (rewrite !length_app; lia)). cbn [mbind option_bind].
  rewrite <-(app_nil_r (be4 1)), expect_be4 by (unfold in_u32, u32_max; lia). done.
Qed.

Lemma get_put_entry e b : put_entry e = Some b -> get_entry b = Some e.
Proof.
  destruct e as [c kv v|]; [|done]. cbn [put_entry].
  intros (a & Ha & (d & Hd & (f & Hf & Hb)%bind_Some)%bind_Some)%bind_Some. apply (inj Some) in Hb as <-.
  unfold get_entry.
  rewrite expect_be4 by (unfold in_u32, u32_max; lia). cbn [mbind option_bind].
  rewrite expect_be4 by (unfold in_u32, u32_max; lia). cbn [mbind option_bind].
  rewrite (get_put_address c a) by (done || (rewrite !length_app; lia)). cbn [mbind option_bind].
  rewrite (get_put_val kv d) by (done || (rewrite !length_app; lia)). cbn [mbind option_bind].
  rewrite expect_be4 by (unfold in_u32, u32_max; lia). cbn [mbind option_bind].
  pose proof (get_put_val v f (4 + length (be4 6 ++ be4 0 ++ a ++ d ++ be4 1 ++ f))%nat [] Hf) as Hv.
  rewrite app_nil_r in Hv. rewrite Hv by (done || (rewrite !length_app; lia)). done.
Qed.

Lemma put_items_Some l : Forall (fun v => is_Some (put_val v)) l -> is_Some (put_items l).
Proof.
  induction 1 as [|v l [b Hb] Hl [c Hc]]; [by eexists|]. cbn [put_items]. rewrite Hb, Hc. by eexists.
Qed.

#[export] Instance ledger_xdr_laws : LedgerXdrLaws.
Proof.
  constructor.
  - apply get_put_key.
  - apply get_put_entry.
  - intros c k v b (a & Ha & (d & Hd & (f & Hf & _)%bind_Some)%bind_Some)%bind_Some. by exists f.
  - intros s Hs. cbn [to_xdr scval_xdr put_val]. unfold guard_fits. rewrite Hs. by eexists.
  - intros n Hn. cbn [to_xdr scval_xdr put_val]. rewrite decide_True by done. by eexists.
  - intros c variant args Hc Hv Ha Hargs. cbn [key_to_xdr ledger_xdr put_key].
    assert (is_Some (put_address (AddrContract c))) as [a ->].
    { unfold put_address. cbn [put_val]. rewrite decide_True by done. by eexists. }
    cbn [mbind option_bind].
    change (put_val (ScVec (Some (ScSymbol variant :: args)))) with
      (body ← put_items (ScSymbol variant :: args);
       guard_fits u32_max (ScSymbol variant :: args)
         (be4 16 ++ be4 1 ++ be4 (Z.of_nat (length (ScSymbol variant :: args))) ++ body)).
    destruct (put_items_Some (ScSymbol variant :: args)) as [body ->].
    { constructor; [|done]. cbn [put_val]. unfold guard_fits. rewrite Hv. by eexists. }
    cbn [mbind option_bind]. unfold guard_fits, fits. cbn [length].
    unfold fits in Ha. apply Z.leb_le in Ha.
    rewrite (proj2 (Z.leb_le _ _)); [by eexists|]. unfold u32_max. lia.
Qed.

End LedgerFormat.
