(* ===== verification/Rpc.v ===== *)
(** * The Soroban RPC client ([crates/api/src/rpc.rs])

    [RpcClient] wraps the RPC server of a Stellar node.  [soroban_client]'s [Server], the transaction
    builder and the XDR of headers and envelopes are the class [SorobanRpc]: what each call returns, or
    nothing when it fails.  The server is read as it is at one moment. *)

From Stdlib Require Import ZArith Lia Strings.Byte Strings.String.
From stdpp Require Import base option list gmap numbers.
From S2P Require Import Prelude Bytes Text Crypto CoreCommitment Conversion Json GatewayState Xdr.
From S2P Require Import TendermintStates ApiTypes LedgerEntries.
Open Scope Z_scope.

Inductive Pagination : Type := From (ledger : Z) | AtCursor (c : bytes).
Inductive TransactionStatus : Type := Success | Failed | TxNotFound.
(** [contract.call(method, Some(args))]. *)
Record Operation : Type := MkOperation { op_contract : bytes; op_method : bytes; op_args : list ScVal }.
Record ServerEvent : Type := MkServerEvent {   (* EventInfo *)
  se_id : bytes;
  se_ledger : Z;
  se_ledger_closed_at : bytes;
  se_contract_id : bytes;
  se_tx_hash : bytes;
  se_topic : list ScVal;
  se_value : ScVal;
}.
Record ServerEvents : Type := MkServerEvents {   (* GetEventsResponse *)
  ses_latest_ledger : Z; ses_cursor : option bytes; ses_events : list ServerEvent;
}.

Class SorobanRpc := {
  LedgerHeader : Type;
  CloseMeta : Type;
  Envelope : Type;
  Account : Type;
  Prepared : Type;
  header_to_xdr : LedgerHeader -> option bytes;
  meta_to_xdr : CloseMeta -> option bytes;
  envelope_to_xdr : Envelope -> option bytes;
  envelope_from_xdr : bytes -> option Envelope;
  envelope_to_base64 : Envelope -> option bytes;
  (** Strkey text of a contract, as [Contracts::new] and [stellar_strkey] read it. *)
  contract_from_string : bytes -> option bytes;
  srv_latest_ledger : option Z;
  (** [get_ledgers(Pagination::From(n), Some(limit))]: sequence, header and metadata of each. *)
  srv_ledgers : Z -> Z -> option (list (Z * option LedgerHeader * option CloseMeta));
  srv_ledger_entries : list LedgerKey -> option (option (list LedgerEntryData));
  srv_events : Pagination -> list bytes -> option Z -> option ServerEvents;
  srv_account : bytes -> option Account;
  (** [TransactionBuilder]: source, network passphrase, fee and operation; then [prepare_transaction]. *)
  srv_prepare : Account -> bytes -> Z -> Operation -> option Prepared;
  to_envelope : Prepared -> option Envelope;
  (** A JSON-RPC request posted to the server's URL. *)
  srv_post : Value -> option Value;
  (** Status and return value of a transaction that is waited for. *)
  srv_wait : bytes -> option (TransactionStatus * option ScVal);
}.

Section RpcClient.
Context `{SorobanRpc} `{LedgerXdr} `{ScvalXdr}.

(** An error, named by the constant part of its text. *)
Definition rpc_err {A} (text : string) (o : option A) : result ApiError A := ok_or text o.

Definition get_latest_ledger : result ApiError Z := rpc_err "get_latest_ledger" srv_latest_ledger.

Definition get_ledger (sequence : Z) : result ApiError LedgerData :=
  ledgers ← rpc_err "getLedgers RPC failed" (srv_ledgers sequence 1);
  '(info_sequence, header, metadata) ← rpc_err "getLedgers: no ledger at sequence" (head ledgers);
  if negb (info_sequence =? sequence) then Err "getLedgers: expected seq"%string
  else
    h ← rpc_err "getLedgers: no headerXdr for sequence" header;
    header_xdr ← rpc_err "LedgerHeader XDR encode failed" (header_to_xdr h);
    metadata_xdr ←
      match metadata with
      | Some m => x ← rpc_err "LedgerCloseMeta XDR encode failed" (meta_to_xdr m); Ok (Some x)
      | None => Ok None
      end;
    Ok (MkLedgerData sequence header_xdr metadata_xdr).

Definition get_ledger_entry (key : bytes) : result ApiError (option bytes) :=
  ledger_key ← rpc_err "invalid LedgerKey XDR" (key_from_xdr key);
  entries ← rpc_err "getLedgerEntries RPC failed" (srv_ledger_entries [ledger_key]);
  match entries with
  | Some (e :: _) =>
      data_xdr ← rpc_err "failed to re-encode LedgerEntryData" (entry_to_xdr e);
      Ok (Some data_xdr)
  | _ => Ok None
  end.

Definition event_record (ev : ServerEvent) : result ApiError EventRecord :=
  topics_xdr ← collect (fun t => rpc_err "event topic XDR encode" (to_xdr t)) (se_topic ev);
  value_xdr ← rpc_err "event value XDR encode" (to_xdr (se_value ev));
  Ok (MkEventRecord (se_id ev) (as_u32 (se_ledger ev)) (se_ledger_closed_at ev) (se_contract_id ev)
        (se_tx_hash ev) topics_xdr value_xdr).

Definition get_events (contract_id : bytes) (cursor : EventCursor) (limit : option Z) :
    result ApiError EventsPage :=
  let pagination := match cursor with Cursor c => AtCursor c | StartLedger s => From s end in
  resp ← rpc_err "getEvents RPC failed" (srv_events pagination [contract_id] limit);
  events ← collect event_record (ses_events resp);
  Ok (MkEventsPage (as_u32 (ses_latest_ledger resp)) (default [] (ses_cursor resp)) events).

Definition build_unsigned_tx (signer contract_id method : bytes) (args_xdr : list bytes)
    (network_passphrase : bytes) (base_fee : Z) : result ApiError bytes :=
  args ← collect (fun raw => rpc_err "arg ScVal XDR decode" (from_xdr raw)) args_xdr;
  contract ← rpc_err "invalid contract id" (contract_from_string contract_id);
  let operation := MkOperation contract method args in
  if decide (signer = []) then Err "signer (tx source account) is required"%string
  else
    source ← rpc_err "get_account" (srv_account signer);
    prepared ← rpc_err "prepare_transaction" (srv_prepare source network_passphrase base_fee operation);
    envelope ← rpc_err "to_envelope" (to_envelope prepared);
    rpc_err "envelope XDR encode" (envelope_to_xdr envelope).

Definition send_body (tx_b64 : bytes) : Value :=
  jobject [("jsonrpc", jtext "2.0"); ("id", JNumber 1); ("method", jtext "sendTransaction");
           ("params", jobject [("transaction", JString tx_b64)])]%string.

Definition submit_and_wait (tx_xdr : bytes) : result ApiError SubmittedTx :=
  envelope ← rpc_err "invalid TransactionEnvelope XDR" (envelope_from_xdr tx_xdr);
  tx_b64 ← rpc_err "failed to base64-encode transaction" (envelope_to_base64 envelope);
  resp ← rpc_err "sendTransaction HTTP failed" (srv_post (send_body tx_b64));
  hash ← rpc_err "sendTransaction rejected" (v ← pointer resp ["result"; "hash"]%string; as_str v);
  '(status, rv) ← rpc_err "wait_transaction failed" (srv_wait hash);
  match status with
  | Success => Ok (MkSubmittedTx hash rv)
  | Failed => Err "transaction failed on-chain"%string
  | TxNotFound => Err "transaction not found after 30s"%string
  end.

End RpcClient.

(** ** Reading a ledger *)

(** The server answers for the entries of the ledger [L], whose values are all valid XDR. *)
Record serves_ledger `{SorobanRpc} `{LedgerXdr} (L : ledger_view) : Prop := {
  entries_of : forall k, srv_ledger_entries [k] = Some (match L k with Some e => Some [e] | None => Some [] end);
  entries_encode : forall k e, L k = Some e -> is_Some (entry_to_xdr e);
}.

(** The entry at a key, read back as the value of the contract. *)
Lemma ledger_entry_value `{SorobanRpc} `{LedgerXdr} `{ScvalXdr} `{!LedgerXdrLaws} L k key :
  serves_ledger L -> key_to_xdr k = Some key ->
  exists o, get_ledger_entry key = Ok o /\
    match L k with
    | Some (EntryContractData _ _ v) => exists x, o = Some x /\ ledger_entry_contract_val x = Some v
    | Some (EntryOther _) => exists x, o = Some x /\ ledger_entry_contract_val x = None
    | None => o = None
    end.
Proof.
  intros HL Hk. unfold get_ledger_entry, rpc_err. rewrite (key_from_to _ _ Hk). cbn [ok_or mbind result_bind].
  rewrite (entries_of L HL). cbn [ok_or mbind result_bind]. destruct (L k) as [e|] eqn:He; [|by eexists].
  destruct (entries_encode L HL k e He) as [x Hx]. rewrite Hx. cbn [ok_or mbind result_bind].
  eexists. split; [reflexivity|]. destruct e; exists x; (split; [done|]);
    unfold ledger_entry_contract_val; by rewrite (entry_from_to _ _ Hx).
Qed.

Lemma get_ledger_sequence `{SorobanRpc} n d : get_ledger n = Ok d -> ld_sequence d = n.
Proof.
  unfold get_ledger. intros (l & _ & Hd)%result_bind_Ok. apply result_bind_Ok in Hd as ([[m h] meta] & _ & Hd).
  destruct (negb _); [done|]. apply result_bind_Ok in Hd as (h' & _ & Hd).
  apply result_bind_Ok in Hd as (x & _ & Hd). apply result_bind_Ok in Hd as (y & _ & Hd).
  by injection Hd as <-.
Qed.
