(* ===== verification/ApiService.v ===== *)
(** * The API service ([crates/api/src/{state,runner}.rs], [crates/api/src/services])

    The HTTP service in front of the RPC server: the handlers of its routes, what their extractors accept,
    and the route table.  A reply is a status and a body, JSON or plain text. *)

From Stdlib Require Import ZArith Lia Strings.Byte Strings.String.
From stdpp Require Import base option list gmap numbers.
From S2P Require Import Prelude Bytes Text Crypto CoreCommitment Conversion Json GatewayState Xdr.
From S2P Require Import TendermintStates ApiTypes LedgerEntries Rpc.
Open Scope Z_scope.

Record AppState : Type := MkAppState {
  ibc_contract_id : bytes;
  transfer_contract_id : bytes;
  network_passphrase : bytes;
}.

Inductive Reply : Type :=
| JsonReply (code : Z) (body : Value)
| PlainReply (code : Z) (text : bytes).

Definition OK : Z := 200.
Definition BAD_REQUEST : Z := 400.
Definition NOT_FOUND : Z := 404.
Definition METHOD_NOT_ALLOWED : Z := 405.
Definition UNPROCESSABLE : Z := 422.
Definition INTERNAL_SERVER_ERROR : Z := 500.
Definition BAD_GATEWAY : Z := 502.

(** [(StatusCode, Json<Value>)] of an error: its status and the constant part of its text. *)
Definition Failure : Type := Z * string.
Definition err (f : Failure) : Reply := JsonReply f.1 (jobject [("error", jtext f.2)]%string).
(** [.map_err(|e| err(status, format!("text: {e}")))]; for an error of the XDR codecs, whose text is not
    modelled, the step it is about. *)
Definition or_err {E A} (status : Z) (text : string) (r : result E A) : result Failure A :=
  match r with Ok a => Ok a | Err _ => Err (status, text) end.
(** The same where the error's text is the whole text. *)
Definition pass_err {A} (status : Z) (r : result ApiError A) : result Failure A :=
  match r with Ok a => Ok a | Err e => Err (status, e) end.
Definition reply (r : result Failure Value) : Reply :=
  match r with Ok v => JsonReply OK v | Err f => err f end.

Definition BASE_FEE : Z := 1000.
Definition DEFAULT_CLIENT_TYPES : list bytes :=
  [bstr "07-tendermint"; bstr "mock"; bstr "attestation"; bstr "08-wasm"].
Definition dash : byte := Byte.x2d.

(** [match client_id.rfind('-') { Some(i) => &client_id[..i], None => client_id }]. *)
Definition client_type_of (client_id : bytes) : bytes :=
  match split_once dash (rev client_id) with Some (_, before) => rev before | None => client_id end.

(** ** Requests and their extractors *)

Record EventsQuery : Type := MkEventsQuery {
  q_contract_id : option bytes; q_cursor : option bytes; q_start_ledger : option Z; q_limit : option Z;
}.
Record PrepareRequest : Type := MkPrepareRequest { pr_signer : bytes; pr_method : bytes; pr_args_xdr : list bytes }.

Definition params_of : Type := list (bytes * bytes).
(** A field of a query: absent, present once, or a duplicate, which is refused. *)
Definition query_field (name : string) (params : params_of) : option (option bytes) :=
  match filter (fun p => p.1 = bstr name) params with
  | [] => Some None
  | [p] => Some (Some p.2)
  | _ => None
  end.
Definition query_u32 (name : string) (params : params_of) : option (option Z) :=
  o ← query_field name params;
  match o with Some s => n ← Decimal.parse_unsigned u32_max s; Some (Some n) | None => Some None end.
Definition events_query (params : params_of) : option EventsQuery :=
  c ← query_field "contract_id" params; k ← query_field "cursor" params;
  s ← query_u32 "start_ledger" params; l ← query_u32 "limit" params;
  Some (MkEventsQuery c k s l).

(** [#[serde(default)]] and required fields of a JSON body. *)
Definition field_or {A} (as_type : Value -> option A) (dflt : A) (v : Value) (name : string) : option A :=
  match get v name with Some x => as_type x | None => Some dflt end.
Definition as_strings (v : Value) : option (list bytes) := l ← as_array v; mapM as_str l.
Definition prepare_request (v : Value) : option PrepareRequest :=
  s ← field_or as_str [] v "signer"; m ← (x ← get v "method"; as_str x);
  a ← field_or as_strings [] v "args_xdr";
  Some (MkPrepareRequest s m a).
(** [SubmitSignedTxRequest]. *)
Definition submit_request (v : Value) : option bytes := x ← get v "tx_xdr"; as_str x.

Section Service.
Context `{SorobanRpc} `{LedgerXdr} `{ScvalXdr}.
Variable state : AppState.

(** ** [ledgers.rs] *)

Definition ledger_body (ledger : LedgerData) : Value :=
  jobject [("sequence", JNumber (ld_sequence ledger));
           ("header_xdr", JString (Hex.encode (header_xdr ledger)));
           ("metadata_xdr", joption (Hex.encode <$> metadata_xdr ledger))]%string.
Definition svc_get_ledger (sequence : Z) : Reply :=
  match get_ledger sequence with
  | Ok ledger => JsonReply OK (ledger_body ledger)
  | Err e => err (BAD_GATEWAY, e)
  end.
Definition svc_get_latest_ledger : Reply :=
  match get_latest_ledger with Ok sequence => svc_get_ledger sequence | Err e => err (BAD_GATEWAY, e) end.

(** ** [events.rs] *)

Definition event_json (ev : EventRecord) : Value :=
  jobject [("id", JString (ev_id ev)); ("ledger", JNumber (ev_ledger ev));
           ("ledger_closed_at", JString (ev_ledger_closed_at ev));
           ("contract_id", JString (ev_contract_id ev)); ("tx_hash", JString (ev_tx_hash ev));
           ("topics_xdr", JArray ((fun t => JString (Hex.encode t)) <$> topics_xdr ev));
           ("value_xdr", JString (Hex.encode (value_xdr ev)))]%string.
Definition events_body (page : EventsPage) : Value :=
  jobject [("latest_ledger", JNumber (page_latest_ledger page)); ("cursor", JString (page_cursor page));
           ("events", JArray (event_json <$> page_events page))]%string.
(** The cursor of a query: a non-empty cursor, else a positive ledger. *)
Definition query_cursor (q : EventsQuery) : option EventCursor :=
  match q_cursor q, q_start_ledger q with
  | Some (c :: cs), _ => Some (Cursor (c :: cs))
  | _, Some s => if 0 <? s then Some (StartLedger s) else None
  | _, None => None
  end.
Definition svc_get_events (params : EventsQuery) : Reply :=
  match q_contract_id params with
  | None | Some [] => err (BAD_REQUEST, "missing 'contract_id' query parameter"%string)
  | Some contract_id =>
      match query_cursor params with
      | None => err (BAD_REQUEST, "must provide either non-empty 'cursor' or 'start_ledger' > 0"%string)
      | Some cursor =>
          match get_events contract_id cursor (q_limit params) with
          | Ok page => JsonReply OK (events_body page)
          | Err e => err (BAD_GATEWAY, e)
          end
      end
  end.

(** ** [balance.rs] *)

Definition balance_ledger_key (contract address_hex denom : bytes) : result XdrError bytes :=
  addr_xdr ← ok_or (XdrForeign "hex") (Hex.decode address_hex);
  addr_val ← scval_from_xdr addr_xdr;
  variant ← converted (scval_symbol (bstr "Balance"));
  denom_val ← converted (scval_string denom);
  key_val ← converted (scval_vec [variant; addr_val; denom_val]);
  persistent_contract_data_key contract key_val.
Definition decode_i128 (entry_xdr : bytes) : option Z :=
  v ← ledger_entry_contract_val entry_xdr; scval_as_i128 v.
Definition transfer_balance (denom address : bytes) : result Failure Value :=
  if decide (transfer_contract_id state = []) then
    Err (BAD_GATEWAY, "TRANSFER_CONTRACT_ADDRESS not configured"%string)
  else
    contract ← or_err BAD_GATEWAY "transfer contract addr"
      (ok_or XdrRead (contract_from_string (transfer_contract_id state)));
    key ← or_err BAD_REQUEST "balance key" (balance_ledger_key contract address denom);
    entry ← pass_err BAD_GATEWAY (get_ledger_entry key);
    let balance := default 0 (x ← entry; decode_i128 x) in
    Ok (jobject [("balance", JString (Decimal.show_i128 balance))]%string).

(** ** [clients.rs] *)

Definition contract_data_key (contract : bytes) (variant : string) (arg : bytes) : result XdrError bytes :=
  v ← converted (scval_symbol (bstr variant));
  a ← converted (scval_string arg);
  key_val ← converted (scval_vec [v; a]);
  persistent_contract_data_key contract key_val.
Definition consensus_data_key (contract client_id : bytes) (height : Z) : result XdrError bytes :=
  v ← converted (scval_symbol (bstr "Consensus"));
  a ← converted (scval_string client_id);
  key_val ← converted (scval_vec [v; a; scval_u64 height]);
  persistent_contract_data_key contract key_val.
Definition decode_counter (entry_xdr : bytes) : option Z :=
  v ← ledger_entry_contract_val entry_xdr; scval_as_u32 v.

(** The configured router contract: the first lines of the three handlers. *)
Definition router_contract : result Failure bytes :=
  if decide (ibc_contract_id state = []) then
    Err (BAD_GATEWAY, "ROUTER_CONTRACT_ADDRESS not configured"%string)
  else
    or_err BAD_GATEWAY "invalid ROUTER_CONTRACT_ADDRESS"
      (ok_or XdrRead (contract_from_string (ibc_contract_id state))).

(** The entry at a key that must exist. *)
Definition entry_at (key : bytes) (unreachable missing : string) : result Failure bytes :=
  entry ← or_err BAD_GATEWAY unreachable (get_ledger_entry key);
  match entry with Some x => Ok x | None => Err (NOT_FOUND, missing) end.

(** The light-client contract of a client. *)
Definition lc_contract_of (client_id : bytes) : result Failure bytes :=
  router ← router_contract;
  lc_key ← or_err INTERNAL_SERVER_ERROR "lc key" (contract_data_key router "ClientLcAddr" client_id);
  lc_entry ← entry_at lc_key "get lc address" "client not found";
  match ledger_entry_contract_val lc_entry with
  | Some (ScAddr (AddrContract id)) => Ok id
  | _ => Err (INTERNAL_SERVER_ERROR, "ClientLcAddr entry is not a contract address"%string)
  end.

Definition client_state (client_id : bytes) : result Failure Value :=
  lc_contract ← lc_contract_of client_id;
  cs_key ← or_err INTERNAL_SERVER_ERROR "client key" (contract_data_key lc_contract "Client" client_id);
  cs_entry ← entry_at cs_key "get client state" "client state not found";
  cs_val ← ok_or (INTERNAL_SERVER_ERROR, "client state entry is not contract data"%string)
    (ledger_entry_contract_val cs_entry);
  cs_xdr ← or_err INTERNAL_SERVER_ERROR "re-encode" (scval_to_xdr cs_val);
  Ok (jobject [("client_id", JString client_id); ("client_type", JString (client_type_of client_id));
               ("client_state_xdr", JString (Hex.encode cs_xdr))]%string).

Definition consensus_state (client_id : bytes) (height : Z) : result Failure Value :=
  lc_contract ← lc_contract_of client_id;
  cons_key ← or_err INTERNAL_SERVER_ERROR "consensus key" (consensus_data_key lc_contract client_id height);
  cons_entry ← entry_at cons_key "get consensus state" "consensus state not found";
  cons_val ← ok_or (INTERNAL_SERVER_ERROR, "consensus state entry is not contract data"%string)
    (ledger_entry_contract_val cons_entry);
  cons_xdr ← or_err INTERNAL_SERVER_ERROR "re-encode" (scval_to_xdr cons_val);
  Ok (jobject [("client_id", JString client_id); ("client_type", JString (client_type_of client_id));
               ("height", JNumber height); ("consensus_state_xdr", JString (Hex.encode cons_xdr))]%string).

(** The group of one type: nothing when its counter is absent or zero. *)
Definition client_group (router client_type : bytes) : result Failure (list Value) :=
  key ← or_err INTERNAL_SERVER_ERROR "counter key" (contract_data_key router "NextClientId" client_type);
  entry ← or_err BAD_GATEWAY "get_ledger_entry" (get_ledger_entry key);
  let count := default 0 (x ← entry; decode_counter x) in
  if count =? 0 then Ok []
  else
    let client_ids := (fun n => JString (client_type ++ bstr "-" ++ dec 10 n)) <$> seqZ 0 count in
    Ok [jobject [("client_type", JString client_type); ("count", JNumber count);
                 ("client_ids", JArray client_ids)]%string].
Definition list_clients (client_type : option bytes) : result Failure Value :=
  router ← router_contract;
  let types := match client_type with Some t => [t] | None => DEFAULT_CLIENT_TYPES end in
  groups ← collect (client_group router) types;
  Ok (jobject [("clients", JArray (mjoin groups))]%string).

(** ** [tx.rs] *)

Definition prepare_tx (req : PrepareRequest) : result Failure Value :=
  if decide (ibc_contract_id state = []) then
    Err (BAD_GATEWAY, "ROUTER_CONTRACT_ADDRESS not configured"%string)
  else
    args_xdr ← collect (fun a => ok_or (BAD_REQUEST, "args_xdr hex"%string) (Hex.decode a)) (pr_args_xdr req);
    tx_xdr ← pass_err BAD_GATEWAY
      (build_unsigned_tx (pr_signer req) (ibc_contract_id state) (pr_method req) args_xdr
         (network_passphrase state) BASE_FEE);
    Ok (jobject [("tx_xdr", JString (Hex.encode tx_xdr))]%string).

Definition submit_signed_tx (tx_hex : bytes) : result Failure Value :=
  tx_xdr ← ok_or (BAD_REQUEST, "tx_xdr hex"%string) (Hex.decode tx_hex);
  submitted ← pass_err BAD_GATEWAY (submit_and_wait tx_xdr);
  return_value_xdr ←
    match return_value submitted with
    | Some value =>
        x ← ok_or (BAD_GATEWAY, "return_value XDR encode"%string) (to_xdr value); Ok (Hex.encode x)
    | None => Ok []
    end;
  Ok (jobject [("hash", JString (tx_hash submitted)); ("return_value_xdr", JString return_value_xdr)]%string).

(** ** [runner.rs] *)

Definition health : Reply :=
  match get_latest_ledger with
  | Ok sequence => PlainReply OK (bstr "Stellar IBC API is healthy. Latest ledger: " ++ dec 10 sequence)
  | Err e =>
      PlainReply OK (bstr "Stellar IBC API is healthy. Latest ledger: unavailable (" ++ bstr e ++ bstr ")")
  end.

(** What a handler is given: the path parameters, the query and the body. *)
Definition Endpoint : Type := list bytes -> params_of -> Value -> Reply.
Inductive Segment : Type := Lit (s : string) | Param.

Definition rejected (code : Z) : Reply := PlainReply code (bstr "Failed to deserialize").
Definition extract {A} (code : Z) (o : option A) (k : A -> Reply) : Reply :=
  match o with Some a => k a | None => rejected code end.

Definition routes : list (list Segment * Method * Endpoint) :=
  [([Lit "health"], GET, fun _ _ _ => health);
   ([Lit "ledger"; Lit "latest"], GET, fun _ _ _ => svc_get_latest_ledger);
   ([Lit "ledger"; Param], GET, fun path _ _ =>
      extract BAD_REQUEST (s ← head path; Decimal.parse_unsigned u32_max s) svc_get_ledger);
   ([Lit "events"], GET, fun _ params _ => extract BAD_REQUEST (events_query params) svc_get_events);
   ([Lit "stellar"; Lit "transfer"; Lit "balance"; Param; Param], GET, fun path _ _ =>
      extract BAD_REQUEST (match path with [d; a] => Some (d, a) | _ => None end)
        (fun da => reply (transfer_balance da.1 da.2)));
   ([Lit "stellar"; Lit "clients"], GET, fun _ params _ =>
      extract BAD_REQUEST (query_field "client_type" params) (fun t => reply (list_clients t)));
   ([Lit "stellar"; Lit "clients"; Param; Lit "state"], GET, fun path _ _ =>
      extract BAD_REQUEST (head path) (fun c => reply (client_state c)));
   ([Lit "stellar"; Lit "clients"; Param; Lit "consensus"; Param], GET, fun path _ _ =>
      extract BAD_REQUEST
        (match path with [c; h] => h ← Decimal.parse_unsigned u64_max h; Some (c, h) | _ => None end)
        (fun ch => reply (consensus_state ch.1 ch.2)));
   ([Lit "tx"; Lit "submit"], POST, fun _ _ body =>
      extract UNPROCESSABLE (submit_request body) (fun t => reply (submit_signed_tx t)));
   ([Lit "tx"; Lit "prepare"], POST, fun _ _ body =>
      extract UNPROCESSABLE (prepare_request body) (fun r => reply (prepare_tx r)))]%string.

(** The parameters of a path that matches; a parameter stands for one non-empty segment. *)
Fixpoint path_match (pattern : list Segment) (path : list bytes) : option (list bytes) :=
  match pattern, path with
  | [], [] => Some []
  | Lit s :: pattern, x :: path => if decide (x = bstr s) then path_match pattern path else None
  | Param :: pattern, x :: path =>
      if decide (x = []) then None else ps ← path_match pattern path; Some (x :: ps)
  | _, _ => None
  end.

#[export] Instance Method_eq_dec : EqDecision Method.
Proof. solve_decision. Defined.

(** The first route of the table whose pattern matches (fixed segments come before parameters). *)
Fixpoint dispatch (table : list (list Segment * Method * Endpoint)) (m : Method) (path : list bytes)
    (params : params_of) (body : Value) : Reply :=
  match table with
  | [] => PlainReply NOT_FOUND []
  | (pattern, m', endpoint) :: table =>
      match path_match pattern path with
      | Some ps => if decide (m = m') then endpoint ps params body else PlainReply METHOD_NOT_ALLOWED []
      | None => dispatch table m path params body
      end
  end.

Definition serve : Method -> list bytes -> params_of -> Value -> Reply := dispatch routes.

End Service.
