(* ===== verification/ApiClient.v ===== *)
(** * The API client ([crates/core/src/api_client.rs])

    The gateway's side of the HTTP service: each method builds a request, checks the status and reads the
    fields of the JSON it is answered with.  It implements the class [Api]. *)

From Stdlib Require Import ZArith Lia Strings.Byte Strings.String.
From stdpp Require Import base option list gmap numbers.
From S2P Require Import Prelude Bytes Text Crypto CoreCommitment Conversion Json GatewayState Xdr.
From S2P Require Import TendermintStates ApiTypes.
Open Scope Z_scope.

(** [s.trim_end_matches('/')]. *)
Fixpoint trim_start (c : byte) (s : bytes) : bytes :=
  match s with x :: t => if decide (x = c) then trim_start c t else s | [] => [] end.
Definition trim_end_matches (c : byte) (s : bytes) : bytes := rev (trim_start c (rev s)).

Record ApiClient : Type := MkApiClient { base_url : bytes }.
Definition new_client (base : bytes) : ApiClient := MkApiClient (trim_end_matches slash base).

Section Client.
Context `{ScvalXdr}.
Variable http : Http.
Variable client : ApiClient.

Definition url (path : bytes) : bytes := base_url client ++ path.

(** No answer or an answer that is not JSON, then a status that is no success, are errors. *)
Definition answered (r : option Answer) : result ApiError Value :=
  resp ← ok_or "request failed"%string r;
  if is_success (status resp) then Ok (answer_body resp) else Err "returned an error status"%string.
Definition get_json (path : bytes) : result ApiError Value := answered (http (MkRequest GET (url path) JNull)).
Definition post_json (path : bytes) (body : Value) : result ApiError Value :=
  answered (http (MkRequest POST (url path) body)).

(** A text field that must be present, and one in hexadecimal. *)
Definition required (body : Value) (key : string) : result ApiError bytes :=
  ok_or ("missing field")%string (v ← get body key; as_str v).
Definition hex_decode (s : bytes) : result ApiError bytes := ok_or "hex decode"%string (Hex.decode s).

Definition client_get_latest_ledger : result ApiError Z :=
  body ← get_json (bstr "/ledger/latest");
  n ← ok_or "missing 'sequence' in /ledger/latest response"%string (v ← get body "sequence"; as_u64 v);
  Ok (as_u32 n).

Definition client_get_transfer_balance (denom address_hex : bytes) : result ApiError Z :=
  body ← get_json (bstr "/stellar/transfer/balance/" ++ denom ++ bstr "/" ++ address_hex);
  ok_or "missing/invalid 'balance' in transfer balance response"%string
    (v ← get body "balance"; s ← as_str v; Decimal.parse_i128 s).

(** The body of the loop over the groups. *)
Definition group_ids (group : Value) : list bytes :=
  omap as_str (default [] (v ← get group "client_ids"; as_array v)).
Definition client_list_client_ids : result ApiError (list bytes) :=
  body ← get_json (bstr "/stellar/clients");
  let groups := default [] (c ← get body "clients"; as_array c) in
  Ok (mjoin (group_ids <$> groups)).

Definition client_get_client_state_xdr (client_id : bytes) : result ApiError bytes :=
  body ← get_json (bstr "/stellar/clients/" ++ client_id ++ bstr "/state");
  hex ← required body "client_state_xdr";
  hex_decode hex.

Definition client_get_consensus_state_xdr (client_id : bytes) (height : Z) : result ApiError bytes :=
  body ← get_json (bstr "/stellar/clients/" ++ client_id ++ bstr "/consensus/" ++ dec 20 height);
  hex ← required body "consensus_state_xdr";
  hex_decode hex.

Definition client_get_ledger (sequence : Z) : result ApiError LedgerData :=
  body ← get_json (bstr "/ledger/" ++ dec 10 sequence);
  header_hex ← required body "header_xdr";
  header_xdr ← hex_decode header_hex;
  metadata_xdr ←
    match v ← get body "metadata_xdr"; as_str v with
    | Some meta_hex => m ← hex_decode meta_hex; Ok (Some m)
    | None => Ok None
    end;
  Ok (MkLedgerData sequence header_xdr metadata_xdr).

Definition read_event (ev : Value) : result ApiError EventRecord :=
  topics_xdr ←
    match v ← get ev "topics_xdr"; as_array v with
    | Some topics => collect hex_decode (omap as_str topics)
    | None => Ok []
    end;
  value_xdr ← match v ← get ev "value_xdr"; as_str v with Some s => hex_decode s | None => Ok [] end;
  Ok (MkEventRecord (string_field ev "id") (as_u32 (default 0 (v ← get ev "ledger"; as_u64 v)))
        (string_field ev "ledger_closed_at") (string_field ev "contract_id") (string_field ev "tx_hash")
        topics_xdr value_xdr).

Definition events_path (contract_id : bytes) (cursor : EventCursor) (limit : option Z) : bytes :=
  bstr "/events?contract_id=" ++ contract_id ++
  match cursor with
  | Cursor c => bstr "&cursor=" ++ c
  | StartLedger s => bstr "&start_ledger=" ++ dec 10 s
  end ++
  match limit with Some l => bstr "&limit=" ++ dec 10 l | None => [] end.

Definition client_get_events (contract_id : bytes) (cursor : EventCursor) (limit : option Z) :
    result ApiError EventsPage :=
  body ← get_json (events_path contract_id cursor limit);
  latest_ledger ← ok_or "missing 'latest_ledger' in /events response"%string
    (v ← get body "latest_ledger"; as_u64 v);
  let cursor := string_field body "cursor" in
  raw_events ← ok_or "missing 'events' array in /events response"%string (v ← get body "events"; as_array v);
  events ← collect read_event raw_events;
  Ok (MkEventsPage (as_u32 latest_ledger) cursor events).

Definition arg_hex (arg : ScVal) : result ApiError bytes :=
  x ← ok_or "ScVal XDR encode"%string (to_xdr arg); Ok (Hex.encode x).
Definition client_build_unsigned_tx (signer method : bytes) (args : list ScVal) : result ApiError bytes :=
  args_xdr ← collect arg_hex args;
  resp ← post_json (bstr "/tx/prepare")
    (jobject [("signer", JString signer); ("method", JString method);
              ("args_xdr", JArray (JString <$> args_xdr))]%string);
  tx_hex ← required resp "tx_xdr";
  hex_decode tx_hex.

Definition client_submit_and_wait (tx_xdr : bytes) : result ApiError SubmittedTx :=
  resp ← post_json (bstr "/tx/submit") (jobject [("tx_xdr", JString (Hex.encode tx_xdr))]%string);
  hash ← required resp "hash";
  return_value ←
    match v ← get resp "return_value_xdr"; as_str v with
    | Some value_hex =>
        b ← hex_decode value_hex;
        v ← ok_or "ScVal from_xdr"%string (from_xdr b);
        Ok (Some v)
    | None => Ok None
    end;
  Ok (MkSubmittedTx hash return_value).

(** The client as the gateway uses it. *)
Definition api_over_http : Api := {|
  api_latest_ledger := client_get_latest_ledger;
  api_ledger := client_get_ledger;
  api_transfer_balance := client_get_transfer_balance;
  api_list_client_ids := client_list_client_ids;
  api_client_state_xdr := client_get_client_state_xdr;
  api_consensus_state_xdr := client_get_consensus_state_xdr;
  api_events := client_get_events;
  api_build_unsigned_tx := client_build_unsigned_tx;
  api_submit_and_wait := client_submit_and_wait;
|}.

End Client.
