(* ===== verification/ApiStack.v ===== *)
(** * The gateway's client over the API service

    [ApiClient] and the service it talks to, composed: what each method of the client returns is told in
    terms of the RPC server and of the contracts' storage on the ledger.

    The HTTP connection is a parameter.  What is used of it ([connected]) is that a request whose path
    segments and parameters are plain unreserved characters reaches the route table as these segments and
    parameters, and that the client sees the service's answer. *)

From Stdlib Require Import ZArith Lia Strings.Byte Strings.String.
From stdpp Require Import base option list gmap numbers.
From S2P Require Import Prelude Bytes Text Crypto Host RouterTypes CoreCommitment Ics02Client Router Transfer.
From S2P Require Import TransferSpec LcMock LcTendermint Conversion Json GatewayState Xdr TendermintStates.
From S2P Require Import ApiTypes LedgerEntries Rpc ApiService ApiClient.
Open Scope Z_scope.

(** ** The connection *)

(** Unreserved characters, and not only dots, which URL parsers resolve. *)
Definition dot : byte := Byte.x2e.
Definition segment_ok (s : bytes) : Prop := url_safe s /\ Exists (fun b => b <> dot) s.
#[export] Instance segment_ok_dec s : Decision (segment_ok s).
Proof. unfold segment_ok. apply _. Defined.

Definition param_text (p : bytes * bytes) : bytes := p.1 ++ equals :: p.2.
Definition query_string (params : params_of) : bytes :=
  match params with
  | [] => []
  | p :: ps => question :: param_text p ++ mjoin ((fun p => ampersand :: param_text p) <$> ps)
  end.


(** A plain text is no JSON document the client could read. *)
Definition client_sees (r : Reply) : option Answer :=
  match r with JsonReply code body => Some (MkAnswer code body) | PlainReply _ _ => None end.

Definition connected `{SorobanRpc} `{LedgerXdr} `{ScvalXdr} (state : AppState) (client : ApiClient) (http : Http) :
    Prop :=
  forall m segments params body,
    segments <> [] -> Forall segment_ok segments ->
    Forall (fun p => url_safe p.1 /\ url_safe p.2) params ->
    http (MkRequest m (url client (segment_path segments ++ query_string params)) body) =
    client_sees (serve state m segments params body).

(** ** Routes *)

Lemma url_safe_check s : bool_decide (url_safe s) = true -> url_safe s.
Proof. by intros ?%bool_decide_eq_true_1. Qed.
Lemma segment_check s : bool_decide (segment_ok s) = true -> segment_ok s.
Proof. by intros ?%bool_decide_eq_true_1. Qed.
Ltac literal := apply url_safe_check || apply segment_check; vm_compute; reflexivity.

Lemma hex_char_safe n : 0 <= n < 16 -> url_safe_byte (Hex.char_of n) /\ Hex.char_of n <> dot.
Proof.
  intros Hn. assert (Forall (fun n => url_safe_byte (Hex.char_of n) /\ Hex.char_of n <> dot) (seqZ 0 16)) as Hall.
  { apply (bool_decide_unpack _). vm_compute. exact I. }
  exact (proj1 (list.Forall_forall _ _) Hall n (proj2 (elem_of_seqZ 0 16 n) Hn)).
Qed.

Lemma segment_hex bs : bs <> [] -> segment_ok (Hex.encode bs).
Proof.
  intros Hne. assert (forall b, 0 <= Z_of_byte b / 16 < 16 /\ 0 <= Z_of_byte b mod 16 < 16) as Hb.
  { intros b. pose proof (Z_of_byte_range b). split; [|by apply Z.mod_pos_bound].
    split; [apply Z.div_pos; lia|]. apply Z.div_lt_upper_bound; lia. }
  split.
  - clear Hne. induction bs as [|b bs IH]; [constructor|]. cbn [Hex.encode]. constructor; [by apply hex_char_safe, Hb|].
    constructor; [by apply hex_char_safe, Hb|exact IH].
  - destruct bs as [|b bs]; [done|]. apply Exists_cons_hd. by apply hex_char_safe, Hb.
Qed.

Lemma segment_dec fuel n : 0 <= n < 10 ^ Z.of_nat fuel -> segment_ok (dec fuel n).
Proof.
  intros Hn. split; [apply dec_url_safe|]. destruct (dec fuel n) as [|c t] eqn:Hd.
  { by apply Decimal.dec_nonempty in Hd. }
  apply Exists_cons_hd. intros ->. apply Decimal.dec_head in Hd. vm_compute in Hd. intuition congruence.
Qed.

Lemma u32_digits n : in_u32 n -> 0 <= n < 10 ^ Z.of_nat 10.
Proof. unfold in_u32, u32_max. change (10 ^ Z.of_nat 10) with 10000000000. lia. Qed.
Lemma u64_digits n : in_u64 n -> 0 <= n < 10 ^ Z.of_nat 20.
Proof. unfold in_u64, u64_max. change (10 ^ Z.of_nat 20) with 100000000000000000000. lia. Qed.
Lemma segment_u32 n : in_u32 n -> segment_ok (dec 10 n).
Proof. intros Hn. by apply segment_dec, u32_digits. Qed.
Lemma segment_u64 n : in_u64 n -> segment_ok (dec 20 n).
Proof. intros Hn. by apply segment_dec, u64_digits. Qed.

(** The segments of a path, known ones first. *)
Ltac segments :=
  repeat (constructor; [first [assumption | by apply segment_u32 | by apply segment_u64 | literal]|]); constructor.

Lemma segment_nonempty s : segment_ok s -> s <> [].
Proof. intros [_ Hs] ->. by apply Exists_nil in Hs. Qed.

(** A number is no word. *)
Lemma dec_not_word fuel n c t : dec fuel n = c :: t -> ~ is_digit c -> False.
Proof. intros Hd%Decimal.dec_head Hc. done. Qed.
Lemma dec_not_latest fuel n : dec fuel n <> bstr "latest".
Proof. intros Hd. apply (dec_not_word _ _ _ _ Hd). unfold is_digit. vm_compute. intuition congruence. Qed.

(** Decides the comparisons of the route table. *)
Ltac settle :=
  match goal with
  | |- context [decide (?a = ?b)] =>
      first [rewrite (decide_True (P := a = b)) by reflexivity
            | rewrite (decide_False (P := a = b))
                by (assumption || (let Hd := fresh in intros Hd; vm_compute in Hd; discriminate Hd))]
  end.
Ltac route :=
  unfold serve, routes; repeat (cbn [dispatch path_match mbind option_bind]; settle); cbn [head mbind option_bind].

Section Routes.
Context `{SorobanRpc} `{LedgerXdr} `{ScvalXdr} (state : AppState).

Lemma route_latest : serve state GET [bstr "ledger"; bstr "latest"] [] JNull = svc_get_latest_ledger.
Proof. route. done. Qed.

Lemma route_ledger n : in_u32 n -> serve state GET [bstr "ledger"; dec 10 n] [] JNull = svc_get_ledger n.
Proof.
  intros Hn. pose proof (u32_digits n Hn) as Hr.
  pose proof (dec_not_latest 10 n) as Hl. pose proof (Decimal.dec_nonempty 10 n Hr) as He. route.
  rewrite Decimal.parse_unsigned_dec by (done || apply Hn). done.
Qed.

Lemma route_events params :
  serve state GET [bstr "events"] params JNull = extract BAD_REQUEST (events_query params) svc_get_events.
Proof. route. done. Qed.

Lemma route_balance denom address : denom <> [] -> address <> [] ->
  serve state GET [bstr "stellar"; bstr "transfer"; bstr "balance"; denom; address] [] JNull =
  reply (transfer_balance state denom address).
Proof. intros Hd Ha. route. done. Qed.

Lemma route_clients :
  serve state GET [bstr "stellar"; bstr "clients"] [] JNull = reply (list_clients state None).
Proof. route. done. Qed.

Lemma route_client_state client_id : client_id <> [] ->
  serve state GET [bstr "stellar"; bstr "clients"; client_id; bstr "state"] [] JNull =
  reply (client_state state client_id).
Proof. intros Hc. route. done. Qed.

Lemma route_consensus client_id height : client_id <> [] -> in_u64 height ->
  serve state GET [bstr "stellar"; bstr "clients"; client_id; bstr "consensus"; dec 20 height] [] JNull =
  reply (consensus_state state client_id height).
Proof.
  intros Hc Hh. pose proof (u64_digits height Hh) as Hr.
  pose proof (Decimal.dec_nonempty 20 height Hr) as He. route.
  rewrite Decimal.parse_unsigned_dec by (done || apply Hh). done.
Qed.

Lemma route_submit body :
  serve state POST [bstr "tx"; bstr "submit"] [] body =
  extract UNPROCESSABLE (submit_request body) (fun t => reply (submit_signed_tx t)).
Proof. route. done. Qed.
Lemma route_prepare body :
  serve state POST [bstr "tx"; bstr "prepare"] [] body =
  extract UNPROCESSABLE (prepare_request body) (fun r => reply (prepare_tx state r)).
Proof. route. done. Qed.

(** No route has more than five segments. *)
Lemma route_too_long m path params body :
  (5 < length path)%nat -> serve state m path params body = PlainReply NOT_FOUND [].
Proof.
  intros Hl. assert (forall pattern, (length pattern <= 5)%nat -> path_match pattern path = None) as Hno.
  { revert Hl. generalize 5%nat as k. intros k Hl pattern. revert path k Hl.
    induction pattern as [|[s|] pattern IH]; intros [|x path] k Hl Hp; try done; cbn [path_match length] in *;
      try lia; case_decide; try done; destruct k as [|k]; try lia.
    - apply (IH path k); lia.
    - by rewrite (IH path k) by lia. }
  unfold serve, routes. cbn [dispatch]. by rewrite !Hno by (cbn [length]; lia).
Qed.

End Routes.

(** ** Ledgers, events and transactions *)

(** What the client makes of a failure of the service. *)
Definition refused {A} : result ApiError A := Err "returned an error status"%string.
(** What the client returns of a success or a failure behind the service. *)
Definition relayed {E A} (r : result E A) : result ApiError A :=
  match r with Ok a => Ok a | Err _ => refused end.

Lemma answered_reply (r : result Failure Value) :
  (forall f, r = Err f -> is_success f.1 = false) -> answered (client_sees (reply r)) = relayed r.
Proof. intros Hf. destruct r as [v|f]; [done|]. cbn. by rewrite (Hf f). Qed.

(** The page and its events have the widths of the service's integers. *)
Lemma as_u32_in n : in_u32 (as_u32 n).
Proof. unfold as_u32, in_u32, u32_max. pose proof (Z.mod_pos_bound n (2 ^ 32)). lia. Qed.
Lemma as_u32_id n : in_u32 n -> as_u32 n = n.
Proof. unfold as_u32, in_u32, u32_max. intros. apply Z.mod_small. lia. Qed.
Lemma in_u32_u64 n : in_u32 n -> in_u64 n.
Proof. unfold in_u32, in_u64, u32_max, u64_max. lia. Qed.
Lemma json_u32 n : in_u32 n -> as_u64 (JNumber n) = Some n.
Proof. intros Hn. cbn [as_u64]. by rewrite decide_True by by apply in_u32_u64. Qed.

Lemma omap_strings {A} (f : A -> bytes) (l : list A) : omap as_str ((fun a => JString (f a)) <$> l) = f <$> l.
Proof. induction l as [|a l IH]; [done|]. csimpl. by rewrite IH. Qed.
Lemma collect_hex l : collect hex_decode (Hex.encode <$> l) = Ok l.
Proof.
  apply collect_Ok. induction l as [|x l IH]; csimpl; constructor; [|done].
  unfold hex_decode. by rewrite Hex.hex_roundtrip.
Qed.

Lemma read_event_json ev : in_u32 (ev_ledger ev) -> read_event (event_json ev) = Ok ev.
Proof.
  intros Hl. unfold read_event.
  change (get (event_json ev) "topics_xdr") with (Some (JArray ((fun t => JString (Hex.encode t)) <$> topics_xdr ev))).
  change (get (event_json ev) "value_xdr") with (Some (JString (Hex.encode (value_xdr ev)))).
  change (get (event_json ev) "ledger") with (Some (JNumber (ev_ledger ev))).
  cbn [mbind option_bind as_array as_str]. rewrite omap_strings, collect_hex. cbn [mbind result_bind].
  unfold hex_decode. rewrite Hex.hex_roundtrip. cbn [ok_or mbind result_bind option_bind].
  rewrite json_u32 by done. cbn [default]. rewrite as_u32_id by done. by destruct ev.
Qed.

Section Stack.
Context `{SorobanRpc} `{LedgerXdr} `{ScvalXdr} (state : AppState) (client : ApiClient) (http : Http).
Hypothesis Hconn : connected state client http.

Lemma get_served path segments params :
  path = segment_path segments ++ query_string params -> segments <> [] -> Forall segment_ok segments ->
  Forall (fun p => url_safe p.1 /\ url_safe p.2) params ->
  get_json http client path = answered (client_sees (serve state GET segments params JNull)).
Proof. intros -> Hne Hs Hp. unfold get_json. by rewrite Hconn. Qed.
Lemma post_served path segments body :
  path = segment_path segments ++ query_string [] -> segments <> [] -> Forall segment_ok segments ->
  post_json http client path body = answered (client_sees (serve state POST segments [] body)).
Proof. intros -> Hne Hs. unfold post_json. by rewrite Hconn by (done || constructor). Qed.

Lemma client_ledger n : in_u32 n -> client_get_ledger http client n = relayed (get_ledger n).
Proof.
  intros Hn. unfold client_get_ledger. rewrite (get_served _ [bstr "ledger"; dec 10 n] []).
  2: { unfold segment_path. csimpl. by rewrite !app_nil_r. }
  2, 4: done.
  2: segments.
  rewrite route_ledger by done. unfold svc_get_ledger. destruct (get_ledger n) as [d|e] eqn:Hd; [|done].
  apply get_ledger_sequence in Hd.
  change (answered (client_sees (JsonReply OK (ledger_body d)))) with (Ok (E:=ApiError) (ledger_body d)).
  cbn [mbind result_bind].
  change (required (ledger_body d) "header_xdr") with (Ok (E:=ApiError) (Hex.encode (header_xdr d))).
  cbn [mbind result_bind]. unfold hex_decode. rewrite Hex.hex_roundtrip. cbn [ok_or mbind result_bind].
  change (get (ledger_body d) "metadata_xdr") with (Some (joption (Hex.encode <$> metadata_xdr d))).
  destruct d as [seq hx [m|]]; cbn in Hd |- *; subst; [|done]. by rewrite Hex.hex_roundtrip.
Qed.

Lemma client_latest n d :
  in_u32 n -> get_latest_ledger = Ok n -> get_ledger n = Ok d -> client_get_latest_ledger http client = Ok n.
Proof.
  intros Hn Hl Hd. unfold client_get_latest_ledger.
  rewrite (get_served _ [bstr "ledger"; bstr "latest"] []) by (done || segments).
  rewrite route_latest. unfold svc_get_latest_ledger, svc_get_ledger. rewrite Hl, Hd.
  change (answered (client_sees (JsonReply OK (ledger_body d)))) with (Ok (E:=ApiError) (ledger_body d)).
  cbn [mbind result_bind]. change (get (ledger_body d) "sequence") with (Some (JNumber (ld_sequence d))).
  cbn [mbind option_bind]. apply get_ledger_sequence in Hd as ->. rewrite json_u32 by done.
  cbn [ok_or mbind result_bind]. by rewrite as_u32_id.
Qed.

(** *** Events *)

(** What the service can be asked for: a named contract, and a cursor or a positive ledger. *)
Definition events_request (contract_id : bytes) (cursor : EventCursor) (limit : option Z) : Prop :=
  contract_id <> [] /\ url_safe contract_id /\
  match cursor with Cursor c => c <> [] /\ url_safe c | StartLedger s => 0 < s /\ in_u32 s end /\
  match limit with Some l => in_u32 l | None => True end.

Definition events_params (contract_id : bytes) (cursor : EventCursor) (limit : option Z) : params_of :=
  (bstr "contract_id", contract_id) ::
  (match cursor with
   | Cursor c => (bstr "cursor", c)
   | StartLedger s => (bstr "start_ledger", dec 10 s)
   end) :: match limit with Some l => [(bstr "limit", dec 10 l)] | None => [] end.

Lemma events_path_params contract_id cursor limit :
  events_path contract_id cursor limit =
  segment_path [bstr "events"] ++ query_string (events_params contract_id cursor limit).
Proof.
  unfold events_path, events_params, query_string, segment_path.
  destruct cursor, limit; csimpl; unfold param_text; cbn [fst snd]; rewrite ?app_nil_r; reflexivity.
Qed.

Lemma events_query_params contract_id cursor limit :
  events_request contract_id cursor limit ->
  events_query (events_params contract_id cursor limit) =
  Some (MkEventsQuery (Some contract_id) (match cursor with Cursor c => Some c | StartLedger _ => None end)
          (match cursor with Cursor _ => None | StartLedger s => Some s end) limit).
Proof.
  intros (_ & _ & Hc & Hl). unfold events_query, events_params, query_u32.
  assert (forall n, in_u32 n -> Decimal.parse_unsigned u32_max (dec 10 n) = Some n) as Hp.
  { intros n Hn. apply Decimal.parse_unsigned_dec; [by apply u32_digits|apply Hn]. }
  destruct cursor as [c|s]; [|pose proof (Hp s ltac:(naive_solver)) as Hs; revert Hs; generalize (dec 10 s); intros ds Hs];
    (destruct limit as [l|]; [pose proof (Hp l Hl) as Hd; revert Hd; generalize (dec 10 l); intros dl Hd|]);
    lazy -[Decimal.parse_unsigned u32_max]; rewrite ?Hs, ?Hd; reflexivity.
Qed.

Lemma page_ranges contract_id cursor limit page :
  get_events contract_id cursor limit = Ok page ->
  in_u32 (page_latest_ledger page) /\ Forall (fun ev => in_u32 (ev_ledger ev)) (page_events page).
Proof.
  unfold get_events. intros (resp & _ & Hp)%result_bind_Ok.
  apply result_bind_Ok in Hp as (evs & Hevs%collect_Ok & [= <-]). cbn [page_latest_ledger page_events].
  split; [apply as_u32_in|]. induction Hevs as [|x y xs ys Hx _ IH]; constructor; [|done].
  unfold event_record in Hx. apply result_bind_Ok in Hx as (ts & _ & Hx).
  apply result_bind_Ok in Hx as (v & _ & [= <-]). apply as_u32_in.
Qed.

Lemma events_params_safe contract_id cursor limit :
  events_request contract_id cursor limit ->
  Forall (fun p => url_safe p.1 /\ url_safe p.2) (events_params contract_id cursor limit).
Proof.
  intros (_ & Hid & Hc & _). unfold events_params.
  destruct cursor as [c|n], limit as [l|];
    repeat (apply list.Forall_cons; split;
      [split; cbn [fst snd]; first [assumption | apply Hc | apply dec_url_safe | literal]|]); constructor.
Qed.

Lemma query_cursor_request contract_id cursor limit :
  events_request contract_id cursor limit ->
  query_cursor (MkEventsQuery (Some contract_id) (match cursor with Cursor c => Some c | StartLedger _ => None end)
          (match cursor with Cursor _ => None | StartLedger s => Some s end) limit) = Some cursor.
Proof.
  intros (_ & _ & Hc & _). unfold query_cursor. destruct cursor as [[|c cs]|n]; cbn [q_cursor q_start_ledger].
  - naive_solver.
  - done.
  - by rewrite (proj2 (Z.ltb_lt _ _)) by apply Hc.
Qed.

Lemma client_events contract_id cursor limit :
  events_request contract_id cursor limit ->
  client_get_events http client contract_id cursor limit = relayed (get_events contract_id cursor limit).
Proof.
  intros Hreq. unfold client_get_events.
  rewrite (get_served _ [bstr "events"] _ (events_path_params _ _ _)); [|done|segments|by apply events_params_safe].
  rewrite route_events, events_query_params by done. cbn [extract]. unfold svc_get_events.
  rewrite query_cursor_request by done. cbn [q_contract_id q_limit].
  destruct contract_id as [|b cid]; [by destruct Hreq|].
  destruct (get_events (b :: cid) cursor limit) as [page|e] eqn:Hpage; [|done].
  apply page_ranges in Hpage as [Hl Hevs].
  change (answered (client_sees (JsonReply OK (events_body page)))) with (Ok (E:=ApiError) (events_body page)).
  cbn [mbind result_bind].
  change (get (events_body page) "latest_ledger") with (Some (JNumber (page_latest_ledger page))).
  change (get (events_body page) "events") with (Some (JArray (event_json <$> page_events page))).
  change (string_field (events_body page) "cursor") with (page_cursor page).
  cbn [mbind option_bind as_array]. rewrite json_u32 by done. cbn [ok_or mbind result_bind].
  assert (collect read_event (event_json <$> page_events page) = Ok (page_events page)) as ->.
  { apply collect_Ok. induction Hevs as [|ev evs Hev _ IH]; csimpl; constructor; [|done]. by apply read_event_json. }
  cbn [mbind result_bind]. rewrite as_u32_id by done. by destruct page.
Qed.

(** *** Transactions *)

(** The transaction that calls a contract, as the server prepares it. *)
Definition prepared_call (signer : bytes) (op : Operation) : option bytes :=
  source ← srv_account signer;
  prepared ← srv_prepare source (network_passphrase state) BASE_FEE op;
  envelope ← to_envelope prepared;
  envelope_to_xdr envelope.

Abbreviation encoded := (Forall2 (fun v x => to_xdr v = Some x)).

Lemma encoded_args (args : list ScVal) :
  Forall (fun v => is_Some (to_xdr v)) args <-> exists xs, encoded args xs.
Proof.
  split.
  - induction 1 as [|v args [x Hx] _ [xs Hxs]]; [by exists []|]. exists (x :: xs). by constructor.
  - intros [xs Hxs]. induction Hxs; constructor; eauto.
Qed.

Lemma collect_arg_hex args xs : encoded args xs -> collect arg_hex args = Ok (Hex.encode <$> xs).
Proof.
  intros Hxs. apply collect_Ok. induction Hxs as [|v x args xs Hx _ IH]; csimpl; constructor; [|done].
  unfold arg_hex. by rewrite Hx.
Qed.

Lemma collect_decode args xs : ScvalXdrLaws -> encoded args xs ->
  collect (fun raw => rpc_err "arg ScVal XDR decode" (from_xdr raw)) xs = Ok args.
Proof.
  intros HL Hxs. apply collect_Ok. induction Hxs as [|v x args xs Hx _ IH]; constructor; [|done].
  by rewrite (from_to_xdr _ _ Hx).
Qed.

Lemma build_prepared signer router method args xs : ScvalXdrLaws ->
  contract_from_string (ibc_contract_id state) = Some router ->
  signer <> [] -> encoded args xs ->
  result_ok (build_unsigned_tx signer (ibc_contract_id state) method xs (network_passphrase state) BASE_FEE) =
  prepared_call signer (MkOperation router method args).
Proof.
  intros HL Hr Hs Hxs. unfold build_unsigned_tx, prepared_call. rewrite (collect_decode args xs HL Hxs).
  cbn [mbind result_bind]. rewrite Hr. cbn [rpc_err ok_or mbind result_bind]. rewrite decide_False by done.
  unfold rpc_err. destruct (srv_account signer) as [src|]; [|done]. cbn [ok_or mbind result_bind option_bind].
  destruct (srv_prepare _ _ _ _) as [p|]; [|done]. cbn [ok_or mbind result_bind option_bind].
  destruct (to_envelope p) as [env|]; [|done]. cbn [ok_or mbind result_bind option_bind].
  by destruct (envelope_to_xdr env).
Qed.

Lemma strings_read l : as_strings (JArray (JString <$> l)) = Some l.
Proof.
  unfold as_strings. cbn [as_array mbind option_bind]. induction l as [|x l IH]; [done|].
  rewrite fmap_cons. cbn [mapM]. rewrite IH. done.
Qed.

(** What the service is posted, and how it reads it. *)
Definition prepare_body (signer method : bytes) (xs : list bytes) : Value :=
  jobject [("signer", JString signer); ("method", JString method);
           ("args_xdr", JArray (JString <$> (Hex.encode <$> xs)))]%string.
Lemma prepare_body_read signer method xs :
  prepare_request (prepare_body signer method xs) = Some (MkPrepareRequest signer method (Hex.encode <$> xs)).
Proof.
  unfold prepare_request, field_or.
  change (get (prepare_body signer method xs) "signer") with (Some (JString signer)).
  change (get (prepare_body signer method xs) "method") with (Some (JString method)).
  change (get (prepare_body signer method xs) "args_xdr") with (Some (JArray (JString <$> (Hex.encode <$> xs)))).
  cbn [mbind option_bind as_str]. by rewrite strings_read.
Qed.

Lemma prepare_tx_served signer method xs :
  prepare_tx state (MkPrepareRequest signer method (Hex.encode <$> xs)) =
  if decide (ibc_contract_id state = []) then
    Err (BAD_GATEWAY, "ROUTER_CONTRACT_ADDRESS not configured"%string)
  else
    tx ← pass_err BAD_GATEWAY
      (build_unsigned_tx signer (ibc_contract_id state) method xs (network_passphrase state) BASE_FEE);
    Ok (jobject [("tx_xdr", JString (Hex.encode tx))]%string).
Proof.
  unfold prepare_tx. case_decide; [done|]. cbn [pr_signer pr_method pr_args_xdr].
  assert (collect (fun a => ok_or (BAD_REQUEST, "args_xdr hex"%string) (Hex.decode a)) (Hex.encode <$> xs) = Ok xs) as ->.
  { apply collect_Ok. clear. induction xs as [|x xs IH]; csimpl; constructor; [by rewrite Hex.hex_roundtrip|done]. }
  done.
Qed.

Lemma client_build_posts signer method args xs :
  encoded args xs ->
  client_build_unsigned_tx http client signer method args =
  if decide (ibc_contract_id state = []) then refused
  else relayed (build_unsigned_tx signer (ibc_contract_id state) method xs (network_passphrase state) BASE_FEE).
Proof.
  intros Hxs. unfold client_build_unsigned_tx. rewrite (collect_arg_hex args xs Hxs).
  cbn [mbind result_bind]. fold (prepare_body signer method xs).
  rewrite (post_served _ [bstr "tx"; bstr "prepare"]); [|done|done|segments].
  rewrite route_prepare, prepare_body_read. cbn [extract]. rewrite prepare_tx_served.
  case_decide; [done|]. destruct (build_unsigned_tx _ _ _ _ _ _) as [tx|e]; [|done].
  change (hex_decode (Hex.encode tx) = Ok tx). unfold hex_decode. by rewrite Hex.hex_roundtrip.
Qed.

(** A transaction is returned exactly for a signed call of the configured router whose arguments can be
    written, and it is the one the server prepared for it. *)
Lemma client_build_Ok signer method args tx : ScvalXdrLaws ->
  client_build_unsigned_tx http client signer method args = Ok tx <->
  ibc_contract_id state <> [] /\ signer <> [] /\ Forall (fun v => is_Some (to_xdr v)) args /\
  exists router, contract_from_string (ibc_contract_id state) = Some router /\
    prepared_call signer (MkOperation router method args) = Some tx.
Proof.
  intros HL. split.
  - intros Hrun. assert (exists xs, encoded args xs) as [xs Hxs].
    { unfold client_build_unsigned_tx in Hrun. apply result_bind_Ok in Hrun as (hs & Hc%collect_Ok & _).
      clear -Hc. induction Hc as [|v h args hs Hv _ [xs IH]]; [by exists []|].
      apply result_bind_Ok in Hv as (x & Hx%ok_or_Ok & _). exists (x :: xs). by constructor. }
    rewrite (client_build_posts _ _ _ xs Hxs) in Hrun. case_decide as Hid; [done|].
    destruct (build_unsigned_tx _ _ _ _ _ _) as [tx'|e] eqn:Hb; [|done]. apply Ok_inj in Hrun as ->.
    assert (signer <> [] /\ exists router, contract_from_string (ibc_contract_id state) = Some router) as [Hs [router Hr]].
    { unfold build_unsigned_tx in Hb. apply result_bind_Ok in Hb as (? & _ & Hb).
      apply result_bind_Ok in Hb as (router & Hr%ok_or_Ok & Hb). case_decide; [done|]. eauto. }
    split_and!; [done|done| |exists router; split; [done|]].
    + apply encoded_args. eauto.
    + rewrite <-(build_prepared _ _ _ _ xs HL Hr Hs Hxs), Hb. done.
  - intros (Hid & Hs & [xs Hxs]%encoded_args & router & Hr & Hp).
    rewrite (client_build_posts _ _ _ xs Hxs), decide_False by done.
    rewrite <-(build_prepared _ _ _ _ xs HL Hr Hs Hxs) in Hp.
    destruct (build_unsigned_tx _ _ _ _ _ _); [|done]. by injection Hp as ->.
Qed.

Lemma client_submit tx : ScvalXdrLaws ->
  client_submit_and_wait http client tx =
  match submit_and_wait tx with
  | Ok (MkSubmittedTx h (Some v)) => match to_xdr v with Some _ => Ok (MkSubmittedTx h (Some v)) | None => refused end
  | Ok (MkSubmittedTx h None) =>
      match from_xdr [] with Some v => Ok (MkSubmittedTx h (Some v)) | None => Err "ScVal from_xdr"%string end
  | Err _ => refused
  end.
Proof.
  intros HL. unfold client_submit_and_wait.
  rewrite (post_served _ [bstr "tx"; bstr "submit"]); [|done|done|segments]. rewrite route_submit.
  change (submit_request _) with (Some (Hex.encode tx)). cbn [extract]. unfold submit_signed_tx.
  rewrite Hex.hex_roundtrip. cbn [ok_or mbind result_bind].
  destruct (submit_and_wait tx) as [[h [v|]]|e]; [| |done]; cbn [pass_err mbind result_bind return_value tx_hash].
  - destruct (to_xdr v) as [x|] eqn:Hx; [|done].
    change ((rv ← (b ← hex_decode (Hex.encode x); w ← ok_or "ScVal from_xdr"%string (from_xdr b); Ok (Some w));
      Ok (MkSubmittedTx h rv)) = Ok (E:=ApiError) (MkSubmittedTx h (Some v))).
    unfold hex_decode. rewrite Hex.hex_roundtrip. cbn [ok_or mbind result_bind]. by rewrite (from_to_xdr _ _ Hx).
  - change ((rv ← (w ← ok_or "ScVal from_xdr"%string (from_xdr []); Ok (Some w)); Ok (MkSubmittedTx h rv)) =
      match from_xdr [] with Some v => Ok (MkSubmittedTx h (Some v)) | None => Err "ScVal from_xdr"%string end).
    by destruct (from_xdr []).
Qed.

End Stack.

(** C29: the gateway's view of Stellar is the RPC server's: over the service, the API client returns the very
    ledger (its sequence, header and metadata) and the very page of events the RPC client reads, for
    every ledger sequence and every request the service accepts, and an error when the RPC client
    fails; the latest ledger is the server's latest one when its header can be read. *)
Theorem api_relays_rpc `{SorobanRpc} `{LedgerXdr} `{ScvalXdr} state client http :
  connected state client http ->
  (forall n, in_u32 n -> client_get_ledger http client n = relayed (get_ledger n)) /\
  (forall n d, in_u32 n -> get_latest_ledger = Ok n -> get_ledger n = Ok d ->
     client_get_latest_ledger http client = Ok n) /\
  (forall contract_id cursor limit, events_request contract_id cursor limit ->
     client_get_events http client contract_id cursor limit = relayed (get_events contract_id cursor limit)).
Proof.
  intros Hc. split_and!; intros.
  - by apply (client_ledger state).
  - by eapply (client_latest state).
  - by apply (client_events state).
Qed.

(** what the gateway learns of a submitted transaction: the hash and the return value the RPC client
    waited for, when there is one; a failure when the submission failed.  A transaction that succeeds
    without a return value is reported as a failure: the service sends an empty text for it, which the
    client reads as the XDR of a value. *)
Theorem submission_reported `{SorobanRpc} `{LedgerXdr} `{ScvalXdrLaws} state client http tx :
  connected state client http ->
  (forall h v x, submit_and_wait tx = Ok (MkSubmittedTx h (Some v)) -> to_xdr v = Some x ->
     client_submit_and_wait http client tx = Ok (MkSubmittedTx h (Some v))) /\
  (forall e, submit_and_wait tx = Err e -> exists e', client_submit_and_wait http client tx = Err e') /\
  (forall h, submit_and_wait tx = Ok (MkSubmittedTx h None) -> from_xdr [] = None ->
     client_submit_and_wait http client tx = Err "ScVal from_xdr"%string).
Proof.
  intros Hc. rewrite (client_submit state client http Hc tx) by done. split_and!.
  - intros h v x -> Hx. by rewrite Hx.
  - intros e ->. by eexists.
  - intros h -> ->. done.
Qed.
