(* ===== verification/ApiStorage.v ===== *)
(** * What the API service tells of the contracts

    The storage of the router, of the light clients and of the transfer application on the ledger, read
    through the whole stack: keys built by the service, entries of the RPC server, JSON over HTTP, the
    client's decoding.  The theorems relate the answers to the maps the contracts' models keep. *)

From Stdlib Require Import ZArith Lia Strings.Byte Strings.String.
From stdpp Require Import base option list gmap numbers.
From S2P Require Import Prelude Bytes Text Crypto Host RouterTypes CoreCommitment Ics02Client Router Transfer.
From S2P Require Import TransferSpec LcMock LcTendermint Conversion Json GatewayState Xdr TendermintStates.
From S2P Require Import ApiTypes LedgerEntries Rpc ApiService ApiClient ApiStack.
Open Scope Z_scope.

#[local] Existing Instances IbcTransfer.DataKey_eq_dec IbcTransfer.DataKey_countable.
#[local] Existing Instances TendermintLightClient.DataKey_eq_dec TendermintLightClient.DataKey_countable.
#[local] Existing Instances MockLightClient.DataKey_eq_dec MockLightClient.DataKey_countable.

(** ** The clients a registry lists *)

Section Listing.
Context (m : gmap RKey RVal).

(** How many clients of a type there are. *)
Definition counter (ct : bytes) : Z := match m !! KData (NextClientId ct) with Some (RvU32 k) => k | _ => 0 end.
Definition listed (types : list bytes) : list bytes :=
  mjoin ((fun ct => client_id_of ct <$> seqZ 0 (counter ct)) <$> types).

Lemma counter_spec ct n : typed m -> 0 <= n < counter ct ->
  exists k, m !! KData (NextClientId ct) = Some (RvU32 k) /\ 0 <= n < k /\ in_u32 n.
Proof.
  intros Ht Hn. unfold counter in Hn. destruct (m !! KData (NextClientId ct)) as [v|] eqn:Hm; [|lia].
  pose proof (Ht _ _ Hm) as Hv. destruct v; try (simpl in Hv; done). cbn in Hv.
  eexists. split; [reflexivity|]. unfold in_u32 in *. lia.
Qed.

Lemma listed_clients types id :
  typed m -> registry m ->
  id ∈ listed types <-> exists ct, ct ∈ types /\ m !! KData (ClientType id) = Some (RvString ct).
Proof.
  intros Ht Hreg. unfold listed. rewrite list_elem_of_join. split.
  - intros (ids & Hin & (ct & -> & Hct)%list_elem_of_fmap).
    apply list_elem_of_fmap in Hin as (n & -> & Hn%elem_of_seqZ). exists ct. split; [done|].
    destruct (counter_spec ct n Ht) as (k & Hk & Hnk & _); [lia|]. by eapply reg_complete.
  - intros (ct & Hct & Hm). destruct (reg_minted _ Hreg id) as (ct' & n & k & -> & Hm' & Hk & Hn); [eauto|].
    rewrite Hm in Hm'. injection Hm' as <-. eexists. split; [|apply list_elem_of_fmap; by exists ct].
    apply list_elem_of_fmap. exists n. split; [done|]. apply elem_of_seqZ. unfold counter. rewrite Hk. lia.
Qed.

Lemma listed_NoDup types : typed m -> NoDup types -> NoDup (listed types).
Proof.
  intros Ht. unfold listed. induction 1 as [|ct types Hct Hn IH]; csimpl; [constructor|].
  apply list.NoDup_app. split_and!; [| |done].
  - apply NoDup_fmap_2_strong; [|apply NoDup_seqZ].
    intros x y Hx%elem_of_seqZ Hy%elem_of_seqZ Heq.
    destruct (counter_spec ct x Ht) as (_ & _ & _ & Hux); [lia|].
    destruct (counter_spec ct y Ht) as (_ & _ & _ & Huy); [lia|].
    by eapply client_id_of_inj in Heq as [_ ->].
  - intros id (x & -> & Hx%elem_of_seqZ)%list_elem_of_fmap (ids & Hin & (ct' & -> & Hct')%list_elem_of_fmap)%list_elem_of_join.
    apply list_elem_of_fmap in Hin as (y & Heq & Hy%elem_of_seqZ).
    destruct (counter_spec ct x Ht) as (_ & _ & _ & Hux); [lia|].
    destruct (counter_spec ct' y Ht) as (_ & _ & _ & Huy); [lia|].
    by eapply client_id_of_inj in Heq as [-> _].
Qed.

End Listing.

Section Storage.
Context `{SorobanRpc} `{LedgerXdr} `{ScvalXdr} `{!LedgerXdrLaws} `{!ScvalXdrLaws}.
Context (state : AppState) (client : ApiClient) (http : Http) (L : ledger_view).
Hypothesis Hconn : connected state client http.
Hypothesis HL : serves_ledger L.

(** ** Keys *)

Lemma enum_key_writes contract variant args :
  length contract = 32%nat -> fits 32 (bstr variant) = true -> fits 1000 args = true ->
  Forall (fun v => is_Some (to_xdr v)) args ->
  exists key, persistent_contract_data_key contract (enum_key variant args) = Ok key /\
    key_to_xdr (KeyContractData (AddrContract contract) (enum_key variant args)) = Some key.
Proof.
  intros Hc Hv Ha Hargs. destruct (key_writes contract (bstr variant) args Hc Hv Ha Hargs) as [key Hk].
  exists key. unfold persistent_contract_data_key, enum_key. rewrite Hk. done.
Qed.

(** The entry of a variant with one text, through the service's key and the server. *)
Lemma string_entry contract variant arg :
  length contract = 32%nat -> fits 32 (bstr variant) = true -> fits u32_max arg = true ->
  exists key o, contract_data_key contract variant arg = Ok key /\ get_ledger_entry key = Ok o /\
    match L (KeyContractData (AddrContract contract) (enum_key variant [ScString arg])) with
    | Some (EntryContractData _ _ v) => exists x, o = Some x /\ ledger_entry_contract_val x = Some v
    | Some (EntryOther _) => exists x, o = Some x /\ ledger_entry_contract_val x = None
    | None => o = None
    end.
Proof.
  intros Hc Hv Ha. destruct (enum_key_writes contract variant [ScString arg]) as (key & Hkey & Hk); [done..| |].
  { repeat constructor. by apply string_writes. }
  destruct (ledger_entry_value L _ key HL Hk) as (o & Ho & Hval). exists key, o. split_and!; [|done|done].
  unfold contract_data_key, scval_symbol, scval_string. rewrite Hv, Ha. exact Hkey.
Qed.

(** ** The clients of the router *)

Section RouterStorage.
Context (router : bytes) (m : gmap RKey RVal).
Hypothesis Hid : ibc_contract_id state <> [].
Hypothesis Hrouter : contract_from_string (ibc_contract_id state) = Some router.
Hypothesis Hlen : length router = 32%nat.
Hypothesis Hstores : stores L router router_key router_val m.

Lemma router_configured : router_contract state = Ok router.
Proof. unfold router_contract. rewrite decide_False by done. by rewrite Hrouter. Qed.

(** The group the service answers for a type. *)
Definition group_value (ct : bytes) (count : Z) : Value :=
  jobject [("client_type", JString ct); ("count", JNumber count);
           ("client_ids", JArray ((fun n => JString (client_id_of ct n)) <$> seqZ 0 count))]%string.
Definition group_of (ct : bytes) : list Value :=
  if (counter m ct =? 0)%Z then [] else [group_value ct (counter m ct)].
Lemma client_group_eq ct :
  typed m -> fits u32_max ct = true ->
  client_group router ct = Ok (group_of ct).
Proof.
  intros Ht Hf. destruct (string_entry router "NextClientId" ct Hlen) as (key & o & Hkey & Ho & Hval); [done..|].
  rewrite (proj1 Hstores (KData (NextClientId ct)) _ eq_refl) in Hval.
  unfold client_group. rewrite Hkey. cbn [or_err mbind result_bind]. rewrite Ho. cbn [or_err mbind result_bind].
  assert (default 0 (x ← o; decode_counter x) = counter m ct) as ->.
  { unfold counter. destruct (m !! KData (NextClientId ct)) as [v|] eqn:Hm; cbn [fmap option_fmap option_map] in Hval.
    - destruct Hval as (x & -> & Hx). apply Ht in Hm. cbn [mbind option_bind]. unfold decode_counter. rewrite Hx.
      by destruct v.
    - by subst o. }
  unfold group_of. by destruct (counter m ct =? 0)%Z.
Qed.
Lemma client_groups_eq :
  typed m -> list_clients state None = Ok (jobject [("clients", JArray (mjoin
    (group_of <$> DEFAULT_CLIENT_TYPES)))]%string).
Proof.
  intros Ht. unfold list_clients. rewrite router_configured. cbn [mbind result_bind].
  assert (Forall (fun ct => fits u32_max ct = true) DEFAULT_CLIENT_TYPES) as Hf by (repeat constructor).
  enough (collect (client_group router) DEFAULT_CLIENT_TYPES = Ok
    (group_of <$> DEFAULT_CLIENT_TYPES)) as -> by done.
  induction Hf as [|ct types Hct _ IH]; [done|]. cbn [collect]. rewrite client_group_eq by done.
  cbn [mbind result_bind]. by rewrite IH.
Qed.

Lemma client_list : typed m -> client_list_client_ids http client = Ok (listed m DEFAULT_CLIENT_TYPES).
Proof.
  intros Ht. unfold client_list_client_ids.
  rewrite (get_served state client http Hconn _ [bstr "stellar"; bstr "clients"] []); [|done|done|segments|done].
  rewrite route_clients, client_groups_eq by done. unfold reply.
  set (groups := mjoin _). assert (mjoin (group_ids <$> groups) = listed m DEFAULT_CLIENT_TYPES) as <-; [|done].
  unfold groups, listed. clear groups. induction DEFAULT_CLIENT_TYPES as [|ct types IH]; [done|]. csimpl.
  rewrite fmap_app, join_app, IH. f_equal. unfold group_of. destruct (Z.eqb_spec (counter m ct) 0) as [->|Hne]; [done|].
  csimpl. rewrite app_nil_r. apply omap_strings.
Qed.

(** ** Client and consensus states *)

(** The light client of a registered client. *)
Lemma light_client_found client_id lc :
  fits u32_max client_id = true -> m !! KData (ClientLcAddr client_id) = Some (RvAddress (ContractAddress lc)) ->
  lc_contract_of state client_id = Ok lc.
Proof.
  intros Hf Hm. destruct (string_entry router "ClientLcAddr" client_id Hlen) as (key & o & Hkey & Ho & Hval); [done..|].
  rewrite (proj1 Hstores (KData (ClientLcAddr client_id)) _ eq_refl), Hm in Hval.
  destruct Hval as (x & -> & Hx). unfold lc_contract_of, entry_at. rewrite router_configured.
  cbn [mbind result_bind]. rewrite Hkey. cbn [or_err mbind result_bind]. rewrite Ho.
  cbn [or_err mbind result_bind]. by rewrite Hx.
Qed.

Lemma light_client_missing client_id :
  fits u32_max client_id = true -> m !! KData (ClientLcAddr client_id) = None ->
  lc_contract_of state client_id = Err (NOT_FOUND, "client not found"%string).
Proof.
  intros Hf Hm. destruct (string_entry router "ClientLcAddr" client_id Hlen) as (key & o & Hkey & Ho & Hval); [done..|].
  rewrite (proj1 Hstores (KData (ClientLcAddr client_id)) _ eq_refl), Hm in Hval. cbn in Hval. subst o.
  unfold lc_contract_of, entry_at. rewrite router_configured. cbn [mbind result_bind]. rewrite Hkey.
  cbn [or_err mbind result_bind]. by rewrite Ho.
Qed.

(** The value of an entry is what the service writes in hexadecimal. *)
Lemma entry_value_xdr k c kv v : L k = Some (EntryContractData c kv v) -> exists x, to_xdr v = Some x.
Proof. intros Hk. destruct (entries_encode L HL _ _ Hk) as [b Hb]. by apply entry_value_writes in Hb. Qed.

Section OneClient.
Context (client_id lc : bytes).
Hypothesis Hseg : segment_ok client_id.
Hypothesis Hfits : fits u32_max client_id = true.
Hypothesis Hreg : m !! KData (ClientLcAddr client_id) = Some (RvAddress (ContractAddress lc)).
Hypothesis Hlc : length lc = 32%nat.

Lemma client_state_read :
  match L (KeyContractData (AddrContract lc) (enum_key "Client" [ScString client_id])) with
  | Some (EntryContractData _ _ v) =>
      exists x, to_xdr v = Some x /\ client_get_client_state_xdr http client client_id = Ok x
  | _ => client_get_client_state_xdr http client client_id = refused
  end.
Proof.
  unfold client_get_client_state_xdr.
  rewrite (get_served state client http Hconn _ [bstr "stellar"; bstr "clients"; client_id; bstr "state"] []);
    [|by unfold segment_path; csimpl; rewrite !app_nil_r|done|segments|done].
  rewrite route_client_state by by apply segment_nonempty. unfold client_state, entry_at.
  rewrite (light_client_found client_id lc) by done. cbn [mbind result_bind].
  destruct (string_entry lc "Client" client_id) as (key & o & Hkey & Ho & Hval); [done..|].
  rewrite Hkey. cbn [or_err mbind result_bind]. rewrite Ho. cbn [or_err mbind result_bind].
  destruct (L _) as [[c kv v|]|] eqn:HLk; cbn [mbind result_bind] in *.
  - destruct Hval as (x & -> & Hx). destruct (entry_value_xdr _ _ _ _ HLk) as [y Hy]. exists y. split; [done|].
    cbn [mbind result_bind]. rewrite Hx. cbn [ok_or mbind result_bind]. unfold scval_to_xdr. rewrite Hy.
    change (hex_decode (Hex.encode y) = Ok y). unfold hex_decode. by rewrite Hex.hex_roundtrip.
  - destruct Hval as (x & -> & Hx). cbn [mbind result_bind]. by rewrite Hx.
  - by subst o.
Qed.

Lemma consensus_state_read height : in_u64 height ->
  match L (KeyContractData (AddrContract lc) (enum_key "Consensus" [ScString client_id; ScU64 height])) with
  | Some (EntryContractData _ _ v) =>
      exists x, to_xdr v = Some x /\ client_get_consensus_state_xdr http client client_id height = Ok x
  | _ => client_get_consensus_state_xdr http client client_id height = refused
  end.
Proof.
  intros Hh. unfold client_get_consensus_state_xdr.
  rewrite (get_served state client http Hconn _
    [bstr "stellar"; bstr "clients"; client_id; bstr "consensus"; dec 20 height] []);
    [|by unfold segment_path; csimpl; rewrite !app_nil_r|done|segments|done].
  rewrite route_consensus by (done || by apply segment_nonempty). unfold consensus_state, entry_at.
  rewrite (light_client_found client_id lc) by done. cbn [mbind result_bind].
  destruct (enum_key_writes lc "Consensus" [ScString client_id; ScU64 height]) as (key & Hkey & Hk); [done..| |].
  { repeat constructor; [by apply string_writes|by apply u64_writes]. }
  destruct (ledger_entry_value L _ key HL Hk) as (o & Ho & Hval).
  assert (consensus_data_key lc client_id height = Ok key) as ->.
  { unfold consensus_data_key, scval_symbol, scval_string. rewrite Hfits. exact Hkey. }
  cbn [or_err mbind result_bind]. rewrite Ho. cbn [or_err mbind result_bind].
  destruct (L _) as [[c kv v|]|] eqn:HLk; cbn [mbind result_bind] in *.
  - destruct Hval as (x & -> & Hx). destruct (entry_value_xdr _ _ _ _ HLk) as [y Hy]. exists y. split; [done|].
    cbn [mbind result_bind]. rewrite Hx. cbn [ok_or mbind result_bind]. unfold scval_to_xdr. rewrite Hy.
    change (hex_decode (Hex.encode y) = Ok y). unfold hex_decode. by rewrite Hex.hex_roundtrip.
  - destruct Hval as (x & -> & Hx). cbn [mbind result_bind]. by rewrite Hx.
  - by subst o.
Qed.

End OneClient.
End RouterStorage.

(** ** Balances *)

Section TransferStorage.
Context (app : bytes) (t : gmap IbcTransfer.DataKey IbcTransfer.Val).
Hypothesis Happ : transfer_contract_id state <> [].
Hypothesis Htransfer : contract_from_string (transfer_contract_id state) = Some app.
Hypothesis Hlen : length app = 32%nat.
Hypothesis Hstores : stores L app transfer_key transfer_val t.

Lemma balance_key a denom address : to_xdr (ScAddr (sc_address a)) = Some address -> fits u32_max denom = true ->
  exists key, balance_ledger_key app (Hex.encode address) denom = Ok key /\
    key_to_xdr (KeyContractData (AddrContract app) (enum_key "Balance" [ScAddr (sc_address a); ScString denom])) =
    Some key.
Proof.
  intros Ha Hf. destruct (enum_key_writes app "Balance" [ScAddr (sc_address a); ScString denom])
    as (key & Hkey & Hk); [done..| |].
  { repeat constructor; [by eexists|by apply string_writes]. }
  exists key. split; [|done]. unfold balance_ledger_key. rewrite Hex.hex_roundtrip. cbn [ok_or mbind result_bind].
  unfold scval_from_xdr. rewrite (from_to_xdr _ _ Ha). cbn [ok_or mbind result_bind].
  unfold scval_string. rewrite Hf. exact Hkey.
Qed.

Lemma balance_read a denom address :
  segment_ok denom -> fits u32_max denom = true -> to_xdr (ScAddr (sc_address a)) = Some address -> address <> [] ->
  in_i128 (bal t a denom) ->
  client_get_transfer_balance http client denom (Hex.encode address) = Ok (bal t a denom).
Proof.
  intros Hd Hf Ha Hne Hr. unfold client_get_transfer_balance. pose proof (segment_hex address Hne) as Hhex.
  rewrite (get_served state client http Hconn _
    [bstr "stellar"; bstr "transfer"; bstr "balance"; denom; Hex.encode address] []);
    [|by unfold segment_path; csimpl; rewrite !app_nil_r|done|segments|done].
  rewrite route_balance by by apply segment_nonempty. unfold transfer_balance. rewrite decide_False by done.
  rewrite Htransfer. cbn [ok_or or_err mbind result_bind].
  destruct (balance_key a denom address Ha Hf) as (key & Hkey & Hk). rewrite Hkey. cbn [or_err mbind result_bind].
  destruct (ledger_entry_value L _ key HL Hk) as (o & Ho & Hval). rewrite Ho. cbn [pass_err mbind result_bind].
  rewrite (proj1 Hstores (IbcTransfer.Balance a denom) _ eq_refl) in Hval.
  assert (default 0 (x ← o; decode_i128 x) = bal t a denom) as ->.
  { unfold bal, number.
    destruct (t !! IbcTransfer.Balance a denom) as [v|]; cbn [fmap option_fmap option_map] in Hval.
    - destruct Hval as (x & -> & Hx). cbn [mbind option_bind]. unfold decode_i128. rewrite Hx.
      destruct v; [done|]. cbn [transfer_val mbind option_bind]. by rewrite i128_of_to.
    - by subst o. }
  change (ok_or "missing/invalid 'balance' in transfer balance response"%string
    (Decimal.parse_i128 (Decimal.show_i128 (bal t a denom))) = Ok (E:=ApiError) (bal t a denom)).
  by rewrite Decimal.parse_show_i128.
Qed.

End TransferStorage.

(** A denomination of several segments has no route. *)
Lemma balance_unroutable parts address :
  (2 <= length parts)%nat -> Forall segment_ok parts -> segment_ok address ->
  client_get_transfer_balance http client (drop 1 (segment_path parts)) address = Err "request failed"%string.
Proof.
  intros Hl Hp Ha. unfold client_get_transfer_balance.
  rewrite (get_served state client http Hconn _
    ([bstr "stellar"; bstr "transfer"; bstr "balance"] ++ parts ++ [address]) []).
  - rewrite route_too_long; [done|]. rewrite !length_app. cbn [length]. lia.
  - destruct parts as [|d parts]; [simpl in Hl; lia|]. unfold segment_path. rewrite !fmap_app, !join_app. csimpl.
    change (slash :: d ++ mjoin ((fun s : bytes => slash :: s) <$> parts)) with
      ([slash] ++ (d ++ mjoin ((fun s : bytes => slash :: s) <$> parts))).
    rewrite !app_nil_r, drop_0, <-!app_assoc. reflexivity.
  - done.
  - apply Forall_app. split; [segments|]. apply Forall_app. split; [done|]. segments.
  - done.
Qed.

End Storage.

(** ** Theorems *)

(** The service is configured for the router [router], whose storage on the ledger is [m]. *)
Record hosts_router `{SorobanRpc} (state : AppState) (L : ledger_view) (router : bytes) (m : gmap RKey RVal) :
    Prop := {
  hr_id : ibc_contract_id state <> [];
  hr_contract : contract_from_string (ibc_contract_id state) = Some router;
  hr_length : length router = 32%nat;
  hr_stores : stores L router router_key router_val m;
}.
(** The same for the transfer application. *)
Record hosts_transfer `{SorobanRpc} (state : AppState) (L : ledger_view) (app : bytes)
    (t : gmap IbcTransfer.DataKey IbcTransfer.Val) : Prop := {
  ht_id : transfer_contract_id state <> [];
  ht_contract : contract_from_string (transfer_contract_id state) = Some app;
  ht_length : length app = 32%nat;
  ht_stores : stores L app transfer_key transfer_val t;
}.

(** the clients the gateway lists are the router's: every client of the types the service asks for, each
    once, and nothing else.  Clients of a type the administrator registered under another name are
    missing from the list. *)
Theorem listed_clients_are_registered `{SorobanRpc} `{LedgerXdr} `{ScvalXdr} `{!LedgerXdrLaws}
    {X} state client http L router (w : World X) :
  connected state client http -> serves_ledger L -> hosts_router state L router (rdata w) -> router_inv w ->
  exists ids, client_list_client_ids http client = Ok ids /\ NoDup ids /\
    forall id, id ∈ ids <->
      exists ct, ct ∈ DEFAULT_CLIENT_TYPES /\ rdata w !! KData (ClientType id) = Some (RvString ct).
Proof.
  intros Hconn HL [Hid Hc Hlen Hs] [Ht Hreg _].
  exists (listed (rdata w) DEFAULT_CLIENT_TYPES). split_and!.
  - by apply (client_list state client http L Hconn HL router (rdata w) Hid Hc Hlen Hs).
  - apply listed_NoDup; [done|]. apply (bool_decide_unpack _). vm_compute. exact I.
  - intros id. by apply listed_clients.
Qed.

(** the state of a registered client as its light-client contract stores it is what the gateway gets: the
    XDR of the Tendermint client state and of each stored consensus state, and an error when there is
    none. *)
Theorem client_states_served `{SorobanRpc} `{LedgerXdr} `{ScvalXdr} `{!LedgerXdrLaws} `{!ScvalXdrLaws}
    state client http L router m client_id lc t :
  connected state client http -> serves_ledger L -> hosts_router state L router m ->
  segment_ok client_id -> fits u32_max client_id = true ->
  m !! KData (ClientLcAddr client_id) = Some (RvAddress (ContractAddress lc)) -> length lc = 32%nat ->
  stores L lc tm_key tm_val t ->
  match t !! TendermintLightClient.Client client_id with
  | Some v => exists x, client_get_client_state_xdr http client client_id = Ok x /\ from_xdr x = Some (tm_val v)
  | None => client_get_client_state_xdr http client client_id = refused
  end /\
  (forall h, in_u64 h ->
   match t !! TendermintLightClient.Consensus client_id h with
   | Some v =>
       exists x, client_get_consensus_state_xdr http client client_id h = Ok x /\ from_xdr x = Some (tm_val v)
   | None => client_get_consensus_state_xdr http client client_id h = refused
   end).
Proof.
  intros Hconn HL [Hid Hc Hlen Hs] Hseg Hf Hreg Hlc [Ht _]. split.
  - pose proof (client_state_read state client http L Hconn HL router m Hid Hc Hlen Hs client_id lc Hseg Hf Hreg Hlc) as Hr.
    rewrite (Ht (TendermintLightClient.Client client_id) _ eq_refl) in Hr.
    destruct (t !! _); [|done]. destruct Hr as (x & Hx%from_to_xdr & Hr). by exists x.
  - intros h Hh.
    pose proof (consensus_state_read state client http L Hconn HL router m Hid Hc Hlen Hs client_id lc Hseg Hf Hreg Hlc h Hh) as Hr.
    rewrite (Ht (TendermintLightClient.Consensus client_id h) _ eq_refl) in Hr.
    destruct (t !! _); [|done]. destruct Hr as (x & Hx%from_to_xdr & Hr). by exists x.
Qed.

(** the mock light client keeps its states under other names than the service looks for: although its
    clients are listed, asking for the state of one always fails. *)
Theorem mock_states_not_served `{SorobanRpc} `{LedgerXdr} `{ScvalXdr} `{!LedgerXdrLaws} `{!ScvalXdrLaws}
    state client http L router m client_id lc t :
  connected state client http -> serves_ledger L -> hosts_router state L router m ->
  segment_ok client_id -> fits u32_max client_id = true ->
  m !! KData (ClientLcAddr client_id) = Some (RvAddress (ContractAddress lc)) -> length lc = 32%nat ->
  stores L lc mock_key mock_val t ->
  client_get_client_state_xdr http client client_id = refused /\
  (forall h, in_u64 h -> client_get_consensus_state_xdr http client client_id h = refused).
Proof.
  intros Hconn HL [Hid Hc Hlen Hs] Hseg Hf Hreg Hlc [_ Hout].
  assert (forall kv, mock_key_of kv = None -> L (KeyContractData (AddrContract lc) kv) = None) as Hno.
  { intros kv Hkv. apply Hout. intros k Hk%mock_keys_read. congruence. }
  split.
  - pose proof (client_state_read state client http L Hconn HL router m Hid Hc Hlen Hs client_id lc Hseg Hf Hreg Hlc) as Hr.
    rewrite Hno in Hr by reflexivity. done.
  - intros h Hh.
    pose proof (consensus_state_read state client http L Hconn HL router m Hid Hc Hlen Hs client_id lc Hseg Hf Hreg Hlc h Hh) as Hr.
    rewrite Hno in Hr by reflexivity. done.
Qed.

(** a balance read through the service is the one the transfer application keeps, zero when it keeps
    none; a denomination with a slash, such as the trace of a received token, has no route and cannot
    be asked for. *)
Theorem balances_served `{SorobanRpc} `{LedgerXdr} `{ScvalXdr} `{!LedgerXdrLaws} `{!ScvalXdrLaws}
    state client http L app t :
  connected state client http -> serves_ledger L -> hosts_transfer state L app t ->
  (forall a denom address, segment_ok denom -> fits u32_max denom = true ->
     to_xdr (ScAddr (sc_address a)) = Some address -> address <> [] -> in_i128 (bal t a denom) ->
     client_get_transfer_balance http client denom (Hex.encode address) = Ok (bal t a denom)) /\
  (forall parts address, (2 <= length parts)%nat -> Forall segment_ok parts -> segment_ok address ->
     client_get_transfer_balance http client (drop 1 (segment_path parts)) address = Err "request failed"%string).
Proof.
  intros Hconn HL [Hid Hc Hlen Hs]. split.
  - intros. by eapply (balance_read state client http L Hconn HL app t).
  - intros. by apply (balance_unroutable state).
Qed.
