(* ===== verification/GatewayStack.v ===== *)
(** * The gateway over the API service

    The gateway's handlers ([GatewayMsg], [GatewayQuery]) run on the API client ([ApiClient]), which talks
    to the API service ([ApiService]), which talks to the RPC server: what a relayer that calls the gateway
    gets, in terms of the server and of the contracts' storage. *)

From Stdlib Require Import ZArith Lia Strings.Byte Strings.String.
From stdpp Require Import base option list gmap numbers.
From S2P Require Import Prelude Bytes Text Crypto Host RouterTypes CoreCommitment Ics02Client Router Transfer.
From S2P Require Import TransferSpec LcMock LcTendermint Prost WasmTypes Conversion Json GatewayState Xdr ContractValues.
From S2P Require Import TendermintStates ApiTypes GatewayMsg GatewayQuery LedgerEntries Rpc ApiService ApiClient.
From S2P Require Import ApiStack ApiStorage.
Open Scope Z_scope.

#[local] Existing Instances TendermintLightClient.DataKey_eq_dec TendermintLightClient.DataKey_countable.

(** C17: the transaction a relayer is given calls the router as its message means: over the whole stack, the
    gateway answers a message only with a transaction the RPC server prepared for the signer at the
    service's fee, of one operation that calls the configured router contract, and the router reads
    that operation as the call the message stands for; and a message that stands for a call is answered
    with that transaction whenever the server prepares it. *)
Theorem gateway_tx_calls_router `{SorobanRpc} `{LedgerXdr} `{IbcTendermint} `{StringText} `{!ScvalXdr} `{!ScvalXdrLaws}
    state client http (m : Msg) :
  connected state client http ->
  (forall tx, handle (H:=api_over_http http client) m = Ok tx ->
     exists router op, contract_from_string (ibc_contract_id state) = Some router /\ op_contract op = router /\
       prepared_call state (msg_signer m) op = Some tx /\
       forall call, router_call (op_method op) (op_args op) = Some call -> means m call) /\
  (forall call router, means m call -> call_fits call -> msg_signer m <> [] -> ibc_contract_id state <> [] ->
     contract_from_string (ibc_contract_id state) = Some router ->
     exists op, op_contract op = router /\ router_call (op_method op) (op_args op) = Some call /\
       forall tx, Forall (fun v => is_Some (to_xdr v)) (op_args op) -> prepared_call state (msg_signer m) op = Some tx ->
         handle (H:=api_over_http http client) m = Ok tx).
Proof.
  intros Hconn. split.
  - intros tx Hm. destruct (answered_means (H:=api_over_http http client) m tx Hm) as (method & args & Hb & Hmeans).
    apply (client_build_Ok state client http Hconn) in Hb as (_ & _ & _ & router & Hr & Hp); [|done].
    by exists router, (MkOperation router (bstr method) args).
  - intros call router Hmeans Hfits Hs Hid Hr.
    destruct (prepared_for (H:=api_over_http http client) m call Hmeans Hfits) as (method & args & Hcall & Hh).
    exists (MkOperation router (bstr method) args). split_and!; [done|done|]. intros tx Henc Hp. rewrite Hh.
    apply prepare_Ok. apply (client_build_Ok state client http Hconn); [done|]. eauto 6.
Qed.

(** C19: the states a relayer queries are the ones the light-client contract stores: for a registered
    Tendermint client the gateway answers with the [Any] of the client state (or of the consensus state
    at a height) that the [ibc] crate makes of the stored fields, which decodes back to that state, and
    with an internal error when the crate refuses them.  (ARCHITECTURE.md says that these queries return
    [Unimplemented]; of the queries it names, only the one for the next sequence does.) *)
Theorem relayer_sees_stored_states `{SorobanRpc} `{LedgerXdr} `{IbcTendermintLaws} `{StringTextLaws}
    `{!ScvalXdr} `{!ScvalXdrLaws} `{!LedgerXdrLaws} `{ProstWireLaws}
    state client http L router m client_id lc t :
  connected state client http -> serves_ledger L -> hosts_router state L router m ->
  segment_ok client_id -> fits u32_max client_id = true ->
  m !! KData (ClientLcAddr client_id) = Some (RvAddress (ContractAddress lc)) -> length lc = 32%nat ->
  stores L lc tm_key tm_val t ->
  let api := api_over_http http client in
  (forall height c, t !! TendermintLightClient.Client client_id = Some (TendermintLightClient.TmClient c) ->
     plain_text (TendermintLightClient.chain_id c) ->
     match client_try_from (raw_of_contract c) with
     | Some cs =>
         exists answer, query_client_state (H:=api) client_id height = Ok (MkStateResponse answer [] height) /\
           (any ← decode answer; result_ok (client_try_from_any any)) = Some (TendermintClient cs)
     | None =>
         query_client_state (H:=api) client_id height = Err (MkStatus Internal "decode soroban client state")
     end) /\
  (forall height c, in_u64 height ->
     t !! TendermintLightClient.Consensus client_id height = Some (TendermintLightClient.TmConsensus c) ->
     match consensus_try_from (raw_of_contract_consensus c) with
     | Some cs =>
         exists answer, query_consensus_state (H:=api) client_id height = Ok (MkStateResponse answer [] height) /\
           (any ← decode answer; result_ok (consensus_try_from_any any)) = Some (TendermintConsensus cs)
     | None =>
         query_consensus_state (H:=api) client_id height =
           Err (MkStatus Internal "consensus state decode failed")
     end).
Proof.
  intros Hconn HL [Hid Hc Hlen Hs] Hseg Hf Hreg Hlc [Ht _] api. split.
  - intros height c Hcl Hplain.
    pose proof (client_state_read state client http L Hconn HL router m Hid Hc Hlen Hs client_id lc Hseg Hf Hreg Hlc) as Hr.
    rewrite (Ht (TendermintLightClient.Client client_id) _ eq_refl), Hcl in Hr.
    destruct Hr as (x & Hx%from_to_xdr & Hr). by apply (client_state_answer (H:=api) client_id height x c).
  - intros height c Hh Hco.
    pose proof (consensus_state_read state client http L Hconn HL router m Hid Hc Hlen Hs client_id lc Hseg Hf Hreg Hlc height Hh) as Hr.
    rewrite (Ht (TendermintLightClient.Consensus client_id height) _ eq_refl), Hco in Hr.
    destruct Hr as (x & Hx%from_to_xdr & Hr). by apply (consensus_state_answer (H:=api) client_id height x c).
Qed.
