(* ===== verification/StackDemo.v ===== *)
(** * The stack on a small ledger

    The ledger of [System], its contracts' storage written as ledger entries, an RPC server that serves
    them, the API service in front of it and the gateway's client connected to the service: the
    hypotheses of the theorems on the stack hold here, and the theorems give the expected answers. *)

From Stdlib Require Import ZArith Lia Strings.Byte Strings.String.
From stdpp Require Import base option list gmap numbers.
From S2P Require Import Prelude Bytes Text Crypto Host RouterTypes CoreCommitment Ics02Client Router Transfer.
From S2P Require Import TransferSpec LcMock LcTendermint System Prost WasmTypes Conversion Json GatewayState Xdr ContractValues.
From S2P Require Import TendermintStates ApiTypes GatewayMsg GatewayQuery LedgerEntries Rpc ApiService ApiClient.
From S2P Require Import ApiStack ApiStorage GatewayStack.
Open Scope Z_scope.

(** ** A connection *)

Section Connection.
Context `{SorobanRpc} `{LedgerXdr} `{ScvalXdr} (state : AppState) (client : ApiClient).

Definition direct : Http := fun r =>
  let '(segments, params) := target_parts (drop (length (base_url client)) (req_target r)) in
  client_sees (serve state (req_method r) segments params (req_body r)).

Lemma params_read p ps :
  Forall (fun p => url_safe p.1 /\ url_safe p.2) (p :: ps) ->
  omap (split_once equals)
    (split_on ampersand (param_text p ++ mjoin ((fun p => ampersand :: param_text p) <$> ps))) = p :: ps.
Proof.
  destruct separators_unsafe as (_ & _ & Ha & He). revert p.
  induction ps as [|p' ps IH]; intros [k v] Hp; apply list.Forall_cons in Hp as [[Hk Hv] Hps]; cbn [fst snd] in *.
  - csimpl. rewrite app_nil_r. rewrite split_on_plain.
    + cbn [omap list_omap]. unfold param_text. cbn [fst snd]. by rewrite split_once_app by by apply url_safe_no.
    + unfold param_text. rewrite elem_of_app, elem_of_cons. cbn [fst snd].
      pose proof (url_safe_no k ampersand Hk Ha). pose proof (url_safe_no v ampersand Hv Ha).
      intros [Hin|[Hin|Hin]]; [done|discriminate Hin|done].
  - csimpl. rewrite split_on_app.
    + cbn [omap list_omap]. unfold param_text at 1. cbn [fst snd].
      rewrite split_once_app by by apply url_safe_no. by rewrite (IH p' Hps).
    + unfold param_text. rewrite elem_of_app, elem_of_cons. cbn [fst snd].
      pose proof (url_safe_no k ampersand Hk Ha). pose proof (url_safe_no v ampersand Hv Ha).
      intros [Hin|[Hin|Hin]]; [done|discriminate Hin|done].
Qed.

Lemma target_of_request segments params :
  Forall url_safe segments -> Forall (fun p => url_safe p.1 /\ url_safe p.2) params ->
  target_parts (segment_path segments ++ query_string params) = (segments, params).
Proof.
  intros Hs Hp. destruct params as [|p ps]; [cbn [query_string]; rewrite app_nil_r; by apply target_of_segments|].
  pose proof (target_of_segments segments Hs) as Hseg. unfold target_parts in *.
  assert (question ∉ segment_path segments) as Hq.
  { apply segment_path_no; [done|]. eapply list.Forall_impl; [exact Hs|]. intros s Hsafe.
    apply url_safe_no; [done|]. apply separators_unsafe. }
  rewrite split_once_plain in Hseg by done. cbn [query_string]. rewrite split_once_app by done.
  apply (f_equal fst) in Hseg. cbn [fst] in Hseg. by rewrite Hseg, params_read.
Qed.

Lemma direct_connected : connected state client direct.
Proof.
  intros m segments params body Hne Hs Hp. unfold direct, url. cbn [req_method req_target req_body].
  rewrite drop_app_length. rewrite target_of_request; [done| |done].
  eapply list.Forall_impl; [exact Hs|]. by intros s [].
Qed.

End Connection.

(** ** The ledger *)

Lemma contract_view_encodes `{LedgerXdr} {K V} `{Countable K} id key key_of (val : V -> ScVal) (m : gmap K V) :
  reads_keys key key_of ->
  forallb (fun kv => match key kv.1 with
                     | Some k => bool_decide (is_Some (entry_to_xdr (EntryContractData (AddrContract id) k (val kv.2))))
                     | None => true
                     end) (map_to_list m) = true ->
  forall k e, contract_view id key_of val m k = Some e -> is_Some (entry_to_xdr e).
Proof.
  intros Hr Hall k e Hk. destruct k as [[|c|] kv|]; try done. cbn [contract_view] in Hk. case_decide; [|done].
  apply bind_Some in Hk as (k & Hkey%Hr & (v & Hv & [= <-])%bind_Some).
  rewrite forallb_forall in Hall. specialize (Hall (k, v)). cbn [fst snd] in Hall. rewrite Hkey in Hall.
  refine (bool_decide_eq_true_1 _ (Hall _)). by apply list_elem_of_In, elem_of_map_to_list.
Qed.

Lemma both_encodes `{LedgerXdr} L L' :
  (forall k e, L k = Some e -> is_Some (entry_to_xdr e)) -> (forall k e, L' k = Some e -> is_Some (entry_to_xdr e)) ->
  forall k e, both L L' k = Some e -> is_Some (entry_to_xdr e).
Proof. intros HL HL' k e. unfold both. destruct (L k) eqn:Hk; [intros [= <-]; eauto|eauto]. Qed.

Module Stack.
Import Ledger.
#[local] Existing Instances IbcTransfer.DataKey_eq_dec IbcTransfer.DataKey_countable.
#[local] Existing Instances TendermintLightClient.DataKey_eq_dec TendermintLightClient.DataKey_countable.
#[local] Existing Instances MockLightClient.DataKey_eq_dec MockLightClient.DataKey_countable.
#[local] Existing Instances Rfc4506.scval_xdr Rfc4506.scval_xdr_laws LedgerFormat.ledger_xdr LedgerFormat.ledger_xdr_laws.
#[local] Existing Instances escaped_text escaped_text_laws Protobuf.wire Protobuf.wire_laws.
#[local] Existing Instances StatesDemo.sample_crates StatesDemo.sample_crates_laws.

Definition router_id : bytes := replicate 32 Byte.x15.
Definition mock_id : bytes := replicate 32 Byte.x11.
Definition tendermint_id : bytes := replicate 32 Byte.x13.
Definition transfer_id : bytes := replicate 32 Byte.x14.

Definition router_data : gmap RKey RVal := rdata busy.
Definition mock_data := persistent_data (c_mock (w_ext busy)).
Definition tendermint_data := persistent_data (c_tendermint (w_ext busy)).
Definition transfer_data := persistent_data (c_transfer (w_ext busy)).

Definition ledger : ledger_view :=
  both (contract_view router_id router_key_of router_val router_data)
    (both (contract_view mock_id mock_key_of mock_val mock_data)
      (both (contract_view tendermint_id tm_key_of tm_val tendermint_data)
        (contract_view transfer_id transfer_key_of transfer_val transfer_data))).

Lemma router_stored : stores ledger router_id router_key router_val router_data.
Proof.
  apply both_stores_l; [|apply contract_view_stores, router_keys_read].
  intros kv. unfold both. by rewrite !contract_view_other.
Qed.
Lemma mock_stored : stores ledger mock_id mock_key mock_val mock_data.
Proof.
  apply both_stores_r; [intros; by apply contract_view_other|].
  apply both_stores_l; [|apply contract_view_stores, mock_keys_read].
  intros kv. unfold both. by rewrite !contract_view_other.
Qed.
Lemma tendermint_stored : stores ledger tendermint_id tm_key tm_val tendermint_data.
Proof.
  do 2 (apply both_stores_r; [intros; by apply contract_view_other|]).
  apply both_stores_l; [|apply contract_view_stores, tm_keys_read]. intros kv. by apply contract_view_other.
Qed.
Lemma transfer_stored : stores ledger transfer_id transfer_key transfer_val transfer_data.
Proof.
  do 3 (apply both_stores_r; [intros; by apply contract_view_other|]).
  apply contract_view_stores, transfer_keys_read.
Qed.

Lemma ledger_encodes k e : ledger k = Some e -> is_Some (entry_to_xdr e).
Proof.
  revert k e. apply both_encodes; [|apply both_encodes; [|apply both_encodes]].
  - eapply contract_view_encodes; [apply router_keys_read|]. vm_compute. reflexivity.
  - eapply contract_view_encodes; [apply mock_keys_read|]. vm_compute. reflexivity.
  - eapply contract_view_encodes; [apply tm_keys_read|]. vm_compute. reflexivity.
  - eapply contract_view_encodes; [apply transfer_keys_read|]. vm_compute. reflexivity.
Qed.

(** ** The server, the service and the client *)

Definition send_event : ServerEvent :=
  MkServerEvent (bstr "0001-1") 12 (bstr "2024") (bstr "CROUTER") (bstr "ab") [ScSymbol (bstr "send_packet")] (ScU32 1).

(** A transaction is written as the method it calls; its hash is that text.  The payment has no return
    value. *)
#[local] Instance server : SorobanRpc := {|
  LedgerHeader := bytes; CloseMeta := bytes; Envelope := bytes; Account := bytes; Prepared := bytes;
  header_to_xdr := Some; meta_to_xdr := Some;
  envelope_to_xdr := Some; envelope_from_xdr := Some; envelope_to_base64 := Some;
  contract_from_string s :=
    if decide (s = bstr "CROUTER") then Some router_id
    else if decide (s = bstr "CTRANSFER") then Some transfer_id else None;
  srv_latest_ledger := Some 20;
  srv_ledgers n _ := Some (if n <=? 20 then [(n, Some (bstr "header"), None)] else []);
  srv_ledger_entries keys :=
    Some (match keys with k :: _ => match ledger k with Some e => Some [e] | None => Some [] end | [] => None end);
  srv_events _ _ _ := Some (MkServerEvents 20 (Some (bstr "0001-1")) [send_event]);
  srv_account := Some;
  srv_prepare _ _ _ op := Some (op_method op);
  to_envelope := Some;
  srv_post body := tx ← pointer body ["params"; "transaction"]%string; Some (jobject [("result", jobject [("hash", tx)])]%string);
  srv_wait hash := Some (Success, if decide (hash = bstr "payment") then None else Some (ScU32 7));
|}.

Lemma server_serves : serves_ledger ledger.
Proof. constructor; [done|apply ledger_encodes]. Qed.

Definition app_state : AppState := MkAppState (bstr "CROUTER") (bstr "CTRANSFER") (bstr "Test SDF Network").
Definition api_client : ApiClient := new_client (bstr "http://localhost:8101/").
Definition http : Http := direct app_state api_client.

Lemma http_connected : connected app_state api_client http.
Proof. apply direct_connected. Qed.

Lemma router_hosted : hosts_router app_state ledger router_id router_data.
Proof. constructor; [done..|apply router_stored]. Qed.
Lemma transfer_hosted : hosts_transfer app_state ledger transfer_id transfer_data.
Proof. constructor; [done..|apply transfer_stored]. Qed.
Lemma busy_inv : router_inv busy.
Proof. destruct busy_reachable as (a & x & ls & Hs). eapply steps_inv; [apply deployed_inv|exact Hs]. Qed.

(** ** The theorems on this ledger *)

Lemma api_relays_rpc_witness :
  client_get_ledger http api_client 12 = Ok (MkLedgerData 12 (bstr "header") None) /\
  client_get_latest_ledger http api_client = Ok 20 /\
  exists page, client_get_events http api_client (bstr "CROUTER") (StartLedger 5) (Some 10) = Ok page.
Proof.
  destruct (api_relays_rpc app_state api_client http http_connected) as (Hl & Hlatest & He). split_and!.
  - rewrite Hl; [reflexivity|]. vm_compute. split; discriminate.
  - apply (Hlatest 20 (MkLedgerData 20 (bstr "header") None)); [vm_compute; split; discriminate|reflexivity..].
  - rewrite He; [eexists; vm_compute; reflexivity|].
    split_and!; [discriminate|literal|vm_compute; auto..]; vm_compute; split; discriminate.
Defined.

Lemma submission_reported_witness :
  client_submit_and_wait http api_client (bstr "recv_packet") =
    Ok (MkSubmittedTx (bstr "recv_packet") (Some (ScU32 7))) /\
  client_submit_and_wait http api_client (bstr "payment") = Err "ScVal from_xdr"%string.
Proof.
  split.
  - destruct (submission_reported app_state api_client http (bstr "recv_packet") http_connected) as [Hok _].
    by eapply Hok.
  - destruct (submission_reported app_state api_client http (bstr "payment") http_connected) as (_ & _ & Hno).
    by eapply Hno.
Defined.

Lemma listed_clients_are_registered_witness :
  exists ids, client_list_client_ids http api_client = Ok ids /\ bstr "mock-0" ∈ ids /\ bstr "tendermint-0" ∉ ids.
Proof.
  destruct (listed_clients_are_registered app_state api_client http ledger router_id busy
    http_connected server_serves router_hosted busy_inv) as (ids & Hids & _ & Hspec).
  exists ids. split_and!; [done| |].
  - apply Hspec. exists (bstr "mock"). split; [right; left|vm_compute; reflexivity].
  - rewrite Hspec. intros (ct & Hct & Hm). vm_compute in Hm. injection Hm as <-.
    apply (bool_decide_eq_true_2 _) in Hct. vm_compute in Hct. discriminate Hct.
Defined.

Lemma client_states_served_witness :
  exists x, client_get_client_state_xdr http api_client (bstr "tendermint-0") = Ok x.
Proof.
  destruct (client_states_served app_state api_client http ledger router_id router_data (bstr "tendermint-0")
    tendermint_id tendermint_data http_connected server_serves router_hosted) as [Hc _];
    [literal|reflexivity|vm_compute; reflexivity|reflexivity|apply tendermint_stored|].
  destruct (tendermint_data !! TendermintLightClient.Client (bstr "tendermint-0")) as [v|] eqn:Hv.
  - destruct Hc as (x & Hx & _). by exists x.
  - exfalso. vm_compute in Hv. discriminate Hv.
Defined.

Lemma mock_states_not_served_witness :
  client_get_client_state_xdr http api_client (bstr "mock-0") = refused.
Proof.
  destruct (mock_states_not_served app_state api_client http ledger router_id router_data (bstr "mock-0")
    mock_id mock_data http_connected server_serves router_hosted) as [Hc _];
    [literal|reflexivity|vm_compute; reflexivity|reflexivity|apply mock_stored|]. exact Hc.
Defined.

Definition user_xdr : bytes := Eval vm_compute in default [] (to_xdr (ScAddr (sc_address user))).

Lemma balances_served_witness :
  client_get_transfer_balance http api_client (bstr "uatom") (Hex.encode user_xdr) = Ok 14 /\
  client_get_transfer_balance http api_client (bstr "transfer/07-tendermint-0/uatom") (Hex.encode user_xdr) =
    Err "request failed"%string.
Proof.
  destruct (balances_served app_state api_client http ledger transfer_id transfer_data
    http_connected server_serves transfer_hosted) as [Hb Hno]. split.
  - rewrite (Hb user (bstr "uatom") user_xdr); [vm_compute; reflexivity|literal|reflexivity|vm_compute; reflexivity|discriminate|].
    vm_compute. split; discriminate.
  - apply (Hno [bstr "transfer"; bstr "07-tendermint-0"; bstr "uatom"] (Hex.encode user_xdr));
      [simpl; lia|segments|literal].
Defined.

Definition packet_xdr : bytes := Eval vm_compute in default [] (to_xdr (packet_to_scval (incoming 3))).
Definition recv_msg : Msg := MRecvPacket (MkPacketMsg packet_xdr (bstr "proof") 7 (bstr "GSIGNER")).

Lemma gateway_tx_calls_router_witness :
  exists op, op_contract op = router_id /\ prepared_call app_state (bstr "GSIGNER") op = Some (bstr "recv_packet").
Proof.
  destruct (gateway_tx_calls_router app_state api_client http recv_msg http_connected) as [Hsound _].
  destruct (Hsound (bstr "recv_packet")) as (router & op & Hr & Hop & Hp & _); [vm_compute; reflexivity|].
  exists op. split; [|exact Hp]. rewrite Hop. vm_compute in Hr. injection Hr as <-. reflexivity.
Defined.

Lemma relayer_sees_stored_states_witness :
  exists answer, query_client_state (H:=api_over_http http api_client) (bstr "tendermint-0") 12 =
    Ok (MkStateResponse answer [] 12).
Proof.
  destruct (relayer_sees_stored_states app_state api_client http ledger router_id router_data (bstr "tendermint-0")
    tendermint_id tendermint_data http_connected server_serves router_hosted) as [Hc _];
    [literal|reflexivity|vm_compute; reflexivity|reflexivity|apply tendermint_stored|].
  specialize (Hc 12 TendermintLightClient.sample_client). cbn [client_try_from StatesDemo.sample_crates] in Hc.
  destruct Hc as (answer & Ha & _); [vm_compute; reflexivity|plain|]. by exists answer.
Defined.

End Stack.
