(* ===== verification/ConfigText.v ===== *)
(** * Configuration texts ([crates/{api,gateway}/src/config.rs], [interstellar/src])

    What the services and the command-line tool do with configuration: cleaning the value of an
    environment variable, rewriting [.env] and the relayer's configuration line by line, and finding a
    client identifier in the relayer's output.  A file is its text, and texts are ASCII. *)

From Stdlib Require Import ZArith Lia Strings.Byte Strings.String.
From stdpp Require Import base option list gmap numbers.
From S2P Require Import Prelude Bytes Text Json.
Open Scope Z_scope.

(** ** [str] *)

Definition nl : byte := Byte.x0a.
Definition cr : byte := Byte.x0d.
Definition space : byte := Byte.x20.
Definition double_quote : byte := Byte.x22.
Definition single_quote : byte := Byte.x27.

(** [char::is_whitespace]. *)
Definition is_whitespace (b : byte) : bool :=
  let c := Z_of_byte b in ((9 <=? c) && (c <=? 13)) || (c =? 32).
Definition is_quote (b : byte) : bool := bool_decide (b = double_quote) || bool_decide (b = single_quote).
Definition is_upper (b : byte) : bool := let c := Z_of_byte b in (65 <=? c) && (c <=? 90).
Definition is_lower (b : byte) : bool := let c := Z_of_byte b in (97 <=? c) && (c <=? 122).
Definition is_alphanumeric (b : byte) : bool := Decimal.is_digitb b || is_upper b || is_lower b.

Fixpoint trim_start_matches (p : byte -> bool) (s : bytes) : bytes :=
  match s with b :: t => if p b then trim_start_matches p t else s | [] => [] end.
Definition trim_end_by (p : byte -> bool) (s : bytes) : bytes := rev (trim_start_matches p (rev s)).
Definition trim_matches (p : byte -> bool) (s : bytes) : bytes := trim_end_by p (trim_start_matches p s).
Definition trim (s : bytes) : bytes := trim_matches is_whitespace s.
Definition trim_start (s : bytes) : bytes := trim_start_matches is_whitespace s.

Definition prefix_of (p s : bytes) : bool := bool_decide (take (length p) s = p).
Definition strip_prefix (p s : bytes) : option bytes := if prefix_of p s then Some (drop (length p) s) else None.

(** [text.lines()]: the pieces between newlines, without a carriage return before the newline; no line
    after the last newline. *)
Definition strip_cr (l : bytes) : bytes :=
  match rev l with c :: r => if decide (c = cr) then rev r else l | [] => [] end.
Fixpoint lines_of (pieces : list bytes) : list bytes :=
  match pieces with
  | [] => []
  | [last] => if decide (last = []) then [] else [last]
  | l :: pieces => strip_cr l :: lines_of pieces
  end.
Definition lines (text : bytes) : list bytes := lines_of (split_on nl text).
(** [lines.join("\n")]. *)
Fixpoint join (ls : list bytes) : bytes :=
  match ls with [] => [] | [l] => l | l :: ls => l ++ nl :: join ls end.
(** [s.split(f)]. *)
Fixpoint split_by (f : byte -> bool) (s : bytes) : list bytes :=
  match s with
  | [] => [[]]
  | c :: s =>
      if f c then [] :: split_by f s
      else match split_by f s with [] => [[c]] | w :: ws => (c :: w) :: ws end
  end.

(** ** Environment variables *)

(** [std::env::var(key)], as the value it found. *)
Definition env_or (var : option bytes) (dflt : bytes) : bytes :=
  match var with
  | Some value =>
      let cleaned := trim (trim_matches is_quote (trim value)) in
      if decide (cleaned = []) then dflt else cleaned
  | None => dflt
  end.
(** [config::get] of the command-line tool: an empty value stays empty. *)
Definition get_var (var : option bytes) (dflt : bytes) : bytes :=
  match var with Some value => trim_matches is_quote (trim value) | None => dflt end.
(** [.parse().unwrap_or(port)]. *)
Definition port_or (var : option bytes) (dflt : bytes) (port : Z) : Z :=
  default port (Decimal.parse_unsigned (2 ^ 16 - 1) (env_or var dflt)).

(** ** [interstellar/src/shared.rs] *)

Inductive Chain : Type := Stellar | Cosmos | Cardano | All.
Definition chain_of (address : bytes) : option Chain :=
  let addr := trim address in
  if prefix_of (bstr "cosmos1") addr then Some Cosmos
  else if bool_decide (length addr = 56%nat) && (prefix_of (bstr "G") addr || prefix_of (bstr "C") addr) &&
          forallb (fun c => is_upper c || Decimal.is_digitb c) addr
       then Some Stellar
       else None.

(** One line of the file that assigns the variable. *)
Definition assigns (key : bytes) (line : bytes) : bool := prefix_of (key ++ [equals]) (trim_start line).
Definition rendered (value : bytes) : bytes :=
  if existsb is_whitespace value then [double_quote] ++ value ++ [double_quote] else value.
Definition assignment (key value : bytes) : bytes := key ++ [equals] ++ rendered value.

(** The first line that assigns the variable is replaced; without one, a line is added. *)
Fixpoint upsert_line (key line : bytes) (ls : list bytes) : list bytes :=
  match ls with
  | [] => [line]
  | l :: ls => if assigns key l then line :: ls else l :: upsert_line key line ls
  end.
Definition upsert_one (text : bytes) (update : bytes * bytes) : bytes :=
  let '(key, value) := update in
  if decide (value = []) then text
  else join (upsert_line key (assignment key value) (lines text)) ++ [nl].
Definition env_upsert (text : bytes) (updates : list (bytes * bytes)) : bytes := foldl upsert_one text updates.

(** ** [interstellar/src/services/hermes/mod.rs] and [tx/clients] *)

Definition CHECKSUM_FIELD : bytes := bstr "wasm_checksum_hex".
Definition is_checksum_line (line : bytes) : bool := prefix_of CHECKSUM_FIELD (trim_start line).
Definition patched_line (checksum line : bytes) : bytes :=
  if is_checksum_line line then
    take (length line - length (trim_start line)) line ++ CHECKSUM_FIELD ++ bstr " = '" ++ checksum ++ bstr "'"
  else line.
(** The new text and whether it changed; nothing when there is no such line. *)
Definition patch_wasm_checksum (text checksum : bytes) : option (bytes * bool) :=
  let ls : list bytes := patched_line checksum <$> lines text in
  if negb (existsb is_checksum_line (lines text)) then None
  else if decide (ls = lines text) then Some (text, false)
  else Some (join ls ++ (if bool_decide (list.last text = Some nl) then [nl] else []), true).

Definition is_quote_or_space (b : byte) : bool := is_quote b || bool_decide (b = space).
(** The first such line with an equals sign decides. *)
Fixpoint checksum_in (ls : list bytes) : bool :=
  match ls with
  | [] => false
  | l :: ls =>
      if is_checksum_line l then
        match split_once equals l with
        | Some (_, value) => negb (bool_decide (trim_matches is_quote_or_space (trim value) = []))
        | None => checksum_in ls
        end
      else checksum_in ls
  end.
Definition wasm_checksum_present (text : option bytes) : bool :=
  match text with Some t => checksum_in (lines t) | None => false end.

Definition is_client_id (prefix token : bytes) : bool :=
  match strip_prefix (prefix ++ [Decimal.minus_sign]) token with
  | Some rest => negb (bool_decide (rest = [])) && forallb Decimal.is_digitb rest
  | None => false
  end.
Definition is_separator (c : byte) : bool := negb (is_alphanumeric c || bool_decide (c = Decimal.minus_sign)).
Definition extract_client_id (output prefix : bytes) : option bytes :=
  head (filter (fun t => is_client_id prefix t = true) (split_by is_separator output)).

Example env_or_examples :
  env_or (Some (bstr " 'https://soroban-testnet.stellar.org' ")) (bstr "default") =
    bstr "https://soroban-testnet.stellar.org" /\
  env_or (Some (bstr "''")) (bstr "default") = bstr "default" /\ env_or None (bstr "default") = bstr "default" /\
  get_var (Some (bstr "''")) (bstr "default") = [] /\
  extract_client_id (bstr "Created: 07-tendermint-12, height 4") (bstr "07-tendermint") = Some (bstr "07-tendermint-12").
Proof. vm_compute. auto. Qed.

(** ** Trimming *)

Section Trim.
Context (p : byte -> bool).

Lemma trim_start_split s :
  exists a, s = a ++ trim_start_matches p s /\ Forall (fun b => p b = true) a /\
    match trim_start_matches p s with b :: _ => p b = false | [] => True end.
Proof.
  induction s as [|b s (a & Heq & Ha & Hh)]; [by exists []|]. cbn [trim_start_matches].
  destruct (p b) eqn:Hb.
  - exists (b :: a). split_and!; [by rewrite Heq at 1|by constructor|done].
  - by exists [].
Qed.

Lemma trim_start_app a s :
  Forall (fun b => p b = true) a -> match s with b :: _ => p b = false | [] => True end ->
  trim_start_matches p (a ++ s) = s.
Proof.
  intros Ha Hs. induction Ha as [|b a Hb _ IH]; cbn [app trim_start_matches].
  - destruct s as [|b s]; [done|]. cbn [trim_start_matches]. by rewrite Hs.
  - by rewrite Hb.
Qed.

Lemma trim_start_keeps b s : b ∈ s -> p b = false -> b ∈ trim_start_matches p s.
Proof.
  intros Hin Hb. destruct (trim_start_split s) as (a & Heq & Ha & _). rewrite Heq, elem_of_app in Hin.
  destruct Hin as [Hin|Hin]; [|done]. rewrite list.Forall_forall in Ha. apply Ha in Hin. congruence.
Qed.

Lemma trim_keeps b s : b ∈ s -> p b = false -> b ∈ trim_matches p s.
Proof.
  intros Hin Hb. unfold trim_matches, trim_end_by. apply list_elem_of_In, in_rev. rewrite rev_involutive.
  apply list_elem_of_In. apply trim_start_keeps; [|done]. apply list_elem_of_In, in_rev. rewrite rev_involutive.
  apply list_elem_of_In. by apply trim_start_keeps.
Qed.

Lemma trim_wrapped a v b :
  Forall (fun x => p x = true) a -> Forall (fun x => p x = true) b -> v <> [] ->
  (forall x, list.head v = Some x -> p x = false) -> (forall x, list.last v = Some x -> p x = false) ->
  trim_matches p (a ++ v ++ b) = v.
Proof.
  intros Ha Hb Hne Hh Hl. unfold trim_matches, trim_end_by. rewrite trim_start_app; [|done|].
  - rewrite rev_app_distr, trim_start_app; [apply rev_involutive| |].
    + apply list.Forall_forall. intros x Hx%list_elem_of_In%in_rev%list_elem_of_In.
      rewrite list.Forall_forall in Hb. auto.
    + destruct (rev v) as [|x r] eqn:Hr; [done|]. apply Hl. apply (f_equal (@rev byte)) in Hr.
      rewrite rev_involutive in Hr. subst v. cbn [rev]. by rewrite last_snoc.
  - destruct v as [|x v]; [done|]. cbn [app]. by apply Hh.
Qed.

End Trim.

Lemma prefix_of_app p s : prefix_of p (p ++ s) = true.
Proof. unfold prefix_of. rewrite take_app_length. by apply bool_decide_eq_true_2. Qed.
Lemma prefix_of_spec p s : prefix_of p s = true <-> exists r, s = p ++ r.
Proof.
  split.
  - intros Hp%bool_decide_eq_true_1. exists (drop (length p) s). by rewrite <-Hp, take_drop at 1.
  - intros [r ->]. apply prefix_of_app.
Qed.

(** ** Lines *)

Lemma strip_cr_plain l : list.last l <> Some cr -> strip_cr l = l.
Proof.
  intros Hl. unfold strip_cr. destruct (rev l) as [|c r] eqn:Hr; apply (f_equal (@rev byte)) in Hr;
    rewrite rev_involutive in Hr; [done|].
  case_decide; [|done]. subst c. exfalso. apply Hl. rewrite Hr. cbn [rev]. apply last_snoc.
Qed.

Lemma split_join ls : ls <> [] -> Forall (fun l => nl ∉ l) ls -> split_on nl (join ls) = ls.
Proof.
  intros Hne Hls. induction Hls as [|l ls Hl Hls IH]; [done|]. destruct ls as [|l' ls]; [by apply split_on_plain|].
  change (join (l :: l' :: ls)) with (l ++ nl :: join (l' :: ls)). rewrite split_on_app by done. by rewrite IH.
Qed.
Lemma split_join_nl ls : ls <> [] -> Forall (fun l => nl ∉ l) ls -> split_on nl (join ls ++ [nl]) = ls ++ [[]].
Proof.
  intros Hne Hls. induction Hls as [|l ls Hl Hls IH]; [done|]. destruct ls as [|l' ls].
  - cbn [join]. by rewrite split_on_app.
  - change (join (l :: l' :: ls) ++ [nl]) with ((l ++ nl :: join (l' :: ls)) ++ [nl]).
    rewrite <-app_assoc. cbn [app]. rewrite split_on_app by done. by rewrite IH.
Qed.

Lemma lines_of_terminated ls : Forall (fun l => list.last l <> Some cr) ls -> lines_of (ls ++ [[]]) = ls.
Proof.
  induction 1 as [|l ls Hl Hls IH]; [done|]. destruct ls as [|l' ls].
  - cbn [app lines_of]. rewrite strip_cr_plain by done. done.
  - change (lines_of ((l :: l' :: ls) ++ [[]])) with (strip_cr l :: lines_of ((l' :: ls) ++ [[]])).
    by rewrite strip_cr_plain, IH.
Qed.
Lemma lines_of_open ls : Forall (fun l => list.last l <> Some cr) ls -> list.last ls <> Some [] -> lines_of ls = ls.
Proof.
  induction 1 as [|l ls Hl Hls IH]; [done|]. intros Hlast. destruct ls as [|l' ls].
  - cbn [lines_of]. rewrite decide_False; [done|]. intros ->. by apply Hlast.
  - change (lines_of (l :: l' :: ls)) with (strip_cr l :: lines_of (l' :: ls)).
    by rewrite strip_cr_plain, IH.
Qed.

(** Lines that can be written to a file and read again. *)
Definition plain_line (l : bytes) : Prop := (nl ∉ l) /\ list.last l <> Some cr.

Lemma lines_join_nl ls : ls <> [] -> Forall plain_line ls -> lines (join ls ++ [nl]) = ls.
Proof.
  intros Hne Hls. apply list.Forall_and in Hls as [Hn Hc]. unfold lines. rewrite split_join_nl by done.
  by apply lines_of_terminated.
Qed.
Lemma lines_join ls :
  ls <> [] -> Forall plain_line ls -> list.last ls <> Some [] -> lines (join ls) = ls.
Proof.
  intros Hne Hls Hlast. apply list.Forall_and in Hls as [Hn Hc]. unfold lines. rewrite split_join by done.
  by apply lines_of_open.
Qed.

Lemma split_on_pieces sep s : Forall (fun l => (sep ∉ l) /\ forall b, b ∈ l -> b ∈ s) (split_on sep s).
Proof.
  induction s as [|c s IH]; cbn [split_on].
  - constructor; [split|constructor]; [apply not_elem_of_nil|done].
  - assert (Forall (fun l => (sep ∉ l) /\ forall b, b ∈ l -> b ∈ c :: s) (split_on sep s)) as IH'.
    { eapply list.Forall_impl; [exact IH|]. intros l [Hl Hb]. split; [done|]. intros b Hin. right. auto. }
    case_decide as Hc.
    + constructor; [|done]. split; [apply not_elem_of_nil|]. intros b Hb. by apply not_elem_of_nil in Hb.
    + destruct (split_on sep s) as [|w ws].
      * constructor; [split|constructor]; [rewrite list_elem_of_singleton; congruence|].
        intros x ->%list_elem_of_singleton. left.
      * apply list.Forall_cons in IH' as [[Hw Hb] Hws]. constructor; [|done].
        split; [rewrite not_elem_of_cons; split; [congruence|done]|].
        intros x [->|Hin]%elem_of_cons; [left|auto].
Qed.

Lemma lines_of_plain pieces :
  Forall plain_line pieces -> Forall plain_line (lines_of pieces).
Proof.
  induction 1 as [|l ls Hl Hls IH]; [constructor|]. destruct ls as [|l' ls].
  - cbn [lines_of]. case_decide; repeat constructor; apply Hl.
  - change (lines_of (l :: l' :: ls)) with (strip_cr l :: lines_of (l' :: ls)).
    rewrite strip_cr_plain by apply Hl. by constructor.
Qed.

Lemma lines_plain text : cr ∉ text -> Forall plain_line (lines text).
Proof.
  intros Hc. apply lines_of_plain. eapply list.Forall_impl; [apply split_on_pieces|].
  intros l [Hl Hb]. split; [done|]. by intros Hin%last_Some_elem_of%Hb.
Qed.

(** ** The relayer's configuration *)

Definition blank (s : bytes) : Prop := Forall (fun b => is_whitespace b = true) s.

Lemma line_indent line : exists a, line = a ++ trim_start line /\ blank a /\
  take (length line - length (trim_start line)) line = a.
Proof.
  destruct (trim_start_split is_whitespace line) as (a & Heq & Ha & _). exists a. split_and!; [done|done|].
  fold (trim_start line) in Heq. rewrite Heq at 1 3. rewrite length_app.
  replace (length a + _ - _)%nat with (length a) by lia. apply take_app_length.
Qed.

Lemma patched_shape checksum line : is_checksum_line line = true ->
  exists a, blank a /\ patched_line checksum line = a ++ CHECKSUM_FIELD ++ bstr " = '" ++ checksum ++ bstr "'".
Proof.
  intros Hl. unfold patched_line. rewrite Hl. destruct (line_indent line) as (a & _ & Ha & ->). by exists a.
Qed.
Lemma checksum_line_of a r : blank a -> trim_start (a ++ CHECKSUM_FIELD ++ r) = CHECKSUM_FIELD ++ r.
Proof. intros Ha. by apply trim_start_app. Qed.
Lemma patched_is_checksum checksum line : is_checksum_line (patched_line checksum line) = is_checksum_line line.
Proof.
  destruct (is_checksum_line line) eqn:Hl; [|unfold patched_line; by rewrite Hl].
  destruct (patched_shape checksum line Hl) as (a & Ha & ->). unfold is_checksum_line.
  rewrite checksum_line_of by done. apply prefix_of_app.
Qed.
Lemma patched_patched c c' line : patched_line c (patched_line c' line) = patched_line c line.
Proof.
  destruct (is_checksum_line line) eqn:Hl; [|unfold patched_line; by rewrite Hl, Hl].
  unfold patched_line at 1. rewrite patched_is_checksum, Hl. unfold patched_line. rewrite Hl.
  destruct (line_indent line) as (a & _ & Ha & ->). f_equal.
  rewrite checksum_line_of by done. rewrite length_app.
  replace (length a + _ - _)%nat with (length a) by lia. apply take_app_length.
Qed.

Lemma last_split sep s : list.last (split_on sep s) = Some [] -> s = [] \/ list.last s = Some sep.
Proof.
  induction s as [|c s IH]; [by left|]. intros Hl. right. cbn [split_on] in Hl. rewrite last_cons. case_decide as Hc.
  - subst c. rewrite last_cons in Hl. destruct (list.last (split_on sep s)) as [w|] eqn:Hw.
    + apply (inj Some) in Hl as ->. destruct (IH eq_refl) as [->| ->]; done.
    + apply last_None in Hw. by destruct s as [|c s]; [|cbn [split_on] in Hw; case_decide; [|destruct (split_on sep s)]].
  - destruct (split_on sep s) as [|w ws] eqn:Hs; [done|]. destruct ws as [|w' ws]; [done|].
    destruct (IH Hl) as [->| ->]; [|done]. done.
Qed.

Lemma open_lines text : cr ∉ text -> list.last text <> Some nl -> text <> [] -> lines text = split_on nl text.
Proof.
  intros Hc Hl Hne. apply lines_of_open.
  - eapply list.Forall_impl; [apply split_on_pieces|]. intros l [_ Hb]. by intros Hin%last_Some_elem_of%Hb.
  - intros Hs. by destruct (last_split nl text Hs).
Qed.

Lemma patched_nonempty checksum line : line <> [] -> patched_line checksum line <> [].
Proof.
  intros Hne. destruct (is_checksum_line line) eqn:Hl; [|unfold patched_line; by rewrite Hl].
  destruct (patched_shape checksum line Hl) as (a & _ & ->). by destruct a.
Qed.
Lemma patched_plain checksum line : nl ∉ checksum -> plain_line line -> plain_line (patched_line checksum line).
Proof.
  intros Hn [Hln Hlc]. unfold patched_line. destruct (is_checksum_line line); [|done].
  destruct (line_indent line) as (a & Hline & _ & ->). rewrite Hline, not_elem_of_app in Hln.
  split; [|change (bstr "'") with [single_quote]; by rewrite !app_assoc, last_snoc].
  rewrite !not_elem_of_app. split_and!; [by destruct Hln| | |done|]; by apply (bool_decide_unpack _).
Qed.

Lemma patch_lines text checksum text' changed :
  cr ∉ text -> nl ∉ checksum -> patch_wasm_checksum text checksum = Some (text', changed) ->
  lines text' = patched_line checksum <$> lines text.
Proof.
  intros Hc Hp. unfold patch_wasm_checksum. destruct (existsb is_checksum_line (lines text)) eqn:Hex; [|done].
  case_decide as Heq; intros [= <- _]; [done|].
  assert (lines text <> []) as Hne by (by intros Hn; rewrite Hn in Hex).
  assert (Forall plain_line (patched_line checksum <$> lines text)) as Hpl.
  { apply Forall_fmap. eapply list.Forall_impl; [by apply lines_plain|]. intros l. by apply patched_plain. }
  assert (patched_line checksum <$> lines text <> []) as Hne' by (by destruct (lines text)).
  case_bool_decide as Hnl; [by apply lines_join_nl|]. rewrite app_nil_r. apply lines_join; [done|done|].
  rewrite fmap_last. rewrite open_lines; [|done|done|by intros ->]. intros (l & Hl & Hlast)%fmap_Some.
  destruct l as [|b l]; [|by apply (patched_nonempty checksum (b :: l))].
  destruct (last_split nl text Hl) as [-> | ?]; done.
Qed.

Lemma checksum_in_patched checksum ls :
  existsb is_checksum_line ls = true ->
  (exists b, b ∈ checksum /\ is_whitespace b = false /\ is_quote b = false) ->
  checksum_in (patched_line checksum <$> ls) = true.
Proof.
  intros Hex (b & Hin & Hw & Hq). induction ls as [|l ls IH]; [done|]. cbn [fmap list_fmap checksum_in].
  rewrite patched_is_checksum. cbn [existsb] in Hex. destruct (is_checksum_line l) eqn:Hl; [|by apply IH].
  destruct (patched_shape checksum l Hl) as (a & Ha & ->).
  replace (a ++ CHECKSUM_FIELD ++ bstr " = '" ++ checksum ++ bstr "'")
    with ((a ++ CHECKSUM_FIELD ++ [space]) ++ equals :: (bstr " '" ++ checksum ++ bstr "'"))
    by by rewrite <-!app_assoc.
  rewrite split_once_app.
  - rewrite bool_decide_eq_false_2; [done|]. intros Hnil.
    assert (b ∈ trim_matches is_quote_or_space (trim (bstr " '" ++ checksum ++ bstr "'"))) as Hb.
    { apply trim_keeps; [apply trim_keeps; [set_solver|done]|]. unfold is_quote_or_space. rewrite Hq.
      apply bool_decide_eq_false_2. intros ->. done. }
    rewrite Hnil in Hb. by apply not_elem_of_nil in Hb.
  - rewrite !not_elem_of_app. split_and!; [|by apply (bool_decide_unpack _)|by apply (bool_decide_unpack _)].
    intros Hin'. unfold blank in Ha. rewrite list.Forall_forall in Ha. by apply Ha in Hin'.
Qed.

(** Patching the relayer's configuration replaces the value of every [wasm_checksum_hex] line, with its
    indentation, and keeps every other line; the text is left alone when there is nothing to change, a second
    patch changes nothing, the check before a client is created then finds the checksum, and a text without
    such a line is an error. *)
Theorem checksum_patched text checksum :
  cr ∉ text -> nl ∉ checksum ->
  match patch_wasm_checksum text checksum with
  | None => existsb is_checksum_line (lines text) = false
  | Some (text', changed) =>
      lines text' = patched_line checksum <$> lines text /\
      (changed = false -> text' = text) /\
      patch_wasm_checksum text' checksum = Some (text', false) /\
      ((exists b, b ∈ checksum /\ is_whitespace b = false /\ is_quote b = false) ->
       wasm_checksum_present (Some text') = true)
  end.
Proof.
  intros Hc Hp. destruct (patch_wasm_checksum text checksum) as [[text' changed]|] eqn:Hpatch.
  - pose proof (patch_lines _ _ _ _ Hc Hp Hpatch) as Hl.
    assert (existsb is_checksum_line (lines text) = true) as Hex.
    { unfold patch_wasm_checksum in Hpatch. by destruct (existsb _ _). }
    split_and!; [done| | |].
    + intros ->. unfold patch_wasm_checksum in Hpatch. rewrite Hex in Hpatch. cbn [negb] in Hpatch.
      case_decide; [|done]. by injection Hpatch.
    + unfold patch_wasm_checksum. rewrite Hl.
      replace (existsb is_checksum_line (patched_line checksum <$> lines text)) with true.
      * cbn [negb]. rewrite decide_True; [done|]. rewrite <-list_fmap_compose. apply list_fmap_ext.
        intros _ l _. apply patched_patched.
      * rewrite <-Hex. clear. induction (lines text) as [|l ls IH]; [done|]. cbn. by rewrite patched_is_checksum, IH.
    + intros Hb. cbn [wasm_checksum_present]. rewrite Hl. by apply checksum_in_patched.
  - unfold patch_wasm_checksum in Hpatch. destruct (existsb _ _); [|done]. cbn [negb] in Hpatch. by case_decide.
Qed.

(** ** The environment file *)

Definition plain_key (k : bytes) : Prop := (equals ∉ k) /\ Forall (fun b => is_whitespace b = false) k.
Definition plain_update (u : bytes * bytes) : Prop := plain_key u.1 /\ nl ∉ u.2.

Lemma keys_apart k k' r r' : equals ∉ k -> equals ∉ k' -> (k ++ [equals]) ++ r = (k' ++ [equals]) ++ r' -> k = k'.
Proof.
  intros Hk Hk'. rewrite <-!app_assoc. cbn [app]. intros Heq. apply (f_equal (split_once equals)) in Heq.
  rewrite !split_once_app in Heq by done. by injection Heq.
Qed.
Lemma assigns_apart k k' l : plain_key k -> plain_key k' -> assigns k l = true -> assigns k' l = true -> k = k'.
Proof.
  intros [Hk _] [Hk' _] [r Hr]%prefix_of_spec [r' Hr']%prefix_of_spec. rewrite Hr in Hr'.
  by eapply keys_apart.
Qed.
Lemma assigns_assignment k v : plain_key k -> assigns k (assignment k v) = true.
Proof.
  intros [_ Hw]. unfold assigns, assignment, trim_start. rewrite app_assoc.
  replace (trim_start_matches is_whitespace ((k ++ [equals]) ++ rendered v)) with ((k ++ [equals]) ++ rendered v).
  - apply prefix_of_app.
  - symmetry. apply (trim_start_app is_whitespace []); [constructor|]. destruct Hw as [|b k Hb Hw]; done.
Qed.

Lemma whitespace_plain k : Forall (fun b => is_whitespace b = false) k -> plain_line k.
Proof.
  intros Hk. rewrite list.Forall_forall in Hk. split; [intros Hin|intros Hin%last_Some_elem_of]; by apply Hk in Hin.
Qed.
Lemma plain_app a b : plain_line a -> plain_line b -> plain_line (a ++ b).
Proof. intros [] []. split; [by rewrite not_elem_of_app|]. rewrite last_app. by destruct (list.last b). Qed.
(** A value with a blank, a carriage return included, ends in a quote. *)
Lemma rendered_plain v : nl ∉ v -> plain_line (rendered v).
Proof.
  intros Hv. unfold rendered. destruct (existsb is_whitespace v) eqn:Hw.
  - split; [|by rewrite app_assoc, last_snoc].
    rewrite !not_elem_of_app. split_and!; [|done|]; by apply (bool_decide_unpack _).
  - apply whitespace_plain. apply list.Forall_forall. intros b Hb. apply not_true_iff_false. intros Hbw.
    apply not_true_iff_false in Hw. apply Hw, existsb_exists. exists b. by rewrite <-list_elem_of_In.
Qed.
Lemma assignment_plain k v : plain_key k -> nl ∉ v -> plain_line (assignment k v).
Proof.
  intros [_ Hk%whitespace_plain] Hv. apply plain_app; [done|]. apply plain_app; [|by apply rendered_plain].
  by split; [apply (bool_decide_unpack _)|].
Qed.

Section UpsertLine.
Context (k line : bytes) (Hline : assigns k line = true).

Lemma upsert_nonempty ls : upsert_line k line ls <> [].
Proof. destruct ls as [|l ls]; cbn [upsert_line]; [done|]. by destruct (assigns k l). Qed.
Lemma upsert_plain ls : plain_line line -> Forall plain_line ls -> Forall plain_line (upsert_line k line ls).
Proof.
  intros Hp. induction 1 as [|l ls Hl Hls IH]; cbn [upsert_line]; [by constructor; [|constructor]|].
  destruct (assigns k l); by constructor.
Qed.
Lemma upsert_found ls : List.find (assigns k) (upsert_line k line ls) = Some line.
Proof.
  induction ls as [|l ls IH]; cbn [upsert_line List.find]; [by rewrite Hline|].
  destruct (assigns k l) eqn:Hl; cbn [List.find]; [by rewrite Hline|by rewrite Hl].
Qed.
Lemma upsert_same ls : List.find (assigns k) ls = Some line -> upsert_line k line ls = ls.
Proof.
  induction ls as [|l ls IH]; cbn [upsert_line List.find]; [done|].
  destruct (assigns k l); [by intros [= ->]|]. intros Hf. by rewrite IH.
Qed.
Lemma upsert_keeps_find (p : bytes -> bool) ls :
  (forall l, assigns k l = true -> p l = false) -> List.find p (upsert_line k line ls) = List.find p ls.
Proof.
  intros Hp. induction ls as [|l ls IH]; cbn [upsert_line List.find]; [by rewrite Hp|].
  destruct (assigns k l) eqn:Hl; cbn [List.find]; [by rewrite !Hp|by rewrite IH].
Qed.
Lemma upsert_keeps_filter (p : bytes -> bool) ls :
  (forall l, assigns k l = true -> p l = false) -> List.filter p (upsert_line k line ls) = List.filter p ls.
Proof.
  intros Hp. induction ls as [|l ls IH]; cbn [upsert_line List.filter]; [by rewrite Hp|].
  destruct (assigns k l) eqn:Hl; cbn [List.filter]; [by rewrite !Hp|by rewrite IH].
Qed.
End UpsertLine.

Lemma upsert_one_lines text u :
  Forall plain_line (lines text) -> plain_update u -> u.2 <> [] ->
  lines (upsert_one text u) = upsert_line u.1 (assignment u.1 u.2) (lines text).
Proof.
  destruct u as [k v]. intros Ht [Hk Hv] Hne. cbn [fst snd upsert_one] in *. rewrite decide_False by done.
  apply lines_join_nl; [apply upsert_nonempty|]. apply upsert_plain; [by apply assignment_plain|done].
Qed.
Lemma upsert_one_skip text k : upsert_one text (k, []) = text.
Proof. done. Qed.
Lemma upsert_one_plain text u :
  Forall plain_line (lines text) -> plain_update u -> Forall plain_line (lines (upsert_one text u)).
Proof.
  intros Ht Hu. destruct (decide (u.2 = [])) as [Hv|Hv]; [destruct u as [k v]; cbn in Hv; by subst v|].
  rewrite upsert_one_lines by done. destruct u, Hu. apply upsert_plain; [by apply assignment_plain|done].
Qed.
Lemma env_upsert_plain text us :
  Forall plain_line (lines text) -> Forall plain_update us -> Forall plain_line (lines (env_upsert text us)).
Proof.
  intros Ht Hus. revert text Ht. induction Hus as [|u us Hu Hus IH]; intros text Ht; [done|].
  apply IH. by apply upsert_one_plain.
Qed.

(** A fact of the lines that every update keeps, the file keeps. *)
Lemma env_upsert_keeps {A} (f : list bytes -> A) text us :
  Forall plain_line (lines text) -> Forall plain_update us ->
  (forall u ls, u ∈ us -> u.2 <> [] -> f (upsert_line u.1 (assignment u.1 u.2) ls) = f ls) ->
  f (lines (env_upsert text us)) = f (lines text).
Proof.
  intros Ht Hus. revert text Ht. induction Hus as [|u us Hu Hus IH]; intros text Ht Hf; [done|].
  change (env_upsert text (u :: us)) with (env_upsert (upsert_one text u) us).
  rewrite IH; [|by apply upsert_one_plain|intros u' ls Hin; apply Hf; by right].
  destruct (decide (u.2 = [])) as [Hv|Hv]; [destruct u as [k v]; cbn in Hv; by subst v|].
  rewrite upsert_one_lines by done. apply Hf; [by left|done].
Qed.

(** The text ends the way [env_upsert] writes it. *)
Definition written (text : bytes) : Prop := exists ls, ls <> [] /\ Forall plain_line ls /\ text = join ls ++ [nl].

Lemma upsert_one_written text u :
  Forall plain_line (lines text) -> plain_update u -> written text \/ u.2 <> [] -> written (upsert_one text u).
Proof.
  destruct u as [k v]. intros Ht [Hk Hv] Hw. cbn [fst snd upsert_one] in *.
  case_decide as Hd; [by destruct Hw|].
  eexists. split_and!; [apply upsert_nonempty| |done]. apply upsert_plain; [by apply assignment_plain|done].
Qed.
Lemma env_upsert_written text us u :
  Forall plain_line (lines text) -> Forall plain_update us -> written text \/ (u ∈ us /\ u.2 <> []) ->
  written (env_upsert text us).
Proof.
  intros Ht Hus. revert text Ht. induction Hus as [|u' us Hu Hus IH]; intros text Ht Hw.
  - destruct Hw as [?|[Hin _]]; [done|by apply not_elem_of_nil in Hin].
  - apply IH; [by apply upsert_one_plain|].
    destruct Hw as [Hw|[[->|Hin]%elem_of_cons Hne]]; [left|left|by right]; apply upsert_one_written; auto.
Qed.
Lemma upsert_one_stable text u :
  written text -> plain_update u -> (u.2 <> [] -> List.find (assigns u.1) (lines text) = Some (assignment u.1 u.2)) ->
  upsert_one text u = text.
Proof.
  destruct u as [k v]. intros (ls & Hne & Hls & ->) [Hk Hv] Hf. cbn [fst snd upsert_one] in *.
  case_decide as Hd; [done|]. specialize (Hf Hd). rewrite lines_join_nl in * by done. by rewrite upsert_same.
Qed.

(** A line no update of [us] replaces. *)
Definition untouched (us : list (bytes * bytes)) (line : bytes) : bool :=
  forallb (fun '(k, v) => bool_decide (v = []) || negb (assigns k line)) us.

Lemma untouched_not us u l : u ∈ us -> u.2 <> [] -> assigns u.1 l = true -> untouched us l = false.
Proof.
  intros Hin Hne Ha. apply not_true_iff_false. unfold untouched. rewrite forallb_forall. intros Hall.
  apply list_elem_of_In in Hin. specialize (Hall _ Hin). destruct u as [k v]. cbn [fst snd] in *.
  rewrite Ha, bool_decide_eq_false_2 in Hall by done. done.
Qed.

Lemma env_upsert_sets text us k v :
  Forall plain_line (lines text) -> NoDup us.*1 -> Forall plain_update us -> (k, v) ∈ us -> v <> [] ->
  List.find (assigns k) (lines (env_upsert text us)) = Some (assignment k v).
Proof.
  intros Ht Hnd Hus. revert text Ht Hnd. induction Hus as [|u us Hu Hus IH]; intros text Ht Hnd Hin Hne.
  - by apply not_elem_of_nil in Hin.
  - cbn [fmap list_fmap] in Hnd. apply list.NoDup_cons in Hnd as [Hnin Hnd].
    change (env_upsert text (u :: us)) with (env_upsert (upsert_one text u) us).
    pose proof (upsert_one_plain text u Ht Hu) as Ht'.
    apply elem_of_cons in Hin as [<-|Hin]; [|by apply IH].
    rewrite (env_upsert_keeps (List.find (assigns k))); [|done|done|].
    + rewrite upsert_one_lines by done. apply upsert_found. by apply assigns_assignment, Hu.
    + intros u' ls Hin' Hne'. rewrite list.Forall_forall in Hus. pose proof (Hus u' Hin') as Hu'.
      apply upsert_keeps_find; [by apply assigns_assignment, Hu'|].
      intros l Hl. apply not_true_iff_false. intros Hk. apply Hnin.
      replace (k, v).1 with u'.1; [by apply list_elem_of_fmap_2|]. eapply assigns_apart; eauto; [apply Hu'|apply Hu].
Qed.

(** Writing variables to the environment file takes effect: of the lines that assign a variable, the first
    is the one written last for it; the lines that assign none of the updated variables, comments included,
    are kept in their order; and writing the same variables again leaves the file as it is. *)
Theorem environment_written text us :
  cr ∉ text -> NoDup us.*1 -> Forall plain_update us ->
  (forall k v, (k, v) ∈ us -> v <> [] ->
     List.find (assigns k) (lines (env_upsert text us)) = Some (assignment k v)) /\
  List.filter (untouched us) (lines (env_upsert text us)) = List.filter (untouched us) (lines text) /\
  env_upsert (env_upsert text us) us = env_upsert text us.
Proof.
  intros Hc%lines_plain Hnd Hus. split_and!.
  - intros k v Hin Hne. by apply env_upsert_sets.
  - apply (env_upsert_keeps (List.filter (untouched us))); [done|done|]. intros u ls Hin Hne.
    rewrite list.Forall_forall in Hus. apply upsert_keeps_filter; [by apply assigns_assignment, Hus|].
    intros l Hl. by apply (untouched_not us u).
  - assert (forall u, u ∈ us -> upsert_one (env_upsert text us) u = env_upsert text us) as Hone.
    { intros [k v] Hin. destruct (decide (v = [])) as [->|Hne]; [done|].
      rewrite list.Forall_forall in Hus. apply upsert_one_stable; [|by apply Hus|].
      - eapply env_upsert_written with (u := (k, v)); [done|by apply list.Forall_forall|by right].
      - intros _. apply env_upsert_sets; [done|done|by apply list.Forall_forall|done|done]. }
    revert Hone. generalize (env_upsert text us) as t. clear. intros t. unfold env_upsert.
    induction us as [|u us IH]; intros Hone; [done|]. cbn [foldl]. rewrite Hone by left.
    apply IH. intros u' Hin. apply Hone. by right.
Qed.

(** Only the first line of a variable is replaced: a second one stays, and a reader that takes the last
    assignment does not see the update. *)
Lemma later_assignment_stays :
  env_upsert (bstr "K=a" ++ [nl] ++ bstr "K=b" ++ [nl]) [(bstr "K", bstr "c")] =
  bstr "K=c" ++ [nl] ++ bstr "K=b" ++ [nl].
Proof. reflexivity. Qed.

(** ** Client identifiers in the relayer's output *)

Lemma split_by_plain f s : Forall (fun b => f b = false) s -> split_by f s = [s].
Proof. induction 1 as [|b s Hb Hs IH]; cbn [split_by]; [done|]. by rewrite Hb, IH. Qed.
Lemma split_by_nonempty f s : split_by f s <> [].
Proof. destruct s as [|c s]; cbn [split_by]; [done|]. destruct (f c); [done|]. by destruct (split_by f s). Qed.
Lemma split_by_sep f a c r : f c = true -> split_by f (a ++ c :: r) = split_by f a ++ split_by f r.
Proof.
  intros Hc. induction a as [|b a IH]; cbn [app split_by]; [by rewrite Hc|]. rewrite IH.
  destruct (f b); [done|]. destruct (split_by f a) as [|w ws] eqn:Ha; [by apply split_by_nonempty in Ha|done].
Qed.

Lemma split_by_head f s w ws : split_by f s = w :: ws -> exists b, s = w ++ b.
Proof.
  revert w ws. induction s as [|c s IH]; intros w ws; cbn [split_by]; [intros [= <- _]; by exists []|].
  destruct (f c); [intros [= <- _]; by eexists|].
  destruct (split_by f s) as [|w' ws'] eqn:Hs; intros [= <- _]; [by exists s|].
  destruct (IH _ _ eq_refl) as [b ->]. by exists b.
Qed.
(** Every token is a part of the text. *)
Lemma split_by_tokens f s t : t ∈ split_by f s -> exists a b, s = a ++ t ++ b.
Proof.
  induction s as [|c s IH]; cbn [split_by]; [intros ->%list_elem_of_singleton; by exists [], []|].
  assert (t ∈ split_by f s -> exists a b, c :: s = a ++ t ++ b) as Hw.
  { intros Hin. destruct (IH Hin) as (a & b & ->). by exists (c :: a), b. }
  destruct (f c) eqn:Hc; [intros [->|?]%elem_of_cons; [by exists [], (c :: s)|auto]|].
  destruct (split_by f s) as [|w ws] eqn:Hs.
  - intros ->%list_elem_of_singleton. by exists [], s.
  - intros [->|Hin]%elem_of_cons; [|apply Hw; by right].
    destruct (split_by_head _ _ _ _ Hs) as [b ->]. by exists [], b.
Qed.

(** An identifier of the client type: its name and a number. *)
Definition numbered (prefix id : bytes) : Prop :=
  exists digits, id = prefix ++ [Decimal.minus_sign] ++ digits /\ digits <> [] /\
    Forall (fun b => Decimal.is_digitb b = true) digits.

Lemma is_client_id_spec prefix token : is_client_id prefix token = true <-> numbered prefix token.
Proof.
  unfold is_client_id, strip_prefix, numbered. split.
  - destruct (prefix_of _ token) eqn:Hp; [|done]. apply prefix_of_spec in Hp as [r ->]. rewrite drop_app_length.
    intros [Hne Hd]%andb_true_iff. exists r. rewrite <-app_assoc. split_and!; [done| |].
    + by intros ->.
    + by apply list.Forall_forall; intros b Hb%list_elem_of_In; revert b Hb; apply forallb_forall.
  - intros (r & -> & Hne & Hd). rewrite app_assoc, prefix_of_app, drop_app_length.
    rewrite bool_decide_eq_false_2 by done. apply forallb_forall. intros b Hb%list_elem_of_In.
    rewrite list.Forall_forall in Hd. auto.
Qed.

(** Nothing of an identifier separates tokens. *)
Lemma numbered_token prefix id :
  Forall (fun b => is_separator b = false) prefix -> numbered prefix id -> split_by is_separator id = [id].
Proof.
  intros Hp (r & -> & _ & Hd). apply split_by_plain. apply list.Forall_app. split; [done|]. apply list.Forall_app.
  split; [by repeat constructor|]. eapply list.Forall_impl; [exact Hd|]. intros b Hb.
  unfold is_separator, is_alphanumeric. cbn beta in Hb. by rewrite Hb.
Qed.

(** The text is cut at its start. *)
Definition opens (b : bytes) : Prop := match b with c :: _ => is_separator c = true | [] => True end.
Definition closes (a : bytes) : Prop := match list.last a with Some c => is_separator c = true | None => True end.

Lemma split_by_opens t b : opens b -> split_by is_separator t = [t] ->
  exists ws, split_by is_separator (t ++ b) = t :: ws.
Proof.
  intros Hb Ht. destruct b as [|c b]; [rewrite app_nil_r; by eexists|].
  rewrite split_by_sep, Ht by done. by eexists.
Qed.
Lemma split_by_closes a r : closes a ->
  a = [] \/ exists ws, split_by is_separator (a ++ r) = ws ++ split_by is_separator r /\
               forall t, t ∈ ws -> t ∈ split_by is_separator a.
Proof.
  unfold closes. destruct (list.last a) as [c|] eqn:Hl; [|left; by apply last_None].
  intros Hc. right. apply last_Some in Hl as [a' ->]. exists (split_by is_separator a').
  rewrite <-app_assoc. cbn [app]. rewrite !split_by_sep by done. split; [done|]. intros t Ht.
  apply elem_of_app. by left.
Qed.

Lemma extract_none output prefix :
  extract_client_id output prefix = None <-> forall t, t ∈ split_by is_separator output -> is_client_id prefix t = false.
Proof.
  unfold extract_client_id. destruct (filter _ _) as [|t ts] eqn:Hf; cbn [head]; split; try done.
  - intros _ t Ht. apply not_true_iff_false. intros Hid.
    assert (t ∈ filter (fun t => is_client_id prefix t = true) (split_by is_separator output)) as Hin.
    { by apply list_elem_of_filter. }
    rewrite Hf in Hin. by apply not_elem_of_nil in Hin.
  - intros Hall. assert (t ∈ t :: ts) as Hin by left. rewrite <-Hf in Hin.
    apply list_elem_of_filter in Hin as [Hid Hin]. rewrite (Hall t Hin) in Hid. done.
Qed.

(** The identifier read from the relayer's output is a part of the output and a number after the client
    type; and the first identifier that stands between separators is found, whatever surrounds it. *)
Theorem client_id_extracted prefix :
  Forall (fun b => is_separator b = false) prefix ->
  (forall output id, extract_client_id output prefix = Some id ->
     numbered prefix id /\ exists a b, output = a ++ id ++ b) /\
  (forall a id b, numbered prefix id -> closes a -> opens b -> extract_client_id a prefix = None ->
     extract_client_id (a ++ id ++ b) prefix = Some id).
Proof.
  intros Hp. split.
  - intros output id Hex. unfold extract_client_id in Hex.
    apply head_Some_elem_of, list_elem_of_filter in Hex as [Hid Hin].
    split; [by apply is_client_id_spec|by apply split_by_tokens in Hin].
  - intros a id b Hid Ha Hb Hnone.
    destruct (split_by_opens id b Hb (numbered_token prefix id Hp Hid)) as [ws Hws].
    apply is_client_id_spec in Hid. unfold extract_client_id.
    destruct (split_by_closes a (id ++ b) Ha) as [->|(vs & Heq & Hvs)].
    + cbn [app]. rewrite Hws, filter_cons_True by done. done.
    + rewrite Heq, list.filter_app, Hws, filter_cons_True by done.
      replace (filter _ vs) with (@nil bytes); [done|]. symmetry. apply elem_of_nil_inv. intros t Ht.
      apply list_elem_of_filter in Ht as [Hid' Hin%Hvs]. rewrite extract_none in Hnone. rewrite Hnone in Hid'; done.
Qed.
