(* ===== verification/Configuration.v ===== *)
(** * Configuration ([config.rs] of the services and of the command-line tool)

    The records the programs read from their environment.  The environment is a function from names to values;
    a path is its text. *)

From Stdlib Require Import ZArith Lia Strings.Byte Strings.String.
From stdpp Require Import base option list gmap numbers.
From S2P Require Import Prelude Bytes Text Json ConfigText.
Open Scope Z_scope.

(** [std::env::var(key).ok()]. *)
Definition Env : Type := bytes -> option bytes.

(** ** [crates/api/src/config.rs], [crates/gateway/src/config.rs] *)

Definition env_key (env : Env) (key dflt : string) : bytes := env_or (env (bstr key)) (bstr dflt).
Definition env_port (env : Env) (key dflt : string) (port : Z) : Z := port_or (env (bstr key)) (bstr dflt) port.

Module ApiConfig.
Record ApiConfig : Type := MkApiConfig {
  host : bytes; port : Z; rpc_url : bytes; ibc_contract_id : bytes; transfer_contract_id : bytes;
  network_passphrase : bytes;
}.
Definition from_env (env : Env) : ApiConfig := {|
  host := env_key env "STELLAR_API_HOST" "0.0.0.0";
  port := env_port env "STELLAR_API_PORT" "8101" 8101;
  rpc_url := env_key env "STELLAR_RPC_URL" "https://soroban-testnet.stellar.org";
  ibc_contract_id := env_key env "ROUTER_CONTRACT_ADDRESS" "";
  transfer_contract_id := env_key env "TRANSFER_CONTRACT_ADDRESS" "";
  network_passphrase := env_key env "NETWORK_PASSPHRASE" "Test SDF Network ; September 2015";
|}.
(** The text [addr] parses as a socket address. *)
Definition addr (c : ApiConfig) : bytes := host c ++ bstr ":" ++ dec 5 (port c).
End ApiConfig.

Module GatewayConfig.
Record GatewayConfig : Type := MkGatewayConfig {
  host : bytes; grpc_port : Z; api_url : bytes; ibc_contract_id : bytes;
}.
Definition from_env (env : Env) : GatewayConfig := {|
  host := env_key env "STELLAR_GATEWAY_HOST" "0.0.0.0";
  grpc_port := env_port env "STELLAR_GATEWAY_GRPC_PORT" "50052" 50052;
  api_url := env_key env "STELLAR_API_URL" "http://127.0.0.1:8101";
  ibc_contract_id := env_key env "ROUTER_CONTRACT_ADDRESS" "";
|}.
Definition grpc_addr (c : GatewayConfig) : bytes := host c ++ bstr ":" ++ dec 5 (grpc_port c).
End GatewayConfig.

(** ** [interstellar/src] *)

(** [config::get]. *)
Definition get_key (env : Env) (key dflt : string) : bytes := get_var (env (bstr key)) (bstr dflt).

Inductive ChainId : Type := CosmosChain (id : bytes) | CardanoChain (id : bytes) | StellarChain (id : bytes).
Definition chain_id_str (c : ChainId) : bytes :=
  match c with CosmosChain id | CardanoChain id | StellarChain id => id end.
Inductive ClientId : Type := CosmosClient (id : bytes) | CardanoClient (id : bytes) | StellarClient (id : bytes).
Definition client_id_str (c : ClientId) : bytes :=
  match c with CosmosClient id | CardanoClient id | StellarClient id => id end.

Inductive ClientTypes : Type := Tendermint | Attestation | Mock.
Definition client_type_str (t : ClientTypes) : bytes :=
  match t with
  | Attestation => bstr "attestation" | Tendermint => bstr "07-tendermint" | Mock => bstr "mock"
  end.

Record ImageRef : Type := MkImageRef { image : bytes; tag : bytes; registry : bytes }.
Definition reference (i : ImageRef) : bytes :=
  if decide (registry i = []) then image i ++ bstr ":" ++ tag i
  else registry i ++ bstr "/" ++ image i ++ bstr ":" ++ tag i.

Inductive CosmosNetwork : Type := Devnet | Testnet.
Record CosmosConfig : Type := MkCosmosConfig {
  network : CosmosNetwork; cosmos_chain : ChainId; cosmos_rpc_url : bytes; rest_url : bytes;
  faucet_url : option bytes; cosmos_key_name : bytes; relayer_mnemonic : bytes; receiver_address : bytes;
  account_prefix : bytes; gas_denom : bytes; relayer_key_hex : bytes; validator_key_hex : bytes;
}.
Definition devnet (env : Env) : CosmosConfig := {|
  network := Devnet;
  cosmos_chain := CosmosChain (get_key env "COSMOS_CHAIN_ID" "simd-1");
  cosmos_rpc_url := get_key env "COSMOS_RPC_URL" "http://127.0.0.1:26657";
  rest_url := get_key env "COSMOS_REST_URL" "http://127.0.0.1:1317";
  faucet_url := None;
  cosmos_key_name := get_key env "COSMOS_KEY_NAME" "relayer";
  relayer_mnemonic := get_key env "COSMOS_RELAYER_MNEMONIC" "";
  receiver_address := get_key env "COSMOS_RECEIVER_ADDRESS" "";
  account_prefix := get_key env "COSMOS_ACCOUNT_PREFIX" "cosmos";
  gas_denom := get_key env "COSMOS_GAS_DENOM" "stake";
  relayer_key_hex := get_key env "COSMOS_RELAYER_PRIVATE_KEY" "";
  validator_key_hex := get_key env "COSMOS_VALIDATOR_PRIVATE_KEY" "";
|}.
Definition testnet (env : Env) : CosmosConfig := {|
  network := Testnet;
  cosmos_chain := CosmosChain (get_key env "COSMOS_TESTNET_CHAIN_ID" "provider");
  cosmos_rpc_url := get_key env "COSMOS_TESTNET_RPC_URL" "https://rpc.provider-sentry-01.hub-testnet.polypore.xyz";
  rest_url := get_key env "COSMOS_TESTNET_REST_URL" "https://rest.provider-sentry-01.hub-testnet.polypore.xyz";
  faucet_url := Some (get_key env "COSMOS_TESTNET_FAUCET_URL" "https://faucet.polypore.xyz");
  cosmos_key_name := get_key env "COSMOS_KEY_NAME" "relayer";
  relayer_mnemonic := get_key env "COSMOS_RELAYER_MNEMONIC" "";
  receiver_address := get_key env "COSMOS_TESTNET_RECEIVER_ADDRESS" "";
  account_prefix := get_key env "COSMOS_ACCOUNT_PREFIX" "cosmos";
  gas_denom := get_key env "COSMOS_TESTNET_GAS_DENOM" "uatom";
  relayer_key_hex := get_key env "COSMOS_RELAYER_PRIVATE_KEY" "";
  validator_key_hex := get_key env "COSMOS_VALIDATOR_PRIVATE_KEY" "";
|}.
Definition is_local (c : CosmosConfig) : bool := match network c with Devnet => true | Testnet => false end.

Record StellarConfig : Type := MkStellarConfig {
  stellar_chain : ChainId; signing_key : bytes; stellar_rpc_url : bytes; stellar_passphrase : bytes;
  cli_identity : bytes; stellar_key_name : bytes; gateway_url : bytes; stellar_api_url : bytes;
  stellar_ibc_router : bytes; stellar_transfer_app : bytes;
}.
Definition stellar_from_env (env : Env) : StellarConfig :=
  let api_port := get_key env "STELLAR_API_PORT" "8101" in
  let grpc_port := get_key env "STELLAR_GATEWAY_GRPC_PORT" "50052" in
  let chain_id := get_key env "STELLAR_CHAIN_ID" "stellar-testnet" in
  {|
    stellar_chain := StellarChain chain_id;
    signing_key := get_key env "STELLAR_SIGNING_KEY" "";
    stellar_rpc_url := get_key env "STELLAR_RPC_URL" "https://soroban-testnet.stellar.org";
    stellar_passphrase := get_key env "NETWORK_PASSPHRASE" "Test SDF Network ; September 2015";
    cli_identity := get_key env "DEPLOYER_IDENTITY" "admin";
    stellar_key_name := get_key env "STELLAR_KEY_NAME" "stellar-relayer";
    gateway_url := get_var (env (bstr "STELLAR_GATEWAY_URL")) (bstr "127.0.0.1:" ++ grpc_port);
    stellar_api_url := get_var (env (bstr "STELLAR_API_URL")) (bstr "http://127.0.0.1:" ++ api_port);
    stellar_ibc_router := get_key env "STELLAR_ROUTER_CONTRACT" "";
    stellar_transfer_app := get_key env "STELLAR_TRANSFER_CONTRACT" "";
  |}.

Record HermesConfig : Type := MkHermesConfig {
  hermes_image : ImageRef; hermes_file : bytes; config_path : bytes; repo_url : bytes; branch : bytes;
}.
Definition path_join (root name : bytes) : bytes := root ++ bstr "/" ++ name.
Definition hermes_from_env (env : Env) (root : bytes) : HermesConfig :=
  let branch := get_key env "HERMES_BRANCH" "main" in
  {|
    hermes_image := MkImageRef (get_key env "HERMES_IMAGE" "amandagonsalvesx/stellar-hermes-cardano")
                      (get_key env "HERMES_TAG" "latest") (get_key env "HERMES_REGISTRY" "");
    hermes_file := path_join root (bstr "hermes-config.toml");
    config_path := get_key env "HERMES_CONFIG_PATH" "/home/hermes/.hermes/config.toml";
    repo_url := get_key env "HERMES_REPO_URL" "";
    branch := if decide (trim branch = []) then bstr "main" else branch;
  |}.

(** [services/gateway/config.rs]. *)
Definition gateway_image (env : Env) : ImageRef :=
  MkImageRef (get_key env "GATEWAY_IMAGE" "amandagonsalvesx/stellar-eureka-gateway")
    (get_key env "GATEWAY_TAG" "latest") (get_key env "GATEWAY_REGISTRY" "").

Record DeploymentConfig : Type := MkDeploymentConfig {
  ibc_router : bytes; transfer_app : bytes; deployer_address : bytes; transfer_port : bytes;
  mock_client_type : bytes; attestation_client_type : bytes; tendermint_client_type : bytes;
  cosmos_client_id : bytes; stellar_client_id : bytes;
}.
Definition non_empty (value : bytes) : option bytes := if decide (value = []) then None else Some value.
Definition cosmos_client (d : DeploymentConfig) : option ClientId := CosmosClient <$> non_empty (cosmos_client_id d).
Definition stellar_client (d : DeploymentConfig) : option ClientId := StellarClient <$> non_empty (stellar_client_id d).

Record AccountsConfig : Type := MkAccountsConfig {
  stellar_sender_identity : bytes; stellar_sender_address : bytes;
  stellar_receiver_identity : bytes; stellar_receiver_address : bytes;
  cosmos_sender_key_name : bytes; cosmos_sender_address : bytes;
  cosmos_receiver_key_name : bytes; cosmos_receiver_address : bytes;
}.
Definition accounts_from_env (env : Env) : AccountsConfig := {|
  stellar_sender_identity := get_key env "STELLAR_SENDER_IDENTITY" "stellar-sender";
  stellar_sender_address := get_key env "STELLAR_SENDER_ADDRESS" "";
  stellar_receiver_identity := get_key env "STELLAR_RECEIVER_IDENTITY" "stellar-receiver";
  stellar_receiver_address := get_key env "STELLAR_RECEIVER_ADDRESS" "";
  cosmos_sender_key_name := get_key env "COSMOS_SENDER_KEY_NAME" "cosmos-sender";
  cosmos_sender_address := get_key env "COSMOS_SENDER_ADDRESS" "";
  cosmos_receiver_key_name := get_key env "COSMOS_RECEIVER_KEY_NAME" "cosmos-receiver";
  cosmos_receiver_address := get_key env "COSMOS_RECEIVER_ADDRESS" "";
|}.

Record Config : Type := MkConfig {
  cosmos : CosmosConfig; stellar : StellarConfig; hermes : HermesConfig; api : ImageRef; gateway : ImageRef;
  deployment : DeploymentConfig; accounts : AccountsConfig;
}.
Definition deployment_from_env (env : Env) : DeploymentConfig := {|
  ibc_router := get_key env "ROUTER_CONTRACT_ADDRESS" "";
  transfer_app := get_key env "TRANSFER_CONTRACT_ADDRESS" "";
  deployer_address := get_key env "DEPLOYER_ADDRESS" "";
  transfer_port := get_key env "TRANSFER_PORT" "transfer";
  mock_client_type := get_var (env (bstr "MOCK_CLIENT_TYPE")) (client_type_str Mock);
  attestation_client_type := get_var (env (bstr "ATTESTATION_CLIENT_TYPE")) (client_type_str Attestation);
  tendermint_client_type := get_var (env (bstr "TENDERMINT_CLIENT_TYPE")) (client_type_str Tendermint);
  cosmos_client_id := get_key env "COSMOS_CLIENT_ID" "";
  stellar_client_id := get_key env "STELLAR_CLIENT_ID" "";
|}.
(** [Config::load], once [dotenvy] has put the assignments of [.env] into the environment. *)
Definition load (env : Env) (root : bytes) : Config := {|
  cosmos := devnet env;
  stellar := stellar_from_env env;
  hermes := hermes_from_env env root;
  api := MkImageRef (get_key env "API_IMAGE" "amandagonsalvesx/stellar-eureka-api")
           (get_key env "API_TAG" "latest") (get_key env "API_REGISTRY" "");
  gateway := gateway_image env;
  deployment := deployment_from_env env;
  accounts := accounts_from_env env;
|}.
Definition api_health_url (c : Config) : bytes := stellar_api_url (stellar c) ++ bstr "/health".

(** ** [tx/clients/config.rs], [tx/contracts/config.rs] *)

Record ClientsConfig : Type := MkClientsConfig {
  cc_stellar_chain_id : bytes; cc_cosmos_chain_id : bytes; cc_gateway_url : bytes; cc_cosmos_rpc_url : bytes;
  cc_api_url : bytes; cc_hermes_config : bytes; cc_hermes_config_path : bytes;
  cc_cosmos_client : option ClientId; cc_stellar_client : option ClientId;
}.
Definition clients_config (c : Config) : ClientsConfig := {|
  cc_stellar_chain_id := chain_id_str (stellar_chain (stellar c));
  cc_cosmos_chain_id := chain_id_str (cosmos_chain (cosmos c));
  cc_gateway_url := gateway_url (stellar c);
  cc_cosmos_rpc_url := cosmos_rpc_url (cosmos c);
  cc_api_url := stellar_api_url (stellar c);
  cc_hermes_config := hermes_file (hermes c);
  cc_hermes_config_path := config_path (hermes c);
  cc_cosmos_client := cosmos_client (deployment c);
  cc_stellar_client := stellar_client (deployment c);
|}.
Definition cosmos_status_url (c : ClientsConfig) : bytes := cc_cosmos_rpc_url c ++ bstr "/status".
Definition clients_url (c : ClientsConfig) : bytes := cc_api_url c ++ bstr "/stellar/clients".

Record ContractsConfig : Type := MkContractsConfig {
  ct_rpc_url : bytes; ct_network_passphrase : bytes; ct_signing_key : bytes; ct_deployer_address : bytes;
  ct_ibc_router : bytes; ct_transfer_port : bytes; ct_mock_client_type : bytes;
  ct_attestation_client_type : bytes; ct_tendermint_client_type : bytes; ct_hermes_config : bytes;
}.
Definition contracts_config (c : Config) : ContractsConfig := {|
  ct_rpc_url := stellar_rpc_url (stellar c);
  ct_network_passphrase := stellar_passphrase (stellar c);
  ct_signing_key := signing_key (stellar c);
  ct_deployer_address := deployer_address (deployment c);
  ct_ibc_router := ibc_router (deployment c);
  ct_transfer_port := transfer_port (deployment c);
  ct_mock_client_type := mock_client_type (deployment c);
  ct_attestation_client_type := attestation_client_type (deployment c);
  ct_tendermint_client_type := tendermint_client_type (deployment c);
  ct_hermes_config := hermes_file (hermes c);
|}.
Definition net_flags (c : ContractsConfig) : list bytes :=
  [bstr "--rpc-url"; ct_rpc_url c; bstr "--network-passphrase"; ct_network_passphrase c].
Definition client_type (c : ContractsConfig) (kind : ClientTypes) : bytes :=
  match kind with
  | Mock => ct_mock_client_type c
  | Attestation => ct_attestation_client_type c
  | Tendermint => ct_tendermint_client_type c
  end.

(** ** Reading a setting *)

(** A value with no blank or quote at its ends, and a text that only adds blanks and quotes around it. *)
Definition bare (v : bytes) : Prop :=
  v <> [] /\ forall x, list.head v = Some x \/ list.last v = Some x -> is_whitespace x = false /\ is_quote x = false.
Definition wraps (raw v : bytes) : Prop :=
  exists a q q' b, raw = a ++ (q ++ v ++ q') ++ b /\ blank a /\ blank b /\
    Forall (fun x => is_quote x = true) q /\ Forall (fun x => is_quote x = true) q'.

Lemma quote_not_blank x : is_quote x = true -> is_whitespace x = false.
Proof. unfold is_quote. intros [->%bool_decide_eq_true_1| ->%bool_decide_eq_true_1]%orb_true_iff; done. Qed.

Lemma unwrap raw v : bare v -> wraps raw v -> trim_matches is_quote (trim raw) = v.
Proof.
  intros [Hne Hv] (a & q & q' & b & -> & Ha & Hb & Hq & Hq'). rewrite list.Forall_forall in Hq, Hq'.
  assert (trim (a ++ (q ++ v ++ q') ++ b) = q ++ v ++ q') as ->.
  - apply trim_wrapped; [done|done|by destruct q, v| |].
    + intros x. rewrite !list.head_app. destruct (head q) as [y|] eqn:Hy.
      * cbn. intros [= <-]. apply quote_not_blank, Hq. by apply head_Some_elem_of.
      * destruct v as [|y v]; [done|]. cbn. intros [= <-]. apply Hv. by left.
    + intros x. rewrite !last_app. destruct (list.last q') as [y|] eqn:Hy.
      * intros [= <-]. apply quote_not_blank, Hq'. by apply last_Some_elem_of.
      * destruct (list.last v) as [y|] eqn:Hl; [|apply last_None in Hl; done].
        intros [= <-]. apply Hv. by right.
  - apply trim_wrapped; [by apply list.Forall_forall|by apply list.Forall_forall|done| |].
    + intros x Hx. apply Hv. by left.
    + intros x Hx. apply Hv. by right.
Qed.
Lemma trim_bare v : bare v -> trim v = v.
Proof.
  intros [Hne Hv]. replace (trim v) with (trim ([] ++ v ++ [])) by by rewrite app_nil_r.
  apply trim_wrapped; [constructor|constructor|done| |]; intros x Hx; apply Hv; auto.
Qed.

Lemma get_var_wrapped raw v dflt : bare v -> wraps raw v -> get_var (Some raw) dflt = v.
Proof. apply unwrap. Qed.
Lemma env_or_wrapped raw v dflt : bare v -> wraps raw v -> env_or (Some raw) dflt = v.
Proof. intros Hv Hr. unfold env_or. rewrite (unwrap raw v), trim_bare by done. destruct Hv as [? _]. by rewrite decide_False. Qed.

(** The variable is absent or has a value. *)
Definition set_well (env : Env) (key : string) : Prop :=
  match env (bstr key) with Some raw => exists v, bare v /\ wraps raw v | None => True end.

Lemma readers_agree env key dflt : set_well env key -> env_key env key dflt = get_key env key dflt.
Proof.
  unfold set_well, env_key, get_key. destruct (env (bstr key)) as [raw|]; [|done].
  intros (v & Hv & Hr). by rewrite (env_or_wrapped raw v), (get_var_wrapped raw v).
Qed.

(** The variable is absent or wraps the digits of a port. *)
Definition port_set_well (env : Env) (key : string) : Prop :=
  match env (bstr key) with
  | Some raw => exists n, 0 <= n < 2 ^ 16 /\ wraps raw (dec 5 n)
  | None => True
  end.

Lemma digit_bare s : s <> [] -> Forall is_digit s -> bare s.
Proof.
  intros Hne Hs. rewrite list.Forall_forall in Hs. split; [done|]. intros x Hx.
  assert (is_digit x) as Hd.
  { apply Hs. destruct Hx; [by apply head_Some_elem_of|by apply last_Some_elem_of]. }
  revert Hd. unfold is_digit, is_whitespace, is_quote. destruct x; vm_compute; intros [? ?]; try done; lia.
Qed.

Lemma port_read env key dflt port :
  port_set_well env key -> bstr dflt = dec 5 port -> 0 <= port < 2 ^ 16 ->
  get_key env key dflt = dec 5 (env_port env key dflt port).
Proof.
  unfold port_set_well, get_key, env_port, port_or. intros Hset Hd Hp.
  assert (forall n, 0 <= n < 2 ^ 16 ->
    Decimal.parse_unsigned (2 ^ 16 - 1) (dec 5 n) = Some n) as Hparse.
  { intros n Hn. apply Decimal.parse_unsigned_dec; cbn; lia. }
  destruct (env (bstr key)) as [raw|].
  - destruct Hset as (n & Hn & Hr). assert (bare (dec 5 n)) as Hb.
    { apply digit_bare; [apply Decimal.dec_nonempty; cbn; lia|apply dec_all_digits]. }
    rewrite (get_var_wrapped raw (dec 5 n)), (env_or_wrapped raw (dec 5 n)) by done. by rewrite Hparse.
  - cbn [get_var env_or]. rewrite Hd, Hparse by done. done.
Qed.

Definition SHARED_KEYS : list string :=
  ["STELLAR_RPC_URL"; "NETWORK_PASSPHRASE"; "ROUTER_CONTRACT_ADDRESS"; "TRANSFER_CONTRACT_ADDRESS"]%string.

(** The services and the command-line tool read the same settings: with values that are not empty, whatever
    blanks and quotes surround them, both use the same network, router and transfer contracts, and the tool
    contacts the API and the gateway at the ports they listen on, unless a URL is configured. *)
Theorem settings_agree env root :
  Forall (set_well env) SHARED_KEYS -> port_set_well env "STELLAR_API_PORT" ->
  port_set_well env "STELLAR_GATEWAY_GRPC_PORT" ->
  env (bstr "STELLAR_API_URL") = None -> env (bstr "STELLAR_GATEWAY_URL") = None ->
  let a := ApiConfig.from_env env in let g := GatewayConfig.from_env env in let c := load env root in
  ApiConfig.rpc_url a = stellar_rpc_url (stellar c) /\
  ApiConfig.network_passphrase a = stellar_passphrase (stellar c) /\
  ApiConfig.ibc_contract_id a = ibc_router (deployment c) /\
  GatewayConfig.ibc_contract_id g = ibc_router (deployment c) /\
  ApiConfig.transfer_contract_id a = transfer_app (deployment c) /\
  api_health_url c = bstr "http://127.0.0.1:" ++ dec 5 (ApiConfig.port a) ++ bstr "/health" /\
  gateway_url (stellar c) = bstr "127.0.0.1:" ++ dec 5 (GatewayConfig.grpc_port g).
Proof.
  intros Hset Hap Hgp Hau Hgu. unfold SHARED_KEYS in Hset. rewrite !list.Forall_cons in Hset.
  destruct Hset as (Hrpc & Hpass & Hrouter & Htransfer & _).
  unfold api_health_url. cbn -[bstr dec env_port get_key env_key]. rewrite Hau, Hgu. cbn [get_var].
  rewrite !readers_agree by done. split_and!; try done.
  - rewrite <-app_assoc. do 2 f_equal. by apply port_read.
  - f_equal. by apply port_read.
Qed.

(** The gateway's own default for the API does not follow the API's port. *)
Lemma gateway_default_ignores_port env :
  env (bstr "STELLAR_API_URL") = None ->
  GatewayConfig.api_url (GatewayConfig.from_env env) = bstr "http://127.0.0.1:8101".
Proof. intros Hau. unfold GatewayConfig.from_env, env_key. cbn [GatewayConfig.api_url]. by rewrite Hau. Qed.

(** An empty port makes the tool contact no port at all, where the service falls back to its default. *)
Lemma empty_port_differs env root :
  env (bstr "STELLAR_API_PORT") = Some [] -> env (bstr "STELLAR_API_URL") = None ->
  ApiConfig.port (ApiConfig.from_env env) = 8101 /\ api_health_url (load env root) = bstr "http://127.0.0.1:/health".
Proof.
  intros Hp Hau. unfold ApiConfig.from_env, env_port, api_health_url, load, stellar_from_env, get_key.
  cbn [ApiConfig.port stellar stellar_api_url]. by rewrite Hp, Hau.
Qed.

(** What [check] reports as the router and the transfer contract is not what a deployment writes: it reads
    variables nothing sets. *)
Lemma check_reads_other_variables env root :
  env (bstr "STELLAR_ROUTER_CONTRACT") = None -> env (bstr "STELLAR_TRANSFER_CONTRACT") = None ->
  stellar_ibc_router (stellar (load env root)) = [] /\ stellar_transfer_app (stellar (load env root)) = [].
Proof.
  intros Hr Ht. unfold load, stellar_from_env, get_key. cbn [stellar stellar_ibc_router stellar_transfer_app].
  by rewrite Hr, Ht.
Qed.
