(* ===== verification/Cli.v ===== *)
(** * What the command-line tool does to the outside ([interstellar/src/{run,tools,probe}.rs])

    The tool runs programs, sends HTTP requests, connects to ports, waits, and reads and writes files.  All of
    that is the class [World]: each effect maps a state of the outside to the next one and what the tool sees.
    A command is a function in [IO]: the state after it is kept on errors too.  An error is its text (the
    constant part of it where nothing reads the rest); texts are ASCII.  What the commands print while they run
    is left out; the lines of the queries are results ([CliQuery]). *)

From Stdlib Require Import ZArith Lia Strings.Byte Strings.String.
From stdpp Require Import base option list gmap numbers.
From S2P Require Import Prelude Bytes Text Json ConfigText.
Open Scope Z_scope.

(** [Command::new(program).args(args).current_dir(dir)], with what is written to its input. *)
Record Command : Type := MkCommand { program : bytes; args : list bytes; dir : bytes; stdin : bytes }.
Record Output : Type := MkOutput { success : bool; status_text : bytes; stdout : bytes; stderr : bytes }.
(** The status and the body, when it is JSON. *)
Record Reply : Type := MkReply { reply_status : Z; reply_json : option Value }.

Class World (W : Type) := {
  (** No reply without a connection. *)
  http : Request -> W -> W * option Reply;
  (** Nothing when the program cannot be started. *)
  spawn : Command -> W -> W * option Output;
  connect : bytes -> W -> W * bool;
  (** Milliseconds of a clock that does not go back. *)
  now : W -> Z;
  sleep : Z -> W -> W;
  (** Seconds since the Unix epoch, for [SystemTime::now]. *)
  unix_secs : W -> Z;
  read_file : bytes -> W -> option bytes;
  write_file : bytes -> bytes -> W -> W * bool;
  is_dir : bytes -> W -> bool;
}.

Definition IO (W A : Type) : Type := W -> W * result bytes A.
#[export] Instance IO_ret {W} : MRet (IO W) := fun A a w => (w, Ok a).
#[export] Instance IO_bind {W} : MBind (IO W) :=
  fun A B f m w => let '(w', r) := m w in match r with Ok a => f a w' | Err e => (w', Err e) end.

Section Io.
Context {W : Type}.
Definition bail {A} (text : bytes) : IO W A := fun w => (w, Err text).
Definition lift_io {A} (r : result bytes A) : IO W A := fun w => (w, r).
(** An effect that cannot fail. *)
Definition effect {A} (f : W -> W * A) : IO W A := fun w => let '(w', a) := f w in (w', Ok a).
(** [m.ok()]: the result as a value. *)
Definition attempt {A} (m : IO W A) : IO W (result bytes A) := fun w => let '(w', r) := m w in (w', Ok r).

Lemma IO_bind_inv {A B} (m : IO W A) (f : A -> IO W B) w w2 r :
  (m ≫= f) w = (w2, r) ->
  (exists w1 a, m w = (w1, Ok a) /\ f a w1 = (w2, r)) \/ (exists e, m w = (w2, Err e) /\ r = Err e).
Proof.
  unfold mbind, IO_bind. destruct (m w) as [w1 [a|e]] eqn:Hm; [by left; exists w1, a|].
  intros [= -> <-]. right. by exists e.
Qed.
Lemma IO_bind_Ok {A B} (m : IO W A) (f : A -> IO W B) w w2 b :
  (m ≫= f) w = (w2, Ok b) <-> exists w1 a, m w = (w1, Ok a) /\ f a w1 = (w2, Ok b).
Proof.
  split.
  - intros [?|(e & _ & ?)]%IO_bind_inv; [done|done].
  - intros (w1 & a & Hm & Hf). unfold mbind, IO_bind. by rewrite Hm.
Qed.
End Io.

Section Run.
Context `{World W}.

Definition words (l : list bytes) : bytes := match l with [] => [] | w :: ws => w ++ mjoin ((fun x => space :: x) <$> ws) end.
Definition exited (c : Command) (o : Output) : bytes :=
  program c ++ [space] ++ words (args c) ++ bstr " exited with " ++ status_text o.
Definition failed_to_spawn (c : Command) : bytes := bstr "failed to spawn " ++ program c.

(** [.output().with_context(..)?] *)
Definition output (c : Command) : IO W Output :=
  o ← effect (spawn c);
  match o with Some o => mret o | None => bail (failed_to_spawn c) end.

(** [command], whether the progress bar is shown or not. *)
Definition command (c : Command) : IO W unit :=
  o ← output c;
  if success o then mret tt else bail (exited c o).
Definition piped (c : Command) : IO W unit := command c.
Definition capture (c : Command) : IO W bytes :=
  o ← output c;
  if success o then mret (trim (stdout o)) else bail (exited c o).
Definition capture_quiet (c : Command) : IO W bytes :=
  o ← output c;
  if success o then mret (trim (stdout o)) else bail (exited c o ++ [Byte.x3a; nl] ++ stderr o).
Definition capture_all (c : Command) : IO W bytes :=
  o ← output c;
  let combined := stdout o ++ stderr o in
  if success o then mret combined else bail (exited c o ++ [Byte.x3a; nl] ++ combined).
Definition has (name : bytes) : IO W bool :=
  o ← effect (spawn (MkCommand name [bstr "--version"] [] []));
  mret (match o with Some o => success o | None => false end).

(** [tokio::time::sleep], [std::thread::sleep]. *)
Definition pause (ms : Z) : IO W unit := fun w => (sleep ms w, Ok tt).

(** ** [tools.rs] and [services/hermes/container.rs] *)

Definition stellar_in (root : bytes) (args : list bytes) : Command := MkCommand (bstr "stellar") args root [].
Definition docker_in (root : bytes) (args : list bytes) : Command := MkCommand (bstr "docker") args root [].
Definition gaiad_in (root : bytes) (args : list bytes) : Command := MkCommand (bstr "gaiad") args root [].
Definition git_in (root : bytes) (args : list bytes) : Command := MkCommand (bstr "git") args root [].
Definition COMPOSE_PROFILES : list bytes := bstr <$> ["--profile"; "local"; "--profile"; "hermes"]%string.
Definition compose_argv (extra : list bytes) : list bytes := bstr "compose" :: COMPOSE_PROFILES ++ extra.
Definition compose (root : bytes) (extra : list bytes) : IO W unit := command (docker_in root (compose_argv extra)).
Definition exec (root config_path : bytes) (args : list bytes) : IO W bytes :=
  _ ← compose root (bstr <$> ["up"; "-d"; "hermes"]%string);
  capture_all (docker_in root
    (compose_argv ((bstr <$> ["exec"; "-T"; "hermes"; "hermes"; "--config"]%string) ++ config_path :: args))).

(** ** [probe.rs] *)

Definition http_ok (url : bytes) : IO W bool :=
  r ← effect (http (MkRequest GET url JNull));
  mret (match r with Some r => is_success (reply_status r) | None => false end).
Definition get_json (url : bytes) : IO W (option Value) :=
  r ← effect (http (MkRequest GET url JNull));
  mret (match r with
        | Some r => if is_success (reply_status r) then reply_json r else None
        | None => None
        end).
Definition tcp_ok (addr : bytes) : IO W bool := effect (connect addr).

(** [start.elapsed().as_secs() >= timeout_secs] ends the loop; nothing when the fuel runs out. *)
Fixpoint wait_http_loop (fuel : nat) (url : bytes) (start timeout_secs : Z) (w : W) : option (W * bool) :=
  match fuel with
  | O => None
  | S fuel =>
      match http_ok url w with
      | (w, Ok true) => Some (w, true)
      | (w, _) =>
          if timeout_secs <=? (now w - start) / 1000 then Some (w, false)
          else wait_http_loop fuel url start timeout_secs (sleep 5000 w)
      end
  end.
Definition wait_http (url : bytes) (timeout_secs : Z) : IO W bool := fun w =>
  match wait_http_loop (Z.to_nat (timeout_secs / 5 + 2)) url (now w) timeout_secs w with
  | Some (w, b) => (w, Ok b)
  | None => (w, Err (bstr "still waiting"))
  end.

(** ** Files *)

Definition write_text (path text : bytes) : IO W unit :=
  ok ← effect (write_file path text);
  if (ok : bool) then mret tt else bail (bstr "writing " ++ path).
(** [env_upsert]: a file that cannot be read is an empty text. *)
Definition upsert_file (path : bytes) (updates : list (bytes * bytes)) : IO W unit := fun w =>
  write_text path (env_upsert (default [] (read_file path w)) updates) w.
Definition patch_file (path checksum : bytes) : IO W bool := fun w =>
  match read_file path w with
  | None => (w, Err (bstr "reading " ++ path))
  | Some text =>
      match patch_wasm_checksum text checksum with
      | None => (w, Err (bstr "wasm_checksum_hex line not found in " ++ path))
      | Some (out, changed) =>
          if changed : bool then (_ ← write_text path out; mret true) w else (w, Ok false)
      end
  end.

End Run.

(** ** Laws of the outside *)

Class WorldLaws (W : Type) `{World W} : Prop := {
  clock_http : forall r w, now w <= now (http r w).1;
  clock_spawn : forall c w, now w <= now (spawn c w).1;
  sleep_advances : forall d w, 0 <= d -> now w + d <= now (sleep d w);
  http_files : forall r w f, read_file f (http r w).1 = read_file f w;
  connect_files : forall a w f, read_file f (connect a w).1 = read_file f w;
  sleep_files : forall d w f, read_file f (sleep d w) = read_file f w;
  write_reads : forall f t w w', write_file f t w = (w', true) -> read_file f w' = Some t;
  write_frame : forall f g t w, f <> g -> read_file g (write_file f t w).1 = read_file g w;
}.
(** No program the tool runs writes the file: the tool keeps it for itself. *)
Definition own_file `{World W} (f : bytes) : Prop := forall c w, read_file f (spawn c w).1 = read_file f w.

Section Laws.
Context `{WorldLaws W}.

Lemma http_ok_clock url w : now w <= now (http_ok url w).1.
Proof.
  unfold http_ok, effect, mbind, IO_bind. pose proof (clock_http (MkRequest GET url JNull) w) as Hc.
  by destruct (http _ w).
Qed.

(** Waiting for a service ends: after the timeout the loop gives up, and until then every round waits five
    seconds. *)
Lemma wait_http_ends fuel url start timeout_secs w :
  timeout_secs * 1000 <= now w - start + 5000 * (Z.of_nat fuel - 1) -> (0 < fuel)%nat ->
  is_Some (wait_http_loop fuel url start timeout_secs w).
Proof.
  revert w. induction fuel as [|fuel IH]; intros w Hw Hf; [lia|]. cbn [wait_http_loop].
  pose proof (http_ok_clock url w) as Hclock. destruct (http_ok url w) as [w1 r]. cbn [fst] in Hclock.
  assert (is_Some (if timeout_secs <=? (now w1 - start) / 1000 then Some (w1, false)
                   else wait_http_loop fuel url start timeout_secs (sleep 5000 w1))) as Hrest.
  { destruct (Z.leb_spec timeout_secs ((now w1 - start) / 1000)) as [|Hlt]; [by eexists|].
    pose proof (sleep_advances 5000 w1 ltac:(lia)).
    assert (now w1 - start < timeout_secs * 1000) as Hlt'.
    { apply Z.nle_gt. intros Hle. apply (Zdiv_le_lower_bound _ 1000) in Hle; lia. }
    apply IH; lia. }
  destruct r as [[|]|]; [by eexists|done|done].
Qed.
Lemma wait_http_answers url timeout_secs w : 0 <= timeout_secs -> exists w' b, wait_http url timeout_secs w = (w', Ok b).
Proof.
  intros Ht. unfold wait_http.
  destruct (wait_http_ends (Z.to_nat (timeout_secs / 5 + 2)) url (now w) timeout_secs w) as [[w' b] Hl].
  - pose proof (Z.div_mod timeout_secs 5 ltac:(lia)). pose proof (Z.mod_pos_bound timeout_secs 5 ltac:(lia)).
    pose proof (Z.div_pos timeout_secs 5 ltac:(lia) ltac:(lia)). lia.
  - pose proof (Z.div_pos timeout_secs 5 ltac:(lia) ltac:(lia)). lia.
  - rewrite Hl. by eexists _, _.
Qed.

(** A command keeps the file. *)
Definition keeps {A} (f : bytes) (m : IO W A) : Prop := forall w, read_file f (m w).1 = read_file f w.

Lemma keeps_ret {A} f (a : A) : keeps f (mret a).
Proof. done. Qed.
Lemma keeps_bail {A} f e : keeps f (bail (A:=A) e).
Proof. done. Qed.
Lemma keeps_lift {A} f (r : result bytes A) : keeps f (lift_io r).
Proof. done. Qed.
Lemma keeps_bind {A B} f (m : IO W A) (k : A -> IO W B) : keeps f m -> (forall a, keeps f (k a)) -> keeps f (m ≫= k).
Proof.
  intros Hm Hk w. unfold mbind, IO_bind. specialize (Hm w). destruct (m w) as [w' [a|e]]; [|done].
  cbn [fst] in Hm. by rewrite Hk.
Qed.
Lemma keeps_effect {A} f (g : W -> W * A) : (forall w, read_file f (g w).1 = read_file f w) -> keeps f (effect g).
Proof. intros Hg w. unfold effect. specialize (Hg w). by destruct (g w). Qed.
Lemma keeps_attempt {A} f (m : IO W A) : keeps f m -> keeps f (attempt m).
Proof. intros Hm w. unfold attempt. specialize (Hm w). by destruct (m w). Qed.
Lemma keeps_if {A} f (b : bool) (m k : IO W A) : keeps f m -> keeps f k -> keeps f (if b then m else k).
Proof. by destruct b. Qed.
Lemma keeps_decide {A} f P `{Decision P} (m k : IO W A) : keeps f m -> keeps f k -> keeps f (if decide P then m else k).
Proof. by case_decide. Qed.
Lemma keeps_write_other f g t : g <> f -> keeps f (write_text g t).
Proof.
  intros Hne. apply keeps_bind; [|intros [|]; [apply keeps_ret|apply keeps_bail]].
  apply keeps_effect. intros w. by apply write_frame.
Qed.
Lemma keeps_http f r : keeps f (effect (http r)).
Proof. apply keeps_effect. intros w. apply http_files. Qed.
Lemma keeps_pause f ms : keeps f (pause ms).
Proof. intros w. cbn. apply sleep_files. Qed.
Lemma keeps_spawn f c : own_file f -> keeps f (effect (spawn c)).
Proof. intros Hf. apply keeps_effect. intros w. apply Hf. Qed.

End Laws.

Create HintDb frame.
#[export] Hint Resolve keeps_ret keeps_bail keeps_lift keeps_attempt keeps_if keeps_decide keeps_write_other keeps_http
  keeps_pause keeps_spawn : frame.
(** Splits a command into its effects. *)
Ltac frame :=
  repeat first
    [ progress intros
    | match goal with |- keeps _ (_ ≫= _) => apply keeps_bind end
    | match goal with |- keeps _ (if ?b then _ else _) => destruct b end
    | match goal with |- keeps _ (match ?o with _ => _ end) => destruct o end
    | solve [eauto with frame] ].

Section Frames.
Context `{WorldLaws W}.
Context (f : bytes) (Hown : own_file f).

Lemma keeps_command c : keeps f (command c).
Proof. unfold command, output. frame. Qed.
Lemma keeps_capture c : keeps f (capture c).
Proof. unfold capture, output. frame. Qed.
Lemma keeps_capture_quiet c : keeps f (capture_quiet c).
Proof. unfold capture_quiet, output. frame. Qed.
Lemma keeps_capture_all c : keeps f (capture_all c).
Proof. unfold capture_all, output. frame. Qed.
Lemma keeps_has c : keeps f (has c).
Proof. unfold has. frame. Qed.
Lemma keeps_http_ok url : keeps f (http_ok url).
Proof. unfold http_ok. frame. Qed.
Lemma keeps_tcp_ok a : keeps f (tcp_ok a).
Proof. apply keeps_effect. intros w. apply connect_files. Qed.
Lemma keeps_exec root path args : keeps f (exec root path args).
Proof. unfold exec, compose. apply keeps_bind; [apply keeps_command|intros _; apply keeps_capture_all]. Qed.
End Frames.
#[export] Hint Resolve keeps_command keeps_capture keeps_capture_quiet keeps_capture_all keeps_has keeps_http_ok
  keeps_tcp_ok keeps_exec : frame.

Section FileCommands.
Context `{WorldLaws W}.

Lemma write_text_Ok path text w w' : write_text path text w = (w', Ok tt) -> read_file path w' = Some text.
Proof.
  unfold write_text. intros (w1 & [|] & Hw & Hr)%IO_bind_Ok; [|done]. injection Hr as ->.
  unfold effect in Hw. destruct (write_file path text w) as [w2 [|]] eqn:Hf; [|done]. injection Hw as ->.
  by apply write_reads in Hf.
Qed.

(** After the variables are written, the file assigns them. *)
Lemma upsert_file_Ok path us w w' :
  cr ∉ default [] (read_file path w) -> NoDup us.*1 -> Forall plain_update us ->
  upsert_file path us w = (w', Ok tt) ->
  exists text, read_file path w' = Some text /\
    forall k v, (k, v) ∈ us -> v <> [] -> List.find (assigns k) (lines text) = Some (assignment k v).
Proof.
  intros Hc%lines_plain Hnd Hus Hw%write_text_Ok. eexists. split; [exact Hw|]. intros k v Hin Hne.
  by apply env_upsert_sets.
Qed.
End FileCommands.

Section Inversion.
Context `{WorldLaws W}.

(** One step of a command that keeps the file: it fails and the file is as before, or the rest runs. *)
Lemma keeps_bind_inv {A B} f (m : IO W A) (k : A -> IO W B) w w' r :
  keeps f m -> (m ≫= k) w = (w', r) ->
  (exists e, r = Err e /\ read_file f w' = read_file f w) \/
  (exists w1 a, m w = (w1, Ok a) /\ read_file f w1 = read_file f w /\ k a w1 = (w', r)).
Proof.
  intros Hk. specialize (Hk w). intros [(w1 & a & Hm & Hr)|(e & Hm & ->)]%IO_bind_inv; rewrite Hm in Hk.
  - right. by exists w1, a.
  - left. by exists e.
Qed.

(** A step of a command that succeeds and keeps the file. *)
Lemma keeps_bind_Ok {A B} f (m : IO W A) (k : A -> IO W B) w w' b :
  keeps f m -> (m ≫= k) w = (w', Ok b) ->
  exists w1 a, m w = (w1, Ok a) /\ read_file f w1 = read_file f w /\ k a w1 = (w', Ok b).
Proof. intros Hk [(e & ? & _)|?]%(keeps_bind_inv f); done. Qed.

Definition writing_failed (path : bytes) : bytes := bstr "writing " ++ path.

Lemma patch_file_inv path checksum w w' r :
  patch_file path checksum w = (w', r) ->
  match r with
  | Ok changed =>
      exists text text', read_file path w = Some text /\
        patch_wasm_checksum text checksum = Some (text', changed) /\ read_file path w' = Some text'
  | Err e => e = writing_failed path \/ w' = w
  end.
Proof.
  unfold patch_file. destruct (read_file path w) as [text|] eqn:Ht; [|intros [= <- <-]; by right].
  destruct (patch_wasm_checksum text checksum) as [[out changed]|] eqn:Hp; [|intros [= <- <-]; by right].
  destruct changed.
  - intros [(w1 & [] & Hw & Hr)|(e & Hw & ->)]%IO_bind_inv.
    + injection Hr as <- <-. apply write_text_Ok in Hw. by exists text, out.
    + unfold write_text in Hw. apply IO_bind_inv in Hw as [(w1 & [|] & _ & Hr)|(e' & Hw & _)]; [done| |].
      * injection Hr as _ <-. by left.
      * unfold effect in Hw. by destruct (write_file _ _ _).
  - intros [= <- <-]. exists text, out. split_and!; [done|done|].
    unfold patch_wasm_checksum in Hp. destruct (negb _); [done|]. case_decide; [|done].
    by injection Hp as <-.
Qed.
End Inversion.

(** The rest of a command after one step that keeps the file. *)
Ltac step_keeping f H w1 a Hm Hf :=
  match type of H with
  | (?m ≫= ?k) ?w = (?w', ?r) =>
      let K := fresh in
      assert (keeps f m) as K by (eauto with frame);
      apply (keeps_bind_inv f m k w w' r K) in H as [(?e & ? & ?)|(w1 & a & Hm & Hf & H)]; clear K;
      [subst; left; congruence|]
  end.
Ltac step_kept f H w1 a Hm Hf :=
  match type of H with
  | (?m ≫= ?k) ?w = (?w', Ok ?b) =>
      apply (keeps_bind_Ok f m k w w' b) in H as (w1 & a & Hm & Hf & H); [|frame]
  end.
