(* ===== verification/CosmosSigner.v ===== *)
(** * Cosmos transactions ([interstellar/src/services/cosmos/tx.rs])

    [CosmosSigner] signs transactions and sends them to the REST interface of a Cosmos node: funding an
    account, proposing a store-code message and voting for it.  Keys, signatures, the protobuf encodings and
    Base64 come from the libraries the file uses and are the class [CosmosTx]. *)

From Stdlib Require Import ZArith Lia Strings.Byte Strings.String.
From stdpp Require Import base option list gmap numbers.
From S2P Require Import Prelude Bytes Text Json ConfigText Cli Configuration.
Open Scope Z_scope.

Record Coin : Type := MkCoin { coin_denom : bytes; coin_amount : bytes }.
Record AnyMsg : Type := MkAnyMsg { type_url : bytes; any_value : bytes }.
Record MsgSend : Type := MkMsgSend { from_address : bytes; to_address : bytes; send_amount : list Coin }.
Record MsgStoreCode : Type := MkMsgStoreCode { store_signer : bytes; wasm_byte_code : bytes }.
Record MsgSubmitProposal : Type := MkMsgSubmitProposal {
  messages : list AnyMsg; initial_deposit : list Coin; proposer : bytes; prop_metadata : bytes;
  title : bytes; summary : bytes; expedited : bool;
}.
Record MsgVote : Type := MkMsgVote { proposal_id : Z; voter : bytes; vote_option : Z; vote_metadata : bytes }.

(** [Body::new], [Fee::from_amount_and_gas] and [SignDoc::new]: what a transaction commits to. *)
Record TxDoc : Type := MkTxDoc {
  doc_messages : list AnyMsg; doc_memo : bytes; doc_timeout_height : Z; doc_fee_denom : bytes;
  doc_fee_amount : Z; doc_gas_limit : Z; doc_sequence : Z; doc_chain_id : bytes; doc_account_number : Z;
}.

Class CosmosTx := {
  SigningKey : Type;
  key_from_slice : bytes -> option SigningKey;
  (** [key.public_key().account_id(prefix)]. *)
  account_id : bytes -> SigningKey -> option bytes;
  denom_ok : bytes -> bool;
  chain_id_ok : bytes -> bool;
  (** The bytes of the signed transaction. *)
  sign_doc : TxDoc -> SigningKey -> option bytes;
  encode_send : MsgSend -> bytes;
  encode_store_code : MsgStoreCode -> bytes;
  encode_submit : MsgSubmitProposal -> bytes;
  encode_vote : MsgVote -> bytes;
  base64 : bytes -> bytes;
}.

Section Signer.
Context `{CosmosTx} `{World W}.

Record Account : Type := MkAccount { key : SigningKey; address : bytes }.
Record AccountInfo : Type := MkAccountInfo { account_number : Z; sequence : Z }.
Record BroadcastResult : Type := MkBroadcastResult { tx_hash : bytes; code : Z; raw_log : bytes }.
Record Signer : Type := MkSigner {
  signer_rest_url : bytes; signer_chain_id : bytes; signer_gas_denom : bytes;
  relayer_account : option Account; validator_account : option Account;
}.

Definition err {A} (text : string) : result bytes A := Err (bstr text).
Definition need {A} (text : string) (o : option A) : result bytes A := ok_or (bstr text) o.

Definition load_key (hex_str prefix : bytes) : result bytes (option Account) :=
  let trimmed := trim hex_str in
  if decide (trimmed = []) then Ok None
  else
    b ← need "not valid hex" (Hex.decode trimmed);
    k ← need "invalid secp256k1 key" (key_from_slice b);
    a ← need "derive account id" (account_id prefix k);
    Ok (Some (MkAccount k a)).

Definition from_config (cfg : CosmosConfig) : result bytes Signer :=
  relayer ← load_key (relayer_key_hex cfg) (account_prefix cfg);
  validator ← load_key (validator_key_hex cfg) (account_prefix cfg);
  Ok (MkSigner (rest_url cfg) (chain_id_str (cosmos_chain cfg)) (gas_denom cfg) relayer validator).

Variable self : Signer.

Definition relayer : result bytes Account :=
  need "COSMOS_RELAYER_PRIVATE_KEY not configured" (relayer_account self).
Definition relayer_address : result bytes bytes := a ← relayer; Ok (address a).
Definition validator : result bytes Account :=
  need "COSMOS_VALIDATOR_PRIVATE_KEY not configured" (validator_account self).

Definition rest (path : bytes) : bytes :=
  trim_end_by (fun b => bool_decide (b = slash)) (signer_rest_url self) ++ path.

(** ** Queries *)

(** [error_for_status]: client and server errors only. *)
Definition error_status (code : Z) : bool := (400 <=? code) && (code <? 600).
Definition read_json (r : Reply) : result bytes Value :=
  if error_status (reply_status r) then err "HTTP status error" else need "body is not JSON" (reply_json r).
(** [.get(&url).send().await?]. *)
Definition send_get (path : bytes) : IO W Reply :=
  r ← effect (http (MkRequest GET (rest path) JNull));
  lift_io (need "request failed" r).
Definition fetch (path : bytes) : IO W Value :=
  r ← send_get path;
  lift_io (read_json r).

Definition node_info_ok : IO W bool := http_ok (rest (bstr "/cosmos/base/tendermint/v1beta1/node_info")).

Definition checksums : IO W (list bytes) :=
  body ← fetch (bstr "/ibc/lightclients/wasm/v1/checksums");
  mret (omap as_str (default [] (c ← get body "checksums"; as_array c))).

Definition accounts_path (addr : bytes) : bytes := bstr "/cosmos/auth/v1beta1/accounts/" ++ addr.
Definition account_exists (addr : bytes) : IO W bool :=
  r ← send_get (accounts_path addr);
  if reply_status r =? 404 then mret false
  else if error_status (reply_status r) then lift_io (err "HTTP status error") else mret true.

Definition u64_text (v : option Value) : option Z := v ← v; s ← as_str v; Decimal.parse_unsigned (2 ^ 64 - 1) s.
Definition account_info (addr : bytes) : IO W AccountInfo :=
  body ← fetch (accounts_path addr);
  lift_io (account ← need "response missing 'account'" (get body "account");
           number ← need "account_number missing" (u64_text (get account "account_number"));
           Ok (MkAccountInfo number (default 0 (u64_text (get account "sequence"))))).

Definition or_else {A} (o o' : option A) : option A := match o with Some _ => o | None => o' end.
Definition gov_module_address : IO W bytes :=
  body ← fetch (bstr "/cosmos/auth/v1beta1/module_accounts/gov");
  lift_io (need "gov module address not found in response"
    (v ← or_else (pointer body ["account"; "value"; "address"]%string)
           (or_else (pointer body ["account"; "base_account"; "address"]%string)
                    (pointer body ["account"; "address"]%string));
     as_str v)).

Definition tx_by_hash (hash : bytes) : IO W Value :=
  r ← send_get (bstr "/cosmos/tx/v1beta1/txs/" ++ hash);
  if reply_status r =? 404 then bail (bstr "tx not found") else lift_io (read_json r).

(** The delay doubles up to two seconds; nothing when the fuel runs out. *)
Fixpoint wait_loop (fuel : nat) (hash : bytes) (deadline delay : Z) (w : W) : option (W * result bytes Value) :=
  match fuel with
  | O => None
  | S fuel =>
      match tx_by_hash hash w with
      | (w, Ok v) => Some (w, Ok v)
      | (w, Err e) =>
          if now w <? deadline then
            wait_loop fuel hash deadline (if delay <? 2000 then delay * 2 else delay) (sleep delay w)
          else Some (w, Err e)
      end
  end.
Definition wait_fuel (timeout : Z) : nat := Z.to_nat (timeout / 2000 + 4).
Definition wait_for_tx (hash : bytes) (timeout : Z) : IO W Value := fun w =>
  match wait_loop (wait_fuel timeout) hash (now w + timeout) 500 w with
  | Some r => r
  | None => (w, err "still waiting")
  end.

(** ** Transactions *)

(** [n as u32]. *)
Definition truncate_u32 (n : Z) : Z := n mod 2 ^ 32.

Definition broadcast_tx_bytes (tx_bytes : bytes) : IO W BroadcastResult :=
  let body := jobject [("tx_bytes", JString (base64 tx_bytes)); ("mode", jtext "BROADCAST_MODE_SYNC")]%string in
  r ← effect (http (MkRequest POST (rest (bstr "/cosmos/tx/v1beta1/txs")) body));
  lift_io (
    r ← need "request failed" r;
    if negb (is_success (reply_status r)) then err "broadcast failed"
    else
      value ← need "non-json broadcast response" (reply_json r);
      resp ← need "missing tx_response" (get value "tx_response");
      Ok (MkBroadcastResult (string_field resp "txhash") (truncate_u32 (default 0 (v ← get resp "code"; as_u64 v)))
            (string_field resp "raw_log"))).

Definition sign_and_broadcast (account : Account) (msg : AnyMsg) (memo : bytes) (gas_limit fee_amount : Z) :
    IO W BroadcastResult :=
  info ← account_info (address account);
  tx ← lift_io (
    if negb (denom_ok (signer_gas_denom self)) then err "invalid gas denom"
    else if negb (chain_id_ok (signer_chain_id self)) then err "invalid chain id"
    else need "sign tx" (sign_doc
           (MkTxDoc [msg] memo 0 (signer_gas_denom self) fee_amount gas_limit (sequence info) (signer_chain_id self)
              (account_number info)) (key account)));
  broadcast_tx_bytes tx.

Definition send_message (from to amount : bytes) : AnyMsg :=
  MkAnyMsg (bstr "/cosmos.bank.v1beta1.MsgSend")
    (encode_send (MkMsgSend from to [MkCoin (signer_gas_denom self) amount])).
Definition fund_account (to : bytes) (amount gas_limit fee_amount : Z) (skip_if_exists : bool) : IO W bool :=
  known ← (if skip_if_exists then account_exists to else mret false);
  if (known : bool) then mret false
  else
    v ← lift_io validator;
    result ← sign_and_broadcast v (send_message (address v) to (dec 39 amount)) (bstr "bank-send") gas_limit fee_amount;
    if code result =? 0 then mret true else bail (bstr "bank send rejected").

(** The loops over events and attributes; the [?]s end the search. *)
Fixpoint proposal_attribute (attrs : list Value) : option Z :=
  match attrs with
  | [] => None
  | attr :: attrs =>
      if decide ((v ← get attr "key"; as_str v) = Some (bstr "proposal_id")) then
        or_else (u64_text (get attr "value")) (proposal_attribute attrs)
      else proposal_attribute attrs
  end.
Fixpoint proposal_event (events : list Value) : option Z :=
  match events with
  | [] => None
  | event :: events =>
      if decide ((v ← get event "type"; as_str v) = Some (bstr "submit_proposal")) then
        attrs ← get event "attributes"; attrs ← as_array attrs;
        or_else (proposal_attribute attrs) (proposal_event events)
      else proposal_event events
  end.
Definition extract_proposal_id (landed : Value) : option Z :=
  events ← or_else (pointer landed ["tx_response"; "events"]%string) (get landed "events");
  events ← as_array events;
  proposal_event events.

Definition store_code_message (gov wasm_bytes : bytes) : AnyMsg :=
  MkAnyMsg (bstr "/ibc.lightclients.wasm.v1.MsgStoreCode") (encode_store_code (MkMsgStoreCode gov wasm_bytes)).
Definition submit_message (gov wasm_bytes from title summary : bytes) (deposit : Z) : AnyMsg :=
  MkAnyMsg (bstr "/cosmos.gov.v1.MsgSubmitProposal")
    (encode_submit (MkMsgSubmitProposal [store_code_message gov wasm_bytes]
       [MkCoin (signer_gas_denom self) (dec 39 deposit)] from [] title summary false)).
Definition submit_store_code (wasm_bytes title summary : bytes) (deposit gas_limit fee_amount wait_timeout : Z) :
    IO W Z :=
  gov ← gov_module_address;
  r ← lift_io relayer;
  result ← sign_and_broadcast r (submit_message gov wasm_bytes (address r) title summary deposit)
             (bstr "upload-lc-wasm") gas_limit fee_amount;
  if negb (code result =? 0) then bail (bstr "store-code broadcast rejected")
  else
    landed ← wait_for_tx (tx_hash result) wait_timeout;
    let landed_code := default 0 (v ← pointer landed ["tx_response"; "code"]%string; as_u64 v) in
    if negb (landed_code =? 0) then bail (bstr "store-code tx failed on-chain")
    else lift_io (need "proposal_id not found in landed tx events" (extract_proposal_id landed)).

Definition vote_message (id : Z) (from : bytes) (option : Z) : AnyMsg :=
  MkAnyMsg (bstr "/cosmos.gov.v1.MsgVote") (encode_vote (MkMsgVote id from option [])).
Definition vote (id option gas_limit fee_amount : Z) : IO W unit :=
  v ← lift_io (match validator with Ok v => Ok v | Err _ => relayer end);
  result ← sign_and_broadcast v (vote_message id (address v) option) (bstr "upload-lc-wasm-vote") gas_limit fee_amount;
  if code result =? 0 then mret tt else bail (bstr "vote rejected").

End Signer.

(** ** Waiting for a transaction *)

Section Waiting.
Context `{CosmosTx} `{WorldLaws W}.
Variable self : Signer.

Lemma send_get_clock path w : now w <= now (send_get self path w).1.
Proof.
  unfold send_get, effect, lift_io, mbind, IO_bind. pose proof (clock_http (MkRequest GET (rest self path) JNull) w).
  by destruct (http _ w).
Qed.
Lemma tx_by_hash_clock hash w : now w <= now (tx_by_hash self hash w).1.
Proof.
  unfold tx_by_hash, mbind, IO_bind. pose proof (send_get_clock (bstr "/cosmos/tx/v1beta1/txs/" ++ hash) w) as Hc.
  destruct (send_get self _ w) as [w' [r|e]]; [|done]. by destruct (reply_status r =? 404).
Qed.

(** How much the first short delays fall behind two seconds each. *)
Definition slack (delay : Z) : Z := if delay =? 500 then 2500 else if delay =? 1000 then 1000 else 0.

Lemma wait_loop_ends fuel hash deadline delay w :
  delay = 500 \/ delay = 1000 \/ delay = 2000 ->
  deadline - now w + slack delay <= 2000 * (Z.of_nat fuel - 1) -> (0 < fuel)%nat ->
  is_Some (wait_loop self fuel hash deadline delay w).
Proof.
  revert delay w. induction fuel as [|fuel IH]; intros delay w Hd Hw Hf; [lia|]. cbn [wait_loop].
  pose proof (tx_by_hash_clock hash w) as Hclock. destruct (tx_by_hash self hash w) as [w1 [v|e]]; [by eexists|].
  cbn [fst] in Hclock. destruct (Z.ltb_spec (now w1) deadline) as [Hlt|]; [|by eexists].
  pose proof (sleep_advances delay w1 ltac:(lia)) as Hs.
  assert (0 <= slack delay) as Hpos by (destruct Hd as [->|[-> | ->]]; cbn; lia).
  set (delay' := if delay <? 2000 then delay * 2 else delay).
  assert (slack delay' = slack delay + delay - 2000 /\ (delay' = 500 \/ delay' = 1000 \/ delay' = 2000)) as [Hsl Hd']
    by (subst delay'; destruct Hd as [->|[-> | ->]]; vm_compute; auto).
  apply IH; lia.
Qed.

Lemma wait_loop_result fuel hash deadline delay w w' r :
  wait_loop self fuel hash deadline delay w = Some (w', r) ->
  match r with
  | Ok v => exists w1, tx_by_hash self hash w1 = (w', Ok v)
  | Err _ => deadline <= now w'
  end.
Proof.
  revert delay w. induction fuel as [|fuel IH]; intros delay w; [done|]. cbn [wait_loop].
  destruct (tx_by_hash self hash w) as [w1 [v|e]] eqn:Ht; [intros [= <- <-]; eauto|].
  destruct (Z.ltb_spec (now w1) deadline); [apply IH|]. by intros [= <- <-].
Qed.

(** The wait for a transaction always ends, with the transaction a query has found, or after the timeout. *)
Lemma wait_for_tx_result hash timeout w :
  0 <= timeout ->
  match wait_for_tx self hash timeout w with
  | (w', Ok v) => exists w1, tx_by_hash self hash w1 = (w', Ok v)
  | (w', Err _) => now w + timeout <= now w'
  end.
Proof.
  intros Ht. unfold wait_for_tx.
  destruct (wait_loop_ends (wait_fuel timeout) hash (now w + timeout) 500 w) as [[w' r] Hl]; [by left| | |].
  - unfold wait_fuel. cbn [slack Z.eqb]. pose proof (Z.div_mod timeout 2000 ltac:(lia)).
    pose proof (Z.mod_pos_bound timeout 2000 ltac:(lia)). pose proof (Z.div_pos timeout 2000 ltac:(lia) ltac:(lia)).
    change (slack 500) with 2500. lia.
  - unfold wait_fuel. pose proof (Z.div_pos timeout 2000 ltac:(lia) ltac:(lia)). lia.
  - rewrite Hl. apply wait_loop_result in Hl. by destruct r.
Qed.

(** ** Nothing here writes files *)

Context (f : bytes).
Lemma keeps_send_get path : keeps f (send_get self path).
Proof. unfold send_get. frame. Qed.
Hint Resolve keeps_send_get : frame.
Lemma keeps_fetch path : keeps f (fetch self path).
Proof. unfold fetch. frame. Qed.
Hint Resolve keeps_fetch : frame.
Lemma keeps_tx_by_hash hash : keeps f (tx_by_hash self hash).
Proof. unfold tx_by_hash. frame. Qed.
Lemma keeps_wait_for_tx hash timeout : keeps f (wait_for_tx self hash timeout).
Proof.
  intros w. unfold wait_for_tx. destruct (wait_loop _ _ _ _ _ _) as [[w' r]|] eqn:Hl; [|done]. cbn [fst]. revert Hl.
  generalize 500 (now w + timeout). intros delay deadline. generalize (wait_fuel timeout). intros fuel.
  revert delay w. induction fuel as [|fuel IH]; intros delay w; [done|]. cbn [wait_loop].
  pose proof (keeps_tx_by_hash hash w) as Hk. destruct (tx_by_hash self hash w) as [w1 [v|e]]; cbn [fst] in Hk.
  - intros [= <- <-]. done.
  - destruct (now w1 <? deadline); [|intros [= <- <-]; done]. intros Hl%IH. by rewrite Hl, sleep_files.
Qed.
Lemma keeps_sign_and_broadcast a m memo g fee : keeps f (sign_and_broadcast self a m memo g fee).
Proof. unfold sign_and_broadcast, account_info, broadcast_tx_bytes. frame. Qed.
Hint Resolve keeps_sign_and_broadcast keeps_wait_for_tx : frame.
Lemma keeps_fund_account to a g fee b : keeps f (fund_account self to a g fee b).
Proof. unfold fund_account, account_exists. frame. Qed.
Lemma keeps_submit_store_code b t s d g fee wt : keeps f (submit_store_code self b t s d g fee wt).
Proof. unfold submit_store_code, gov_module_address. frame. Qed.
Lemma keeps_vote i o g fee : keeps f (vote self i o g fee).
Proof. unfold vote. frame. Qed.
Lemma keeps_checksums : keeps f (checksums self).
Proof. unfold checksums. frame. Qed.
End Waiting.
#[export] Hint Resolve keeps_fund_account keeps_submit_store_code keeps_vote keeps_checksums : frame.
