(* ===== verification/WasmUpload.v ===== *)
(** * Uploading the light client ([interstellar/src/tx/contracts/wasm.rs])

    The light client is built, proposed to the chain, voted for, looked up among the checksums the chain
    knows, and only then written into the relayer's configuration. *)

From Stdlib Require Import ZArith Lia Strings.Byte Strings.String.
From stdpp Require Import base option list gmap numbers.
From S2P Require Import Prelude Bytes Text Crypto Json ConfigText Cli Configuration CosmosSigner.
Open Scope Z_scope.

Definition CRATE : string := "light-client-wasm".
Definition DEPOSIT_AMOUNT : Z := 10000000.
Definition STORE_GAS_LIMIT : Z := 60000000.
Definition STORE_FEE_AMOUNT : Z := 1800000.
Definition VOTE_OPTION : Z := 1.
Definition VOTE_GAS_LIMIT : Z := 200000.
Definition VOTE_FEE_AMOUNT : Z := 10000.
Definition TX_WAIT_TIMEOUT_SECS : Z := 60.
Definition VOTING_PERIOD_SECS : Z := 25.
Definition VERIFY_RETRIES : nat := 15.
Definition VERIFY_INTERVAL_SECS : Z := 2.
Definition FUND_AMOUNT : Z := 100000000.
Definition FUND_GAS_LIMIT : Z := 200000.
Definition FUND_FEE_AMOUNT : Z := 10000.

(** [a.eq_ignore_ascii_case(b)]. *)
Definition lower (b : byte) : byte := if is_upper b then byte_of_Z (Z_of_byte b + 32) else b.
Definition eq_ignore_ascii_case (a b : bytes) : bool := bool_decide (lower <$> a = lower <$> b).

Section Upload.
Context `{Sha256} `{CosmosTx} `{World W}.
(** [serde_json::to_string_pretty]. *)
Variable to_string_pretty : Value -> bytes.
Variable env : Env.
Variable root : bytes.

Definition wasm_file : bytes :=
  path_join root (bstr "target/wasm32-unknown-unknown/release/light_client_wasm.wasm").
(** The file is read where the source asks whether it exists, and after the optimiser rewrote it. *)
Definition build_wasm : IO W (bytes * bytes) :=
  _ ← command (MkCommand (bstr "cargo")
         (bstr <$> ["build"; "--target"; "wasm32-unknown-unknown"; "-p"; CRATE; "--release"]%string) root []);
  present ← effect (fun w => (w, read_file wasm_file w));
  match present with
  | None => bail (bstr "expected wasm artifact not found")
  | Some _ =>
      opt ← has (bstr "wasm-opt");
      _ ← (if (opt : bool) then
             command (MkCommand (bstr "wasm-opt")
               ((bstr <$> ["--enable-bulk-memory"; "--llvm-memory-copy-fill-lowering"; "-O1"; "--strip-debug"]%string)
                ++ [wasm_file; bstr "-o"; wasm_file]) root [])
           else mret tt);
      content ← effect (fun w => (w, read_file wasm_file w));
      match content with
      | None => bail (bstr "reading the wasm artifact")
      | Some b => mret (b, Hex.encode (sha256 b))
      end
  end.

(** [for attempt in 1..=VERIFY_RETRIES]. *)
Fixpoint checksum_attempts (n : nat) (signer : Signer) (local_sha : bytes) : IO W bool :=
  match n with
  | O => mret false
  | S n =>
      found ← attempt (checksums signer);
      if match found with Ok cs => existsb (fun c => eq_ignore_ascii_case c local_sha) cs | Err _ => false end
      then mret true
      else
        _ ← pause (VERIFY_INTERVAL_SECS * 1000);
        checksum_attempts n signer local_sha
  end.
Definition checksum_registered (signer : Signer) (local_sha : bytes) : IO W bool :=
  checksum_attempts VERIFY_RETRIES signer local_sha.

(** ** The testnet proposal *)

Definition ensure_gaiad_key (name mnemonic keyring : bytes) : IO W unit :=
  shown ← attempt (capture_quiet (gaiad_in root
            [bstr "keys"; bstr "show"; name; bstr "-a"; bstr "--keyring-backend"; keyring]));
  if is_ok shown then mret tt
  else piped (MkCommand (bstr "gaiad")
         [bstr "keys"; bstr "add"; name; bstr "--recover"; bstr "--keyring-backend"; keyring] root (mnemonic ++ [nl])).

Definition resolve_testnet_key (from : option bytes) (cfg : CosmosConfig) (keyring : bytes) : IO W (option bytes) :=
  match from with
  | Some key =>
      gaiad ← has (bstr "gaiad");
      if (gaiad : bool) then mret (Some key) else bail (bstr "gaiad not found in PATH")
  | None =>
      let specific := get_key env "COSMOS_TESTNET_MNEMONIC" "" in
      let mnemonic := if decide (trim specific = []) then relayer_mnemonic cfg else specific in
      if decide (trim mnemonic = []) then mret None
      else
        gaiad ← has (bstr "gaiad");
        if (gaiad : bool) then
          let key_name := get_key env "COSMOS_TESTNET_KEY_NAME" "interstellar-cosmos" in
          _ ← ensure_gaiad_key key_name (trim mnemonic) keyring;
          mret (Some key_name)
        else bail (bstr "gaiad not found in PATH")
  end.

Definition proposal_json (authority wasm_b64 : bytes) : Value :=
  jobject [("messages", JArray [jobject [("@type", jtext "/ibc.lightclients.wasm.v1.MsgStoreCode");
                                         ("signer", JString authority); ("wasm_byte_code", JString wasm_b64)]]);
           ("title", jtext "Store Stellar 08-wasm light client");
           ("summary", jtext "Registers the Stellar light client wasm for the 08-wasm client type");
           ("deposit", jtext "10000000uatom")]%string.

Definition prepare_testnet_proposal (from : option bytes) : IO W unit :=
  let cfg := testnet env in
  built ← build_wasm;
  let authority := get_key env "COSMOS_TESTNET_GOV_AUTHORITY" "cosmos10d07y265gmmuvt4z0w9aw880jnsr700j6zn9kn" in
  let path := path_join root (bstr "provider-store-code-proposal.json") in
  _ ← write_text path (to_string_pretty (proposal_json authority (base64 built.1)));
  let keyring := get_key env "COSMOS_TESTNET_KEYRING_BACKEND" "test" in
  key ← resolve_testnet_key from cfg keyring;
  match key with
  | Some key =>
      command (gaiad_in root
        ([bstr "tx"; bstr "gov"; bstr "submit-proposal"; path; bstr "--from"; key; bstr "--keyring-backend"; keyring;
          bstr "--node"; cosmos_rpc_url cfg; bstr "--chain-id"; chain_id_str (cosmos_chain cfg)]
         ++ (bstr <$> ["--gas"; "auto"; "--gas-adjustment"; "1.5"; "--gas-prices"; "0.025uatom"; "-y"]%string)))
  | None => mret tt
  end.

(** ** The local chain *)

Definition TITLE : bytes := bstr "upload-light-client-wasm: " ++ bstr CRATE.
Definition SUMMARY : bytes := bstr "Registers light_client_wasm.wasm for the 08-wasm client type".

Definition upload (hermes_config : bytes) (to_testnet : bool) (from : option bytes) : IO W unit :=
  if to_testnet then prepare_testnet_proposal from
  else
    built ← build_wasm;
    let local_sha := built.2 in
    signer ← lift_io (from_config (devnet env));
    reachable ← node_info_ok signer;
    if negb reachable then mret tt
    else
      addr ← lift_io (relayer_address signer);
      _ ← fund_account signer addr FUND_AMOUNT FUND_GAS_LIMIT FUND_FEE_AMOUNT true;
      id ← submit_store_code signer built.1 TITLE SUMMARY DEPOSIT_AMOUNT STORE_GAS_LIMIT STORE_FEE_AMOUNT
             (TX_WAIT_TIMEOUT_SECS * 1000);
      _ ← vote signer id VOTE_OPTION VOTE_GAS_LIMIT VOTE_FEE_AMOUNT;
      _ ← pause (VOTING_PERIOD_SECS * 1000);
      registered ← checksum_registered signer local_sha;
      if negb registered then bail (bstr "the checksum did not appear on chain")
      else
        _ ← patch_file hermes_config local_sha;
        mret tt.

End Upload.

(** ** What an upload leaves behind *)

Lemma hex_char n : 0 <= n < 16 -> is_whitespace (Hex.char_of n) = false /\ is_quote (Hex.char_of n) = false.
Proof.
  intros Hn.
  assert (forallb (fun n => negb (is_whitespace (Hex.char_of n)) && negb (is_quote (Hex.char_of n))) (seqZ 0 16) = true)
    as Hall by (vm_compute; reflexivity).
  rewrite forallb_forall in Hall. specialize (Hall n (proj1 (list_elem_of_In _ _) (proj2 (elem_of_seqZ 0 16 n) Hn))).
  apply andb_true_iff in Hall as [Hw Hq]. by rewrite !negb_true_iff in Hw, Hq.
Qed.
Lemma hex_chars bs : Forall (fun b => is_whitespace b = false /\ is_quote b = false) (Hex.encode bs).
Proof.
  induction bs as [|b bs IH]; cbn [Hex.encode]; [constructor|]. pose proof (Z_of_byte_range b).
  constructor; [|constructor; [|done]]; apply hex_char; [|apply Z.mod_pos_bound; lia].
  split; [apply Z.div_pos; lia|apply Z.div_lt_upper_bound; lia].
Qed.
Lemma hex_plain bs : nl ∉ Hex.encode bs.
Proof. apply whitespace_plain. eapply list.Forall_impl; [apply hex_chars|]. by intros b [Hb _]. Qed.
Lemma hex_visible bs : bs <> [] -> exists b, b ∈ Hex.encode bs /\ is_whitespace b = false /\ is_quote b = false.
Proof.
  intros Hne. pose proof (hex_chars bs) as Hc. destruct bs as [|b bs]; [done|]. cbn [Hex.encode] in *.
  apply list.Forall_cons in Hc as [Hb _]. eexists. split; [left|done].
Qed.

Section Uploaded.
Context `{Sha256} `{CosmosTx} `{WorldLaws W}.
Variable to_string_pretty : Value -> bytes.
Variable env : Env.
Variable root : bytes.

(** A transaction with this message, signed by the account, that the node accepted. *)
Definition accepted (signer : Signer) (a : Account) (msg : AnyMsg) (memo : bytes) (res : BroadcastResult) : Prop :=
  code res = 0 /\ exists gas fee w w', sign_and_broadcast (W:=W) signer a msg memo gas fee w = (w', Ok res).
(** The node reported a transaction with this proposal in it, of a store-code message for these bytes. *)
Definition proposed (signer : Signer) (wasm : bytes) (id : Z) : Prop :=
  exists gov a res landed w w',
    relayer signer = Ok a /\
    accepted signer a (submit_message signer gov wasm (address a) TITLE SUMMARY DEPOSIT_AMOUNT)
      (bstr "upload-lc-wasm") res /\
    tx_by_hash signer (tx_hash res) w = (w', Ok landed) /\ extract_proposal_id landed = Some id.
Definition voted (signer : Signer) (id : Z) : Prop :=
  exists a res, (validator signer = Ok a \/ relayer signer = Ok a) /\
    accepted signer a (vote_message id (address a) VOTE_OPTION) (bstr "upload-lc-wasm-vote") res.
Definition listed (signer : Signer) (sha : bytes) : Prop :=
  exists w w' cs, checksums (W:=W) signer w = (w', Ok cs) /\ existsb (fun c => eq_ignore_ascii_case c sha) cs = true.

Lemma submit_store_code_proposes signer wasm w w' id :
  submit_store_code signer wasm TITLE SUMMARY DEPOSIT_AMOUNT STORE_GAS_LIMIT STORE_FEE_AMOUNT
    (TX_WAIT_TIMEOUT_SECS * 1000) w = (w', Ok id) -> proposed signer wasm id.
Proof.
  unfold submit_store_code. intros (w1 & gov & _ & Hs)%IO_bind_Ok.
  apply IO_bind_Ok in Hs as (w2 & a & Ha & Hs). injection Ha as -> Ha.
  apply IO_bind_Ok in Hs as (w3 & res & Hres & Hs).
  destruct (Z.eqb_spec (code res) 0) as [Hc|]; [|done]. cbn [negb] in Hs.
  apply IO_bind_Ok in Hs as (w4 & landed & Hl & Hs).
  destruct (negb _); [done|]. injection Hs as -> Hid.
  pose proof (wait_for_tx_result signer (tx_hash res) (TX_WAIT_TIMEOUT_SECS * 1000) w3 ltac:(done)) as Hw.
  rewrite Hl in Hw. destruct Hw as (w5 & Hw).
  exists gov, a, res, landed, w5, w'. split_and!; [done| |done|].
  - split; [done|]. by eexists _, _, _, _.
  - by destruct (extract_proposal_id landed); [injection Hid as ->|].
Qed.

Lemma vote_votes signer id w w' : vote signer id VOTE_OPTION VOTE_GAS_LIMIT VOTE_FEE_AMOUNT w = (w', Ok tt) -> voted signer id.
Proof.
  unfold vote. intros (w1 & a & Ha & Hs)%IO_bind_Ok. injection Ha as -> Ha.
  apply IO_bind_Ok in Hs as (w3 & res & Hres & Hs). destruct (Z.eqb_spec (code res) 0) as [Hc|]; [|done].
  exists a, res. split.
  - destruct (validator signer); [left|right]; done.
  - split; [done|]. by eexists _, _, _, _.
Qed.

Lemma checksum_attempts_listed n signer sha w w' : checksum_attempts n signer sha w = (w', Ok true) -> listed signer sha.
Proof.
  revert w. induction n as [|n IH]; intros w; cbn [checksum_attempts]; [done|].
  intros (w1 & found & Hf & Hs)%IO_bind_Ok. unfold attempt in Hf.
  destruct (checksums signer w) as [w2 r] eqn:Hc. injection Hf as <- <-.
  destruct r as [cs|e].
  - destruct (existsb _ cs) eqn:He; [by exists w, w2, cs|].
    apply IO_bind_Ok in Hs as (w3 & [] & _ & Hs). by apply IH in Hs.
  - apply IO_bind_Ok in Hs as (w3 & [] & _ & Hs). by apply IH in Hs.
Qed.

Context (f : bytes) (Hown : own_file f).

Lemma keeps_build_wasm : keeps f (build_wasm root).
Proof. unfold build_wasm. frame; by apply keeps_effect. Qed.
Lemma keeps_checksum_attempts n signer sha : keeps f (checksum_attempts n signer sha).
Proof. induction n as [|n IH]; cbn [checksum_attempts]; frame. Qed.
Lemma keeps_node_info signer : keeps f (node_info_ok signer).
Proof. unfold node_info_ok. by apply keeps_http_ok. Qed.
Hint Resolve keeps_build_wasm keeps_checksum_attempts keeps_node_info : frame.

Lemma built_checksum w w' built : build_wasm root w = (w', Ok built) -> exists wasm, built = (wasm, Hex.encode (sha256 wasm)).
Proof.
  unfold build_wasm. intros (w1 & u & _ & Hb)%IO_bind_Ok. apply IO_bind_Ok in Hb as (w2 & [p|] & _ & Hb); [|done].
  apply IO_bind_Ok in Hb as (w3 & opt & _ & Hb). apply IO_bind_Ok in Hb as (w4 & u' & _ & Hb).
  apply IO_bind_Ok in Hb as (w5 & [c|] & _ & Hb); [|done]. injection Hb as _ <-. by exists c.
Qed.

(** The configuration names the checksum of code that was proposed, voted for and is listed by the chain. *)
Definition registered_in (text text' : bytes) : Prop :=
  exists signer wasm id,
    from_config (devnet env) = Ok signer /\ proposed signer wasm id /\ voted signer id /\
    listed signer (Hex.encode (sha256 wasm)) /\
    lines text' = patched_line (Hex.encode (sha256 wasm)) <$> lines text /\
    wasm_checksum_present (Some text') = true.
End Uploaded.

#[local] Hint Resolve keeps_build_wasm keeps_checksum_attempts keeps_node_info : frame.

(** C33: an upload to the local chain leaves the relayer's configuration as it was, or replaces the checksum in
    it by the SHA-256 of code that it proposed for storage in an accepted transaction, voted for, and found in
    the list of checksums of the chain; a configuration that ends up in any other state is one whose writing
    failed. *)
Theorem upload_registers_code `{Sha256} `{CosmosTx} `{WorldLaws W} pretty env root f from w w' r text :
  own_file f -> read_file f w = Some text -> cr ∉ text ->
  upload pretty env root f false from w = (w', r) ->
  read_file f w' = Some text \/ r = Err (writing_failed f) \/
  (r = Ok tt /\ exists text', read_file f w' = Some text' /\ registered_in (W:=W) env text text').
Proof.
  intros Hown Ht Hcr Hup. unfold upload in Hup. cbn iota in Hup.
  step_keeping f Hup w1 built Hb Hf1. step_keeping f Hup w2 signer Hs Hf2. step_keeping f Hup w3 ok Hok Hf3.
  destruct ok; cbn [negb] in Hup; [|injection Hup as <- <-; left; congruence].
  step_keeping f Hup w4 addr Ha Hf4. step_keeping f Hup w5 funded Hfu Hf5. step_keeping f Hup w6 pid Hid Hf6.
  step_keeping f Hup w7 u Hv Hf7. destruct u. step_keeping f Hup w8 u Hp Hf8. step_keeping f Hup w9 reg Hr Hf9.
  destruct reg; cbn [negb] in Hup; [|injection Hup as <- <-; left; congruence].
  apply built_checksum in Hb as [wasm ->]. cbn [fst snd] in *. injection Hs as _ Hs.
  apply submit_store_code_proposes in Hid. apply vote_votes in Hv. apply checksum_attempts_listed in Hr.
  assert (read_file f w9 = Some text) as Ht9 by congruence.
  apply IO_bind_inv in Hup as [(w10 & changed & Hpatch & Hup)|(e & Hpatch & ->)]; apply patch_file_inv in Hpatch.
  - injection Hup as <- <-. right; right. split; [done|]. destruct Hpatch as (t0 & text' & Ht0 & Hpt & Ht').
    assert (t0 = text) as -> by congruence. exists text'. split; [done|].
    exists signer, wasm, pid. split_and!; try done.
    all: pose proof (checksum_patched text (Hex.encode (sha256 wasm)) Hcr (hex_plain _)) as Hcp; rewrite Hpt in Hcp.
    + apply Hcp.
    + apply Hcp. apply hex_visible, sha256_nonempty.
  - destruct Hpatch as [-> | ->]; [by right; left|by left].
Qed.
