(* ===== verification/CliTx.v ===== *)
(** * Transactions of the command-line tool ([interstellar/src/tx])

    Creating clients and registering counterparties through the relayer, deploying and invoking the Soroban
    contracts through the [stellar] program, and starting a transfer. *)

From Stdlib Require Import ZArith Lia Strings.Byte Strings.String.
From stdpp Require Import base option list gmap numbers.
From S2P Require Import Prelude Bytes Text Json ConfigText Cli Configuration.
Open Scope Z_scope.

Section Tx.
Context `{World W}.
Variable root : bytes.

Definition env_file : bytes := path_join root (bstr ".env").
Definition has_docker : IO W unit :=
  docker ← has (bstr "docker");
  if (docker : bool) then mret tt else bail (bstr "docker not found in PATH").

(** ** [tx/clients] *)

Record CreateSpec : Type := MkCreateSpec {
  host_chain : bytes; reference_chain : bytes; id_prefix : bytes; result_env_var : bytes; existing : option bytes;
}.

Definition create (cfg : ClientsConfig) (spec : CreateSpec) (force : bool) : IO W bytes :=
  match (if force then None else existing spec) with
  | Some id => mret id
  | None =>
      _ ← has_docker;
      gateway ← tcp_ok (cc_gateway_url cfg);
      if negb gateway then bail (bstr "gateway not reachable")
      else
        node ← http_ok (cosmos_status_url cfg);
        if negb node then bail (bstr "Cosmos RPC not reachable")
        else
          output ← exec root (cc_hermes_config_path cfg)
            [bstr "create"; bstr "client"; bstr "--host-chain"; host_chain spec; bstr "--reference-chain";
             reference_chain spec];
          client_id ← lift_io (ok_or (bstr "no client id found in hermes output")
                                (extract_client_id output (id_prefix spec)));
          _ ← upsert_file env_file [(result_env_var spec, client_id)];
          mret client_id
  end.

Definition cosmos_spec (cfg : ClientsConfig) : CreateSpec := {|
  host_chain := cc_stellar_chain_id cfg;
  reference_chain := cc_cosmos_chain_id cfg;
  id_prefix := bstr "07-tendermint";
  result_env_var := bstr "COSMOS_CLIENT_ID";
  existing := client_id_str <$> cc_cosmos_client cfg;
|}.
(** [clients::cosmos::run]. *)
Definition create_cosmos (cfg : ClientsConfig) (force : bool) : IO W bytes := create cfg (cosmos_spec cfg) force.

Definition stellar_spec (cfg : ClientsConfig) : CreateSpec := {|
  host_chain := cc_cosmos_chain_id cfg;
  reference_chain := cc_stellar_chain_id cfg;
  id_prefix := bstr "08-wasm";
  result_env_var := bstr "STELLAR_CLIENT_ID";
  existing := client_id_str <$> cc_stellar_client cfg;
|}.
(** [clients::stellar::run]. *)
Definition create_stellar (cfg : ClientsConfig) (force : bool) : IO W bytes :=
  match (if force then None else cc_stellar_client cfg) with
  | Some id => mret (client_id_str id)
  | None => fun w =>
      if negb (wasm_checksum_present (read_file (cc_hermes_config cfg) w)) then (w, Err (bstr "wasm_checksum_hex is empty"))
      else create cfg (stellar_spec cfg) force w
  end.

Definition client_str (c : option ClientId) : bytes := match c with Some c => client_id_str c | None => [] end.
(** [clients::counterparty::register]; any side but ["stellar"] is the Cosmos one. *)
Definition register (cfg : ClientsConfig) (on_stellar : bool) (cosmos_client stellar_client : bytes) : IO W unit :=
  let '(chain, client, counterparty, commitment_prefix) :=
    if on_stellar then (cc_stellar_chain_id cfg, cosmos_client, stellar_client, bstr "ibc")
    else (cc_cosmos_chain_id cfg, stellar_client, cosmos_client, []) in
  if bool_decide (client = []) || bool_decide (counterparty = []) then
    bail (bstr "both COSMOS_CLIENT_ID and STELLAR_CLIENT_ID must be set")
  else
    _ ← has_docker;
    _ ← exec root (cc_hermes_config_path cfg)
      [bstr "create"; bstr "counterparty"; bstr "--chain"; chain; bstr "--client"; client;
       bstr "--counterparty-client"; counterparty; bstr "--commitment-prefix"; commitment_prefix];
    mret tt.
Definition counterparty_run (cfg : ClientsConfig) (on_stellar : bool) : IO W unit :=
  register cfg on_stellar (client_str (cc_cosmos_client cfg)) (client_str (cc_stellar_client cfg)).

Inductive Sides : Type := CosmosSide | StellarSide | BothSides.
Definition sides (cosmos stellar : bool) : Sides :=
  match cosmos, stellar with true, false => CosmosSide | false, true => StellarSide | _, _ => BothSides end.
Inductive ClientsTx : Type := Create (cosmos stellar force : bool) | Counterparty (cosmos stellar force : bool).
Definition clients_tx (cfg : Config) (cmd : ClientsTx) : IO W unit :=
  let cc := clients_config cfg in
  match cmd with
  | Create cosmos stellar force =>
      match sides cosmos stellar with
      | CosmosSide => _ ← create_cosmos cc force; mret tt
      | StellarSide => _ ← create_stellar cc force; mret tt
      | BothSides => _ ← create_cosmos cc force; _ ← create_stellar cc force; mret tt
      end
  | Counterparty cosmos stellar _ =>
      match sides cosmos stellar with
      | CosmosSide => counterparty_run cc false
      | StellarSide => counterparty_run cc true
      | BothSides => _ ← counterparty_run cc false; counterparty_run cc true
      end
  end.

(** ** [tx/contracts] *)

Definition SOROBAN_WASMS : list string :=
  ["stellar_mock_light_client"; "stellar_ibc_router"; "stellar_ibc_transfer"; "stellar_tendermint_light_client";
   "stellar_attestation_light_client"]%string.
Definition wasm_path (name : string) : bytes :=
  path_join root (bstr "contracts/soroban/target/wasm32v1-none/contract/" ++ bstr name ++ bstr ".wasm").

(** [contracts::build::run]. *)
Definition build : IO W unit :=
  command (stellar_in (path_join root (bstr "contracts/soroban")) (bstr <$> ["contract"; "build"; "--profile"; "contract"]%string)).

Definition last_line (out : bytes) : bytes :=
  default [] (List.find (fun l => negb (bool_decide (l = []))) (trim <$> rev (lines out))).

Definition stellar_base_as (cfg : ContractsConfig) (sub source : bytes) : list bytes :=
  [bstr "contract"; sub; bstr "--source"; source] ++ net_flags cfg.
(** [contracts::upload::run]. *)
Definition upload_one (cfg : ContractsConfig) (wasm : bytes) : IO W bytes :=
  out ← capture (stellar_in root (stellar_base_as cfg (bstr "upload") (ct_signing_key cfg) ++ [bstr "--wasm"; wasm]));
  mret (last_line out).
Fixpoint upload_each (cfg : ContractsConfig) (names : list string) : IO W unit :=
  match names with
  | [] => mret tt
  | name :: names => _ ← upload_one cfg (wasm_path name); upload_each cfg names
  end.
Definition upload_all (cfg : ContractsConfig) : IO W unit := _ ← build; upload_each cfg SOROBAN_WASMS.

Definition deploy (cfg : ContractsConfig) (wasm : bytes) (ctor : list bytes) : IO W bytes :=
  out ← capture (stellar_in root
    (stellar_base_as cfg (bstr "deploy") (ct_signing_key cfg) ++ [bstr "--wasm"; wasm] ++
     (if decide (ctor = []) then [] else bstr "--" :: ctor)));
  mret (last_line out).

(** [text.contains(needle)]. *)
Fixpoint contains (needle text : bytes) : bool :=
  prefix_of needle text || match text with [] => false | _ :: text => contains needle text end.
Definition MAX_ATTEMPTS : nat := 6.
(** [attempts] left, the first one included. *)
Fixpoint invoke_retry (attempts : nat) (c : Command) : IO W unit :=
  out ← attempt (capture_all c);
  match out with
  | Ok _ => mret tt
  | Err error =>
      match attempts with
      | S (S _ as left) =>
          if contains (bstr "TxBadSeq") error then
            _ ← pause 4000;
            invoke_retry left c
          else bail error
      | _ => bail error
      end
  end.
Definition invoke_with_seq_retry (c : Command) : IO W unit := invoke_retry MAX_ATTEMPTS c.
Definition invoke_as (cfg : ContractsConfig) (id : bytes) (call : list bytes) (source : bytes) : IO W unit :=
  invoke_with_seq_retry (stellar_in root
    (stellar_base_as cfg (bstr "invoke") source ++ [bstr "--id"; id; bstr "--"] ++ call)).
Definition invoke (cfg : ContractsConfig) (id : bytes) (call : list bytes) : IO W unit :=
  invoke_as cfg id call (ct_signing_key cfg).

(** [address_from_secret]: the account of a secret key. *)
Variable address_from_secret : bytes -> option bytes.
Definition deployer_of (cfg : ContractsConfig) : result bytes bytes :=
  if decide (ct_deployer_address cfg = []) then
    ok_or (bstr "invalid STELLAR_SIGNING_KEY") (address_from_secret (ct_signing_key cfg))
  else Ok (ct_deployer_address cfg).

Definition deploy_one (cfg : ContractsConfig) (name : string) : IO W bytes :=
  if decide (name ∈ SOROBAN_WASMS) then
    _ ← build;
    deployer ← lift_io (deployer_of cfg);
    ctor ← lift_io (
      if decide (name = "stellar_ibc_router"%string) then Ok [bstr "--admin"; deployer]
      else if decide (name = "stellar_ibc_transfer"%string) then
        if decide (ct_ibc_router cfg = []) then Err (bstr "ROUTER_CONTRACT_ADDRESS is unset")
        else Ok [bstr "--router"; ct_ibc_router cfg; bstr "--admin"; deployer]
      else Ok []);
    deploy cfg (wasm_path name) ctor
  else bail (bstr "unknown contract").

Definition register_type (cfg : ContractsConfig) (router : bytes) (kind : ClientTypes) (lc : bytes) : IO W unit :=
  invoke cfg router [bstr "register_client_type"; bstr "--client_type"; client_type cfg kind; bstr "--lc_address"; lc].
(** [deploy_all::run]. *)
Definition deploy_all (cfg : ContractsConfig) (force attestation : bool) : IO W bool :=
  if decide (ct_signing_key cfg = []) then bail (bstr "STELLAR_SIGNING_KEY is empty in .env")
  else if negb (bool_decide (ct_ibc_router cfg = [])) && negb force then mret false
  else
    _ ← build;
    deployer ← lift_io (deployer_of cfg);
    mock ← deploy cfg (wasm_path "stellar_mock_light_client") [];
    router ← deploy cfg (wasm_path "stellar_ibc_router") [bstr "--admin"; deployer];
    transfer ← deploy cfg (wasm_path "stellar_ibc_transfer") [bstr "--router"; router; bstr "--admin"; deployer];
    attestation_id ←
      (if attestation then deploy cfg (wasm_path "stellar_attestation_light_client") [] else mret []);
    tendermint_id ← deploy cfg (wasm_path "stellar_tendermint_light_client") [];
    _ ← register_type cfg router Mock mock;
    _ ← (if decide (attestation_id = []) then mret tt else register_type cfg router Attestation attestation_id);
    _ ← register_type cfg router Tendermint tendermint_id;
    _ ← invoke cfg router [bstr "register_port"; bstr "--port_id"; ct_transfer_port cfg; bstr "--app_address"; transfer];
    _ ← upsert_file env_file
      [(bstr "ROUTER_CONTRACT_ADDRESS", router); (bstr "TRANSFER_CONTRACT_ADDRESS", transfer);
       (bstr "MOCK_LC_CONTRACT_ID", mock); (bstr "ATTESTATION_LC_CONTRACT_ID", attestation_id);
       (bstr "TENDERMINT_LC_CONTRACT_ID", tendermint_id); (bstr "DEPLOYER_ADDRESS", deployer)];
    mret true.

(** ** [tx/transfer] *)

Record TransferParams : Type := MkTransferParams {
  denom : bytes; amount : Z; receiver : bytes; sender : bytes; memo : bytes; timeout_secs : Z; mint : bool;
}.
(** Unsigned addition traps on overflow. *)
Definition transfer_timeout (secs : Z) : IO W Z := fun w =>
  let t := unix_secs w + secs in
  if decide (t < 2 ^ 64) then (w, Ok t) else (w, Err (bstr "attempt to add with overflow")).

Definition cosmos_relayer_address (cfg : Config) : IO W bytes :=
  out ← capture_all (docker_in root
    ((bstr <$> ["compose"; "exec"; "-T"; "cosmos"; "simd"; "keys"; "show"]%string) ++
     cosmos_key_name (cosmos cfg) ::
     (bstr <$> ["-a"; "--keyring-backend"; "test"; "--home"; "/root/.simapp"]%string)));
  lift_io (ok_or (bstr "could not derive the cosmos address")
    (List.find (prefix_of (bstr "cosmos")) (trim <$> lines out))).

Definition first_set (a b : bytes) : bytes := if decide (a = []) then b else a.
Definition transfer_sender (cfg : Config) (p : TransferParams) : bytes :=
  first_set (sender p) (first_set (stellar_sender_address (accounts cfg)) (deployer_address (deployment cfg))).
Definition mint_call (sender : bytes) (p : TransferParams) : list bytes :=
  [bstr "mint"; bstr "--to"; sender; bstr "--denom"; denom p; bstr "--amount"; Decimal.show_i128 (amount p)].
Definition initiate_call (sender source_client receiver : bytes) (timeout : Z) (p : TransferParams) : list bytes :=
  [bstr "initiate_transfer"; bstr "--sender"; sender; bstr "--source_client_id"; source_client; bstr "--denom"; denom p;
   bstr "--amount"; Decimal.show_i128 (amount p); bstr "--receiver"; receiver; bstr "--timeout_timestamp";
   dec 20 timeout; bstr "--memo"; [double_quote] ++ memo p ++ [double_quote]].

Definition stellar_to_cosmos (cfg : Config) (p : TransferParams) : IO W unit :=
  let app := transfer_app (deployment cfg) in
  let source_client := cosmos_client_id (deployment cfg) in
  let from := transfer_sender cfg p in
  let identity := first_set (stellar_sender_identity (accounts cfg)) (cli_identity (stellar cfg)) in
  if decide (app = []) then bail (bstr "TRANSFER_CONTRACT_ADDRESS is not set")
  else if decide (source_client = []) then bail (bstr "COSMOS_CLIENT_ID is not set")
  else if decide (from = []) then bail (bstr "no Stellar sender")
  else
    to ← (if decide (receiver p = []) then
            if decide (trim (receiver_address (cosmos cfg)) = []) then cosmos_relayer_address cfg
            else mret (trim (receiver_address (cosmos cfg)))
          else mret (receiver p));
    let cc := contracts_config cfg in
    timeout ← transfer_timeout (timeout_secs p);
    _ ← (if mint p then invoke cc app (mint_call from p) else mret tt);
    invoke_as cc app (initiate_call from source_client to timeout p) identity.

(** [transfer_tx]; the other direction is not implemented and does nothing. *)
Definition transfer_tx (cfg : Config) (from to : bytes) (amount : Z) (denom : bytes) (timeout_secs : Z) (no_mint : bool) :
    IO W unit :=
  from_chain ← lift_io (ok_or (bstr "could not classify --from address") (chain_of from));
  to_chain ← lift_io (ok_or (bstr "could not classify --to address") (chain_of to));
  let params := MkTransferParams denom amount to from [] timeout_secs (negb no_mint) in
  match from_chain, to_chain with
  | Stellar, Cosmos => stellar_to_cosmos cfg params
  | Cosmos, Stellar => mret tt
  | _, _ => bail (bstr "transfer must cross chains")
  end.

(** [query/balances.rs]: the arguments of the query, which name no denomination. *)
Definition balance_args (cfg : Config) (address : bytes) : list bytes :=
  [bstr "contract"; bstr "invoke"; bstr "--id"; transfer_app (deployment cfg); bstr "--source";
   signing_key (stellar cfg); bstr "--rpc-url"; stellar_rpc_url (stellar cfg); bstr "--network-passphrase";
   stellar_passphrase (stellar cfg); bstr "--"; bstr "balance_of"; bstr "--who"; address].

End Tx.

(** ** Retrying an invocation *)

Section Retry.
Context `{World W}.

Definition stale (error : bytes) : bool := contains (bstr "TxBadSeq") error.
(** The outside after [k] attempts that failed for a stale sequence, each followed by a wait. *)
Fixpoint after_stale (k : nat) (c : Command) (w : W) : option W :=
  match k with
  | O => Some w
  | S k =>
      match capture_all c w with
      | (w, Err e) => if stale e then after_stale k c (sleep 4000 w) else None
      | (_, Ok _) => None
      end
  end.

Lemma invoke_retry_step n c w :
  invoke_retry (S n) c w =
  match capture_all c w with
  | (w1, Ok _) => (w1, Ok tt)
  | (w1, Err e) =>
      match n with
      | S _ => if stale e then invoke_retry n c (sleep 4000 w1) else (w1, Err e)
      | O => (w1, Err e)
      end
  end.
Proof.
  change (invoke_retry (S n) c) with
    (attempt (capture_all c) ≫= fun out =>
       match out with
       | Ok _ => mret tt
       | Err error =>
           match n with
           | S _ => if stale error then pause 4000 ≫= (fun _ => invoke_retry n c) else bail error
           | O => bail error
           end
       end).
  unfold mbind, IO_bind, attempt. destruct (capture_all c w) as [w1 [o|e]]; [done|].
  destruct n; [done|]. by destruct (stale e).
Qed.

Lemma invoke_retry_spec n c w w' r :
  invoke_retry (S n) c w = (w', r) ->
  exists k wk, (k <= n)%nat /\ after_stale k c w = Some wk /\
    match capture_all c wk with
    | (w1, Ok _) => w' = w1 /\ r = Ok tt
    | (w1, Err e) => w' = w1 /\ r = Err e /\ (stale e = false \/ k = n)
    end.
Proof.
  revert w. induction n as [|n IH]; intros w; rewrite invoke_retry_step;
    destruct (capture_all c w) as [w1 [o|e]] eqn:Hc.
  - intros [= <- <-]. exists O, w. by rewrite Hc.
  - intros [= <- <-]. exists O, w. rewrite Hc. split_and!; try done. by right.
  - intros [= <- <-]. exists O, w. rewrite Hc. split_and!; try done. lia.
  - destruct (stale e) eqn:Hs.
    + intros (k & wk & Hk & Ha & Hr)%IH. exists (S k), wk. split; [lia|]. cbn [after_stale]. rewrite Hc, Hs.
      split; [done|]. destruct (capture_all c wk) as [w2 [?|e']]; [done|].
      destruct Hr as (-> & -> & [?| ->]); auto.
    + intros [= <- <-]. exists O, w. rewrite Hc. split_and!; try done; [lia|]. by left.
Qed.

(** An invocation is tried at most six times, and again only after a failure that names a stale sequence: it
    succeeds exactly when its last attempt does, and fails with the error of the last attempt, which is another
    failure or the sixth. *)
Theorem invocations_retried c w w' r :
  invoke_with_seq_retry c w = (w', r) ->
  exists k wk, (k < MAX_ATTEMPTS)%nat /\ after_stale k c w = Some wk /\
    match capture_all c wk with
    | (w1, Ok _) => w' = w1 /\ r = Ok tt
    | (w1, Err e) => w' = w1 /\ r = Err e /\ (stale e = false \/ S k = MAX_ATTEMPTS)
    end.
Proof.
  intros (k & wk & Hk & Ha & Hr)%invoke_retry_spec. exists k, wk. unfold MAX_ATTEMPTS. split; [lia|]. split; [done|].
  destruct (capture_all c wk) as [w1 [?|e]]; [done|]. destruct Hr as (-> & -> & [?| ->]); auto.
Qed.
End Retry.

(** ** What is written to the environment file *)

Section Written.
Context `{WorldLaws W}.
Variable root : bytes.
Context (Hown : own_file (env_file root)).

Lemma keeps_has_docker f : own_file f -> keeps f has_docker.
Proof. intros Hf. unfold has_docker. frame. Qed.
Lemma keeps_build f : own_file f -> keeps f (build root).
Proof. intros Hf. by apply keeps_command. Qed.
Lemma keeps_deploy f cfg wasm ctor : own_file f -> keeps f (deploy root cfg wasm ctor).
Proof. intros Hf. unfold deploy. frame. Qed.
Lemma keeps_invoke_retry f n c : own_file f -> keeps f (invoke_retry n c).
Proof.
  intros Hf. induction n as [|n IH]; cbn [invoke_retry]; (apply keeps_bind; [eauto with frame|]);
    intros [o|e]; frame.
Qed.
Lemma keeps_invoke f cfg id call : own_file f -> keeps f (invoke root cfg id call).
Proof. intros Hf. unfold invoke, invoke_as, invoke_with_seq_retry. by apply keeps_invoke_retry. Qed.
Lemma upsert_file_Err path us w w' e : upsert_file path us w = (w', Err e) -> e = writing_failed path.
Proof.
  unfold upsert_file, write_text. intros [(w1 & [|] & _ & Hr)|(e' & Hw & _)]%IO_bind_inv; [done| |].
  - by injection Hr as _ <-.
  - unfold effect in Hw. by destruct (write_file _ _ _).
Qed.
Hint Resolve keeps_has_docker keeps_build keeps_deploy keeps_invoke_retry keeps_invoke : frame.

Lemma numbered_plain prefix id : Forall (fun b => is_separator b = false) prefix -> numbered prefix id -> nl ∉ id.
Proof.
  intros Hp (r & -> & _ & Hd). rewrite list.Forall_forall in Hp, Hd. rewrite !not_elem_of_app. split_and!.
  - by intros Hin%Hp.
  - by apply (bool_decide_unpack _).
  - by intros Hin%Hd.
Qed.

(** Creating a client answers the configured one without doing anything, or an identifier of the client's type
    that the relayer printed, which the environment file then assigns; on an error the file is as before,
    unless writing it failed. *)
Theorem created_client_recorded cfg spec force w w' r :
  cr ∉ default [] (read_file (env_file root) w) -> plain_key (result_env_var spec) ->
  Forall (fun b => is_separator b = false) (id_prefix spec) ->
  create root cfg spec force w = (w', r) ->
  match r with
  | Ok id =>
      (w' = w /\ force = false /\ existing spec = Some id) \/
      (numbered (id_prefix spec) id /\
       exists text, read_file (env_file root) w' = Some text /\
         List.find (assigns (result_env_var spec)) (lines text) = Some (assignment (result_env_var spec) id))
  | Err e => read_file (env_file root) w' = read_file (env_file root) w \/ e = writing_failed (env_file root)
  end.
Proof.
  intros Hcr Hk Hp. unfold create.
  destruct (if force then None else existing spec) as [id|] eqn:He.
  { intros [= <- <-]. left. by destruct force. }
  clear He. intros Hc. step_keeping (env_file root) Hc w1 u Hd Hf1. step_keeping (env_file root) Hc w2 gw Hg Hf2.
  destruct gw; cbn [negb] in Hc; [|injection Hc as <- <-; left; congruence].
  step_keeping (env_file root) Hc w3 node Hn Hf3.
  destruct node; cbn [negb] in Hc; [|injection Hc as <- <-; left; congruence].
  step_keeping (env_file root) Hc w4 out Ho Hf4. step_keeping (env_file root) Hc w5 cid Hid Hf5.
  injection Hid as -> Hid. destruct (extract_client_id out (id_prefix spec)) as [id|] eqn:Hex; [|done].
  injection Hid as <-. apply (client_id_extracted _ Hp) in Hex as [Hnum _].
  apply IO_bind_inv in Hc as [(w6 & [] & Hu & Hc)|(e & Hu & ->)].
  - injection Hc as <- <-. right. split; [done|].
    apply upsert_file_Ok in Hu as (text & Ht & Hfind).
    + exists text. split; [done|]. apply Hfind; [left|]. destruct Hnum as (d & -> & Hd' & _). by destruct (id_prefix spec).
    + replace (read_file (env_file root) w5) with (read_file (env_file root) w) by congruence. done.
    + apply list.NoDup_singleton.
    + constructor; [|constructor]. split; [done|]. by eapply numbered_plain.
  - right. by apply upsert_file_Err in Hu.
Qed.

(** ** A deployment *)

Lemma trim_sub p s b : b ∈ trim_matches p s -> b ∈ s.
Proof.
  assert (forall s b, b ∈ trim_start_matches p s -> b ∈ s) as Hst.
  { clear. intros s b Hb. destruct (trim_start_split p s) as (a & -> & _). apply elem_of_app. by right. }
  unfold trim_matches, trim_end_by. rewrite list_elem_of_In, <-in_rev, <-list_elem_of_In.
  intros Hb%Hst. rewrite list_elem_of_In, <-in_rev, <-list_elem_of_In in Hb. by apply Hst.
Qed.
Lemma strip_cr_sub l b : b ∈ strip_cr l -> b ∈ l.
Proof.
  unfold strip_cr. destruct (rev l) as [|c r] eqn:Hr; [intros Hb; by apply not_elem_of_nil in Hb|].
  case_decide; [|done]. apply (f_equal (@rev byte)) in Hr. rewrite rev_involutive in Hr. rewrite Hr. cbn [rev]. intros Hb. apply elem_of_app. by left.
Qed.
Lemma lines_no_nl text l : l ∈ lines text -> nl ∉ l.
Proof.
  unfold lines. pose proof (split_on_pieces nl text) as Hp. revert Hp. generalize (split_on nl text) as ps.
  induction ps as [|p ps IH]; intros Hp; [intros Hl; by apply not_elem_of_nil in Hl|].
  apply list.Forall_cons in Hp as [[Hp _] Hps]. destruct ps as [|p' ps].
  - cbn [lines_of]. case_decide; [intros Hl; by apply not_elem_of_nil in Hl|by intros ->%list_elem_of_singleton].
  - change (lines_of (p :: p' :: ps)) with (strip_cr p :: lines_of (p' :: ps)).
    intros [->|Hl]%elem_of_cons; [by intros Hin%strip_cr_sub|by apply IH].
Qed.
Lemma last_line_no_nl out : nl ∉ last_line out.
Proof.
  unfold last_line. destruct (List.find _ _) as [l|] eqn:Hf; [|apply not_elem_of_nil].
  apply find_some in Hf as [Hin _]. apply list_elem_of_In, list_elem_of_fmap in Hin as (l' & -> & Hl').
  apply list_elem_of_In, in_rev, list_elem_of_In, lines_no_nl in Hl'. cbn [default]. by intros Hb%trim_sub.
Qed.
Lemma deploy_no_nl cfg wasm ctor w w' id : deploy root cfg wasm ctor w = (w', Ok id) -> nl ∉ id.
Proof. unfold deploy. intros (w1 & out & _ & Hr)%IO_bind_Ok. injection Hr as _ <-. apply last_line_no_nl. Qed.

#[local] Instance plain_key_dec k : Decision (plain_key k).
Proof. unfold plain_key. apply _. Defined.

Definition invoked (cfg : ContractsConfig) (id : bytes) (call : list bytes) : Prop :=
  exists w w', invoke root cfg id call w = (w', Ok tt).
Definition type_registered (cfg : ContractsConfig) (router : bytes) (kind : ClientTypes) (lc : bytes) : Prop :=
  invoked cfg router [bstr "register_client_type"; bstr "--client_type"; client_type cfg kind; bstr "--lc_address"; lc].

Variable address_from_secret : bytes -> option bytes.
Context (Hstrkey : forall s a, address_from_secret s = Some a -> nl ∉ a).

(** A deployment that reports success has registered the light clients and the transfer port on the router it
    deployed, and the environment file assigns the contracts; otherwise the file is as it was, unless writing
    it failed. *)
Theorem deployment_recorded cfg force attestation w w' r :
  cr ∉ default [] (read_file (env_file root) w) -> nl ∉ ct_deployer_address cfg ->
  deploy_all root address_from_secret cfg force attestation w = (w', r) ->
  match r with
  | Ok true =>
      exists router transfer mock tendermint deployer text,
        type_registered cfg router Mock mock /\ type_registered cfg router Tendermint tendermint /\
        invoked cfg router [bstr "register_port"; bstr "--port_id"; ct_transfer_port cfg; bstr "--app_address"; transfer] /\
        deployer_of address_from_secret cfg = Ok deployer /\
        read_file (env_file root) w' = Some text /\
        forall k v, (k, v) ∈ [(bstr "ROUTER_CONTRACT_ADDRESS", router); (bstr "TRANSFER_CONTRACT_ADDRESS", transfer);
                              (bstr "MOCK_LC_CONTRACT_ID", mock); (bstr "TENDERMINT_LC_CONTRACT_ID", tendermint);
                              (bstr "DEPLOYER_ADDRESS", deployer)] ->
          v <> [] -> List.find (assigns k) (lines text) = Some (assignment k v)
  | Ok false => w' = w /\ ct_ibc_router cfg <> [] /\ force = false
  | Err e => read_file (env_file root) w' = read_file (env_file root) w \/ e = writing_failed (env_file root)
  end.
Proof.
  intros Hcr Hdep. unfold deploy_all. case_decide as Hkey; [intros [= <- <-]; by left|].
  destruct (negb (bool_decide (ct_ibc_router cfg = [])) && negb force) eqn:Hskip.
  { intros [= <- <-]. apply andb_true_iff in Hskip as [Hr Hf]. by destruct force; case_bool_decide. }
  clear Hskip. intros Hc. set (f := env_file root) in *.
  step_keeping f Hc w1 u Hb Hf1. step_keeping f Hc w2 deployer Hd Hf2. step_keeping f Hc w3 mock Hm Hf3.
  step_keeping f Hc w4 router Hr Hf4. step_keeping f Hc w5 transfer Ht Hf5. step_keeping f Hc w6 att Ha Hf6.
  step_keeping f Hc w7 tm Htm Hf7. step_keeping f Hc w8 u1 H1 Hf8. step_keeping f Hc w9 u2 H2 Hf9.
  step_keeping f Hc w10 u3 H3 Hf10. step_keeping f Hc w11 u4 H4 Hf11. destruct u1, u3, u4.
  apply IO_bind_inv in Hc as [(w12 & [] & Hu & Hc)|(e & Hu & ->)]; [|right; by apply upsert_file_Err in Hu].
  injection Hc as <- <-. injection Hd as _ Hd. apply upsert_file_Ok in Hu as (text & Htext & Hfind).
  - exists router, transfer, mock, tm, deployer, text. split; [exists w7, w8; exact H1|].
    split; [exists w9, w10; exact H3|]. split; [exists w10, w11; exact H4|]. do 2 (split; [assumption|]).
    intros k v Hin Hne. apply Hfind; [|done]. clear -Hin. set_solver.
  - by replace (read_file f w11) with (read_file f w) by congruence.
  - apply (bool_decide_unpack _). vm_compute. exact I.
  - assert (nl ∉ att) as Hatt.
    { destruct attestation; [by eapply deploy_no_nl|]. cbn in Ha. injection Ha as _ Ha. subst att. apply not_elem_of_nil. }
    assert (nl ∉ deployer) as Hdeployer.
    { unfold deployer_of in Hd. destruct (decide (ct_deployer_address cfg = [])); [|apply Ok_inj in Hd; by rewrite <-Hd].
      destruct (address_from_secret _) eqn:Hs; [|done]. apply Ok_inj in Hd. rewrite <-Hd. by eapply Hstrkey. }
    repeat (apply list.Forall_cons; split; [split; cbn [fst snd]; [by apply (bool_decide_unpack _)|]|]);
      try (by eapply deploy_no_nl); done || constructor.
Qed.
End Written.
#[export] Hint Resolve keeps_has_docker keeps_build keeps_deploy keeps_invoke_retry keeps_invoke : frame.

(** ** A transfer *)

Section Started.
Context `{World W}.
Variable root : bytes.

(** A transfer that reports success was between a Stellar and a Cosmos address; from Stellar it has invoked
    [initiate_transfer] on the configured application, for the given addresses, amount and denomination, with a
    64-bit timeout the given number of seconds ahead, after minting the amount unless that was turned off. *)
Theorem transfer_started cfg from to amount denom timeout_secs no_mint w w' :
  transfer_tx root cfg from to amount denom timeout_secs no_mint w = (w', Ok tt) ->
  from <> [] -> to <> [] ->
  (chain_of from = Some Cosmos /\ chain_of to = Some Stellar /\ w' = w) \/
  (chain_of from = Some Stellar /\ chain_of to = Some Cosmos /\
   let p := MkTransferParams denom amount to from [] timeout_secs (negb no_mint) in
   let app := transfer_app (deployment cfg) in
   exists w1 w2 identity,
     unix_secs w1 + timeout_secs < 2 ^ 64 /\
     (if no_mint then w2 = w1 else invoke root (contracts_config cfg) app (mint_call from p) w1 = (w2, Ok tt)) /\
     invoke_as root (contracts_config cfg) app
       (initiate_call from (cosmos_client_id (deployment cfg)) to (unix_secs w1 + timeout_secs) p) identity w2 = (w', Ok tt)).
Proof.
  unfold transfer_tx. intros (w1 & fc & Hfc & Htx)%IO_bind_Ok Hfrom Hto. injection Hfc as -> Hfc.
  apply IO_bind_Ok in Htx as (w2 & tc & Htc & Htx). injection Htc as -> Htc.
  destruct (chain_of from) as [fc'|]; [|done]. destruct (chain_of to) as [tc'|]; [|done].
  apply Ok_inj in Hfc, Htc. subst fc' tc'. destruct fc, tc; try done.
  - right. split; [done|]. split; [done|]. unfold stellar_to_cosmos, transfer_sender, first_set in Htx. cbn [sender receiver mint CliTx.timeout_secs] in Htx.
    rewrite (decide_False (P := from = [])), (decide_False (P := to = [])) in Htx by done.
    destruct (decide (transfer_app _ = [])); [done|]. destruct (decide (cosmos_client_id _ = [])); [done|].
    destruct (decide (from = [])); [done|].
    apply IO_bind_Ok in Htx as (w3 & rc & Hrc & Htx). injection Hrc as -> ->.
    apply IO_bind_Ok in Htx as (w4 & t & Ht & Htx). unfold transfer_timeout in Ht.
    destruct (decide (unix_secs w3 + timeout_secs < 2 ^ 64)) as [Hlt|]; [|done]. injection Ht as <- <-.
    apply IO_bind_Ok in Htx as (w5 & [] & Hm & Htx). eexists w3, w5, _. split; [done|]. split; [|exact Htx].
    destruct no_mint; [by injection Hm as ->|done].
  - left. by injection Htx as ->.
Qed.
End Started.
