(* ===== verification/CliDemo.v ===== *)
(** * A small Cosmos node for the command-line tool

    An outside the tool can run against: a node that accepts transactions at once and executes them when a
    block passes (here, whenever the tool waits), programs that succeed, and files.  It shows that an upload
    can succeed, and what happens when the relayer's account does not exist yet. *)

From Stdlib Require Import ZArith Lia Strings.Byte Strings.String.
From stdpp Require Import base option list gmap numbers.
From S2P Require Import Prelude Bytes Text Crypto Json ConfigText Cli Configuration CosmosSigner WasmUpload.
Open Scope Z_scope.

Record Demo : Type := MkDemo {
  clock : Z;
  files : bytes -> option bytes;
  known : list bytes;      (* accounts of the chain *)
  mempool : list bytes;    (* memos of accepted transactions *)
  executed : list bytes;
}.

(** The libraries, with a transaction as its memo. *)
#[local] Instance demo_tx : CosmosTx := {|
  SigningKey := bytes;
  key_from_slice := Some;
  account_id := fun prefix k => Some (prefix ++ bstr "1" ++ k);
  denom_ok := fun _ => true;
  chain_id_ok := fun _ => true;
  sign_doc := fun d _ => Some (doc_memo d);
  encode_send := fun m => to_address m;
  encode_store_code := fun m => wasm_byte_code m;
  encode_submit := fun m => title m;
  encode_vote := fun m => voter m;
  base64 := fun b => b;
|}.
#[local] Instance demo_sha : Sha256 := toy_sha256.

Definition REST : bytes := bstr "http://127.0.0.1:1317".
Definition ok (v : Value) : option Reply := Some (MkReply 200 (Some v)).
Definition RELAYER : bytes := bstr "cosmos1r".
Definition artifact : bytes := bstr "wasm".
Definition SHA : bytes := Hex.encode (sha256 artifact).

Definition landed_value : Value :=
  jobject [("tx_response", jobject [("code", JNumber 0);
    ("events", JArray [jobject [("type", jtext "submit_proposal");
       ("attributes", JArray [jobject [("key", jtext "proposal_id"); ("value", jtext "3")]])]])])]%string.

Definition answer (s : Demo) (path : bytes) : option Reply :=
  if decide (path = REST ++ bstr "/cosmos/base/tendermint/v1beta1/node_info") then ok JNull
  else if decide (path = REST ++ bstr "/ibc/lightclients/wasm/v1/checksums") then
    ok (jobject [("checksums", JArray (if decide (bstr "upload-lc-wasm-vote" ∈ executed s) then [JString SHA] else []))]%string)
  else if decide (path = REST ++ bstr "/cosmos/auth/v1beta1/module_accounts/gov") then
    ok (jobject [("account", jobject [("value", jobject [("address", jtext "cosmos1gov")])])]%string)
  else if decide (path = REST ++ bstr "/cosmos/tx/v1beta1/txs/HASH") then
    if decide (bstr "upload-lc-wasm" ∈ executed s) then ok landed_value else Some (MkReply 404 None)
  else if decide (Exists (fun a => path = REST ++ bstr "/cosmos/auth/v1beta1/accounts/" ++ a) (known s)) then
    ok (jobject [("account", jobject [("account_number", jtext "7"); ("sequence", jtext "1")])]%string)
  else Some (MkReply 404 None).

Definition accept (s : Demo) (body : Value) : Demo :=
  MkDemo (clock s) (files s) (known s) (string_field body "tx_bytes" :: mempool s) (executed s).
Definition block (s : Demo) : Demo :=
  MkDemo (clock s) (files s)
    (if decide (bstr "bank-send" ∈ mempool s) then RELAYER :: known s else known s) [] (mempool s ++ executed s).
Definition after (d : Z) (s : Demo) : Demo := MkDemo (clock s + d) (files s) (known s) (mempool s) (executed s).
Definition put (f t : bytes) (s : Demo) : Demo :=
  MkDemo (clock s) (fun g => if decide (g = f) then Some t else files s g) (known s) (mempool s) (executed s).

#[local] Instance demo_world : World Demo := {|
  http := fun r s =>
    match req_method r with
    | GET => (s, answer s (req_target r))
    | POST => (accept s (req_body r),
               ok (jobject [("tx_response", jobject [("txhash", jtext "HASH"); ("code", JNumber 0)])]%string))
    end;
  spawn := fun c s => (s, Some (MkOutput true [] [] []));
  connect := fun _ s => (s, true);
  now := clock;
  sleep := fun d s => after d (block s);
  unix_secs := fun s => 1700000000 + clock s / 1000;
  read_file := fun f s => files s f;
  write_file := fun f t s => (put f t s, true);
  is_dir := fun _ _ => false;
|}.
#[local] Instance demo_laws : WorldLaws Demo.
Proof.
  split; try done.
  - intros r w. cbn. destruct (req_method r); reflexivity.
  - intros r w f. cbn. by destruct (req_method r).
  - intros f t w w' [= <-]. cbn. by rewrite decide_True.
  - intros f g t w Hne. cbn. by rewrite decide_False.
Qed.

Definition demo_env : Env := fun k =>
  if decide (k = bstr "COSMOS_RELAYER_PRIVATE_KEY") then Some (bstr "72")
  else if decide (k = bstr "COSMOS_VALIDATOR_PRIVATE_KEY") then Some (bstr "76") else None.
Definition ROOT : bytes := bstr "/repo".
Definition CONFIG : bytes := bstr "/repo/hermes-config.toml".
Definition config_text : bytes := bstr "id = 'simd-1'" ++ [nl] ++ bstr "  wasm_checksum_hex = ''" ++ [nl].
Definition start (accounts : list bytes) : Demo :=
  MkDemo 0 (fun f => if decide (f = CONFIG) then Some config_text
                     else if decide (f = wasm_file ROOT) then Some artifact else None) accounts [] [].
Definition demo_upload (accounts : list bytes) : Demo * result bytes unit :=
  upload (fun _ => []) demo_env ROOT CONFIG false None (start accounts).

(** With the accounts in place the upload succeeds and the configuration names the checksum. *)
Example demo_upload_succeeds :
  (demo_upload [RELAYER; bstr "cosmos1v"]).2 = Ok tt /\
  files (demo_upload [RELAYER; bstr "cosmos1v"]).1 CONFIG =
    Some (bstr "id = 'simd-1'" ++ [nl] ++ bstr "  wasm_checksum_hex = '" ++ SHA ++ bstr "'" ++ [nl]).
Proof. vm_compute. auto. Qed.

(** The relayer's account is funded but the next step does not wait for the block that creates it: the upload
    fails though every transaction was accepted, and it succeeds when it is started again. *)
Lemma funding_not_awaited :
  (demo_upload [bstr "cosmos1v"]).2 = err "HTTP status error" /\
  mempool (demo_upload [bstr "cosmos1v"]).1 = [bstr "bank-send"] /\
  (upload (fun _ => []) demo_env ROOT CONFIG false None (sleep 1000 (demo_upload [bstr "cosmos1v"]).1)).2 = Ok tt.
Proof. vm_compute. auto. Qed.

Lemma upload_registers_code_witness :
  let w := start [RELAYER; bstr "cosmos1v"] in
  let out := upload (fun _ => []) demo_env ROOT CONFIG false None w in
  read_file CONFIG out.1 = Some config_text \/ out.2 = Err (writing_failed CONFIG) \/
  (out.2 = Ok tt /\ exists text', read_file CONFIG out.1 = Some text' /\ registered_in (W:=Demo) demo_env config_text text').
Proof.
  intros w out.
  apply (upload_registers_code (W:=Demo) (fun _ => []) demo_env ROOT CONFIG None w out.1 out.2 config_text).
  - by intros c s.
  - vm_compute. reflexivity.
  - apply (bool_decide_unpack _). vm_compute. exact I.
  - subst out. by destruct (upload _ _ _ _ _ _ _).
Defined.
