(* ===== verification/CliStack.v ===== *)
(** * Services, keys and accounts of the command-line tool ([interstellar/src])

    Bringing containers up and down ([services/mod.rs], [stack.rs]), importing the relayer's keys
    ([services/hermes/keys.rs]), provisioning accounts ([accounts/mod.rs]) and the whole start-up
    ([start.rs]). *)

From Stdlib Require Import ZArith Lia Strings.Byte Strings.String.
From stdpp Require Import base option list gmap numbers.
From S2P Require Import Prelude Bytes Text Crypto Json ConfigText Cli Configuration CosmosSigner WasmUpload CliTx.
Open Scope Z_scope.

(** ** [services/mod.rs] *)

Inductive Service : Type := ApiService | GatewayService | HermesService | CosmosService.
#[export] Instance Service_eq_dec : EqDecision Service.
Proof. solve_decision. Defined.
Definition compose_name (s : Service) : bytes :=
  match s with
  | ApiService => bstr "api" | GatewayService => bstr "gateway" | HermesService => bstr "hermes"
  | CosmosService => bstr "cosmos"
  end.
Definition buildable (s : Service) : bool := match s with CosmosService => false | _ => true end.
Definition service_image (env : Env) (cfg : Config) (s : Service) : bytes :=
  match s with
  | ApiService => reference (api cfg)
  | GatewayService => reference (gateway cfg)
  | HermesService => reference (hermes_image (hermes cfg))
  | CosmosService => get_key env "COSMOS_CHAIN_IMAGE" "ghcr.io/cosmos/ibc-go-wasm-simd:v11.0.0"
  end.
Definition ALL_SERVICES : list Service := [ApiService; GatewayService; HermesService; CosmosService].

Record ServiceArgs : Type := MkServiceArgs { arg_api : bool; arg_gateway : bool; arg_hermes : bool; arg_cosmos : bool }.
Definition selected (a : ServiceArgs) : list Service :=
  let picked := (if arg_api a then [ApiService] else []) ++ (if arg_gateway a then [GatewayService] else []) ++
                (if arg_hermes a then [HermesService] else []) ++ (if arg_cosmos a then [CosmosService] else []) in
  if decide (picked = []) then ALL_SERVICES else picked.

Inductive ServicesCmd : Type :=
| Pull (a : ServiceArgs) | Up (a : ServiceArgs) | RestartServices (a : ServiceArgs) | Down (a : ServiceArgs)
| Build (a : ServiceArgs) | Push (a : ServiceArgs).

Section Stack.
Context `{World W}.
Variable env : Env.
Variable root : bytes.

Definition texts (l : list string) : list bytes := bstr <$> l.

Definition pull (services : list Service) : IO W unit := compose root (bstr "pull" :: (compose_name <$> services)).
Definition up (services : list Service) : IO W unit :=
  _ ← pull services;
  compose root (texts ["up"; "-d"]%string ++ (compose_name <$> services)).
Definition down (services : list Service) : IO W unit :=
  compose root (texts ["rm"; "-s"; "-f"]%string ++ (compose_name <$> services)).
Definition restart (services : list Service) : IO W unit := _ ← down services; up services.

Definition docker_login : IO W unit :=
  let user := get_key env "DOCKER_USERNAME" "" in
  let token := get_key env "DOCKER_TOKEN" "" in
  if bool_decide (user = []) || bool_decide (token = []) then mret tt
  else piped (MkCommand (bstr "docker") [bstr "login"; bstr "-u"; user; bstr "--password-stdin"] root token).

Definition hermes_repo (cfg : Config) : IO W bytes :=
  let h := hermes cfg in
  if decide (trim (repo_url h) = []) then bail (bstr "HERMES_REPO_URL is unset")
  else
    let repo := path_join root (bstr "target/hermes-relayer") in
    cloned ← effect (fun w => (w, is_dir (path_join repo (bstr ".git")) w));
    _ ← (if (cloned : bool) then command (git_in repo [bstr "remote"; bstr "set-url"; bstr "origin"; repo_url h])
         else command (git_in root [bstr "clone"; repo_url h; repo]));
    _ ← command (git_in repo [bstr "fetch"; bstr "origin"; branch h]);
    _ ← command (git_in repo [bstr "checkout"; branch h]);
    _ ← command (git_in repo [bstr "reset"; bstr "--hard"; bstr "origin/" ++ branch h]);
    mret repo.

Definition build_image (cfg : Config) (s : Service) (dockerfile context : bytes) (push : bool) : IO W unit :=
  let image := service_image env cfg s in
  _ ← command (docker_in root [bstr "build"; bstr "-t"; image; bstr "-f"; dockerfile; context]);
  if negb push then mret tt
  else
    _ ← docker_login;
    command (docker_in root [bstr "push"; image]).
Definition build_one (cfg : Config) (s : Service) (push : bool) : IO W unit :=
  match s with
  | ApiService => build_image cfg s (bstr "crates/api/Dockerfile") (bstr ".") push
  | GatewayService => build_image cfg s (bstr "crates/gateway/Dockerfile") (bstr ".") push
  | HermesService => repo ← hermes_repo cfg; build_image cfg s (repo ++ bstr "/ci/release/hermes.Dockerfile") repo push
  | CosmosService => mret tt
  end.
Fixpoint build_each (cfg : Config) (services : list Service) (push : bool) : IO W unit :=
  match services with
  | [] => mret tt
  | s :: services => _ ← build_one cfg s push; build_each cfg services push
  end.
Definition build_or_push (cfg : Config) (a : ServiceArgs) (push : bool) : IO W unit :=
  if arg_cosmos a then bail (bstr "cosmos uses an upstream image")
  else build_each cfg (List.filter buildable (selected a)) push.

Definition services_run (cfg : Config) (cmd : ServicesCmd) : IO W unit :=
  match cmd with
  | Pull a => pull (selected a)
  | Up a => up (selected a)
  | RestartServices a => restart (selected a)
  | Down a => down (selected a)
  | Build a => build_or_push cfg a false
  | Push a => build_or_push cfg a true
  end.

(** ** [stack.rs] *)

Definition stack_up (cosmos_only stellar_only : bool) : IO W unit :=
  compose root (texts ["up"; "-d"]%string ++ texts
    (if cosmos_only then ["cosmos"] else if stellar_only then ["api"; "gateway"] else ["cosmos"; "api"; "gateway"])%string).
Definition stack_down (volumes : bool) : IO W unit :=
  compose root (bstr "down" :: (if volumes then [bstr "--volumes"] else [])).

(** ** [services/hermes/keys.rs] *)

Definition compose_run_args (script : bytes) : list bytes :=
  texts ["compose"; "--profile"; "local"; "--profile"; "hermes"; "run"; "--rm"; "--no-deps"; "-T"; "--entrypoint"; "sh";
         "hermes"; "-c"]%string ++ [script].
Definition import_script (cfg : Config) (file flag chain key_name : bytes) : bytes :=
  bstr "cat > " ++ file ++ bstr " && hermes --config " ++ config_path (hermes cfg) ++ bstr " keys add --chain " ++ chain ++
  bstr " " ++ flag ++ bstr " " ++ file ++ bstr " --key-name " ++ key_name ++ bstr " --overwrite; rc=$?; rm -f " ++ file ++
  bstr "; exit $rc".
Definition import_mnemonic (cfg : Config) (chain key_name mnemonic : bytes) : IO W unit :=
  piped (MkCommand (bstr "docker")
    (compose_run_args (import_script cfg (bstr "/tmp/m.txt") (bstr "--mnemonic-file") chain key_name)) root (mnemonic ++ [nl])).
Definition import_secret (cfg : Config) (chain key_name secret : bytes) : IO W unit :=
  piped (MkCommand (bstr "docker")
    (compose_run_args (import_script cfg (bstr "/tmp/k.json") (bstr "--key-file") chain key_name)) root
    (bstr "{" ++ [double_quote] ++ bstr "secret_key" ++ [double_quote] ++ bstr ":" ++ [double_quote] ++ secret ++
     [double_quote] ++ bstr "}" ++ [nl])).

(** [hermes::keys::import]; a failed import of the testnet key is only reported. *)
Definition import_keys (cfg : Config) : IO W unit :=
  if decide (relayer_mnemonic (cosmos cfg) = []) then bail (bstr "COSMOS_RELAYER_MNEMONIC is empty in .env")
  else if decide (signing_key (stellar cfg) = []) then bail (bstr "STELLAR_SIGNING_KEY is empty in .env")
  else
    _ ← attempt (compose root (texts ["stop"; "hermes"]%string));
    _ ← import_mnemonic cfg (chain_id_str (cosmos_chain (cosmos cfg))) (cosmos_key_name (cosmos cfg))
          (relayer_mnemonic (cosmos cfg));
    let t := testnet env in
    let specific := get_key env "COSMOS_TESTNET_MNEMONIC" "" in
    let mnemonic := if decide (trim specific = []) then relayer_mnemonic (cosmos cfg) else specific in
    _ ← (if decide (trim mnemonic = []) then mret tt
         else _ ← attempt (import_mnemonic cfg (chain_id_str (cosmos_chain t)) (cosmos_key_name t) (trim mnemonic)); mret tt);
    _ ← import_secret cfg (chain_id_str (stellar_chain (stellar cfg))) (stellar_key_name (stellar cfg))
          (signing_key (stellar cfg));
    compose root (texts ["up"; "-d"; "hermes"]%string).

(** ** [accounts/mod.rs] *)

(** [.ok().map(trim).filter(non-empty)]. *)
Definition quiet_line (c : Command) : IO W (option bytes) :=
  out ← attempt (capture_quiet c);
  mret (match out with Ok s => non_empty (trim s) | Err _ => None end).
Definition stellar_address (name : bytes) : IO W (option bytes) :=
  quiet_line (stellar_in root [bstr "keys"; bstr "public-key"; name]).
Definition stellar_secret (name : bytes) : IO W (option bytes) :=
  quiet_line (stellar_in root [bstr "keys"; bstr "secret"; name]).
Definition net_args (cfg : Config) : list bytes :=
  [bstr "--rpc-url"; stellar_rpc_url (stellar cfg); bstr "--network-passphrase"; stellar_passphrase (stellar cfg)].
Definition fund_stellar_identity (cfg : Config) (name : bytes) : IO W unit :=
  _ ← attempt (capture_all (stellar_in root ([bstr "keys"; bstr "fund"; name] ++ net_args cfg)));
  mret tt.
Definition generate_args (cfg : Config) (name : bytes) (overwrite : bool) : list bytes :=
  [bstr "keys"; bstr "generate"; name] ++ net_args cfg ++ [bstr "--fund"] ++
  (if overwrite then [bstr "--overwrite"] else []).
Definition ensure_stellar_identity (cfg : Config) (name : bytes) (force : bool) : IO W (bytes * bytes) :=
  existing ← stellar_address name;
  match (if force then None else existing) with
  | Some addr =>
      _ ← fund_stellar_identity cfg name;
      secret ← stellar_secret name;
      mret (addr, default [] secret)
  | None =>
      _ ← command (stellar_in root (generate_args cfg name (match existing with Some _ => true | None => false end)));
      addr ← stellar_address name;
      addr ← lift_io (ok_or (bstr "could not resolve address for stellar identity") addr);
      secret ← stellar_secret name;
      mret (addr, default [] secret)
  end.
Definition provision_stellar (cfg : Config) (force : bool) : IO W unit :=
  installed ← has (bstr "stellar");
  if negb installed then bail (bstr "stellar CLI not found in PATH")
  else
    let sender_id := stellar_sender_identity (accounts cfg) in
    let receiver_id := stellar_receiver_identity (accounts cfg) in
    '(sender_addr, sender_secret) ← ensure_stellar_identity cfg sender_id force;
    '(receiver_addr, receiver_secret) ← ensure_stellar_identity cfg receiver_id force;
    upsert_file (env_file root)
      [(bstr "STELLAR_SENDER_IDENTITY", sender_id); (bstr "STELLAR_SENDER_ADDRESS", sender_addr);
       (bstr "STELLAR_SENDER_KEY", sender_secret); (bstr "STELLAR_RECEIVER_IDENTITY", receiver_id);
       (bstr "STELLAR_RECEIVER_ADDRESS", receiver_addr); (bstr "STELLAR_RECEIVER_KEY", receiver_secret)].

Definition simd (args : list bytes) : IO W bytes :=
  capture_all (docker_in root (texts ["compose"; "exec"; "-T"; "cosmos"; "simd"]%string ++ args ++
                               texts ["--keyring-backend"; "test"; "--home"; "/root/.simapp"]%string)).
Definition cosmos_key_address (name : bytes) : IO W (option bytes) :=
  out ← attempt (simd [bstr "keys"; bstr "show"; name; bstr "-a"]);
  mret (match out with
        | Ok out => non_empty (default [] (List.find (prefix_of (bstr "cosmos")) (trim <$> lines out)))
        | Err _ => None
        end).
Definition ensure_cosmos_key (name : bytes) (force : bool) : IO W (bytes * bool) :=
  existing ← cosmos_key_address name;
  match existing, force with
  | Some addr, false => mret (addr, false)
  | _, _ =>
      _ ← (match existing with
           | Some _ => _ ← simd [bstr "keys"; bstr "delete"; name; bstr "--yes"]; mret tt
           | None => mret tt
           end);
      _ ← simd [bstr "keys"; bstr "add"; name];
      addr ← cosmos_key_address name;
      addr ← lift_io (ok_or (bstr "could not resolve address for cosmos key") addr);
      mret (addr, true)
  end.
Definition fund_cosmos (cfg : Config) (address : bytes) : IO W unit :=
  _ ← simd ([bstr "tx"; bstr "bank"; bstr "send"; cosmos_key_name (cosmos cfg); address; bstr "1000000000stake";
             bstr "--chain-id"; chain_id_str (cosmos_chain (cosmos cfg))] ++
            texts ["--gas"; "auto"; "--gas-adjustment"; "1.5"; "--gas-prices"; "0.025stake"; "--broadcast-mode"; "sync";
                   "--yes"]%string);
  mret tt.
Definition provision_cosmos (cfg : Config) (force : bool) : IO W unit :=
  if negb (is_local (cosmos cfg)) then mret tt
  else
    let sender_name := cosmos_sender_key_name (accounts cfg) in
    let receiver_name := cosmos_receiver_key_name (accounts cfg) in
    '(sender_addr, sender_created) ← ensure_cosmos_key sender_name force;
    '(receiver_addr, _) ← ensure_cosmos_key receiver_name force;
    _ ← (if (sender_created : bool) then fund_cosmos cfg sender_addr else mret tt);
    upsert_file (env_file root)
      [(bstr "COSMOS_SENDER_KEY_NAME", sender_name); (bstr "COSMOS_SENDER_ADDRESS", sender_addr);
       (bstr "COSMOS_RECEIVER_KEY_NAME", receiver_name); (bstr "COSMOS_RECEIVER_ADDRESS", receiver_addr)].
Definition provision (cfg : Config) (force : bool) : IO W unit :=
  _ ← provision_stellar cfg force;
  provision_cosmos cfg force.

(** ** [start.rs] *)

Definition WAIT_TIMEOUT_SECS : Z := 300.
Record StartArgs : Type := MkStartArgs {
  skip_images : bool; skip_contracts : bool; skip_wasm : bool; skip_keys : bool; skip_accounts : bool;
  force_redeploy : bool;
}.
Context `{Sha256} `{CosmosTx}.
Variable to_string_pretty : Value -> bytes.
Variable address_from_secret : bytes -> option bytes.

Definition start_services (cfg : Config) : IO W unit :=
  reachable ← http_ok (api_health_url cfg);
  if (reachable : bool) then mret tt
  else
    _ ← compose root (texts ["up"; "-d"; "api"; "gateway"]%string);
    up ← wait_http (api_health_url cfg) WAIT_TIMEOUT_SECS;
    if (up : bool) then mret tt else bail (bstr "api not reachable").
Definition start_contracts (cfg : Config) (force_redeploy : bool) : IO W unit :=
  deployed ← deploy_all root address_from_secret (contracts_config cfg) force_redeploy false;
  if (deployed : bool) then
    _ ← compose root (texts ["up"; "-d"; "--force-recreate"; "api"; "gateway"]%string);
    _ ← wait_http (api_health_url cfg) WAIT_TIMEOUT_SECS;
    mret tt
  else mret tt.
Definition start (cfg : Config) (a : StartArgs) : IO W unit :=
  docker ← has (bstr "docker");
  if negb docker then bail (bstr "docker not found in PATH")
  else
    _ ← (if skip_images a then mret tt
         else compose root (texts ["pull"; "cosmos"; "api"; "gateway"; "hermes"]%string));
    _ ← up [CosmosService];
    _ ← start_services cfg;
    _ ← (if skip_contracts a then mret tt else start_contracts cfg (force_redeploy a));
    _ ← (if skip_wasm a then mret tt
         else upload to_string_pretty env root (ct_hermes_config (contracts_config cfg)) false None);
    _ ← (if skip_keys a then mret tt else import_keys cfg);
    if skip_accounts a then mret tt else provision cfg false.

End Stack.

(** ** The commands that run *)

(** The outside with a record of the programs that were started. *)
#[export] Instance logged `{World W} : World (W * list Command) := {|
  http := fun r w => let '(w', a) := http r w.1 in ((w', w.2), a);
  spawn := fun c w => let '(w', o) := spawn c w.1 in ((w', c :: w.2), o);
  connect := fun a w => let '(w', b) := connect a w.1 in ((w', w.2), b);
  now := fun w => now w.1;
  sleep := fun d w => (sleep d w.1, w.2);
  unix_secs := fun w => unix_secs w.1;
  read_file := fun f w => read_file f w.1;
  write_file := fun f t w => let '(w', b) := write_file f t w.1 in ((w', w.2), b);
  is_dir := fun d w => is_dir d w.1;
|}.

Section Runs.
Context `{World W}.
Context (P : Command -> Prop).

(** Every program the command starts satisfies [P]. *)
Definition runs_only {A} (m : IO (W * list Command) A) : Prop := forall w, Forall P w.2 -> Forall P (m w).1.2.

Lemma runs_ret {A} (a : A) : runs_only (mret a).
Proof. by intros w. Qed.
Lemma runs_bail {A} e : runs_only (bail (A:=A) e).
Proof. by intros w. Qed.
Lemma runs_lift {A} (r : result bytes A) : runs_only (lift_io r).
Proof. by intros w. Qed.
Lemma runs_bind {A B} (m : IO (W * list Command) A) (k : A -> IO (W * list Command) B) :
  runs_only m -> (forall a, runs_only (k a)) -> runs_only (m ≫= k).
Proof.
  intros Hm Hk w Hw. specialize (Hm w Hw). unfold mbind, IO_bind. destruct (m w) as [w' [a|e]]; [by apply Hk|done].
Qed.
Lemma runs_attempt {A} (m : IO (W * list Command) A) : runs_only m -> runs_only (attempt m).
Proof. intros Hm w Hw. specialize (Hm w Hw). unfold attempt. by destruct (m w). Qed.
Lemma runs_pause ms : runs_only (pause ms).
Proof. by intros w Hw. Qed.
Lemma runs_spawn c : P c -> runs_only (effect (spawn c)).
Proof. intros Hc w Hw. unfold effect. cbn. destruct (spawn c w.1). cbn. by constructor. Qed.
Lemma runs_http r : runs_only (effect (http r)).
Proof. intros w Hw. unfold effect. cbn. by destruct (http r w.1). Qed.
Lemma runs_read {A} (g : W * list Command -> A) : runs_only (effect (fun w => (w, g w))).
Proof. by intros w Hw. Qed.
Lemma runs_write f t : runs_only (write_text f t).
Proof.
  apply runs_bind; [|intros [|]; [apply runs_ret|apply runs_bail]]. intros w Hw. unfold effect. cbn.
  by destruct (write_file f t w.1).
Qed.
Lemma runs_upsert f us : runs_only (upsert_file f us).
Proof. intros w Hw. unfold upsert_file. by apply runs_write. Qed.
Lemma runs_patch f sha : runs_only (patch_file f sha).
Proof.
  intros w Hw. unfold patch_file. destruct (read_file f w) as [t|]; [|done].
  destruct (patch_wasm_checksum t sha) as [[out [|]]|]; [|done|done].
  by apply (runs_bind (write_text f out)); [apply runs_write|intros _; apply runs_ret|].
Qed.
End Runs.

Create HintDb runs.
#[export] Hint Resolve runs_ret runs_bail runs_lift runs_attempt runs_pause runs_spawn runs_http runs_read runs_write
  runs_upsert runs_patch : runs.
Ltac runs :=
  repeat first
    [ progress intros
    | match goal with |- runs_only _ (_ ≫= _) => apply runs_bind end
    | match goal with |- runs_only _ (if ?b then _ else _) => destruct b end
    | match goal with |- runs_only _ (match ?o with _ => _ end) => destruct o end
    | solve [eauto with runs] ].

Section RunsCommands.
Context `{World W}.
Context (P : Command -> Prop).
Lemma runs_command c : P c -> runs_only P (command c).
Proof. intros Hc. unfold command, output. runs. Qed.
Lemma runs_capture c : P c -> runs_only P (capture c).
Proof. intros Hc. unfold capture, output. runs. Qed.
Lemma runs_capture_quiet c : P c -> runs_only P (capture_quiet c).
Proof. intros Hc. unfold capture_quiet, output. runs. Qed.
Lemma runs_capture_all c : P c -> runs_only P (capture_all c).
Proof. intros Hc. unfold capture_all, output. runs. Qed.
Lemma runs_has name : P (MkCommand name [bstr "--version"] [] []) -> runs_only P (has name).
Proof. intros Hc. unfold has. runs. Qed.
Lemma runs_http_ok url : runs_only P (http_ok url).
Proof. unfold http_ok. runs. Qed.
Lemma runs_wait_http url t : runs_only P (wait_http url t).
Proof.
  intros w Hw. unfold wait_http. destruct (wait_http_loop _ _ _ _ _) as [[w' b]|] eqn:Hl; [|done]. cbn [fst].
  revert w Hw Hl. generalize (Z.to_nat (t / 5 + 2)) as fuel. intros fuel w Hw.
  generalize (now w) as s0. revert w Hw. induction fuel as [|fuel IH]; intros w Hw s0; [done|]. cbn [wait_http_loop].
  pose proof (runs_http_ok url w Hw) as Hh. destruct (http_ok url w) as [w1 [[|]|e]]; cbn [fst] in Hh.
  - by intros [= <- <-].
  - destruct (t <=? _); [by intros [= <- <-]|]. by apply IH.
  - destruct (t <=? _); [by intros [= <- <-]|]. by apply IH.
Qed.
Lemma runs_invoke_retry n c : P c -> runs_only P (invoke_retry n c).
Proof.
  intros Hc. pose proof (runs_capture_all c Hc). induction n as [|n IH]; cbn [invoke_retry]; runs.
Qed.
End RunsCommands.
#[export] Hint Resolve runs_command runs_capture runs_capture_quiet runs_capture_all runs_has runs_http_ok runs_wait_http
  runs_invoke_retry : runs.

Section RunsSigner.
Context `{CosmosTx} `{World W}.
Context (P : Command -> Prop) (self : Signer).
Lemma runs_fetch path : runs_only P (fetch self path).
Proof. unfold fetch, send_get. runs. Qed.
Lemma runs_tx_by_hash hash : runs_only P (tx_by_hash self hash).
Proof. unfold tx_by_hash, send_get. runs. Qed.
Lemma runs_wait_for_tx hash t : runs_only P (wait_for_tx self hash t).
Proof.
  intros w Hw. unfold wait_for_tx. destruct (wait_loop _ _ _ _ _ _) as [[w' r]|] eqn:Hl; [|done]. cbn [fst].
  revert w Hw Hl. generalize (wait_fuel t) as fuel. generalize 500 as delay. intros delay fuel w Hw.
  generalize (now w + t) as deadline. revert delay w Hw.
  induction fuel as [|fuel IH]; intros delay w Hw deadline; [done|]. cbn [wait_loop].
  pose proof (runs_tx_by_hash hash w Hw) as Hh. destruct (tx_by_hash self hash w) as [w1 [v|e]]; cbn [fst] in Hh.
  - by intros [= <- <-].
  - destruct (now w1 <? deadline); [by apply IH|by intros [= <- <-]].
Qed.
Hint Resolve runs_fetch runs_wait_for_tx : runs.
Lemma runs_sign_and_broadcast a m memo g fee : runs_only P (sign_and_broadcast self a m memo g fee).
Proof. unfold sign_and_broadcast, account_info, broadcast_tx_bytes. runs. Qed.
Hint Resolve runs_sign_and_broadcast : runs.
Lemma runs_fund_account to a g fee b : runs_only P (fund_account self to a g fee b).
Proof. unfold fund_account, account_exists, send_get. runs. Qed.
Lemma runs_submit_store_code b t s d g fee wt : runs_only P (submit_store_code self b t s d g fee wt).
Proof. unfold submit_store_code, gov_module_address. runs. Qed.
Lemma runs_vote i o g fee : runs_only P (vote self i o g fee).
Proof. unfold vote. runs. Qed.
Lemma runs_node_info : runs_only P (node_info_ok self).
Proof. unfold node_info_ok. runs. Qed.
Lemma runs_checksums : runs_only P (checksums self).
Proof. unfold checksums. runs. Qed.
Hint Resolve runs_checksums : runs.
Lemma runs_checksum_attempts n sha : runs_only P (checksum_attempts n self sha).
Proof. induction n as [|n IH]; cbn [checksum_attempts]; runs. Qed.
End RunsSigner.
#[export] Hint Resolve runs_fund_account runs_submit_store_code runs_vote runs_node_info runs_checksum_attempts : runs.

(** ** Keys are kept *)

(** The command replaces an identity of the [stellar] program or deletes a key of the local chain. *)
Definition destroys (c : Command) : bool :=
  (bool_decide (program c = bstr "stellar") && bool_decide (take 2 (args c) = texts ["keys"; "generate"]%string) &&
   bool_decide (list.last (args c) = Some (bstr "--overwrite"))) ||
  (bool_decide (program c = bstr "docker") &&
   bool_decide (take 7 (args c) = texts ["compose"; "exec"; "-T"; "cosmos"; "simd"; "keys"; "delete"]%string)).
Definition safe (c : Command) : Prop := destroys c = false.

(** The names of the programs and their first arguments are constants. *)
#[export] Hint Extern 1 (safe _) => reflexivity : runs.

Section Safe.
Context `{World W}.
Variable env : Env.
Variable root : bytes.

Lemma runs_compose extra : runs_only safe (compose root extra).
Proof. unfold compose. runs. Qed.
Hint Resolve runs_compose : runs.
Lemma runs_quiet_line c : safe c -> runs_only safe (quiet_line c).
Proof. intros Hc. unfold quiet_line. runs. Qed.
Lemma runs_simd a b l : bstr "delete" <> b \/ bstr "keys" <> a -> runs_only safe (simd root (a :: b :: l)).
Proof.
  intros Hb. apply runs_capture_all. unfold safe, destroys. cbn [program args docker_in].
  apply orb_false_iff. split; [reflexivity|]. apply andb_false_iff. right. apply bool_decide_eq_false_2.
  cbn [texts fmap list_fmap app take]. intros Heq. injection Heq as Ha' Hb'. destruct Hb; congruence.
Qed.
Lemma runs_stellar_address name : runs_only safe (stellar_address root name).
Proof. by apply runs_quiet_line. Qed.
Lemma runs_stellar_secret name : runs_only safe (stellar_secret root name).
Proof. by apply runs_quiet_line. Qed.
Lemma safe_generate cfg name : safe (stellar_in root (generate_args cfg name false)).
Proof. reflexivity. Qed.
Hint Resolve runs_stellar_address runs_stellar_secret safe_generate : runs.
Lemma runs_fund_identity cfg name : runs_only safe (fund_stellar_identity root cfg name).
Proof. unfold fund_stellar_identity. runs. Qed.
Hint Resolve runs_fund_identity : runs.
Lemma runs_ensure_stellar cfg name : runs_only safe (ensure_stellar_identity root cfg name false).
Proof. unfold ensure_stellar_identity. runs. Qed.
Lemma runs_key_address name : runs_only safe (cosmos_key_address root name).
Proof. unfold cosmos_key_address. apply runs_bind; [|runs]. apply runs_attempt, runs_simd. by left. Qed.
Hint Resolve runs_key_address runs_ensure_stellar : runs.
Lemma runs_ensure_cosmos name : runs_only safe (ensure_cosmos_key root name false).
Proof.
  unfold ensure_cosmos_key. apply runs_bind; [runs|]. intros [addr|]; [runs|].
  apply runs_bind; [runs|]. intros _. apply runs_bind; [|runs]. apply runs_simd. by left.
Qed.
Lemma runs_fund_cosmos cfg a : runs_only safe (fund_cosmos root cfg a).
Proof. unfold fund_cosmos. apply runs_bind; [|runs]. apply runs_simd. by left. Qed.
Hint Resolve runs_ensure_cosmos runs_fund_cosmos : runs.
Lemma runs_provision cfg : runs_only safe (provision root cfg false).
Proof. unfold provision, provision_stellar, provision_cosmos. runs. Qed.

Lemma runs_import_mnemonic cfg c k m : runs_only safe (import_mnemonic root cfg c k m).
Proof. unfold import_mnemonic, piped. runs. Qed.
Lemma runs_import_secret cfg c k m : runs_only safe (import_secret root cfg c k m).
Proof. unfold import_secret, piped. runs. Qed.
Hint Resolve runs_import_mnemonic runs_import_secret : runs.
Lemma runs_import_keys cfg : runs_only safe (import_keys env root cfg).
Proof. unfold import_keys. runs. Qed.

Lemma runs_deploy cfg wasm ctor : runs_only safe (deploy root cfg wasm ctor).
Proof. unfold deploy. runs. Qed.
Lemma runs_invoke cfg id call : runs_only safe (invoke root cfg id call).
Proof. unfold invoke, invoke_as, invoke_with_seq_retry. runs. Qed.
Lemma runs_build : runs_only safe (build root).
Proof. unfold build. runs. Qed.
Hint Resolve runs_deploy runs_invoke runs_build : runs.
Lemma runs_deploy_all addr cfg force att : runs_only safe (deploy_all root addr cfg force att).
Proof. unfold deploy_all, register_type. runs. Qed.
Hint Resolve runs_import_keys runs_deploy_all runs_provision : runs.

Context `{Sha256} `{CosmosTx}.
Lemma runs_build_wasm : runs_only safe (build_wasm root).
Proof. unfold build_wasm. runs. Qed.
Hint Resolve runs_build_wasm : runs.
Lemma runs_upload pretty f from : runs_only safe (upload pretty env root f false from).
Proof. unfold upload, checksum_registered. runs. Qed.
Hint Resolve runs_upload : runs.

(** Starting the stack, with its contracts, keys and accounts, replaces no identity of the [stellar] program and
    deletes no key of the local chain, whatever the programs answer and wherever it stops. *)
Theorem start_keeps_keys pretty addr cfg a w w' l r :
  start env root pretty addr cfg a (w, []) = ((w', l), r) -> Forall safe l.
Proof.
  intros Hs. assert (runs_only safe (start env root pretty addr cfg a)) as Hr.
  { unfold start, up, pull, start_services, start_contracts. runs. }
  specialize (Hr (w, []) ltac:(constructor)). by rewrite Hs in Hr.
Qed.
End Safe.

(** Forcing an account does replace it. *)
Lemma forced_generation_destroys root cfg name : destroys (stellar_in root (generate_args cfg name true)) = true.
Proof. reflexivity. Qed.

Example selected_services :
  selected (MkServiceArgs false false false false) = ALL_SERVICES /\
  selected (MkServiceArgs false true false true) = [GatewayService; CosmosService].
Proof. split; reflexivity. Qed.
