(* ===== verification/Deployment.v ===== *)
(** * A deployment seen from the ledger ([interstellar/src/tx/contracts] over [ibc-router])

    The tool deploys the contracts by running the [stellar] program; what that program does is a transaction on
    the network.  This file puts the two models together: the class [StellarNet] says which router a contract id
    names in a state of the outside, its laws say what the documented commands of [stellar] do to it, and the
    theorem says what a deployment that reports success has made of the router the environment file names.
    The laws leave the network free to run any transactions between, of everybody but the deployer. *)

From Stdlib Require Import ZArith Lia Strings.Byte Strings.String.
From stdpp Require Import base option list gmap numbers.
From S2P Require Import Prelude Bytes Crypto Host RouterTypes Identifiers CoreCommitment Ics24Host Interfaces IbcStore.
From S2P Require Import PortRouter Ics02Client PacketHandler Router System.
From S2P Require Import Text Json ConfigText Configuration Cli CliTx.
Open Scope Z_scope.

(** ** What the administrator alone can do *)

Section Administration.
Context {X : Type} `{Sha256} `{LightClients X} `{IbcApps X}.
Implicit Types w : RouterTypes.World X.

(** A transaction the administrator did not authorise. *)
Definition foreign (admin : Address) (l : label) : Prop :=
  match l with LCall env _ _ => authorized env admin = false | _ => True end.
(** One of those, or this call of the administrator. *)
Definition mine (admin : Address) (call : Call) (l : label) : Prop :=
  foreign admin l \/ exists env r, l = LCall env call r.

Record run_by (admin : Address) w : Prop := {
  run_inv : router_inv w;
  run_admin : rinst w !! KData Admin = Some (RvAddress admin);
}.

Lemma deployed_run_by admin x : run_by admin (deployed admin x).
Proof. split; [apply deployed_inv|]. apply lookup_insert_eq. Qed.
Lemma step_run_by admin w l w' : run_by admin w -> Router.step w l w' -> run_by admin w'.
Proof.
  intros [Hi Ha] Hs. split; [by eapply step_inv|].
  destruct (step_refines _ _ _ (inv_typed _ Hi) Hs) as (a & _ & _ & _ & -> & _). done.
Qed.
Lemma steps_run_by admin w ls w' : run_by admin w -> steps Router.step w ls w' -> run_by admin w'.
Proof. apply steps_invariant, step_run_by. Qed.

Definition type_entry (ct : bytes) w : option RVal := rdata w !! KData (ClientTypeAddr ct).

Lemma writes_type_addr : forall a (m : gmap RKey RVal) ct,
  writes a m !! KData (ClientTypeAddr ct) =
  match a with
  | ASetClientType ct' lc => if decide (ct' = ct) then Some (RvAddress lc) else m !! KData (ClientTypeAddr ct)
  | _ => m !! KData (ClientTypeAddr ct)
  end.
Proof. solve_writes. Qed.

(** The light client of a type changes only when the administrator registers one for it. *)
Lemma step_type admin ct w l w' :
  run_by admin w -> Router.step w l w' ->
  type_entry ct w' = type_entry ct w \/
  exists env lc r, l = LCall env (CRegisterClientType ct lc) r /\ authorized env admin = true.
Proof.
  intros [Hi Ha] Hs. unfold type_entry.
  destruct (step_refines _ _ _ (inv_typed _ Hi) Hs) as (a & Hla & _ & -> & _). rewrite writes_type_addr.
  destruct a as [|ct' lc| | | | | | | | | | | | |]; try (by left). case_decide as Hct; [subst ct'|by left]. right.
  destruct Hs as [env c r w w' _ He|env c e w He|w x]; [|done..]. destruct c, r; cbn in Hla; try naive_solver.
  injection Hla as -> ->. exists env, lc_address, VUnit. split; [done|].
  cbn in He. apply returning_Ok in He as (u & Hr & _).
  apply register_client_type_Ok in Hr as (adm & Hadm & Hau & _). congruence.
Qed.
Lemma step_registers ct lc env r w w' :
  Router.step w (LCall env (CRegisterClientType ct lc) r) w' -> type_entry ct w' = Some (RvAddress lc).
Proof.
  intros Hs. inversion Hs as [? ? ? ? ? _ He| |]; subst. cbn in He. apply returning_Ok in He as (u & Hr & _).
  apply register_client_type_Ok in Hr as (adm & _ & _ & _ & Hu & _). unfold type_entry. rewrite Hu.
  apply lookup_insert_eq.
Qed.

(** The calls of the administrator that leave a type alone. *)
Definition spares (ct : bytes) (call : Call) : Prop := forall lc, call <> CRegisterClientType ct lc.

Lemma types_kept admin ct call w ls w' :
  run_by admin w -> spares ct call -> Forall (mine admin call) ls -> steps Router.step w ls w' ->
  type_entry ct w' = type_entry ct w.
Proof.
  intros Hr Hsp Hls Hs. induction Hs as [w|w l w1 ls w2 Hs1 _ IH]; [done|].
  apply list.Forall_cons in Hls as [Hl Hls]. rewrite IH by (done || by eapply step_run_by).
  destruct (step_type admin ct w l w1 Hr Hs1) as [|(env & lc & r & -> & Hau)]; [done|].
  destruct Hl as [Hl|(env' & r' & [= <- <- _])]; [cbn in Hl; congruence|]. by destruct (Hsp lc).
Qed.
Lemma type_registers admin ct lc env r w ls w' :
  run_by admin w -> Forall (mine admin (CRegisterClientType ct lc)) ls -> steps Router.step w ls w' ->
  LCall env (CRegisterClientType ct lc) r ∈ ls \/ type_entry ct w = Some (RvAddress lc) ->
  type_entry ct w' = Some (RvAddress lc).
Proof.
  intros Hr Hls Hs. induction Hs as [w|w l w1 ls w2 Hs1 _ IH].
  - by intros [Hin%not_elem_of_nil|].
  - apply list.Forall_cons in Hls as [Hl Hls]. intros Hin. apply IH; [by eapply step_run_by|done|].
    destruct (step_type admin ct w l w1 Hr Hs1) as [Heq|(env' & lc' & r' & -> & Hau)].
    + destruct Hin as [[<-|Hin]%elem_of_cons|Hin]; [right|by left|right; by rewrite Heq].
      by eapply step_registers.
    + right. destruct Hl as [Hl|(env1 & r1 & [= _ -> _])]; [cbn in Hl; congruence|].
      by apply step_registers in Hs1.
Qed.

(** A port that was registered stays registered. *)
Lemma port_registers port app env r w ls w' :
  router_inv w -> steps Router.step w ls w' -> LCall env (CRegisterPort port app) r ∈ ls ->
  rdata w' !! KData (Port port) = Some (RvAddress app).
Proof.
  intros Hi Hs (l1 & l2 & ->)%list_elem_of_split.
  apply steps_split in Hs as (w1 & w2 & a & _ & _ & Ha & Hacts & Hi2 & Hs2); [|done].
  destruct (steps_entries _ bindings_kept_preorder writes_keep_bindings _ _ _ Hi2 Hs2) as (_ & _ & _ & Hp & _).
  apply Hp. destruct Hacts as (_ & -> & _). destruct r; cbn in Ha; try done. subst a. apply lookup_insert_eq.
Qed.
End Administration.

(** ** The network behind the [stellar] program *)

(** [stellar contract invoke .. --id id -- args]. *)
Definition invocation (c : Command) : option (bytes * list bytes) :=
  if decide (program c = bstr "stellar") then
    match args c with
    | contract :: sub :: source :: _ :: rpc :: _ :: net :: _ :: flag :: id :: dashes :: call =>
        if decide ([contract; sub; source; rpc; net; flag; dashes] =
                   (bstr <$> ["contract"; "invoke"; "--source"; "--rpc-url"; "--network-passphrase"; "--id"; "--"]%string))
        then Some (id, call) else None
    | _ => None
    end
  else None.
(** [stellar contract deploy .. --wasm wasm], with constructor arguments after [--]. *)
Definition deployment (c : Command) : option (bytes * list bytes) :=
  if decide (program c = bstr "stellar") then
    match args c with
    | contract :: sub :: source :: _ :: rpc :: _ :: net :: _ :: flag :: wasm :: ctor =>
        if decide ([contract; sub; source; rpc; net; flag] =
                   (bstr <$> ["contract"; "deploy"; "--source"; "--rpc-url"; "--network-passphrase"; "--wasm"]%string))
        then Some (wasm, drop 1 ctor) else None
    | _ => None
    end
  else None.
Lemma deployment_no_invocation c wasm ctor : deployment c = Some (wasm, ctor) -> invocation c = None.
Proof.
  unfold deployment, invocation. case_decide; [|done].
  destruct (args c) as [|a0 [|a1 [|a2 [|a3 [|a4 [|a5 [|a6 [|a7 [|a8 [|a9 l]]]]]]]]]]; try done.
  case_decide as Hd; [|done]. intros _. destruct l as [|a10 l]; [done|]. rewrite decide_False; [done|].
  intros Hi. apply (f_equal (fun l => l !! 1%nat)) in Hd, Hi. cbn in Hd, Hi. rewrite Hd in Hi. by vm_compute in Hi.
Qed.

Section Net.
Context {W X : Type} `{Cli.World W} `{Sha256} `{LightClients X} `{IbcApps X}.

(** The address a text stands for, and the router of a contract id with everything it calls. *)
Class StellarNet := {
  strkey : bytes -> option Address;
  router_at : bytes -> W -> option (RouterTypes.World X);
}.
Context `{StellarNet} (root : bytes) (admin : Address).

(** The arguments of an invocation, by the names of the parameters of the contract's function. *)
Definition read_call (args : list bytes) : option Call :=
  match args with
  | [name; flag1; value1; flag2; value2] =>
      if decide ([name; flag1; flag2] = (bstr <$> ["register_client_type"; "--client_type"; "--lc_address"]%string)) then
        CRegisterClientType value1 <$> strkey value2
      else if decide ([name; flag1; flag2] = (bstr <$> ["register_port"; "--port_id"; "--app_address"]%string)) then
        CRegisterPort value1 <$> strkey value2
      else None
  | _ => None
  end.

(** The router of [id], if there is one, runs transactions that satisfy [ok]. *)
Definition drifts (ok : label -> Prop) (id : bytes) (w w' : W) : Prop :=
  forall rw, router_at id w = Some rw ->
  exists ls rw', router_at id w' = Some rw' /\ steps Router.step rw ls rw' /\ Forall ok ls.
(** What an invocation with these arguments may add to the transactions of others. *)
Definition invoking (args : list bytes) (l : label) : Prop :=
  foreign admin l \/ exists call env r, read_call args = Some call /\ l = LCall env call r.

(** The router [rw] of [id] after an invocation: its call is among the transactions if the program succeeded. *)
Definition ran (id : bytes) (args : list bytes) (succeeded : bool) (rw : RouterTypes.World X) (w' : W) : Prop :=
  exists ls rw', router_at id w' = Some rw' /\ steps Router.step rw ls rw' /\ Forall (invoking args) ls /\
    (succeeded = true -> exists call env r, read_call args = Some call /\ LCall env call r ∈ ls).

(** The documented behaviour of the network and of the two commands: a contract stays where it is, only the
    tool acts for the administrator, an invocation that succeeds was executed, and a deployment that succeeds
    ran the constructor and printed the id of a new contract. *)
Class NetLaws : Prop := {
  strkey_text : forall t a, strkey t = Some a -> t <> [] /\ Forall (fun b => is_whitespace b = false) t;
  net_sleep : forall d w id, drifts (foreign admin) id w (sleep d w);
  net_write : forall f t w id, drifts (foreign admin) id w (write_file f t w).1;
  net_spawn : forall c w id, (forall args, invocation c <> Some (id, args)) -> drifts (foreign admin) id w (spawn c w).1;
  net_invoke : forall c w w' o id args rw, invocation c = Some (id, args) -> spawn c w = (w', o) ->
    router_at id w = Some rw -> ran id args (match o with Some o => success o | None => false end) rw w';
  net_deploy : forall c w w' o wasm ctor, deployment c = Some (wasm, ctor) -> spawn c w = (w', Some o) ->
    success o = true ->
    exists id, stdout o = id ++ [nl] /\ is_Some (strkey id) /\
      (wasm = wasm_path root "stellar_ibc_router" -> forall a adm, ctor = [bstr "--admin"; a] -> strkey a = Some adm ->
       exists x ls rw, router_at id w' = Some rw /\ steps Router.step (deployed adm x) ls rw /\ Forall (foreign admin) ls);
}.
Context `{!NetLaws}.

Lemma drifts_refl ok id w : drifts ok id w w.
Proof. intros rw Hrw. exists [], rw. split_and!; [done|constructor|constructor]. Qed.
Lemma drifts_trans ok id w1 w2 w3 : drifts ok id w1 w2 -> drifts ok id w2 w3 -> drifts ok id w1 w3.
Proof.
  intros H12 H23 rw (l1 & rw1 & Hrw1 & Hs1 & Hl1)%H12. destruct (H23 rw1 Hrw1) as (l2 & rw2 & Hrw2 & Hs2 & Hl2).
  exists (l1 ++ l2), rw2. split_and!; [done|by eapply steps_app|by apply list.Forall_app].
Qed.
Lemma drifts_mono (ok ok' : label -> Prop) id w w' : (forall l, ok l -> ok' l) -> drifts ok id w w' -> drifts ok' id w w'.
Proof.
  intros Hok Hd rw (ls & rw' & Hrw' & Hs & Hls)%Hd. exists ls, rw'. split_and!; [done..|].
  by eapply list.Forall_impl.
Qed.

(** A command that is run leaves what its program leaves. *)
Lemma output_world c w : (output c w).1 = (spawn c w).1.
Proof. unfold output, effect, mbind, IO_bind. destruct (spawn c w) as [w' [o|]]; done. Qed.
Lemma capture_world c w : (capture c w).1 = (spawn c w).1.
Proof.
  rewrite <-output_world. unfold capture, mbind at 1, IO_bind at 1. destruct (output c w) as [w' [o|e]]; [|done].
  by destruct (success o).
Qed.
Lemma command_world c w : (command c w).1 = (spawn c w).1.
Proof.
  rewrite <-output_world. unfold command, mbind at 1, IO_bind at 1. destruct (output c w) as [w' [o|e]]; [|done].
  by destruct (success o).
Qed.
Lemma capture_all_world c w w' r :
  capture_all c w = (w', r) ->
  exists o, spawn c w = (w', o) /\ (is_ok r = true -> match o with Some o => success o | None => false end = true).
Proof.
  unfold capture_all, output, effect, mbind, IO_bind. destruct (spawn c w) as [w1 [o|]]; cbn.
  - destruct (success o) eqn:Hs; intros [= <- <-]; eexists; (split; [done|]); cbn; [done|done].
  - intros [= <- <-]. by exists None.
Qed.

Lemma id_printed id : id <> [] -> Forall (fun b => is_whitespace b = false) id -> last_line (trim (id ++ [nl])) = id.
Proof.
  intros Hne Hid. rewrite list.Forall_forall in Hid.
  assert (forall b, blank b -> trim (id ++ b) = id) as Htrim.
  { intros b Hb. apply (trim_wrapped _ []); [constructor|done|done| |]; intros x Hx; apply Hid;
      [by apply head_Some_elem_of|by apply last_Some_elem_of]. }
  rewrite (Htrim [nl]) by (repeat constructor). unfold last_line.
  assert (lines id = [id]) as ->.
  { apply (lines_join [id]); [done| |by intros [= ->]]. constructor; [|constructor].
    split; [by intros Hin%Hid|]. intros Hin%last_Some_elem_of%Hid. done. }
  cbn [rev app fmap list_fmap List.find]. pose proof (Htrim [] ltac:(constructor)) as Hself.
  rewrite app_nil_r in Hself. rewrite Hself, bool_decide_eq_false_2 by done. done.
Qed.

(** ** The commands of the tool *)

Definition deploy_command (cfg : ContractsConfig) (wasm : bytes) (ctor : list bytes) : Command :=
  stellar_in root
    (stellar_base_as cfg (bstr "deploy") (ct_signing_key cfg) ++ [bstr "--wasm"; wasm] ++
     (if decide (ctor = []) then [] else bstr "--" :: ctor)).
Definition invoke_command (cfg : ContractsConfig) (id : bytes) (call : list bytes) : Command :=
  stellar_in root (stellar_base_as cfg (bstr "invoke") (ct_signing_key cfg) ++ [bstr "--id"; id; bstr "--"] ++ call).

Lemma deploy_is_no_invocation cfg wasm ctor : invocation (deploy_command cfg wasm ctor) = None.
Proof.
  unfold invocation, deploy_command, stellar_in, stellar_base_as, net_flags. cbn [program args].
  rewrite decide_True by done. cbn [app]. destruct (decide (ctor = [])); [done|].
  rewrite decide_False; [done|]. intros Heq. apply (f_equal (fun l => l !! 1%nat)) in Heq. by vm_compute in Heq.
Qed.
Lemma deploy_is_deployment cfg wasm ctor : deployment (deploy_command cfg wasm ctor) = Some (wasm, ctor).
Proof.
  unfold deployment, deploy_command, stellar_in, stellar_base_as, net_flags. cbn [program args].
  rewrite decide_True by done. cbn [app]. rewrite decide_True by done.
  destruct (decide (ctor = [])) as [->|]; done.
Qed.
Lemma invoke_is_invocation cfg id call : invocation (invoke_command cfg id call) = Some (id, call).
Proof.
  unfold invocation, invoke_command, stellar_in, stellar_base_as, net_flags. cbn [program args].
  rewrite decide_True by done. cbn [app]. by rewrite decide_True by done.
Qed.

Lemma deploy_drifts cfg wasm ctor w w' r id : deploy root cfg wasm ctor w = (w', r) -> drifts (foreign admin) id w w'.
Proof.
  intros Hd. assert (w' = (spawn (deploy_command cfg wasm ctor) w).1) as ->.
  { rewrite <-capture_world. unfold deploy in Hd. apply IO_bind_inv in Hd as [(w1 & a & Hc & Hr)|(e & Hc & _)].
    - injection Hr as -> _. unfold deploy_command. by rewrite Hc.
    - unfold deploy_command. by rewrite Hc. }
  apply net_spawn. intros ags. by rewrite deploy_is_no_invocation.
Qed.
Lemma build_drifts w w' r id : build root w = (w', r) -> drifts (foreign admin) id w w'.
Proof.
  intros Hb. unfold build in Hb. assert (w' = (build root w).1) as -> by (unfold build; by rewrite Hb).
  unfold build. rewrite command_world. apply net_spawn. intros ags. done.
Qed.

(** A deployment that succeeds returns the address of a contract, and the router it deploys is fresh. *)
Lemma deploy_Ok cfg wasm ctor w w' id :
  deploy root cfg wasm ctor w = (w', Ok id) ->
  is_Some (strkey id) /\
  (wasm = wasm_path root "stellar_ibc_router" -> forall a adm, ctor = [bstr "--admin"; a] -> strkey a = Some adm ->
   exists x ls rw, router_at id w' = Some rw /\ steps Router.step (deployed adm x) ls rw /\ Forall (foreign admin) ls).
Proof.
  unfold deploy. intros (w1 & out & Hc & Hr)%IO_bind_Ok. injection Hr as -> Hid.
  unfold capture in Hc. apply IO_bind_Ok in Hc as (w2 & o & Ho & Hc). destruct (success o) eqn:Hsucc; [|done].
  injection Hc as -> Hout. unfold output in Ho. apply IO_bind_Ok in Ho as (w3 & o' & Hsp & Ho).
  destruct o' as [o'|]; [|done]. injection Ho as -> ->. unfold effect in Hsp.
  destruct (spawn _ w) as [w4 o4] eqn:Hspawn. injection Hsp as -> ->.
  destruct (net_deploy (deploy_command cfg wasm ctor) w w' o wasm ctor) as (id' & Hstd & [adr Ha] & Hrouter);
    [apply deploy_is_deployment|exact Hspawn|done|].
  destruct (strkey_text _ _ Ha) as [Hne Hplain].
  assert (id = id') as ->; [|split; [by exists adr|exact Hrouter]].
  rewrite <-Hid, <-Hout, Hstd. by apply id_printed.
Qed.

(** An invocation that succeeds ran the call its arguments name, maybe after attempts that failed. *)
Lemma invoke_once c w w' r id args rw :
  invocation c = Some (id, args) -> capture_all c w = (w', r) -> router_at id w = Some rw -> ran id args (is_ok r) rw w'.
Proof.
  intros Hinv (o & Hsp & Hok)%capture_all_world Hrw.
  destruct (net_invoke c w w' o id args rw Hinv Hsp Hrw) as (ls & rw' & Hrw' & Hs & Hls & Hcall).
  exists ls, rw'. auto 6.
Qed.
Lemma ran_again id args rw w1 w2 b : 
  ran id args false rw w1 -> (forall rw1, router_at id (sleep 4000 w1) = Some rw1 -> ran id args b rw1 w2) ->
  ran id args b rw w2.
Proof.
  intros (l1 & rw1 & Hrw1 & Hs1 & Hl1 & _) Hrest.
  destruct (net_sleep 4000 w1 id rw1 Hrw1) as (l2 & rw2 & Hrw2 & Hs2 & Hl2).
  destruct (Hrest _ Hrw2) as (l3 & rw3 & Hrw3 & Hs3 & Hl3 & Hcall3).
  exists (l1 ++ l2 ++ l3), rw3. split_and!; [done|eauto using steps_app| |].
  - apply list.Forall_app; split; [done|]. apply list.Forall_app; split; [|done].
    eapply list.Forall_impl; [exact Hl2|]. by left.
  - intros (call & env & rt & Hread & Hin)%Hcall3. exists call, env, rt. split; [done|].
    rewrite !elem_of_app. auto.
Qed.
Lemma invoke_retry_ran n c w w' r id args rw :
  invocation c = Some (id, args) -> invoke_retry (S n) c w = (w', r) -> router_at id w = Some rw ->
  ran id args (is_ok r) rw w'.
Proof.
  intros Hinv. revert w rw. induction n as [|n IH]; intros w rw; rewrite invoke_retry_step; intros Hr Hrw;
    destruct (capture_all c w) as [w1 r1] eqn:Hc; pose proof (invoke_once _ _ _ _ _ _ _ Hinv Hc Hrw) as Hone.
  - by destruct r1; injection Hr as <- <-.
  - destruct r1 as [o|e]; [by injection Hr as <- <-|]. destruct (stale e); [|by injection Hr as <- <-].
    eapply ran_again; [exact Hone|]. intros rw1. by apply IH.
Qed.
Lemma invoke_ran cfg id call w w' rw :
  invoke root cfg id call w = (w', Ok tt) -> router_at id w = Some rw -> ran id call true rw w'.
Proof. apply (invoke_retry_ran 5 (invoke_command cfg id call)). apply invoke_is_invocation. Qed.

(** ** What is kept on the router of an id *)

Definition run_from (rw : RouterTypes.World X) : Prop := exists x ls, steps Router.step (deployed admin x) ls rw.
Lemma run_from_by rw : run_from rw -> run_by admin rw.
Proof. intros (x & ls & Hs). eapply steps_run_by; [apply deployed_run_by|exact Hs]. Qed.
Lemma run_from_steps rw ls rw' : run_from rw -> steps Router.step rw ls rw' -> run_from rw'.
Proof. intros (x & l1 & Hs1) Hs. exists x, (l1 ++ ls). by eapply steps_app. Qed.

(** The light clients of these types and the applications of these ports. *)
Definition wired (types ports : list (bytes * Address)) (rw : RouterTypes.World X) : Prop :=
  Forall (fun '(ct, a) => type_entry ct rw = Some (RvAddress a)) types /\
  Forall (fun '(port, a) => rdata rw !! KData (Port port) = Some (RvAddress a)) ports.
Definition wired_at (id : bytes) (types ports : list (bytes * Address)) (w : W) : Prop :=
  exists rw, router_at id w = Some rw /\ run_from rw /\ wired types ports rw.

Lemma wired_steps types ports call rw ls rw' :
  run_from rw -> Forall (fun '(ct, _) => spares ct call) types -> Forall (mine admin call) ls ->
  steps Router.step rw ls rw' -> wired types ports rw -> wired types ports rw'.
Proof.
  intros Hrun%run_from_by Hsp Hls Hs [Ht Hp]. rewrite list.Forall_forall in Hsp, Ht, Hp. split; rewrite list.Forall_forall.
  - intros [ct a] Hin. rewrite (types_kept admin ct call rw ls rw') by (done || exact (Hsp _ Hin)). by apply (Ht (ct, a)).
  - intros [port a] Hin. specialize (Hp _ Hin). cbn in Hp.
    destruct (steps_entries _ bindings_kept_preorder writes_keep_bindings _ _ _ (run_inv _ _ Hrun) Hs) as (_ & _ & _ & Hk & _).
    by apply Hk.
Qed.
Lemma wired_drifts id types ports w w' :
  wired_at id types ports w -> drifts (foreign admin) id w w' -> wired_at id types ports w'.
Proof.
  intros (rw & Hrw & Hrun & Hw) Hd. destruct (Hd _ Hrw) as (ls & rw' & Hrw' & Hs & Hls).
  exists rw'. split_and!; [done|by eapply run_from_steps|].
  apply (wired_steps types ports (CPortApp []) rw ls rw'); try done.
  - apply list.Forall_forall. by intros [ct a] _ lc.
  - eapply list.Forall_impl; [exact Hls|]. by left.
Qed.

Lemma ran_call id args call types ports w w' :
  read_call args = Some call -> Forall (fun '(ct, _) => spares ct call) types ->
  wired_at id types ports w -> (forall rw, router_at id w = Some rw -> ran id args true rw w') ->
  exists rw ls rw' env r, router_at id w' = Some rw' /\ run_from rw /\ run_from rw' /\ wired types ports rw' /\
    steps Router.step rw ls rw' /\ Forall (mine admin call) ls /\ LCall env call r ∈ ls.
Proof.
  intros Hread Hsp (rw & Hrw & Hrun & Hw) Hran. destruct (Hran _ Hrw) as (ls & rw' & Hrw' & Hs & Hls & Hcall).
  destruct (Hcall eq_refl) as (call' & env & r & Hread' & Hin). assert (call' = call) as -> by congruence.
  assert (Forall (mine admin call) ls) as Hmine.
  { eapply list.Forall_impl; [exact Hls|]. intros l [Hl|(c & e & r' & Hc & ->)]; [by left|right].
    exists e, r'. congruence. }
  exists rw, ls, rw', env, r. split_and!; try done; [by eapply run_from_steps|by eapply wired_steps].
Qed.

(** Registering a type that is not registered yet, and a port. *)
Lemma register_type_wires cfg id kind lc types ports w w' :
  register_type root cfg id kind lc w = (w', Ok tt) -> wired_at id types ports w ->
  client_type cfg kind ∉ types.*1 -> is_Some (strkey lc) ->
  exists a, strkey lc = Some a /\ wired_at id ((client_type cfg kind, a) :: types) ports w'.
Proof.
  intros Hreg Hw Hfresh [a Ha]. exists a. split; [done|].
  destruct (ran_call id [bstr "register_client_type"; bstr "--client_type"; client_type cfg kind; bstr "--lc_address"; lc]
              (CRegisterClientType (client_type cfg kind) a) types ports w w')
    as (rw & ls & rw' & env & r & Hrw' & Hrun & Hrun' & [Ht Hp] & Hs & Hls & Hin).
  - cbn [read_call]. rewrite decide_True by done. by rewrite Ha.
  - apply list.Forall_forall. intros [ct lc'] Hin lc1 [= Heq _]. apply Hfresh, list_elem_of_fmap.
    exists (ct, lc'). by rewrite Heq.
  - done.
  - intros rw Hrw. exact (invoke_ran _ _ _ _ _ _ Hreg Hrw).
  - exists rw'. split_and!; [done..|]. split; [|done]. constructor; [|done].
    apply (type_registers admin _ a env r rw ls rw'); [by apply run_from_by|done|done|by left].
Qed.
Lemma register_port_wires cfg id port app types ports w w' :
  invoke root cfg id [bstr "register_port"; bstr "--port_id"; port; bstr "--app_address"; app] w = (w', Ok tt) ->
  wired_at id types ports w -> is_Some (strkey app) ->
  exists a, strkey app = Some a /\ wired_at id types ((port, a) :: ports) w'.
Proof.
  intros Hreg Hw [a Ha]. exists a. split; [done|].
  destruct (ran_call id [bstr "register_port"; bstr "--port_id"; port; bstr "--app_address"; app]
              (CRegisterPort port a) types ports w w')
    as (rw & ls & rw' & env & r & Hrw' & Hrun & Hrun' & [Ht Hp] & Hs & Hls & Hin).
  - cbn [read_call]. rewrite decide_False, decide_True; [by rewrite Ha|done|].
    intros Heq. apply (f_equal (fun l => l !! 0%nat)) in Heq. by vm_compute in Heq.
  - apply list.Forall_forall. by intros [ct lc'] _ lc.
  - done.
  - intros rw Hrw. exact (invoke_ran _ _ _ _ _ _ Hreg Hrw).
  - exists rw'. split_and!; [done..|]. split; [done|]. constructor; [|done].
    apply (port_registers port a env r rw ls rw'); [apply (run_inv admin), run_from_by, Hrun|done|done].
Qed.

(** ** A deployment *)

Context `{!WorldLaws W} (Hown : own_file (env_file root)) (address_from_secret : bytes -> option bytes).

(** The entry of the router has the contract the environment file assigns to the variable. *)
Definition recorded (rw : RouterTypes.World X) (text : bytes) (key : string) (entry : DataKey) : Prop :=
  exists id a, strkey id = Some a /\ rdata rw !! KData entry = Some (RvAddress a) /\
    List.find (assigns (bstr key)) (lines text) = Some (assignment (bstr key) id).

Lemma strkey_nl id : is_Some (strkey id) -> id <> [] /\ nl ∉ id.
Proof.
  intros [a [Hne Hid]%strkey_text]. split; [done|]. rewrite list.Forall_forall in Hid. by intros Hin%Hid.
Qed.
Lemma optional_deploy cfg (wanted : bool) wasm w w' id :
  (if wanted then deploy root cfg wasm [] else mret []) w = (w', Ok id) ->
  (if wanted then is_Some (strkey id) else id = []) /\ forall r, drifts (foreign admin) r w w'.
Proof.
  destruct wanted; [|intros [= -> <-]; split; [done|intros r; apply drifts_refl]].
  intros Hd. split; [by apply deploy_Ok in Hd as [? _]|]. intros r. by eapply deploy_drifts.
Qed.
Lemma optional_register cfg id (lc : bytes) types ports w w' u :
  (if decide (lc = []) then mret tt else register_type root cfg id Attestation lc) w = (w', Ok u) ->
  wired_at id types ports w -> client_type cfg Attestation ∉ types.*1 -> lc = [] \/ is_Some (strkey lc) ->
  exists extra, wired_at id (extra ++ types) ports w' /\ (extra.*1 ⊆ [client_type cfg Attestation]) /\
    (lc <> [] -> exists a, strkey lc = Some a /\ (client_type cfg Attestation, a) ∈ extra).
Proof.
  destruct u. case_decide as Hlc.
  - intros [= <-] Hw _ _. exists []. split_and!; [done|set_solver|done].
  - intros Hr Hw Hfresh [?|Hs]; [done|]. destruct (register_type_wires _ _ _ _ _ _ _ _ Hr Hw Hfresh Hs) as (a & Ha & Hw').
    exists [(client_type cfg Attestation, a)]. split_and!; [done|set_solver|]. intros _. exists a. split; [done|set_solver].
Qed.

Lemma upsert_drifts path us id w : drifts (foreign admin) id w (upsert_file path us w).1.
Proof.
  unfold upsert_file, write_text, effect, mbind, IO_bind. set (text := env_upsert _ _).
  pose proof (net_write path text w id) as Hd. destruct (write_file path text w) as [w1 [|]]; exact Hd.
Qed.

#[local] Instance plain_key_decision k : Decision (plain_key k).
Proof. unfold plain_key. apply _. Defined.
Definition deployment_updates (router transfer mock att tm deployer : bytes) : list (bytes * bytes) :=
  [(bstr "ROUTER_CONTRACT_ADDRESS", router); (bstr "TRANSFER_CONTRACT_ADDRESS", transfer);
   (bstr "MOCK_LC_CONTRACT_ID", mock); (bstr "ATTESTATION_LC_CONTRACT_ID", att);
   (bstr "TENDERMINT_LC_CONTRACT_ID", tm); (bstr "DEPLOYER_ADDRESS", deployer)].
Lemma updates_plain router transfer mock att tm deployer :
  is_Some (strkey router) -> is_Some (strkey transfer) -> is_Some (strkey mock) -> att = [] \/ is_Some (strkey att) ->
  is_Some (strkey tm) -> is_Some (strkey deployer) ->
  Forall plain_update (deployment_updates router transfer mock att tm deployer).
Proof.
  intros H1' H2' H3' H4' H5' H6'.
  assert (nl ∉ att) as Hatt by (destruct H4' as [->|[_ ?]%strkey_nl]; [apply not_elem_of_nil|done]).
  repeat (apply list.Forall_cons; split;
    [split; cbn [fst snd]; [apply (bool_decide_unpack _); vm_compute; exact I|first [done|by apply strkey_nl]]|]).
  constructor.
Qed.

(** The transactions of a deployment that succeeds, before the environment file is written. *)
Lemma deploy_all_wires cfg force attestation deployer w w' :
  deployer_of address_from_secret cfg = Ok deployer -> strkey deployer = Some admin ->
  NoDup (client_type cfg <$> [Mock; Attestation; Tendermint]) ->
  deploy_all root address_from_secret cfg force attestation w = (w', Ok true) ->
  exists router transfer mock att tm types a_mock a_tm a_transfer w1,
    wired_at router types [(ct_transfer_port cfg, a_transfer)] w1 /\ is_Some (strkey router) /\
    strkey mock = Some a_mock /\ strkey tm = Some a_tm /\ strkey transfer = Some a_transfer /\
    (client_type cfg Mock, a_mock) ∈ types /\ (client_type cfg Tendermint, a_tm) ∈ types /\
    (if attestation then exists a, strkey att = Some a /\ (client_type cfg Attestation, a) ∈ types else att = []) /\
    read_file (env_file root) w1 = read_file (env_file root) w /\
    upsert_file (env_file root) (deployment_updates router transfer mock att tm deployer) w1 = (w', Ok tt).
Proof.
  intros Hdep Hadm Hnd. unfold deploy_all. case_decide; [done|]. destruct (_ && _); [done|]. intros Hc.
  set (f := env_file root) in *.
  step_kept f Hc w1 u Hb Hf1. step_kept f Hc w2 d Hd Hf2. injection Hd as -> Hd.
  assert (d = deployer) as -> by (rewrite Hdep in Hd; by apply Ok_inj in Hd). clear Hd.
  step_kept f Hc w3 mock Hm Hf3. step_kept f Hc w4 router Hr Hf4. step_kept f Hc w5 transfer Ht Hf5.
  step_kept f Hc w6 att Ha Hf6. step_kept f Hc w7 tm Htm Hf7. step_kept f Hc w8 u8 H8 Hf8. step_kept f Hc w9 u9 H9 Hf9.
  step_kept f Hc w10 u10 H10 Hf10. step_kept f Hc w11 u11 H11 Hf11. destruct u8, u10, u11.
  apply IO_bind_Ok in Hc as (w12 & [] & Hu & Hc). injection Hc as ->.
  apply deploy_Ok in Hm as [Smock _]. pose proof (deploy_Ok _ _ _ _ _ _ Hr) as [Srouter Hrouter].
  destruct (Hrouter eq_refl deployer admin eq_refl Hadm) as (x & l0 & rw0 & Hrw0 & Hs0 & _).
  assert (wired_at router [] [] w4) as Hw by (exists rw0; split_and!; [done|by exists x, l0|done]).
  assert (wired_at router [] [] w7) as Hw7.
  { eapply wired_drifts; [|by eapply deploy_drifts]. eapply wired_drifts; [|apply (optional_deploy _ _ _ _ _ _ Ha)].
    eapply wired_drifts; [exact Hw|by eapply deploy_drifts]. }
  apply optional_deploy in Ha as [Satt _]. apply deploy_Ok in Ht as [Stransfer _]. apply deploy_Ok in Htm as [Stm _].
  cbn in Hnd. apply list.NoDup_cons in Hnd as [Hn1 [Hn2 _]%list.NoDup_cons].
  eapply register_type_wires in H8 as (a_mock & Hamock & Hw8); [|exact Hw7|set_solver|done].
  eapply optional_register in H9 as (extra & Hw9 & Hex & Hatt); [|exact Hw8|set_solver|by destruct attestation; [right|left]].
  eapply register_type_wires in H10 as (a_tm & Hatm & Hw10); [|exact Hw9|set_solver|done].
  eapply register_port_wires in H11 as (a_transfer & Hatransfer & Hw11); [|exact Hw10|done].
  exists router, transfer, mock, att, tm. eexists _, a_mock, a_tm, a_transfer, w11. split; [exact Hw11|].
  split_and!; [done..|set_solver|set_solver| |congruence|exact Hu].
  destruct attestation; [|done]. apply strkey_nl in Satt as [Hne _]. destruct (Hatt Hne) as (a & Haa & Hin).
  exists a. set_solver.
Qed.

End Net.
