(* ===== verification/DeploymentDemo.v ===== *)
(** * A deployment on a small network

    A state of the outside in which the [stellar] program really deploys routers and executes the calls on them:
    it satisfies the laws of [Deployment], and a deployment on it succeeds. *)

From Stdlib Require Import ZArith Lia Strings.Byte Strings.String.
From stdpp Require Import base option list gmap numbers.
From S2P Require Import Prelude Bytes Crypto Host RouterTypes Identifiers CoreCommitment Ics24Host Interfaces IbcStore.
From S2P Require Import PortRouter Ics02Client PacketHandler Router Transfer LcMock LcAttestation LcTendermint System.
From S2P Require Import Text Json ConfigText Configuration Cli CliTx Deployment.
Open Scope Z_scope.

#[local] Existing Instances toy_sha256 AttestationLightClient.sample_ed25519 AttestationLightClient.sample_xdr
  Ledger.tendermint_xdr Ledger.transfer_xdr.

Record Net : Type := MkNet {
  clock : Z; files : bytes -> option bytes; routers : list (bytes * RouterTypes.World Contracts); next : Z;
}.
Definition lookup_router (id : bytes) (s : Net) : option (RouterTypes.World Contracts) :=
  snd <$> List.find (fun p => bool_decide (p.1 = id)) (routers s).
Definition DEPLOYER : bytes := bstr "GA".
Definition address (t : bytes) : option Address :=
  if decide (t = DEPLOYER) then Some Ledger.admin
  else match t with
       | [c; d] => if decide (c = Byte.x43 /\ is_whitespace d = false) then Some (ContractAddress (replicate 32 d)) else None
       | _ => None
       end.
#[local] Instance net : StellarNet (W:=Net) (X:=Contracts) := {| strkey := address; router_at := lookup_router |}.

Fixpoint replace_router (id : bytes) (rw : RouterTypes.World Contracts) (l : list (bytes * RouterTypes.World Contracts)) :=
  match l with
  | [] => []
  | p :: l => if decide (p.1 = id) then (id, rw) :: l else p :: replace_router id rw l
  end.
Definition failed : option Output := Some (MkOutput false (bstr "exit status: 1") [] (bstr "HostError")).
Definition printed (out : bytes) : option Output := Some (MkOutput true [] out []).
Definition run_invoke (id : bytes) (args : list bytes) (s : Net) : Net * option Output :=
  match read_call args, lookup_router id s with
  | Some call, Some rw =>
      match Router.exec Ledger.by_admin call rw with
      | Ok (rw', _) => (MkNet (clock s) (files s) (replace_router id rw' (routers s)) (next s), printed (bstr "null"))
      | Err _ => (s, failed)
      end
  | _, _ => (s, failed)
  end.
Definition ROOT : bytes := bstr "/repo".
Definition run_deploy (wasm : bytes) (ctor : list bytes) (s : Net) : Net * option Output :=
  let id := [Byte.x43; byte_of_Z (next s)] in
  match address id, lookup_router id s with
  | Some _, None =>
      let routers' :=
        match ctor with
        | [flag; a] =>
            match address a with
            | Some adm => if decide (wasm = wasm_path ROOT "stellar_ibc_router" /\ flag = bstr "--admin")
                          then routers s ++ [(id, deployed adm Ledger.contracts)] else routers s
            | None => routers s
            end
        | _ => routers s
        end in
      (MkNet (clock s) (files s) routers' (next s + 1), printed (id ++ [nl]))
  | _, _ => (s, failed)
  end.

#[local] Instance net_world : Cli.World Net := {|
  http := fun _ s => (s, None);
  spawn := fun c s =>
    match invocation c with
    | Some (id, args) => run_invoke id args s
    | None => match deployment c with
              | Some (wasm, ctor) => run_deploy wasm ctor s
              | None => (s, printed [])
              end
    end;
  connect := fun _ s => (s, false);
  now := clock;
  sleep := fun d s => MkNet (clock s + d) (files s) (routers s) (next s);
  unix_secs := fun s => clock s / 1000;
  read_file := fun f s => files s f;
  write_file := fun f t s =>
    (MkNet (clock s) (fun g => if decide (g = f) then Some t else files s g) (routers s) (next s), true);
  is_dir := fun _ _ => false;
|}.

Lemma lookup_replace id id' rw rw0 l :
  snd <$> List.find (fun p => bool_decide (p.1 = id)) l = Some rw0 ->
  snd <$> List.find (fun p => bool_decide (p.1 = id')) (replace_router id rw l) =
    if decide (id' = id) then Some rw else snd <$> List.find (fun p => bool_decide (p.1 = id')) l.
Proof.
  induction l as [|p l IH]; [done|]. cbn [List.find replace_router]. case_bool_decide as Hp.
  - intros _. rewrite decide_True by done. cbn [List.find fst]. rewrite Hp.
    destruct (decide (id' = id)) as [->|Hne]; [by rewrite bool_decide_eq_true_2|].
    rewrite bool_decide_eq_false_2 by congruence. done.
  - intros Hl. rewrite decide_False by done. cbn [List.find]. specialize (IH Hl).
    destruct (decide (id' = id)) as [->|Hne].
    + rewrite bool_decide_eq_false_2 by done. exact IH.
    + by case_bool_decide.
Qed.

Lemma drifts_same id s s' : lookup_router id s' = lookup_router id s -> drifts (foreign Ledger.admin) id s s'.
Proof. intros Heq rw Hrw. exists [], rw. cbn in *. rewrite Heq. split_and!; [done|constructor|constructor]. Qed.
Lemma read_call_wf args call : read_call args = Some call -> call_wf call.
Proof.
  unfold read_call. destruct args as [|a1 [|a2 [|a3 [|a4 [|a5 [|]]]]]]; try done.
  case_decide; [by destruct (strkey a5); intros [= <-]|]. case_decide; [by destruct (strkey a5); intros [= <-]|done].
Qed.

Lemma run_deploy_keeps wasm ctor s id :
  is_Some (lookup_router id s) -> lookup_router id (run_deploy wasm ctor s).1 = lookup_router id s.
Proof.
  intros [rw Hrw]. unfold run_deploy. set (id' := [_; _]).
  destruct (address id'), (lookup_router id' s); try done. cbn [fst]. unfold lookup_router in *. cbn [routers].
  destruct ctor as [|flag [|a' [|]]]; try done. destruct (address a'); [|done]. case_decide; [|done].
  destruct (List.find _ (routers s)) as [p|] eqn:Hf; [|done].
  assert (forall l l', List.find (fun p => bool_decide (p.1 = id)) l = Some p ->
    List.find (fun p => bool_decide (p.1 = id)) (l ++ l') = Some p) as Happ.
  { induction l as [|q l IH]; [done|]. intros l'. cbn. by case_bool_decide; [|apply IH]. }
  by rewrite (Happ _ _ Hf).
Qed.
Lemma run_deploy_router s s' o a adm :
  run_deploy (wasm_path ROOT "stellar_ibc_router") [bstr "--admin"; a] s = (s', Some o) -> success o = true ->
  address a = Some adm ->
  lookup_router [Byte.x43; byte_of_Z (next s)] s' = Some (deployed adm Ledger.contracts).
Proof.
  unfold run_deploy. set (id := [_; _]). intros Hr Hs Ha. rewrite Ha, decide_True in Hr by done.
  destruct (address id); [|injection Hr as _ <-; done]. unfold lookup_router in *.
  destruct (List.find _ (routers s)) as [p|] eqn:Hf; [injection Hr as _ <-; done|]. injection Hr as <- _. cbn [routers].
  assert (forall l, List.find (fun p => bool_decide (p.1 = id)) l = None ->
    List.find (fun p => bool_decide (p.1 = id)) (l ++ [(id, deployed adm Ledger.contracts)]) =
    Some (id, deployed adm Ledger.contracts)) as Happ.
  { induction l as [|q l IH]; cbn; [by rewrite bool_decide_eq_true_2|]. by case_bool_decide; [|apply IH]. }
  by rewrite (Happ _ Hf).
Qed.

#[local] Instance net_laws : NetLaws (W:=Net) (X:=Contracts) ROOT Ledger.admin.
Proof.
  split.
  - intros t a. cbn [strkey net]. unfold address. case_decide as Ht.
    { intros _. subst t. split; [done|]. repeat constructor. }
    destruct t as [|c [|d [|]]]; try done. case_decide as Hd; [|done]. intros _. split; [done|].
    destruct Hd as [-> Hd]. repeat constructor. exact Hd.
  - intros d w id. by apply drifts_same.
  - intros f t w id. by apply drifts_same.
  - intros c w id Hid. enough (is_Some (lookup_router id w) ->
      lookup_router id (spawn c w).1 = lookup_router id w) as Hk.
    { intros rw Hrw. apply (drifts_same id w); [apply Hk; by exists rw|exact Hrw]. }
    intros [rw Hrw]. cbn [spawn net_world].
    destruct (invocation c) as [[id' ags]|] eqn:Hinv.
    + unfold run_invoke. destruct (read_call ags); [|done]. destruct (lookup_router id' w) as [rw'|] eqn:Hl; [|done].
      destruct (Router.exec _ _ _) as [[rw1 r]|]; [|done]. cbn [fst]. unfold lookup_router in *. cbn [routers].
      rewrite (lookup_replace id' id rw1 rw') by done. rewrite decide_False; [done|]. intros <-. by apply (Hid ags).
    + destruct (deployment c) as [[wasm ctor]|]; [|done]. apply run_deploy_keeps. by exists rw.
  - intros c w w' o id ags rw Hinv Hsp Hrw. cbn [spawn net_world] in Hsp. rewrite Hinv in Hsp. unfold run_invoke in Hsp.
    assert (forall rw, lookup_router id w = Some rw -> ran Ledger.admin id ags false rw w) as Hsame.
    { intros rw1 Hrw1. exists [], rw1. split_and!; [done|constructor|constructor|done]. }
    destruct (read_call ags) as [call|] eqn:Hread; [|injection Hsp as <- <-; by apply Hsame].
    cbn [router_at net] in Hrw. rewrite Hrw in Hsp.
    destruct (Router.exec Ledger.by_admin call rw) as [[rw1 r]|e] eqn:He; [|injection Hsp as <- <-; by apply Hsame].
    injection Hsp as <- <-. exists [LCall Ledger.by_admin call r], rw1. split_and!.
    + cbn [router_at net]. unfold lookup_router in *. cbn [routers].
      rewrite (lookup_replace id id rw1 rw) by done. by rewrite decide_True.
    + eapply steps_cons; [|constructor]. constructor; [by eapply read_call_wf|done].
    + constructor; [|constructor]. right. by exists call, Ledger.by_admin, r.
    + intros _. exists call, Ledger.by_admin, r. split; [done|by left].
  - intros c w w' o wasm ctor Hd Hsp Hs. cbn [spawn net_world] in Hsp.
    assert (invocation c = None) as Hinv by by apply deployment_no_invocation in Hd.
    rewrite Hinv, Hd in Hsp. exists [Byte.x43; byte_of_Z (next w)]. split_and!.
    + unfold run_deploy in Hsp. destruct (address [_; _]); [|by injection Hsp as _ <-].
      by destruct (lookup_router [_; _] w); injection Hsp as _ <-.
    + cbn [strkey net]. unfold run_deploy in Hsp. destruct (address [_; _]); [done|]. by injection Hsp as _ <-.
    + intros -> a adm -> Ha. exists Ledger.contracts, [], (deployed adm Ledger.contracts).
      split_and!; [by eapply run_deploy_router|constructor|constructor].
Qed.

Lemma spawn_frame c w : clock (spawn c w).1 = clock w /\ files (spawn c w).1 = files w.
Proof.
  cbn [spawn net_world]. destruct (invocation c) as [[id ags]|].
  - unfold run_invoke. destruct (read_call ags), (lookup_router id w); try done. by destruct (Router.exec _ _ _) as [[]|].
  - destruct (deployment c) as [[wasm ctor]|]; [|done]. unfold run_deploy. set (id := [_; _]).
    by destruct (address id), (lookup_router id w).
Qed.
#[local] Instance net_world_laws : WorldLaws Net.
Proof.
  split; try done.
  - intros c w. change (clock w <= clock (spawn c w).1). destruct (spawn_frame c w) as [-> _]. lia.
  - intros f t w w' [= <-]. cbn. by rewrite decide_True.
  - intros f g t w Hne. cbn. by rewrite decide_False.
Qed.
Lemma net_own : own_file (env_file ROOT).
Proof. intros c w. change (files (spawn c w).1 (env_file ROOT) = files w (env_file ROOT)). by destruct (spawn_frame c w) as [_ ->]. Qed.

(** ** A deployment that succeeds *)

Definition config : ContractsConfig := {|
  ct_rpc_url := bstr "http://localhost:8000/rpc"; ct_network_passphrase := bstr "Standalone"; ct_signing_key := bstr "SA";
  ct_deployer_address := []; ct_ibc_router := []; ct_transfer_port := IbcTransfer.PORT;
  ct_mock_client_type := client_type_str Mock; ct_attestation_client_type := client_type_str Attestation;
  ct_tendermint_client_type := client_type_str Tendermint; ct_hermes_config := [];
|}.
Definition secret (s : bytes) : option bytes := if decide (s = bstr "SA") then Some DEPLOYER else None.
Definition before : Net := MkNet 0 (fun f => if decide (f = env_file ROOT) then Some (bstr "A=1") else None) [] 48.
Definition outcome : Net * result bytes bool := deploy_all ROOT secret config false true before.

Example deployed_env :
  outcome.2 = Ok true /\
  lines (default [] (read_file (env_file ROOT) outcome.1)) = bstr <$>
    ["A=1"; "ROUTER_CONTRACT_ADDRESS=C1"; "TRANSFER_CONTRACT_ADDRESS=C2"; "MOCK_LC_CONTRACT_ID=C0";
     "ATTESTATION_LC_CONTRACT_ID=C3"; "TENDERMINT_LC_CONTRACT_ID=C4"; "DEPLOYER_ADDRESS=GA"]%string.
Proof. vm_compute. auto. Qed.

