(* ===== verification/CliQuery.v ===== *)
(** * Queries of the command-line tool ([interstellar/src/tx/query], [shared.rs])

    A query answers by printing, so here a command returns the lines it prints; [render] is how [logger.rs] shows them.
    The theorem puts the query of the clients over the API service: what is printed is told by the storage of
    the router. *)

From Stdlib Require Import ZArith Lia Strings.Byte Strings.String.
From stdpp Require Import base option list gmap numbers.
From S2P Require Import Prelude Bytes Text Crypto Host RouterTypes CoreCommitment Ics02Client Router.
From S2P Require Import Json Xdr ApiTypes LedgerEntries Rpc ApiService ApiClient ApiStack ApiStorage.
From S2P Require Import ConfigText Configuration Cli CliTx.
Open Scope Z_scope.

(** ** What is printed *)

Inductive Line : Type :=
| Banner (text : bytes) | Step (text : bytes) | Good (text : bytes) | Warn (text : bytes) | Bad (text : bytes)
| Detail (text : bytes) | Hint (text : bytes) | StatusLine (label : bytes) (up : bool) (note : bytes).

(** [logger.rs]: how a line looks, on a terminal or not. *)
Definition escape : byte := Byte.x1b.
Definition paint (tty : bool) (code text : bytes) : bytes :=
  if tty then escape :: bstr "[" ++ code ++ bstr "m" ++ text ++ escape :: bstr "[0m" else text.
(** [{s:<n}], of ASCII. *)
Definition padded (n : nat) (s : bytes) : bytes := s ++ replicate (n - length s) space.
Definition render (tty : bool) (l : Line) : bytes :=
  match l with
  | Banner text => nl :: paint tty (bstr "1;36") (bstr "=== " ++ text ++ bstr " ===")
  | Step text => paint tty (bstr "1;34") (bstr "▶") ++ [space] ++ paint tty (bstr "1") text
  | Good text => bstr "  " ++ paint tty (bstr "1;32") (bstr "✓") ++ [space] ++ text
  | Warn text => bstr "  " ++ paint tty (bstr "1;33") (bstr "!") ++ [space] ++ text
  | Bad text => bstr "  " ++ paint tty (bstr "1;31") (bstr "✗") ++ [space] ++ text
  | Detail text => bstr "    " ++ paint tty (bstr "2") text
  | Hint text => nl :: paint tty (bstr "1;35") (bstr "→") ++ [space] ++ text
  | StatusLine label up note =>
      let dot := if up then paint tty (bstr "1;32") (bstr "●") else paint tty (bstr "1;31") (bstr "●") in
      let state := if up then paint tty (bstr "32") (bstr "up") else paint tty (bstr "31") (bstr "down") in
      bstr "  " ++ dot ++ [space] ++ padded 16 label ++ [space] ++ padded 6 state ++ [space] ++ paint tty (bstr "2") note
  end.

Definition chain_str (c : Chain) : bytes :=
  match c with
  | Stellar => bstr "stellar" | Cosmos => bstr "cosmos" | Cardano => bstr "cardano" | All => bstr "all"
  end.
Definition check (name : bytes) (present : bool) (note : bytes) : Line :=
  if present then Good (name ++ bstr " found") else Bad (name ++ bstr " not found — " ++ note).
Definition flag (name : bytes) (set : bool) (note : bytes) : Line :=
  if set then Good (name ++ bstr " set") else Warn (name ++ bstr " unset — " ++ note).
Definition pending (label reason : bytes) : list Line := [Banner label; Warn (bstr "not wired yet"); Detail reason].

(** [ids.join(", ")]. *)
Definition comma_list (ids : list bytes) : bytes :=
  match ids with [] => [] | id :: ids => id ++ mjoin ((fun x => bstr ", " ++ x) <$> ids) end.

(** ** [print_clients] *)

(** The line of one group; nothing when no identifier is left. *)
Definition client_line (wanted : option bytes) (client : Value) : option Line :=
  let client_type := default (bstr "?") (v ← get client "client_type"; as_str v) in
  let ids := omap as_str (default [] (v ← get client "client_ids"; as_array v)) in
  let ids := match wanted with Some id => filter (fun x => x = id) ids | None => ids end in
  if decide (ids = []) then None else Some (Good (client_type ++ bstr ": " ++ comma_list ids)).
Definition print_clients (value : Value) (wanted : option bytes) : list Line :=
  match (v ← get value "clients"; as_array v : option (list Value)) with
  | None => [Warn (bstr "unexpected response shape from /stellar/clients")]
  | Some clients =>
      let shown := omap (client_line wanted) clients in
      if decide (shown = []) then
        [Detail (match wanted with
                 | Some id => bstr "no client " ++ id ++ bstr " on the stellar router"
                 | None => bstr "no clients created yet"
                 end)]
      else shown
  end.

Section Query.
Context `{Cli.World W}.
Variable root : bytes.

(** [ClientsConfig::api_health_url]. *)
Definition clients_health_url (c : ClientsConfig) : bytes := cc_api_url c ++ bstr "/health".

(** ** [query/clients.rs] *)

Definition stellar_clients (cfg : Config) (client_id : option bytes) : IO W (list Line) :=
  let cc := clients_config cfg in
  let banner := Banner (bstr "query clients — stellar router") in
  up ← Cli.http_ok (clients_health_url cc);
  if negb up then mret [banner; Warn (bstr "api unreachable — start it with `interstellar up`")]
  else
    value ← Cli.get_json (clients_url cc);
    mret (banner :: match value with
                    | Some value => print_clients value client_id
                    | None => [Warn (bstr "could not read /stellar/clients")]
                    end).

Definition state_type (state : option Value) : bytes :=
  default (bstr "?") (s ← state; v ← get s "@type"; as_str v).
Definition state_line (state : Value) : Line :=
  Good (default (bstr "?") (v ← get state "client_id"; as_str v) ++ bstr ": " ++ state_type (get state "client_state")).
Definition cosmos_clients (cfg : Config) (client_id : option bytes) : IO W (list Line) :=
  let base := rest_url (cosmos cfg) ++ bstr "/ibc/core/client/v1/client_states" in
  let url := match client_id with Some id => base ++ bstr "/" ++ id | None => base end in
  value ← Cli.get_json url;
  mret (Banner (bstr "query clients — cosmos") ::
    match value with
    | None => [Warn (bstr "could not read " ++ url)]
    | Some value =>
        match (v ← get value "client_states"; as_array v), get value "client_state" with
        | Some [], _ => [Detail (bstr "no clients on cosmos")]
        | Some states, _ => state_line <$> states
        | None, Some state => [Good (default (bstr "?") client_id ++ bstr ": " ++ state_type (Some state))]
        | None, None => [Warn (bstr "unexpected client_states response shape")]
        end
    end).

(** ** [query/balances.rs] *)

Definition is_double_quote (b : byte) : bool := bool_decide (b = double_quote).
Definition stellar_balances (cfg : Config) (address : bytes) (denom : option bytes) : IO W (list Line) :=
  let banner := Banner (bstr "balances — stellar " ++ address) in
  if decide (transfer_app (deployment cfg) = []) then
    mret [banner; Warn (bstr "TRANSFER_CONTRACT_ADDRESS unset — run `interstellar start` first")]
  else
    let denom := default [] denom in
    out ← attempt (capture_quiet (stellar_in root (balance_args cfg address)));
    mret (banner ::
      (if decide (denom = []) then [] else [Detail (bstr "using denom — " ++ denom)]) ++
      [match out with
       | Ok out => Good (bstr "balance: " ++ trim_matches is_double_quote (trim out) ++ [space] ++ denom)
       | Err _ => Warn (bstr "could not get balance for address " ++ address)
       end]).

(** [coin[key].as_str().unwrap_or("?")]. *)
Definition coin_field (coin : Value) (key : string) : bytes := default (bstr "?") (v ← get coin key; as_str v).
Definition coin_line (coin : Value) : Line := Detail (coin_field coin "amount" ++ [space] ++ coin_field coin "denom").
Fixpoint coin_lines (denom : option bytes) (coins : list Value) : list Line :=
  match coins with
  | [] => []
  | coin :: coins =>
      let is_filtered := match denom with Some d => bool_decide (d = coin_field coin "denom") | None => false end in
      coin_line coin :: (if is_filtered then [] else coin_lines denom coins)
  end.
Definition cosmos_balances (cfg : Config) (address : bytes) (denom : option bytes) : IO W (list Line) :=
  let url := rest_url (cosmos cfg) ++ bstr "/cosmos/bank/v1beta1/balances/" ++ address in
  value ← Cli.get_json url;
  mret (Banner (bstr "balances — cosmos " ++ address) ::
    match value with
    | Some value =>
        match (v ← get value "balances"; as_array v) with
        | Some (coin :: coins) => coin_lines denom (coin :: coins)
        | _ => [Detail (bstr "(no balances)")]
        end
    | None => [Warn (bstr "could not query " ++ url)]
    end).

(** ** [query/mod.rs] *)

Record QueryArgs : Type := MkQueryArgs {
  q_clients : option bool; q_stellar : bool; q_cosmos : bool; q_client_id : option bytes; q_address : option bytes;
  q_denom : option bytes;
}.
Definition get_chain (cosmos stellar : bool) : Chain :=
  match cosmos, stellar with true, false => Cosmos | false, true => Stellar | _, _ => All end.
(** [unimplemented!()]. *)
Definition not_implemented {A} : IO W A := bail (bstr "not implemented").

Definition get_clients (cfg : Config) (chain : Chain) (a : QueryArgs) : IO W (list Line) :=
  match chain with
  | Cosmos => cosmos_clients cfg (q_client_id a)
  | Stellar => stellar_clients cfg (q_client_id a)
  | Cardano => not_implemented
  | All =>
      out1 ← stellar_clients cfg (q_client_id a);
      out2 ← cosmos_clients cfg (q_client_id a);
      mret (out1 ++ out2)
  end.
Definition balance_of (cfg : Config) (a : QueryArgs) : IO W (list Line) :=
  match q_address a with
  | Some address =>
      match chain_of address with
      | Some Cosmos => cosmos_balances cfg address (q_denom a)
      | Some Stellar => stellar_balances cfg address (q_denom a)
      | Some Cardano => not_implemented
      | Some All =>
          out1 ← stellar_balances cfg address (q_denom a);
          out2 ← cosmos_balances cfg address (q_denom a);
          mret (out1 ++ out2)
      | None => mret []
      end
  | None => bail (bstr "address is required")
  end.
(** [query::run]; [--clients] decides by being given, whatever its value. *)
Definition query_run (cfg : Config) (a : QueryArgs) : IO W (list Line) :=
  let chain := get_chain (q_cosmos a) (q_stellar a) in
  match q_clients a, q_address a with
  | Some _, _ => get_clients cfg chain a
  | None, Some _ => balance_of cfg a
  | None, None => mret []
  end.

End Query.

(** ** Balances *)

(** With a denomination the coins before it are printed too; it only ends the list. *)
Lemma coin_lines_prefix denom coins :
  exists shown rest, coins = shown ++ rest /\ coin_lines denom coins = coin_line <$> shown /\
    (rest = [] \/ exists coin, list.last shown = Some coin /\ denom = Some (coin_field coin "denom")).
Proof.
  induction coins as [|coin coins (shown & rest & -> & Heq & Hrest)]; [exists [], []; auto|]. cbn [coin_lines].
  destruct (match denom with Some d => _ | None => false end) eqn:Hf.
  - exists [coin], (shown ++ rest). split_and!; [done|done|]. right. exists coin. split; [done|].
    destruct denom; [|done]. apply bool_decide_eq_true_1 in Hf. by subst.
  - exists (coin :: shown), rest. split_and!; [done|by rewrite Heq|]. destruct Hrest as [|(c & Hl & Hc)]; [by left|right].
    exists c. split; [|done]. rewrite last_cons, Hl. done.
Qed.
Lemma denom_does_not_filter d coins :
  Forall (fun coin => coin_field coin "denom" <> d) coins -> coin_lines (Some d) coins = coin_lines None coins.
Proof.
  induction 1 as [|coin coins Hc _ IH]; [done|]. cbn [coin_lines]. by rewrite bool_decide_eq_false_2, IH by done.
Qed.

(** The chains a query can name, and the branches that are not implemented are not taken. *)
Lemma chain_of_two address c : chain_of address = Some c -> c = Stellar \/ c = Cosmos.
Proof. unfold chain_of. destruct (prefix_of _ _); [intros [= <-]; by right|]. destruct (_ && _); [intros [= <-]; by left|done]. Qed.

Section Implemented.
Context `{Cli.World W} (root : bytes).
Lemma get_json_total url w : exists w' v, Cli.get_json url w = (w', Ok v).
Proof. unfold Cli.get_json, effect, mbind, IO_bind. destruct (http _ w) as [w' r]. by eexists _, _. Qed.
Lemma http_ok_total url w : exists w' b, Cli.http_ok url w = (w', Ok b).
Proof. unfold Cli.http_ok, effect, mbind, IO_bind. destruct (http _ w) as [w' r]. by eexists _, _. Qed.
Lemma IO_bind_total {A B} (m : IO W A) (k : A -> IO W B) w :
  (exists w1 a, m w = (w1, Ok a)) -> (forall a w1, exists w2 b, k a w1 = (w2, Ok b)) -> exists w2 b, (m ≫= k) w = (w2, Ok b).
Proof. intros (w1 & a & Hm) Hk. destruct (Hk a w1) as (w2 & b & Hb). exists w2, b. unfold mbind, IO_bind. by rewrite Hm. Qed.

Lemma cosmos_clients_total cfg id w : exists w' l, cosmos_clients cfg id w = (w', Ok l).
Proof. apply IO_bind_total; [apply get_json_total|]. intros v w1. by eexists _, _. Qed.
Lemma stellar_clients_total cfg id w : exists w' l, stellar_clients cfg id w = (w', Ok l).
Proof.
  apply IO_bind_total; [apply http_ok_total|]. intros [|] w1; cbn [negb]; [|by eexists _, _].
  apply IO_bind_total; [apply get_json_total|]. intros v w2. by eexists _, _.
Qed.
Lemma cosmos_balances_total cfg a d w : exists w' l, cosmos_balances cfg a d w = (w', Ok l).
Proof. apply IO_bind_total; [apply get_json_total|]. intros v w1. by eexists _, _. Qed.
Lemma stellar_balances_total cfg a d w : exists w' l, stellar_balances root cfg a d w = (w', Ok l).
Proof.
  unfold stellar_balances. case_decide; [by eexists _, _|]. apply IO_bind_total.
  - unfold attempt. destruct (capture_quiet _ w) as [w' r]. by eexists _, _.
  - intros r w1. by eexists _, _.
Qed.

(** A query never fails: whatever the arguments and whatever does not answer, it prints. *)
Theorem queries_total cfg a w : exists w' l, query_run root cfg a w = (w', Ok l).
Proof.
  unfold query_run. destruct (q_clients a) as [b|].
  - destruct (get_chain _ _) eqn:Hc; cbn [get_clients];
      [apply stellar_clients_total|apply cosmos_clients_total| |].
    + unfold get_chain in Hc. by destruct (q_cosmos a), (q_stellar a).
    + apply IO_bind_total; [apply stellar_clients_total|]. intros l1 w1.
      apply IO_bind_total; [apply cosmos_clients_total|]. intros l2 w2. by eexists _, _.
  - destruct (q_address a) as [address|] eqn:Ha; [|by eexists _, _]. unfold balance_of. rewrite Ha.
    destruct (chain_of address) as [c|] eqn:Hc; [|by eexists _, _].
    destruct (chain_of_two _ _ Hc) as [-> | ->]; [apply stellar_balances_total|apply cosmos_balances_total].
Qed.
End Implemented.

(** The value given to [--clients] is not looked at. *)
Lemma clients_flag_value_ignored `{Cli.World W} root cfg stellar cosmos id address denom :
  query_run (W:=W) root cfg (MkQueryArgs (Some false) stellar cosmos id address denom) =
  query_run root cfg (MkQueryArgs (Some true) stellar cosmos id address denom).
Proof. done. Qed.

(** ** The clients of the router *)

Lemma omap_join {A B} (f : A -> option B) (ls : list (list A)) : omap f (mjoin ls) = mjoin (omap f <$> ls).
Proof. induction ls as [|l ls IH]; [done|]. csimpl. by rewrite omap_app, IH. Qed.

(** What the router has of a type. *)
Definition type_ids (m : gmap RKey RVal) (ct : bytes) : list bytes := client_id_of ct <$> seqZ 0 (counter m ct).
Definition ids_line (ct : bytes) (ids : list bytes) : option Line :=
  if decide (ids = []) then None else Some (Good (ct ++ bstr ": " ++ comma_list ids)).
Definition wanted_ids (wanted : option bytes) (ids : list bytes) : list bytes :=
  match wanted with Some id => filter (fun x => x = id) ids | None => ids end.

Lemma client_line_group m ct wanted :
  typed m -> omap (client_line wanted) (group_of m ct) = option_list (ids_line ct (wanted_ids wanted (type_ids m ct))).
Proof.
  intros Ht. unfold group_of, type_ids. destruct (Z.eqb_spec (counter m ct) 0) as [->|Hne].
  { by destruct wanted. }
  csimpl. unfold client_line.
  change (get (group_value ct (counter m ct)) "client_type") with (Some (JString ct)).
  change (get (group_value ct (counter m ct)) "client_ids") with
    (Some (JArray ((fun n => JString (client_id_of ct n)) <$> seqZ 0 (counter m ct)))).
  cbn [mbind option_bind as_str as_array default from_option id]. rewrite omap_strings.
  fold (wanted_ids wanted (client_id_of ct <$> seqZ 0 (counter m ct))). unfold ids_line. by case_decide.
Qed.

Definition ids_shown (m : gmap RKey RVal) (wanted : option bytes) (ct : bytes) : option Line :=
  ids_line ct (wanted_ids wanted (type_ids m ct)).
Definition router_lines (m : gmap RKey RVal) (wanted : option bytes) : list Line :=
  omap (ids_shown m wanted) DEFAULT_CLIENT_TYPES.
Lemma groups_shown m wanted :
  typed m -> omap (client_line wanted) (mjoin (group_of m <$> DEFAULT_CLIENT_TYPES)) = router_lines m wanted.
Proof.
  intros Ht. unfold router_lines. rewrite omap_join. induction DEFAULT_CLIENT_TYPES as [|ct types IH]; [done|]. csimpl.
  rewrite IH, client_line_group by done. unfold ids_shown. by destruct (ids_line _ _).
Qed.

Section Shown.
Context `{Cli.World W} `{SorobanRpc} `{LedgerXdr} `{ScvalXdr} `{!LedgerXdrLaws} `{!ScvalXdrLaws}.

(** The tool is served by the API at this address: requests of plain segments reach the route table. *)
Definition cli_sees (r : ApiService.Reply) : Cli.Reply :=
  match r with JsonReply code body => MkReply code (Some body) | PlainReply code _ => MkReply code None end.
Definition served_at (base : bytes) (state : AppState) : Prop :=
  forall segments w, segments <> [] -> Forall segment_ok segments ->
  exists w', http (MkRequest GET (base ++ segment_path segments) JNull) w =
    (w', Some (cli_sees (serve state GET segments [] JNull))).

Context (cfg : Config) (state : AppState) (L : ledger_view) (router : bytes) (m : gmap RKey RVal).
Context (Hserved : served_at (stellar_api_url (stellar cfg)) state) (HL : serves_ledger L)
  (Hhost : hosts_router state L router m) (Ht : typed m) (Hreg : Router.registry m).

Lemma api_healthy w : exists w', Cli.http_ok (clients_health_url (clients_config cfg)) w = (w', Ok true).
Proof.
  destruct (Hserved [bstr "health"] w) as [w' Hw]; [done|segments|]. exists w'.
  unfold Cli.http_ok, effect, mbind, IO_bind. unfold clients_health_url.
  change (cc_api_url (clients_config cfg) ++ bstr "/health")
    with (stellar_api_url (stellar cfg) ++ segment_path [bstr "health"]).
  rewrite Hw. f_equal. f_equal. unfold serve, routes. cbn [dispatch path_match mbind option_bind].
  rewrite decide_True by done. unfold health. by destruct get_latest_ledger.
Qed.

Definition nothing_shown (wanted : option bytes) : Line :=
  Detail (match wanted with
          | Some id => bstr "no client " ++ id ++ bstr " on the stellar router"
          | None => bstr "no clients created yet"
          end).
Lemma stellar_clients_shown wanted w :
  exists w', stellar_clients cfg wanted w = (w', Ok (Banner (bstr "query clients — stellar router") ::
    (if decide (router_lines m wanted = []) then [nothing_shown wanted] else router_lines m wanted))).
Proof.
  destruct (api_healthy w) as [w1 Hh]. destruct (Hserved [bstr "stellar"; bstr "clients"] w1) as [w2 Hw]; [done|segments|].
  exists w2. unfold stellar_clients. unfold mbind at 1, IO_bind at 1. rewrite Hh. cbn [negb].
  assert (Cli.get_json (clients_url (clients_config cfg)) w1 =
    (w2, Ok (Some (jobject [("clients"%string, JArray (mjoin (group_of m <$> DEFAULT_CLIENT_TYPES)))])))) as Hget.
  { unfold Cli.get_json, effect, mbind, IO_bind.
    change (clients_url (clients_config cfg)) with
      (stellar_api_url (stellar cfg) ++ segment_path [bstr "stellar"; bstr "clients"]).
    rewrite Hw, route_clients. destruct Hhost as [Hid Hc Hlen Hs].
    by rewrite (client_groups_eq state L HL router m Hid Hc Hlen Hs Ht). }
  unfold mbind at 1, IO_bind at 1. rewrite Hget. unfold print_clients.
  change (get (jobject [("clients"%string, JArray ?l)]) "clients") with (Some (JArray l)).
  cbn [mbind option_bind as_array]. rewrite groups_shown by done. unfold nothing_shown. by case_decide.
Qed.

(** One identifier: at most one type has it. *)
Lemma wanted_one (id : bytes) (l : list bytes) : NoDup l -> filter (fun x => x = id) l = if decide (id ∈ l) then [id] else [].
Proof.
  induction 1 as [|x l Hx Hl IH]; [done|]. rewrite filter_cons, IH. clear IH.
  destruct (decide (x = id)) as [->|Hxi].
  - rewrite (decide_False (P := id ∈ l)) by done. by rewrite decide_True by (by left).
  - destruct (decide (id ∈ l)) as [Hin|Hin].
    + by rewrite decide_True by (by right).
    + rewrite decide_False; [done|]. rewrite elem_of_cons. by intros [->|].
Qed.
Lemma type_ids_spec ct id : id ∈ type_ids m ct <-> m !! KData (ClientType id) = Some (RvString ct).
Proof.
  pose proof (listed_clients m [ct] id Ht Hreg) as Hl. unfold listed in Hl. csimpl in Hl. rewrite app_nil_r in Hl.
  unfold type_ids. rewrite Hl. split; [by intros (ct' & ->%list_elem_of_singleton & Hm)|]. intros Hm. exists ct. split; [by left|done].
Qed.
Lemma type_ids_NoDup ct : NoDup (type_ids m ct).
Proof.
  pose proof (listed_NoDup m [ct] Ht (list.NoDup_singleton ct)) as Hl. unfold listed in Hl. csimpl in Hl. by rewrite app_nil_r in Hl.
Qed.
Lemma router_lines_one id types :
  NoDup types ->
  omap (ids_shown m (Some id)) types =
  match m !! KData (ClientType id) with
  | Some (RvString ct) => if decide (ct ∈ types) then [Good (ct ++ bstr ": " ++ id)] else []
  | _ => []
  end.
Proof.
  induction 1 as [|ct types Hct Hnd IH]; [by destruct (m !! _) as [[]|]|]. csimpl.
  rewrite IH. unfold ids_shown, ids_line, wanted_ids. rewrite wanted_one by apply type_ids_NoDup.
  destruct (decide (id ∈ type_ids m ct)) as [Hin|Hin].
  - apply type_ids_spec in Hin. rewrite Hin. rewrite (decide_False (P := ct ∈ types)) by done.
    rewrite (decide_True (P := ct ∈ ct :: types)) by (by left). cbn. by rewrite app_nil_r.
  - rewrite type_ids_spec in Hin. destruct (m !! KData (ClientType id)) as [[]|]; try done.
    destruct (decide (s ∈ types)) as [Hs|Hs].
    + by rewrite (decide_True (P := s ∈ ct :: types)) by (by right).
    + rewrite (decide_False (P := s ∈ ct :: types)); [done|]. rewrite elem_of_cons. by intros [->|].
Qed.



(** C32: Over the API service, the query of the Stellar clients prints the clients of the router: a line for each of
    the four types the service asks for that has clients, with all of them, each once, in the order of their numbers; and
    for one identifier the line of its type exactly when the router has a client of such a type with it. *)
Theorem stellar_query_shows_router w :
  (exists w', stellar_clients cfg None w = (w', Ok (Banner (bstr "query clients — stellar router") ::
    (if decide (router_lines m None = []) then [Detail (bstr "no clients created yet")] else router_lines m None)))) /\
  (forall ct, NoDup (type_ids m ct) /\ forall id, id ∈ type_ids m ct <-> m !! KData (ClientType id) = Some (RvString ct)) /\
  (forall id, exists w', stellar_clients cfg (Some id) w = (w', Ok [Banner (bstr "query clients — stellar router");
    match m !! KData (ClientType id) with
    | Some (RvString ct) =>
        if decide (ct ∈ DEFAULT_CLIENT_TYPES) then Good (ct ++ bstr ": " ++ id)
        else Detail (bstr "no client " ++ id ++ bstr " on the stellar router")
    | _ => Detail (bstr "no client " ++ id ++ bstr " on the stellar router")
    end])).
Proof.
  split_and!.
  - exact (stellar_clients_shown None w).
  - intros ct. split; [apply type_ids_NoDup|]. intros id. apply type_ids_spec.
  - intros id. destruct (stellar_clients_shown (Some id) w) as [w' Hw]. exists w'. rewrite Hw.
    assert (router_lines m (Some id) = match m !! KData (ClientType id) with
      | Some (RvString ct) => if decide (ct ∈ DEFAULT_CLIENT_TYPES) then [Good (ct ++ bstr ": " ++ id)] else []
      | _ => []
      end) as ->.
    { apply router_lines_one. apply (bool_decide_unpack _). vm_compute. exact I. }
    destruct (m !! KData (ClientType id)) as [[]|]; try done. destruct (decide (s ∈ DEFAULT_CLIENT_TYPES)); done.
Qed.
End Shown.
