(* ===== verification/CliQueryDemo.v ===== *)
(** * A query on the small ledger

    The tool over the API service over the RPC server of [StackDemo]: the query prints the clients of its router. *)

From Stdlib Require Import ZArith Lia Strings.Byte Strings.String.
From stdpp Require Import base option list gmap numbers.
From S2P Require Import Prelude Bytes Text Crypto Host RouterTypes CoreCommitment Ics02Client Router.
From S2P Require Import LcMock LcTendermint Transfer System Json Xdr ApiTypes LedgerEntries Rpc ApiService ApiClient ApiStack.
From S2P Require Import ApiStorage StackDemo ConfigText Configuration Cli CliTx CliQuery.
Open Scope Z_scope.

#[local] Existing Instances Rfc4506.scval_xdr Rfc4506.scval_xdr_laws LedgerFormat.ledger_xdr LedgerFormat.ledger_xdr_laws.
#[local] Existing Instances Stack.server.

Definition no_variables : Configuration.Env := fun _ => None.
Definition config : Config := load no_variables (bstr "/repo").
Definition base : bytes := stellar_api_url (stellar config).

#[local] Instance query_world : Cli.World unit := {|
  http := fun r w =>
    match strip_prefix base (req_target r) with
    | Some target =>
        let '(segments, params) := target_parts target in
        (w, Some (cli_sees (serve Stack.app_state (req_method r) segments params (req_body r))))
    | None => (w, None)
    end;
  spawn := fun _ w => (w, None); connect := fun _ w => (w, false); now := fun _ => 0; sleep := fun _ w => w;
  unix_secs := fun _ => 0; read_file := fun _ _ => None; write_file := fun _ _ w => (w, false); is_dir := fun _ _ => false;
|}.

Lemma query_served : served_at base Stack.app_state.
Proof.
  intros segments [] Hne Hs. exists tt. cbn [http query_world req_target req_method req_body].
  unfold strip_prefix. rewrite prefix_of_app, drop_app_length, target_of_segments; [done|].
  eapply list.Forall_impl; [exact Hs|]. by intros s [? _].
Qed.

Lemma stellar_query_shows_router_witness :
  (exists w', stellar_clients config None tt = (w', Ok [Banner (bstr "query clients — stellar router"); Good (bstr "mock: mock-0")])) /\
  (exists w', stellar_clients config (Some (bstr "tendermint-0")) tt =
    (w', Ok [Banner (bstr "query clients — stellar router"); Detail (bstr "no client tendermint-0 on the stellar router")])).
Proof.
  destruct (stellar_query_shows_router config Stack.app_state Stack.ledger Stack.router_id (rdata Ledger.busy) query_served Stack.server_serves
    Stack.router_hosted (inv_typed _ Stack.busy_inv) (inv_registry _ Stack.busy_inv) tt) as (Hall & _ & Hone).
  split.
  - destruct Hall as [w' Hw]. exists w'. rewrite Hw. vm_compute. reflexivity.
  - destruct (Hone (bstr "tendermint-0")) as [w' Hw]. exists w'. rewrite Hw. vm_compute. reflexivity.
Defined.
