(* ===== verification/CliMain.v ===== *)
(** * The command line and its flows ([interstellar/src/{main,repo,check,install}.rs], [tx/mod.rs], [tests/])

    Finding the repository, dispatching a command, checking the installation, and the flows that run the tool's
    own commands one after the other and reload the configuration between them.  [dotenvy], which reads the
    environment file into the process environment, is a parameter.  Commands that answer by printing return their
    lines, without those of the commands they run for their effect; lines printed before an error are not kept. *)

From Stdlib Require Import ZArith Lia Strings.Byte Strings.String.
From stdpp Require Import base option list gmap numbers.
From S2P Require Import Prelude Bytes Text Crypto Json ConfigText Configuration Cli CosmosSigner WasmUpload CliTx CliQuery CliStack.
Open Scope Z_scope.

(** ** [repo.rs] *)

Definition MARKER : bytes := bstr "docker-compose.yml".
(** An absolute path, its components from the last to the first. *)
Definition path_text (rev_components : list bytes) : bytes :=
  match rev_components with [] => bstr "/" | _ => mjoin ((fun c => slash :: c) <$> rev rev_components) end.
Definition join_path (dir name : bytes) : bytes := if decide (dir = bstr "/") then dir ++ name else path_join dir name.

Section Repo.
(** [path.exists()]. *)
Variable exists_at : bytes -> bool.

(** [dir.pop()] until the directory has the marker. *)
Fixpoint find_up (rev_components : list bytes) : option bytes :=
  if exists_at (join_path (path_text rev_components) MARKER) then Some (path_text rev_components)
  else match rev_components with [] => None | _ :: parent => find_up parent end.
Definition find_root (env : Env) (cwd : option (list bytes)) : result bytes bytes :=
  match env (bstr "STELLAR_IBC_ROOT") with
  | Some path =>
      if exists_at (join_path path MARKER) then Ok path
      else Err (bstr "STELLAR_IBC_ROOT is set but docker-compose.yml not found under it")
  | None =>
      match cwd with
      | Some dir => ok_or (bstr "could not locate the stellar-ibc repo root") (find_up dir)
      | None => Err (bstr "current directory")
      end
  end.

Definition is_root (rev_components : list bytes) : Prop := exists_at (join_path (path_text rev_components) MARKER) = true.
(** The directory that is found is the nearest one, upward from the current one, that has the marker. *)
Lemma find_up_nearest dir :
  match find_up dir with
  | Some path => exists below above, dir = below ++ above /\ path = path_text above /\ is_root above /\
      forall b1 b2, below = b1 ++ b2 -> b2 <> [] -> ~ is_root (b2 ++ above)
  | None => forall below above, dir = below ++ above -> ~ is_root above
  end.
Proof.
  induction dir as [|c dir IH]; cbn [find_up].
  - destruct (exists_at _) eqn:He.
    + exists [], []. split_and!; [done|done|done|]. by intros [|] [|].
    + intros [|] [|]; try done. intros _. unfold is_root. by rewrite He.
  - destruct (exists_at _) eqn:He.
    + exists [], (c :: dir). split_and!; [done|done|done|]. by intros [|] [|].
    + destruct (find_up dir) as [path|].
      * destruct IH as (below & above & -> & -> & Hr & Hmin). exists (c :: below), above. split_and!; [done|done|done|].
        intros [|b b1] b2 Heq Hne; cbn in Heq.
        -- subst b2. unfold is_root. cbn [app]. by rewrite He.
        -- injection Heq as _ Heq. by apply (Hmin b1).
      * intros [|b below] above Heq; cbn in Heq.
        -- subst above. unfold is_root. by rewrite He.
        -- injection Heq as _ Heq. by apply (IH below).
Qed.
End Repo.

(** ** [install.rs] *)

Definition cargo_bin_dir (env : Env) : bytes :=
  match env (bstr "CARGO_HOME"), env (bstr "HOME") with
  | Some home, _ => join_path home (bstr "bin")
  | None, Some home => join_path (join_path home (bstr ".cargo")) (bstr "bin")
  | None, None => bstr ".cargo/bin"
  end.
(** The components [Path] compares: empty ones and dots do not count, except a leading dot of a relative path. *)
Definition absolute (p : bytes) : bool := prefix_of [slash] p.
Definition path_components (p : bytes) : list bytes :=
  match split_on slash p with
  | [] => []
  | c :: cs =>
      (if decide (c = []) then [] else [c]) ++ filter (fun c => c <> [] /\ c <> bstr ".") cs
  end.
Definition same_path (p q : bytes) : bool :=
  bool_decide (absolute p = absolute q) && bool_decide (path_components p = path_components q).
Definition colon : byte := Byte.x3a.
Definition on_path (env : Env) (dir : bytes) : bool :=
  match env (bstr "PATH") with
  | Some paths => existsb (fun entry => same_path entry dir) (split_on colon paths)
  | None => false
  end.

Section Main.
Context `{Cli.World W} `{CosmosTx} `{Sha256}.
Variable to_string_pretty : Value -> bytes.
Variable address_from_secret : bytes -> option bytes.
(** [dotenvy::from_path_override]: the environment after a file with this text, or none, was read over it. *)
Variable dotenv : option bytes -> Env -> Env.
Variable root : bytes.

Definition reload (env : Env) (w : W) : Env := dotenv (read_file (env_file root) w) env.

Definition install_run (env : Env) : IO W (list Line) :=
  _ ← command (MkCommand (bstr "cargo") [bstr "install"; bstr "--path"; path_join root (bstr "interstellar"); bstr "--force"] root []);
  let bin_dir := cargo_bin_dir env in
  mret ([Banner (bstr "install — cargo install interstellar"); Step (bstr "cargo install --path interstellar --force");
         Good (bstr "installed: " ++ join_path bin_dir (bstr "interstellar"))] ++
        (if on_path env bin_dir then [Good (bin_dir ++ bstr " is on PATH — run: interstellar status")]
         else [Warn (bin_dir ++ bstr " is not on PATH"); Detail (bstr "add it to your shell profile (bash/zsh):");
               Detail (bstr "export PATH=" ++ [double_quote] ++ bin_dir ++ bstr ":$PATH" ++ [double_quote])])).

(** ** [check.rs] and [accounts::show] *)

Definition account_line (label address : bytes) : Line :=
  if decide (address = []) then Warn (padded 18 label ++ bstr " (not provisioned — run `interstellar start`)")
  else Good (padded 18 label ++ [space] ++ address).
Definition accounts_show (cfg : Config) : list Line :=
  [Banner (bstr "accounts (dedicated sender + receiver per chain)");
   Step (bstr "Stellar (Soroban) — origin of a stellar→cosmos transfer");
   account_line (bstr "sender") (stellar_sender_address (accounts cfg));
   account_line (bstr "receiver") (stellar_receiver_address (accounts cfg));
   account_line (bstr "deployer / admin") (deployer_address (deployment cfg));
   Detail (bstr "relayer signer key: " ++ stellar_key_name (stellar cfg) ++ bstr " (held by stellar-api, not the gateway)");
   Step (bstr "Cosmos (ibc-go v11 simd) — destination");
   account_line (bstr "sender") (cosmos_sender_address (accounts cfg));
   account_line (bstr "receiver") (cosmos_receiver_address (accounts cfg));
   Detail (bstr "relayer signer key: " ++ cosmos_key_name (cosmos cfg));
   Hint (bstr "sender & receiver are dedicated accounts, distinct from the deployer/relayer keys")].

Variable exists_at : bytes -> W -> bool.
Definition check_run (cfg : Config) : IO W (list Line) :=
  docker ← has (bstr "docker");
  stellar_cli ← has (bstr "stellar");
  cargo ← has (bstr "cargo");
  env_exists ← (fun w => (w, Ok (exists_at (env_file root) w)));
  cosmos_up ← Cli.http_ok (rest_url (cosmos cfg) ++ bstr "/cosmos");
  api_up ← Cli.http_ok (stellar_api_url (stellar cfg) ++ bstr "/health");
  gateway_up ← tcp_ok (gateway_url (stellar cfg));
  mret ([Banner (bstr "check — prerequisites & configuration"); Step (bstr "toolchain");
         check (bstr "docker") docker (bstr "required to run the chain + services");
         check (bstr "stellar") stellar_cli (bstr "Soroban CLI, used to build/deploy contracts");
         check (bstr "cargo") cargo (bstr "builds the wasm light client + this CLI");
         Step (bstr "repository"); Good (bstr "repo root: " ++ root);
         (if (env_exists : bool) then Good (bstr ".env present")
          else Bad (bstr ".env missing — copy .env.example and fill it in"));
         Step (bstr "configuration");
         flag (bstr "STELLAR_SIGNING_KEY") (negb (bool_decide (signing_key (stellar cfg) = [])))
           (bstr "needed to deploy + sign on Stellar");
         flag (bstr "ROUTER_CONTRACT_ADDRESS") (negb (bool_decide (stellar_ibc_router (stellar cfg) = [])))
           (bstr "router address (set by `interstellar contracts deploy-all`)");
         flag (bstr "TRANSFER_CONTRACT_ADDRESS") (negb (bool_decide (stellar_transfer_app (stellar cfg) = [])))
           (bstr "transfer-app address");
         Step (bstr "services");
         StatusLine (chain_id_str (cosmos_chain (cosmos cfg))) cosmos_up (rest_url (cosmos cfg));
         StatusLine (bstr "stellar-api") api_up (stellar_api_url (stellar cfg));
         StatusLine (bstr "gateway-grpc") gateway_up (gateway_url (stellar cfg))] ++
        (if negb cosmos_up || negb api_up then [Hint (bstr "bring the stack up with: interstellar up")] else []) ++
        [Step (bstr "accounts")] ++ accounts_show cfg).

(** ** [tx/mod.rs] *)

Record InvokeArgs : Type := MkInvokeArgs { inv_id : bytes; inv_call : list bytes }.
Record DeployArgs : Type := MkDeployArgs {
  dep_stellar : bool; dep_cosmos : bool; dep_contract : option string; dep_force : bool; dep_attestation : bool;
}.
Inductive ContractsTx : Type := Upload | Deploy (args : DeployArgs) | Invoke (args : InvokeArgs).
Record TransferTx : Type := MkTransferTx {
  tr_from : bytes; tr_to : bytes; tr_amount : Z; tr_denom : bytes; tr_timeout_secs : Z; tr_no_mint : bool;
}.
Inductive TxCmd : Type :=
| TxClients (cmd : ClientsTx) | TxContracts (cmd : ContractsTx) | TxTransfer (args : TransferTx) | TxQuery (args : QueryArgs).

(** A command that prints nothing of interest. *)
Definition quiet {A} (m : IO W A) : IO W (list Line) := _ ← m; mret [].

Definition contracts_tx (env : Env) (cfg : Config) (cmd : ContractsTx) : IO W (list Line) :=
  let cc := contracts_config cfg in
  match cmd with
  | Upload => quiet (upload_all root cc)
  | Deploy a =>
      if dep_cosmos a then quiet (upload to_string_pretty env root (ct_hermes_config cc) false None)
      else match dep_contract a with
           | Some name => quiet (deploy_one root address_from_secret cc name)
           | None => quiet (deploy_all root address_from_secret cc (dep_force a) (dep_attestation a))
           end
  | Invoke a => quiet (invoke root cc (inv_id a) (inv_call a))
  end.
Definition query_tx (cfg : Config) (args : QueryArgs) : IO W (list Line) := query_run root cfg args.
(** [tx::run]. *)
Definition tx_run (env : Env) (cfg : Config) (cmd : TxCmd) : IO W (list Line) :=
  match cmd with
  | TxClients cmd => quiet (clients_tx root cfg cmd)
  | TxContracts cmd => contracts_tx env cfg cmd
  | TxTransfer a =>
      quiet (transfer_tx root cfg (tr_from a) (tr_to a) (tr_amount a) (tr_denom a) (tr_timeout_secs a) (tr_no_mint a))
  | TxQuery args => query_tx cfg args
  end.

(** ** [tests/] *)

Definition expect_prefix (id prefix : bytes) : IO W unit :=
  if prefix_of prefix id then mret tt else bail (bstr "expected another client id").
(** [tests::clients::run]. *)
Definition clients_flow (cfg : Config) : IO W (list Line) :=
  let cc := clients_config cfg in
  cosmos_client ← create_cosmos root cc true;
  stellar_client ← create_stellar root cc true;
  _ ← expect_prefix cosmos_client (bstr "07-tendermint");
  _ ← expect_prefix stellar_client (bstr "08-wasm");
  mret [Good (bstr "created cosmos=" ++ cosmos_client ++ bstr " stellar=" ++ stellar_client)].

Definition registered_clients (cc : ClientsConfig) : IO W (list bytes) :=
  answer ← Cli.get_json (clients_url cc);
  value ← lift_io (ok_or (bstr "could not read " ++ clients_url cc) answer);
  clients ← lift_io (ok_or (bstr "unexpected response shape from " ++ clients_url cc) (v ← get value "clients"; as_array v));
  mret (omap as_str (mjoin (omap (fun c => v ← get c "client_ids"; as_array v) clients))).
(** [tests::counterparty::run]. *)
Definition counterparty_flow (cfg : Config) : IO W (list Line) :=
  if bool_decide (cosmos_client_id (deployment cfg) = []) || bool_decide (stellar_client_id (deployment cfg) = []) then
    bail (bstr "client ids are empty")
  else
    let cc := clients_config cfg in
    _ ← counterparty_run root cc true;
    _ ← counterparty_run root cc false;
    listed ← registered_clients cc;
    if decide (listed = []) then bail (bstr "the Stellar router lists no clients after counterparty registration")
    else mret [Good (bstr "counterparties paired — Stellar router lists " ++ comma_list listed)].

(** [tests::transfer::run]. *)
Definition transfer_flow (env : Env) (cfg : Config) : IO W (list Line) :=
  let sender := stellar_sender_address (accounts cfg) in
  let receiver := cosmos_receiver_address (accounts cfg) in
  if decide (sender = []) then bail (bstr "STELLAR_SENDER_ADDRESS is unset")
  else if decide (receiver = []) then bail (bstr "COSMOS_RECEIVER_ADDRESS is unset")
  else
    out ← tx_run env cfg (TxTransfer (MkTransferTx sender receiver 1000 (bstr "stake") 600 false));
    mret (out ++ [Good (bstr "ics-20 round trip closed")]).

(** [tests::query::run]. *)
Definition query_flow (cfg : Config) : IO W (list Line) :=
  let cc := clients_config cfg in
  healthy ← Cli.http_ok (clients_health_url cc);
  if negb healthy then bail (bstr "api health check failed at " ++ clients_health_url cc)
  else
    listed ← Cli.get_json (clients_url cc);
    match listed with
    | None => bail (bstr "could not read " ++ clients_url cc)
    | Some _ =>
        node ← Cli.http_ok (cosmos_status_url cc);
        if negb node then bail (bstr "cosmos status check failed at " ++ cosmos_status_url cc)
        else
          let client_states := rest_url (cosmos cfg) ++ bstr "/ibc/core/client/v1/client_states" in
          states ← Cli.get_json client_states;
          match states with
          | None => bail (bstr "could not read " ++ client_states)
          | Some value =>
              match get value "client_states" with
              | None => bail (bstr "unexpected client_states response shape from " ++ client_states)
              | Some _ =>
                  out ← query_run root cfg (MkQueryArgs (Some true) false false None None None);
                  mret ((Good <$> (bstr <$> ["api /health ok"; "api /stellar/clients ok"; "cosmos /status ok";
                                             "cosmos client_states ok"]%string)) ++ out)
              end
          end
    end.

Inductive Ics : Type := Ics02Clients | Ics02Counterparty | Ics20Transfer | Ics02Query.
Definition ics_label (i : Ics) : bytes :=
  match i with
  | Ics02Clients => bstr "ics02-clients" | Ics02Counterparty => bstr "ics02-counterparty"
  | Ics20Transfer => bstr "ics20-transfer" | Ics02Query => bstr "ics02-query"
  end.
Definition exec_flow (env : Env) (i : Ics) (cfg : Config) : IO W (list Line) :=
  match i with
  | Ics02Clients => clients_flow cfg
  | Ics02Counterparty => counterparty_flow cfg
  | Ics20Transfer => transfer_flow env cfg
  | Ics02Query => query_flow cfg
  end.
Definition ALL_FLOWS : list Ics := [Ics02Clients; Ics02Counterparty; Ics20Transfer; Ics02Query].

(** [one]: the configuration is loaded again. *)
Definition one_flow (env : Env) (i : Ics) : IO W (list Line) := fun w =>
  let env := reload env w in
  (out ← exec_flow env i (load env root);
   mret ([Banner (bstr "interstellar test — ics " ++ ics_label i)] ++ out ++ [Good (bstr "ics " ++ ics_label i ++ bstr " passed")])) w.
(** The loop of [every]: a flow that fails is recorded and the next one runs, with the environment file as the
    flows before left it. *)
Fixpoint run_flows (flows : list Ics) (env : Env) : IO W (list Line * list Ics) :=
  match flows with
  | [] => mret ([], [])
  | i :: flows => fun w =>
      let env := reload env w in
      (r ← attempt (exec_flow env i (load env root));
       '(out, failures) ← run_flows flows env;
       let label := bstr "ics " ++ ics_label i in
       mret (match r with
             | Ok lines => (Step label :: lines ++ Good (label ++ bstr " passed") :: out, failures)
             | Err e => (Step label :: Warn (label ++ bstr " failed: " ++ e) :: out, i :: failures)
             end)) w
  end.
Definition every_flow (env : Env) : IO W (list Line) :=
  '(out, failures) ← run_flows ALL_FLOWS env;
  if decide (failures = []) then
    mret (Banner (bstr "interstellar test — all ics flows") :: out ++ [Good (bstr "all ics flows passed")])
  else bail (bstr "ics flows failed: " ++ comma_list (ics_label <$> failures)).
(** [tests::run]. *)
Definition test_run (env : Env) (ics : option Ics) : IO W (list Line) :=
  match ics with Some i => one_flow env i | None => every_flow env end.

(** ** [main.rs] *)

(** [shared.rs]. *)
Record UpArgs : Type := MkUpArgs { up_cosmos : bool; up_stellar : bool }.
Record DownArgs : Type := MkDownArgs { down_volumes : bool }.
Inductive MainCmd : Type :=
| CmdInstall | CmdCheck | CmdUp (args : UpArgs) | CmdDown (args : DownArgs) | CmdStart (args : StartArgs)
| CmdTx (cmd : TxCmd) | CmdServices (cmd : ServicesCmd) | CmdKeysImport | CmdTest (ics : option Ics).

(** [main], once the repository is found. *)
Definition dispatch_cmd (env : Env) (cmd : MainCmd) : IO W (list Line) := fun w =>
  let env := reload env w in
  let cfg := load env root in
  match cmd with
  | CmdInstall => install_run env
  | CmdCheck => check_run cfg
  | CmdUp a => quiet (stack_up root (up_cosmos a) (up_stellar a))
  | CmdDown a => quiet (stack_down root (down_volumes a))
  | CmdStart a => quiet (start env root to_string_pretty address_from_secret cfg a)
  | CmdTx cmd => tx_run env cfg cmd
  | CmdServices cmd => quiet (services_run env root cfg cmd)
  | CmdKeysImport => quiet (import_keys env root cfg)
  | CmdTest ics => test_run env ics
  end w.
End Main.

Section Program.
Context `{Cli.World W} `{CosmosTx} `{Sha256}.
Context (to_string_pretty : Value -> bytes) (address_from_secret : bytes -> option bytes)
  (dotenv : option bytes -> Env -> Env) (exists_at : bytes -> W -> bool).
(** [main]. *)
Definition main (env : Env) (cwd : option (list bytes)) (cmd : MainCmd) : IO W (list Line) := fun w =>
  match find_root (fun p => exists_at p w) env cwd with
  | Ok root => dispatch_cmd to_string_pretty address_from_secret dotenv root exists_at env cmd w
  | Err e => (w, Err e)
  end.
End Program.
