(* ===== verification/CliFlows.v ===== *)
(** * What the flows of the command-line tool rely on ([interstellar/src/tests])

    The flows hand their results to each other through the environment file: the clients that were created are
    written there, and the next flow loads its configuration from it.  What is used of [dotenvy] are two of its
    documented properties, the hypotheses [DotenvLaws]. *)

From Stdlib Require Import ZArith Lia Strings.Byte Strings.String.
From stdpp Require Import base option list gmap numbers.
From S2P Require Import Prelude Bytes Text Crypto Json ConfigText Configuration Cli CosmosSigner WasmUpload CliTx CliQuery CliStack CliMain.
Open Scope Z_scope.

(** ** Lines of the environment file *)

(** Letters, digits and dashes. *)
Definition simple_value (v : bytes) : Prop := v <> [] /\ Forall (fun b => is_separator b = false) v.

Lemma numbered_simple prefix id :
  Forall (fun b => is_separator b = false) prefix -> numbered prefix id -> simple_value id.
Proof.
  intros Hp (r & -> & Hne & Hd). split; [by destruct prefix|]. apply list.Forall_app. split; [done|].
  apply list.Forall_app. split; [by repeat constructor|]. eapply list.Forall_impl; [exact Hd|]. intros b Hb.
  unfold is_separator, is_alphanumeric. cbn beta in Hb. by rewrite Hb.
Qed.
Lemma no_separator_bare b : is_separator b = false -> is_whitespace b = false /\ is_quote b = false.
Proof. destruct b; vm_compute; auto. Qed.
Lemma simple_bare v : simple_value v -> bare v.
Proof.
  intros [Hne Hv]. split; [done|]. rewrite list.Forall_forall in Hv. intros x [Hx|Hx]; apply no_separator_bare, Hv;
    [by apply head_Some_elem_of|by apply last_Some_elem_of].
Qed.
Lemma simple_read v dflt : simple_value v -> get_var (Some v) dflt = v.
Proof.
  intros Hv. apply get_var_wrapped; [by apply simple_bare|]. exists [], [], [], []. rewrite !app_nil_r.
  split_and!; [done|constructor..].
Qed.
Lemma simple_no_nl v : simple_value v -> nl ∉ v.
Proof. intros [_ Hv] Hin. rewrite list.Forall_forall in Hv. by apply Hv in Hin. Qed.

(** A variable is assigned at most once: the update of its first line is its value. *)
Definition at_most_once (k : bytes) (ls : list bytes) : Prop := (length (List.filter (assigns k) ls) <= 1)%nat.
Lemma upsert_once k line ls :
  assigns k line = true -> at_most_once k ls -> List.filter (assigns k) (upsert_line k line ls) = [line].
Proof.
  unfold at_most_once. intros Hline. induction ls as [|l ls IH]; cbn [upsert_line List.filter]; [by rewrite Hline|].
  destruct (assigns k l) eqn:Hl; cbn [List.filter length].
  - rewrite Hline. destruct (List.filter (assigns k) ls) eqn:Hf; [done|]. cbn [length]. lia.
  - rewrite Hl. apply IH.
Qed.
Lemma upsert_Forall (P : bytes -> Prop) k line ls : P line -> Forall P ls -> Forall P (upsert_line k line ls).
Proof.
  intros Hp. induction 1 as [|l ls Hl Hls IH]; cbn [upsert_line]; [by constructor; [|constructor]|].
  destruct (assigns k l); by constructor.
Qed.

(** ** Flows *)

Section Flows.
Context `{WorldLaws W}.
Variable dotenv : option bytes -> Env -> Env.
(** The lines [dotenvy] accepts. *)
Variable well_formed : bytes -> Prop.

Class DotenvLaws : Prop := {
  accepts_assignment : forall k v, plain_key k -> k <> [] -> simple_value v -> well_formed (assignment k v);
  (** It sets the variables of a file it accepts, over those that are set already. *)
  dotenv_sets : forall text env k v, plain_key k -> Forall well_formed (lines text) ->
    List.filter (assigns k) (lines text) = [assignment k v] -> simple_value v -> dotenv (Some text) env k = Some v;
}.
Context `{!DotenvLaws} (root : bytes) (Hown : own_file (env_file root)).

(** What creating a client leaves in the environment file. *)
Lemma create_writes cfg spec w w' id :
  Forall (fun b => is_separator b = false) (id_prefix spec) ->
  create root cfg spec true w = (w', Ok id) ->
  numbered (id_prefix spec) id /\
  read_file (env_file root) w' = Some (env_upsert (default [] (read_file (env_file root) w)) [(result_env_var spec, id)]).
Proof.
  intros Hp. unfold create. intros Hc. set (f := env_file root) in *.
  step_kept f Hc w1 u Hd Hf1. step_kept f Hc w2 gw Hg Hf2. destruct gw; [|done]. cbn [negb] in Hc.
  step_kept f Hc w3 node Hn Hf3. destruct node; [|done]. cbn [negb] in Hc. step_kept f Hc w4 out Ho Hf4.
  step_kept f Hc w5 cid Hid Hf5. injection Hid as -> Hid.
  destruct (extract_client_id out (id_prefix spec)) as [id'|] eqn:Hex; [|done]. injection Hid as ->.
  apply (client_id_extracted _ Hp) in Hex as [Hnum _].
  apply IO_bind_Ok in Hc as (w6 & [] & Hu & Hc). injection Hc as -> ->. split; [done|].
  apply write_text_Ok in Hu. rewrite Hu. by replace (read_file f w5) with (read_file f w) by congruence.
Qed.

(** Two updates of variables that were assigned at most once. *)
Lemma updated_lines text k v :
  Forall plain_line (lines text) -> plain_key k -> simple_value v ->
  lines (env_upsert text [(k, v)]) = upsert_line k (assignment k v) (lines text) /\
  Forall plain_line (lines (env_upsert text [(k, v)])).
Proof.
  intros Ht Hk Hv. assert (plain_update (k, v)) as Hu by (split; [done|by apply simple_no_nl]).
  split; [|by apply env_upsert_plain; [|constructor; [|constructor]]]. by apply (upsert_one_lines text (k, v)), Hv.
Qed.
Lemma updated_twice text k1 v1 k2 v2 env :
  cr ∉ text -> Forall well_formed (lines text) -> plain_key k1 -> plain_key k2 -> k1 <> k2 -> k1 <> [] -> k2 <> [] ->
  simple_value v1 -> simple_value v2 -> at_most_once k1 (lines text) -> at_most_once k2 (lines text) ->
  let env' := dotenv (Some (env_upsert (env_upsert text [(k1, v1)]) [(k2, v2)])) env in
  env' k1 = Some v1 /\ env' k2 = Some v2.
Proof.
  intros Hc%lines_plain Hwf Hk1 Hk2 Hne Hn1 Hn2 Hv1 Hv2 Ho1 Ho2.
  destruct (updated_lines text k1 v1 Hc Hk1 Hv1) as [Hl1 Hp1].
  destruct (updated_lines (env_upsert text [(k1, v1)]) k2 v2 Hp1 Hk2 Hv2) as [Hl2 _]. rewrite Hl1 in Hl2.
  assert (forall k k' l, plain_key k -> plain_key k' -> k <> k' -> assigns k l = true -> assigns k' l = false) as Hother.
  { intros k k' l Hk Hk' Hd Hl. apply not_true_iff_false. intros Hl'. by apply Hd, (assigns_apart k k' l). }
  split; (apply dotenv_sets; [done|..]); rewrite ?Hl2.
  1, 4: do 2 (apply upsert_Forall; [by apply accepts_assignment|]); done.
  - rewrite upsert_keeps_filter; [by apply upsert_once; [apply assigns_assignment|]|by apply assigns_assignment|].
    intros l. by apply Hother.
  - done.
  - apply upsert_once; [by apply assigns_assignment|]. unfold at_most_once.
    rewrite upsert_keeps_filter; [done|by apply assigns_assignment|]. intros l. by apply Hother.
  - done.
Qed.

Lemma create_stellar_forced cfg w w' id :
  create_stellar root cfg true w = (w', Ok id) -> create root cfg (stellar_spec cfg) true w = (w', Ok id).
Proof. unfold create_stellar. by destruct (negb _). Qed.
(** The flow never fails for the identifiers it got. *)
Lemma expected_prefix prefix id (w : W) : numbered prefix id -> expect_prefix id prefix w = (w, Ok tt).
Proof. intros (r & -> & _). unfold expect_prefix. by rewrite prefix_of_app. Qed.
Lemma loaded_client value (mk : bytes -> ClientId) id :
  (forall v, client_id_str (mk v) = v) -> value = id -> client_str (mk <$> non_empty value) = id.
Proof. intros Hmk ->. unfold non_empty. case_decide as Hd; [by subst|]. apply Hmk. Qed.

Definition COSMOS_CLIENT_ID : bytes := bstr "COSMOS_CLIENT_ID".
Definition STELLAR_CLIENT_ID : bytes := bstr "STELLAR_CLIENT_ID".

(** After the flow that creates the clients has passed, the configuration the next flow loads has the two
    clients that were created, and registers each as the counterparty of the other on both chains: whatever the
    process environment had before, if the environment file is one [dotenvy] accepts and assigns the two
    variables at most once. *)
Theorem created_clients_paired env cfg w w1 out :
  cr ∉ default [] (read_file (env_file root) w) ->
  Forall well_formed (lines (default [] (read_file (env_file root) w))) ->
  at_most_once COSMOS_CLIENT_ID (lines (default [] (read_file (env_file root) w))) ->
  at_most_once STELLAR_CLIENT_ID (lines (default [] (read_file (env_file root) w))) ->
  clients_flow root cfg w = (w1, Ok out) ->
  exists cosmos_id stellar_id,
    out = [Good (bstr "created cosmos=" ++ cosmos_id ++ bstr " stellar=" ++ stellar_id)] /\
    numbered (bstr "07-tendermint") cosmos_id /\ numbered (bstr "08-wasm") stellar_id /\
    let next := clients_config (load (reload dotenv root env w1) root) in
    client_str (cc_cosmos_client next) = cosmos_id /\ client_str (cc_stellar_client next) = stellar_id /\
    forall on_stellar, counterparty_run root next on_stellar = register root next on_stellar cosmos_id stellar_id.
Proof.
  intros Hcr Hwf Ho1 Ho2. unfold clients_flow. intros Hc.
  apply IO_bind_Ok in Hc as (wa & c & Hcos & Hc). apply IO_bind_Ok in Hc as (wb & s & Hst & Hc).
  apply create_writes in Hcos as [Hnc Hfa]; [|by repeat constructor].
  apply create_stellar_forced, create_writes in Hst as [Hns Hfb]; [|by repeat constructor].
  apply IO_bind_Ok in Hc as (wc & u & Hp & Hc). apply IO_bind_Ok in Hc as (wd & u' & Hp' & Hc).
  rewrite (expected_prefix _ _ _ Hnc) in Hp. injection Hp as <- _.
  rewrite (expected_prefix _ _ _ Hns) in Hp'. injection Hp' as <- _. injection Hc as <- <-. exists c, s. do 3 (split; [done|]). cbn zeta.
  set (text := default [] (read_file (env_file root) w)) in *. rewrite Hfa in Hfb. cbn [default from_option id] in Hfb.
  assert (plain_key COSMOS_CLIENT_ID /\ plain_key STELLAR_CLIENT_ID) as [Hk1 Hk2].
  { unfold plain_key. split; apply (bool_decide_unpack _); vm_compute; exact I. }
  pose proof (numbered_simple (bstr "07-tendermint") _ ltac:(by repeat constructor) Hnc) as Hsc.
  pose proof (numbered_simple (bstr "08-wasm") _ ltac:(by repeat constructor) Hns) as Hss.
  destruct (updated_twice text COSMOS_CLIENT_ID c STELLAR_CLIENT_ID s env) as [Hec Hes];
    [done..| |done|done|done|done|done|done|]; [by intros Heq; vm_compute in Heq|].
  change (result_env_var (cosmos_spec _)) with COSMOS_CLIENT_ID in Hfb.
  change (result_env_var (stellar_spec _)) with STELLAR_CLIENT_ID in Hfb.
  set (env' := reload dotenv root env wb). assert (env' COSMOS_CLIENT_ID = Some c /\ env' STELLAR_CLIENT_ID = Some s) as [Hc1 Hc2].
  { unfold env', reload. by rewrite Hfb. }
  assert (client_str (cc_cosmos_client (clients_config (load env' root))) = c) as Hcc.
  { apply (loaded_client _ CosmosClient); [done|]. change (get_var (env' COSMOS_CLIENT_ID) [] = c). rewrite Hc1. by apply simple_read. }
  assert (client_str (cc_stellar_client (clients_config (load env' root))) = s) as Hcs.
  { apply (loaded_client _ StellarClient); [done|]. change (get_var (env' STELLAR_CLIENT_ID) [] = s). rewrite Hc2. by apply simple_read. }
  split; [done|]. split; [done|]. intros on_stellar. unfold counterparty_run. by rewrite Hcc, Hcs.
Qed.
End Flows.

(** ** All flows *)

Section Every.
Context `{Cli.World W} `{CosmosTx} `{Sha256}.
Context (to_string_pretty : Value -> bytes) (address_from_secret : bytes -> option bytes)
  (dotenv : option bytes -> Env -> Env) (root : bytes).

(** Flows that pass one after the other, each with the environment the ones before left. *)
Inductive passed : list Ics -> Env -> W -> W -> Prop :=
| passed_nil env w : passed [] env w w
| passed_cons i flows env w w1 w2 out :
    exec_flow to_string_pretty address_from_secret root (reload dotenv root env w) i (load (reload dotenv root env w) root) w =
      (w1, Ok out) ->
    passed flows (reload dotenv root env w) w1 w2 -> passed (i :: flows) env w w2.

Lemma run_flows_total flows env w :
  exists w' lines failures,
    run_flows to_string_pretty address_from_secret dotenv root flows env w = (w', Ok (lines, failures)) /\
    failures ⊆ flows /\ forall w2, passed flows env w w2 <-> w2 = w' /\ failures = [].
Proof.
  revert env w. induction flows as [|i flows IH]; intros env w.
  { exists w, [], []. split_and!; [done|done|]. intros w2. split; [by inversion 1|intros [-> _]; constructor]. }
  cbn [run_flows]. unfold mbind at 1, IO_bind at 1, attempt.
  destruct (exec_flow _ _ _ _ _ _ w) as [w1 r] eqn:Hx.
  destruct (IH (reload dotenv root env w) w1) as (w' & ls & fs & Hr & Hsub & Hp).
  unfold mbind, IO_bind. rewrite Hr. cbn. destruct r as [out|e]; eexists w', _, _; (split; [done|]); (split; [set_solver|]); intros w2.
  - rewrite <-Hp. split; [|by econstructor].
    inversion 1 as [|? ? ? ? w1' ? ? Hx' Hps]; subst. rewrite Hx in Hx'. by injection Hx' as <- _.
  - split; [|by intros [_ ?]]. inversion 1 as [|? ? ? ? w1' ? ? Hx' Hps]; subst. by rewrite Hx in Hx'.
Qed.
(** A flow that fails does not stop the others; together they succeed exactly when each of them does, and the
    error names the ones that failed. *)
Theorem every_flow_passes env w :
  exists w' r, every_flow to_string_pretty address_from_secret dotenv root env w = (w', r) /\
    (is_ok r = true <-> passed ALL_FLOWS env w w') /\
    forall e, r = Err e -> exists failures, failures <> [] /\ failures ⊆ ALL_FLOWS /\
      e = bstr "ics flows failed: " ++ comma_list (ics_label <$> failures).
Proof.
  destruct (run_flows_total ALL_FLOWS env w) as (w1 & ls & fs & Hr & Hsub & Hp).
  unfold every_flow, mbind, IO_bind. rewrite Hr. case_decide as Hf; eexists w1, _; (split; [done|]).
  - split; [|done]. by rewrite Hp.
  - split; [rewrite Hp; by split; [|intros [_ ?]]|]. intros e [= <-]. by exists fs.
Qed.
End Every.
