(* ===== verification/CliFlowsDemo.v ===== *)
(** * The flows on a small machine

    A reader of environment files with the properties [CliFlows] uses, and a machine on which the flows run. *)

From Stdlib Require Import ZArith Lia Strings.Byte Strings.String.
From stdpp Require Import base option list gmap numbers.
From S2P Require Import Prelude Bytes Text Crypto Json ConfigText Configuration Cli CosmosSigner WasmUpload CliTx CliQuery.
From S2P Require Import CliStack CliMain CliFlows.
Open Scope Z_scope.

(** ** A reader of environment files *)

Definition set_line (env : Env) (line : bytes) : Env :=
  match split_once equals line with
  | Some (k, v) => fun key => if decide (key = k) then Some v else env key
  | None => env
  end.
Definition read_env (text : option bytes) (env : Env) : Env :=
  match text with Some text => foldl set_line env (lines text) | None => env end.
(** A name, an equals sign and a value, without blanks before. *)
Definition env_line (l : bytes) : Prop := exists k v, l = k ++ equals :: v /\ plain_key k /\ k <> [].

Lemma env_line_assigns k k' v : plain_key k -> plain_key k' -> k' <> [] ->
  assigns k (k' ++ equals :: v) = bool_decide (k = k').
Proof.
  intros Hk Hk' Hne. assert (assigns k' (k' ++ equals :: v) = true) as Hself.
  { unfold assigns, trim_start. replace (trim_start_matches is_whitespace (k' ++ equals :: v)) with ((k' ++ [equals]) ++ v).
    - apply prefix_of_app.
    - rewrite <-app_assoc. symmetry. apply (trim_start_app is_whitespace []); [constructor|].
      destruct Hk' as [_ Hw]. destruct Hw as [|b k'' Hb Hw]; done. }
  case_bool_decide as Heq; [by subst|]. apply not_true_iff_false. intros Ha. by apply Heq, (assigns_apart k k' _ Hk Hk' Ha).
Qed.
Lemma read_env_other ls env k :
  plain_key k -> Forall env_line ls -> List.filter (assigns k) ls = [] -> foldl set_line env ls k = env k.
Proof.
  intros Hk Hls. revert env. induction Hls as [|l ls (k' & v & -> & Hk' & Hne) Hls IH]; intros env Hf; [done|].
  cbn [List.filter] in Hf. rewrite env_line_assigns in Hf by done. case_bool_decide as Heq; [done|].
  cbn [foldl]. rewrite IH by done. unfold set_line. rewrite split_once_app by apply Hk'. by rewrite decide_False.
Qed.
#[local] Instance read_env_laws : DotenvLaws read_env env_line.
Proof.
  split.
  - intros k v Hk Hne [_ Hv]. exists k, v. split_and!; [|done|done]. unfold assignment, rendered.
    destruct (existsb is_whitespace v) eqn:Hw; [|done]. apply existsb_exists in Hw as (b & Hb%list_elem_of_In & Hw).
    rewrite list.Forall_forall in Hv. apply Hv, no_separator_bare in Hb as [Hb _]. congruence.
  - intros text env k v Hk Hls Hf [_ Hv]. cbn [read_env]. revert env. induction Hls as [|l ls (k' & v' & -> & Hk' & Hne) Hls IH].
    { done. }
    intros env. cbn [List.filter foldl] in *. rewrite env_line_assigns in Hf by done. case_bool_decide as Heq.
    + injection Hf as Hl Hrest. rewrite read_env_other by done. unfold set_line. rewrite split_once_app by apply Hk'.
      rewrite decide_True by done. f_equal. subst k'. unfold assignment, rendered in Hl. cbn [app] in Hl.
      assert (existsb is_whitespace v = false) as Hw.
      { apply not_true_iff_false. intros (b & Hb%list_elem_of_In & Hw)%existsb_exists.
        rewrite list.Forall_forall in Hv. apply Hv, no_separator_bare in Hb as [Hb _]. congruence. }
      rewrite Hw in Hl. apply app_inv_head in Hl. by injection Hl.
    + by apply IH.
Qed.

(** ** A machine *)

Record Machine : Type := MkMachine { clock : Z; files : bytes -> option bytes }.
Definition printed_ids : bytes := bstr "SUCCESS created 07-tendermint-3 and 08-wasm-5".
#[local] Instance machine : Cli.World Machine := {|
  http := fun _ w => (w, Some (MkReply 200 None));
  spawn := fun _ w => (w, Some (MkOutput true [] printed_ids []));
  connect := fun _ w => (w, true);
  now := clock; sleep := fun d w => MkMachine (clock w + d) (files w); unix_secs := fun w => clock w / 1000;
  read_file := fun f w => files w f;
  write_file := fun f t w => (MkMachine (clock w) (fun g => if decide (g = f) then Some t else files w g), true);
  is_dir := fun _ _ => false;
|}.
#[local] Instance machine_laws : WorldLaws Machine.
Proof.
  split; try done.
  - intros f t w w' [= <-]. cbn. by rewrite decide_True.
  - intros f g t w Hne. cbn. by rewrite decide_False.
Qed.

Definition ROOT : bytes := bstr "/repo".
Definition env_text : bytes := bstr "STELLAR_CLIENT_ID=08-wasm-0" ++ [nl] ++ bstr "COSMOS_CHAIN_ID=simd-1" ++ [nl].
Definition config_text : bytes := bstr "wasm_checksum_hex = 'ab12'".
Definition before : Machine :=
  MkMachine 0 (fun f => if decide (f = env_file ROOT) then Some env_text
                        else if decide (f = bstr "/repo/hermes-config.toml") then Some config_text else None).
(** The process started with another client in its environment. *)
Definition process_env : Env := fun k => if decide (k = bstr "COSMOS_CLIENT_ID") then Some (bstr "07-tendermint-0") else None.
Definition config : Config := load process_env ROOT.
Definition after_clients : Machine * result bytes (list Line) := clients_flow ROOT config before.

Example clients_flow_passes :
  after_clients.2 = Ok [Good (bstr "created cosmos=07-tendermint-3 stellar=08-wasm-5")] /\
  lines (default [] (read_file (env_file ROOT) after_clients.1)) =
    (bstr <$> ["STELLAR_CLIENT_ID=08-wasm-5"; "COSMOS_CHAIN_ID=simd-1"; "COSMOS_CLIENT_ID=07-tendermint-3"]%string).
Proof. vm_compute. auto. Qed.

Lemma created_clients_paired_witness :
  exists cosmos_id stellar_id,
    [Good (bstr "created cosmos=07-tendermint-3 stellar=08-wasm-5")] =
      [Good (bstr "created cosmos=" ++ cosmos_id ++ bstr " stellar=" ++ stellar_id)] /\
    numbered (bstr "07-tendermint") cosmos_id /\ numbered (bstr "08-wasm") stellar_id /\
    let next := clients_config (load (reload read_env ROOT process_env after_clients.1) ROOT) in
    client_str (cc_cosmos_client next) = cosmos_id /\ client_str (cc_stellar_client next) = stellar_id /\
    forall on_stellar, counterparty_run ROOT next on_stellar = register (W:=Machine) ROOT next on_stellar cosmos_id stellar_id.
Proof.
  apply (created_clients_paired read_env env_line ROOT ltac:(by intros c w) process_env config before after_clients.1).
  - apply (bool_decide_unpack _). vm_compute. exact I.
  - assert (lines (default [] (read_file (env_file ROOT) before)) =
      [bstr "STELLAR_CLIENT_ID" ++ equals :: bstr "08-wasm-0"; bstr "COSMOS_CHAIN_ID" ++ equals :: bstr "simd-1"]) as ->
      by (vm_compute; reflexivity).
    repeat constructor; eexists _, _; (split; [reflexivity|]); (split; [|by intros Heq; vm_compute in Heq]);
      unfold plain_key; apply (bool_decide_unpack _); vm_compute; exact I.
  - unfold at_most_once. vm_compute. lia.
  - unfold at_most_once. vm_compute. lia.
  - assert (after_clients.2 = Ok [Good (bstr "created cosmos=07-tendermint-3 stellar=08-wasm-5")]) as Ho by (vm_compute; reflexivity).
    unfold after_clients in *. rewrite <-Ho. by destruct (clients_flow _ _ _).
Defined.
