(* ===== verification/Startup.v ===== *)
(** * Starting the services ([gateway/src/{runner,query,msg}.rs], [api/src/{lib,runner,state}.rs])

    What the two services are given when they start: the addresses they listen on and contact, and the router
    they work for, which both read from [ROUTER_CONTRACT_ADDRESS].  Listening, the health and reflection services
    and the documentation pages are left out. *)

From Stdlib Require Import ZArith Lia Strings.Byte Strings.String.
From stdpp Require Import base option list gmap numbers.
From S2P Require Import Prelude Bytes Text Crypto Host RouterTypes CoreCommitment Conversion Json Smt GatewayState Xdr.
From S2P Require Import ApiTypes GatewayQuery LedgerEntries Rpc ApiService ApiClient ConfigText Configuration StackDemo.
Open Scope Z_scope.

#[export] Instance ScAddress_eq_dec : EqDecision ScAddress.
Proof. solve_decision. Defined.

Section Startup.
Context `{SorobanRpc}.

(** ** The gateway *)

(** The handlers share the client of the API; the query handler has the replayed state and the contract whose
    events it serves. *)
Record Gateway : Type := MkGateway {
  msg_api : ApiClient; query_api : ApiClient; query_state : GatewayState.State; query_contract : option bytes;
}.
(** The contract the state replays; none when the variable is empty or no contract address. *)
Definition replayed_contract (cfg : GatewayConfig.GatewayConfig) : option bytes :=
  if decide (GatewayConfig.ibc_contract_id cfg = []) then None
  else contract_from_string (GatewayConfig.ibc_contract_id cfg).
Definition build_router (cfg : GatewayConfig.GatewayConfig) : Gateway :=
  let api := new_client (GatewayConfig.api_url cfg) in
  MkGateway api api (GatewayState.new (replayed_contract cfg)) (non_empty (GatewayConfig.ibc_contract_id cfg)).
(** [main]: what is served, and where. *)
Definition gateway_main (env : Env) : bytes * Gateway :=
  let cfg := GatewayConfig.from_env env in (GatewayConfig.grpc_addr cfg, build_router cfg).

(** ** The API service *)

(** [Server::new]: whether the URL of the RPC server is one it takes. *)
Variable rpc_url_ok : bytes -> bool.
(** [dotenvy::dotenv]: the variables of [.env] that are not set already. *)
Variable dotenv_default : Env -> Env.

Definition app_state_of (cfg : ApiConfig.ApiConfig) : AppState :=
  MkAppState (ApiConfig.ibc_contract_id cfg) (ApiConfig.transfer_contract_id cfg) (ApiConfig.network_passphrase cfg).
(** [runner::run]: a URL the client does not take is a panic. *)
Definition api_run (cfg : ApiConfig.ApiConfig) : result bytes (bytes * AppState) :=
  if rpc_url_ok (ApiConfig.rpc_url cfg) then Ok (ApiConfig.addr cfg, app_state_of cfg)
  else Err (bstr "could not create a new rpc client").
Definition api_start (env : Env) : result bytes (bytes * AppState) := api_run (ApiConfig.from_env (dotenv_default env)).

(** ** The router they work for *)

(** The contract whose storage a change touches. *)
Definition change_contract (c : LedgerEntryChange) : option ScAddress :=
  match c with
  | Created (EntryContractData contract _ _) | Updated (EntryContractData contract _ _)
  | Removed (KeyContractData contract _) => Some contract
  | _ => None
  end.
(** A change of a provable entry. *)
Definition provable_write (c : LedgerEntryChange) : option (bytes * bytes) :=
  match c with
  | Created (EntryContractData _ key val) | Updated (EntryContractData _ key val) =>
      path ← scval_to_v2_path key; value ← scval_as_bytes val; Some (path, value)
  | Removed (KeyContractData _ key) => path ← scval_to_v2_path key; Some (path, [])
  | _ => None
  end.

Lemma effect_by id c : GatewayState.effect id c = match change_contract c with
                                     | Some a => if is_router id a then provable_write c else None
                                     | None => None
                                     end.
Proof. destruct c as [[]|[]|[]| |]; done. Qed.

(** The router an environment names: none when the variable is unset, empty or no contract address. *)
Definition named_router (env : Env) : option bytes :=
  let text := env_key env "ROUTER_CONTRACT_ADDRESS" "" in
  if decide (text = []) then None else contract_from_string text.

(** [dotenvy::dotenv] preserves the variables that exist. *)
Definition preserves_variables : Prop := forall env k v, env k = Some v -> dotenv_default env k = Some v.

Lemma api_started env addr api :
  api_start env = Ok (addr, api) -> api = app_state_of (ApiConfig.from_env (dotenv_default env)).
Proof. unfold api_start, api_run. destruct (rpc_url_ok _); [|done]. by intros [= _ <-]. Qed.

(** The service reads the router of its environment, and none otherwise. *)
Lemma api_router env :
  let api := app_state_of (ApiConfig.from_env env) in
  match named_router env with
  | Some router => router_contract api = Ok router
  | None => is_ok (router_contract api) = false
  end.
Proof.
  unfold named_router, router_contract. set (text := env_key env "ROUTER_CONTRACT_ADDRESS" "").
  change (ApiService.ibc_contract_id (app_state_of (ApiConfig.from_env env))) with text.
  destruct (decide (text = [])); [done|]. by destruct (contract_from_string text).
Qed.

(** The gateway replays the router of its environment, and every contract otherwise. *)
Lemma gateway_router env :
  let gateway := (gateway_main env).2 in
  match named_router env with
  | Some router =>
      query_contract gateway = Some (env_key env "ROUTER_CONTRACT_ADDRESS" "") /\
      forall c, GatewayState.effect (GatewayState.ibc_contract_id (query_state gateway)) c =
        if decide (change_contract c = Some (AddrContract router)) then provable_write c else None
  | None => forall c hash, change_contract c = Some (AddrContract hash) ->
      GatewayState.effect (GatewayState.ibc_contract_id (query_state gateway)) c = provable_write c
  end.
Proof.
  cbn zeta. cbn [gateway_main snd build_router query_state query_contract GatewayState.new GatewayState.ibc_contract_id].
  change (replayed_contract (GatewayConfig.from_env env)) with (named_router env).
  change (GatewayConfig.ibc_contract_id (GatewayConfig.from_env env)) with (env_key env "ROUTER_CONTRACT_ADDRESS" "").
  destruct (named_router env) as [router|] eqn:Hn.
  - split. { unfold named_router in Hn. unfold non_empty. by case_decide. }
    intros c. rewrite effect_by. destruct (change_contract c) as [a|]; [|by rewrite decide_False].
    destruct a as [|hash|]; cbn [is_router matches GatewayState.new GatewayState.ibc_contract_id];
      try (by rewrite decide_False by congruence).
    case_bool_decide as Hh; [subst; by rewrite decide_True|]. by rewrite decide_False by congruence.
  - intros c hash Hc. by rewrite effect_by, Hc.
Qed.

(** C31: what the two services work for when they start in one environment.  The service, which first takes from
    [.env] the variables that are not set, reads the router its variables name, or answers no query of the
    router; the gateway, which reads no file, replays the changes of the router its environment names and no
    other contract's, or else the provable writes of every contract of the network.  If the variable is set the
    two name the same router; if it is in [.env] only, the gateway has none. *)
Theorem started_services_agree (env : Env) (addr : bytes) (api : AppState) :
  preserves_variables -> api_start env = Ok (addr, api) ->
  let gateway := (gateway_main env).2 in
  match named_router (dotenv_default env) with
  | Some router => router_contract api = Ok router
  | None => is_ok (router_contract api) = false
  end /\
  match named_router env with
  | Some router =>
      query_contract gateway = Some (env_key env "ROUTER_CONTRACT_ADDRESS" "") /\
      forall c, GatewayState.effect (GatewayState.ibc_contract_id (query_state gateway)) c =
        if decide (change_contract c = Some (AddrContract router)) then provable_write c else None
  | None => forall c hash, change_contract c = Some (AddrContract hash) ->
      GatewayState.effect (GatewayState.ibc_contract_id (query_state gateway)) c = provable_write c
  end /\
  match env (bstr "ROUTER_CONTRACT_ADDRESS") with
  | Some _ => named_router (dotenv_default env) = named_router env
  | None => named_router env = None
  end.
Proof.
  intros Hkeep ->%api_started gateway. split_and!; [apply api_router|apply gateway_router|].
  unfold named_router, env_key. destruct (env (bstr "ROUTER_CONTRACT_ADDRESS")) as [v|] eqn:Hv; [|done].
  by rewrite (Hkeep _ _ _ Hv).
Qed.

End Startup.

(** ** An environment that names the router, and a file that names another contract *)
Module StartDemo.
#[local] Existing Instance Stack.server.

Definition file_text : bytes := bstr "CTRANSFER".
Definition with_file (env : Env) : Env := fun k =>
  match env k with
  | Some v => Some v
  | None => if decide (k = bstr "ROUTER_CONTRACT_ADDRESS") then Some file_text else None
  end.
Definition named : Env := fun k => if decide (k = bstr "ROUTER_CONTRACT_ADDRESS") then Some (bstr "CROUTER") else None.
Definition started : AppState := app_state_of (ApiConfig.from_env (with_file named)).

Lemma with_file_preserves : preserves_variables with_file.
Proof. intros env k v Hk. unfold with_file. by rewrite Hk. Qed.

Lemma started_services_agree_witness :
  router_contract started = Ok Stack.router_id /\
  named_router (with_file named) = named_router named /\
  forall c, GatewayState.effect (GatewayState.ibc_contract_id (query_state (gateway_main named).2)) c =
    if decide (change_contract c = Some (AddrContract Stack.router_id)) then provable_write c else None.
Proof.
  destruct (started_services_agree (fun _ => true) with_file named
    (ApiConfig.addr (ApiConfig.from_env (with_file named))) started with_file_preserves eq_refl)
    as (Hapi & Hgateway & Hsame).
  assert (named_router named = Some Stack.router_id) as Hn by (vm_compute; reflexivity).
  rewrite Hn in Hgateway. destruct Hgateway as [_ Hgateway].
  assert (named_router (with_file named) = Some Stack.router_id) as Hf by (vm_compute; reflexivity).
  rewrite Hf in Hapi. split; [exact Hapi|]. split; [exact Hsame|exact Hgateway].
Defined.

(** Without the variable the service works for the contract of the file and the gateway for every contract. *)
Example file_names_router_for_service_only :
  named_router (with_file (fun _ => None)) = Some Stack.transfer_id /\ named_router (fun _ => None) = None.
Proof. vm_compute. split; reflexivity. Qed.

End StartDemo.
