(* ===== verification/Bridge.v ===== *)
(** * From the router's ledger to the Cosmos light client

    The composition of the two sides of the bridge: transactions of the router ([Router]) close in
    ledgers whose metadata reports the entries they change, the gateway ([GatewayState]) replays these
    ledgers, and the CosmWasm light client ([WasmLightClient]) checks the gateway's proofs.  What a
    ledger reports is the behaviour of the Stellar host, stated by [reports]. *)

From Stdlib Require Import ZArith Lia Strings.Byte Strings.String.
From stdpp Require Import base option list gmap numbers.
From S2P Require Import Prelude Bytes Crypto Host RouterTypes CoreCommitment Ics24Host Interfaces IbcStore Ics02Client PacketHandler Router.
From S2P Require Import Smt Prost WasmTypes MerkleProof Conversion GatewayState WasmLightClient EndToEnd.
From S2P Require Import System LedgerEntries.
Open Scope Z_scope.

(** ** What the metadata of a transaction reports *)

(** The router's storage key an entry or a key of the ledger is about. *)
Definition data_key (id : bytes) (contract : ScAddress) (kv : ScVal) : option RKey :=
  match contract with
  | AddrContract c => if decide (c = id) then router_key_of kv else None
  | _ => None
  end.
Definition change_key (id : bytes) (c : LedgerEntryChange) : option RKey :=
  match c with
  | Created (EntryContractData a kv _) | Updated (EntryContractData a kv _)
  | Removed (KeyContractData a kv) => data_key id a kv
  | _ => None
  end.

(** The change of one entry, when the router's entries go from [m] to [m']; changes of other entries are
    not restricted. *)
Inductive reported (id : bytes) (m m' : gmap RKey RVal) : LedgerEntryChange -> Prop :=
| reported_created k kv v :
    router_key k = Some kv -> m !! k = None -> m' !! k = Some v ->
    reported id m m' (Created (EntryContractData (AddrContract id) kv (router_val v)))
| reported_updated k kv v :
    router_key k = Some kv -> is_Some (m !! k) -> m' !! k = Some v ->
    reported id m m' (Updated (EntryContractData (AddrContract id) kv (router_val v)))
| reported_removed k kv :
    router_key k = Some kv -> is_Some (m !! k) -> m' !! k = None ->
    reported id m m' (Removed (KeyContractData (AddrContract id) kv))
| reported_other c : change_key id c = None -> reported id m m' c.

(** The metadata reports the entries as they end up, and every entry that differs. *)
Definition reports (id : bytes) (m m' : gmap RKey RVal) (cs : changes) : Prop :=
  Forall (reported id m m') cs /\
  forall k, is_Some (router_key k) -> m !! k <> m' !! k -> exists c, c ∈ cs /\ change_key id c = Some k.

(** ** The provable entries of the router *)

#[export] Instance RVal_eq_dec : EqDecision RVal.
Proof. solve_decision. Defined.

Definition provable_entry (m : gmap RKey RVal) (path : bytes) : option bytes :=
  if is_v2_provable_path path then
    match m !! KPath path with Some (RvBytes b) => Some b | _ => None end
  else None.
Definition mirrors (s : gmap bytes bytes) (m : gmap RKey RVal) : Prop :=
  forall path, s !! path = provable_entry m path.

Lemma typed_path_entry m path v :
  typed m -> m !! KPath path = Some v -> exists b, v = RvBytes b /\ b <> [].
Proof.
  intros Ht Hv. apply Ht in Hv. destruct v as [| | | | |b|]; try done. exists b. split; [done|].
  unfold typed_entry in Hv. case_decide; [by subst|]. by destruct b.
Qed.

Lemma provable_entry_nonempty m path : typed m -> provable_entry m path <> Some [].
Proof.
  intros Ht. unfold provable_entry. destruct (is_v2_provable_path path); [|done].
  destruct (m !! KPath path) as [v|] eqn:Hv; [|done].
  destruct (typed_path_entry _ _ _ Ht Hv) as (b & -> & Hb). congruence.
Qed.

(** The write the gateway makes of a reported change is the router's final entry. *)
Definition final (m : gmap RKey RVal) (path : bytes) : bytes := default [] (provable_entry m path).

Lemma is_router_self id : is_router (Some id) (AddrContract id) = true.
Proof. unfold is_router, matches. cbn [GatewayState.ibc_contract_id new]. by apply bool_decide_eq_true_2. Qed.

Lemma change_effect id c w :
  GatewayState.effect (Some id) c = Some w ->
  change_key id c = Some (KPath w.1) /\ is_v2_provable_path w.1 = true.
Proof.
  unfold GatewayState.effect, change_key, is_router, matches. cbn [GatewayState.ibc_contract_id new].
  destruct c as [[a kv v|]|[a kv v|]|[a kv|]| |]; try done; destruct a as [|i|]; try done;
    (case_bool_decide as Hi; [|done]); unfold data_key; rewrite decide_True by done;
    intros (p & Hp & Hw)%bind_Some; unfold scval_to_v2_path in Hp; apply bind_Some in Hp as (b & Hb & Hp);
    destruct kv; try done; injection Hb as ->; destruct (is_v2_provable_path b) eqn:Hpr; try done; injection Hp as <-.
  - apply bind_Some in Hw as (? & _ & [= <-]). done.
  - apply bind_Some in Hw as (? & _ & [= <-]). done.
  - by injection Hw as <-.
Qed.

Lemma effect_final id m m' c p :
  typed m' -> reported id m m' c -> is_v2_provable_path p = true -> change_key id c = Some (KPath p) ->
  GatewayState.effect (Some id) c = Some (p, final m' p).
Proof.
  intros Ht Hc Hp Hk. unfold final, provable_entry. rewrite Hp.
  destruct Hc as [k kv v Hkv _ Hv|k kv v Hkv _ Hv|k kv Hkv _ Hv|c Hc]; [..|congruence];
    cbn [change_key] in Hk; unfold data_key in Hk; rewrite decide_True in Hk by done;
    apply router_keys_read in Hkv as Hkv'; rewrite Hkv' in Hk; injection Hk as ->; injection Hkv as <-;
    unfold GatewayState.effect; rewrite is_router_self; unfold scval_to_v2_path; cbn [scval_as_bytes mbind option_bind];
    rewrite Hp, Hv; [..|done].
  - by destruct (typed_path_entry _ _ _ Ht Hv) as (b & -> & _).
  - by destruct (typed_path_entry _ _ _ Ht Hv) as (b & -> & _).
Qed.

(** Writes that all set their path to the same final value. *)
Lemma store_writes_final (f : bytes -> bytes) ws s p :
  (forall w, w ∈ ws -> w.2 = f w.1) ->
  foldl store_write s ws !! p =
  if decide (p ∈ ws.*1) then (if decide (f p = []) then None else Some (f p)) else s !! p.
Proof.
  induction ws as [|w ws IH] using rev_ind; intros Hws.
  { cbn [foldl]. by rewrite decide_False by apply not_elem_of_nil. }
  assert (w.2 = f w.1) as Hw by (apply Hws, elem_of_app; right; left).
  rewrite foldl_app, fmap_app. cbn [foldl fmap list_fmap].
  specialize (IH (fun x Hx => Hws x (proj2 (elem_of_app _ _ _) (or_introl Hx)))).
  unfold store_write at 1. rewrite Hw. destruct (decide (w.1 = p)) as [<-|Hne].
  - clear IH. rewrite (decide_True (P := w.1 ∈ ws.*1 ++ [w.1])) by (apply elem_of_app; right; left).
    case_decide; [apply lookup_delete_eq|apply lookup_insert_eq].
  - rewrite (decide_ext (p ∈ ws.*1 ++ [w.1]) (p ∈ ws.*1)).
    + rewrite <-IH. destruct (decide (f w.1 = [])); [by apply lookup_delete_ne|by apply lookup_insert_ne].
    + rewrite elem_of_app, list_elem_of_singleton. naive_solver.
Qed.

(** ** One transaction *)

Lemma reports_mirror id m m' cs s :
  typed m' -> reports id m m' cs -> mirrors s m ->
  mirrors (foldl store_write s (writes_of (Some id) cs)) m'.
Proof.
  intros Ht [Hcs Hall] Hs p.
  assert (forall w, w ∈ writes_of (Some id) cs -> w.2 = final m' w.1) as Hfin.
  { intros w (c & Hc & He)%list_elem_of_omap. destruct (change_effect _ _ _ He) as [Hk Hp].
    rewrite list.Forall_forall in Hcs.
    pose proof (effect_final id m m' c w.1 Ht (Hcs c Hc) Hp Hk) as He'. rewrite He in He'.
    by injection He' as ->. }
  rewrite (store_writes_final (final m') _ _ _ Hfin).
  assert (provable_entry m' p = if decide (final m' p = []) then None else Some (final m' p)) as Hp'.
  { unfold final. pose proof (provable_entry_nonempty m' p Ht).
    destruct (provable_entry m' p) as [b|]; cbn; case_decide; congruence. }
  destruct (decide (p ∈ _)) as [Hin|Hin]; [by rewrite Hp'|]. rewrite Hs. unfold provable_entry.
  destruct (is_v2_provable_path p) eqn:Hp; [|done].
  destruct (decide (m !! KPath p = m' !! KPath p)) as [->|Hne]; [done|]. exfalso. apply Hin.
  destruct (Hall (KPath p) ltac:(by eexists) Hne) as (c & Hc & Hk). rewrite list.Forall_forall in Hcs.
  pose proof (effect_final id m m' c p Ht (Hcs c Hc) Hp Hk) as He.
  apply list_elem_of_fmap. exists (p, final m' p). split; [done|].
  apply list_elem_of_omap. by exists c.
Qed.

(** Every change of the router's entries has such a report: the entries that differ, in some order. *)
Definition diff_entry (id : bytes) (m m' : gmap RKey RVal) (k : RKey) : option LedgerEntryChange :=
  kv ← router_key k;
  match m !! k, m' !! k with
  | None, Some v => Some (Created (EntryContractData (AddrContract id) kv (router_val v)))
  | Some v0, Some v => if decide (v0 = v) then None
                       else Some (Updated (EntryContractData (AddrContract id) kv (router_val v)))
  | Some _, None => Some (Removed (KeyContractData (AddrContract id) kv))
  | None, None => None
  end.
Definition diff (id : bytes) (m m' : gmap RKey RVal) : changes :=
  omap (diff_entry id m m') (elements (dom m ∪ dom m')).

Lemma diff_reports id m m' : reports id m m' (diff id m m').
Proof.
  split.
  - apply list.Forall_forall. intros c (k & _ & Hc)%list_elem_of_omap.
    apply bind_Some in Hc as (kv & Hkv & Hc).
    destruct (m !! k) as [v0|] eqn:H0, (m' !! k) as [v|] eqn:H1; try done.
    + case_decide; [done|]. injection Hc as <-. by eapply reported_updated.
    + injection Hc as <-. by eapply reported_removed.
    + injection Hc as <-. by eapply reported_created.
  - intros k [kv Hkv] Hne.
    assert (exists c, diff_entry id m m' k = Some c /\ change_key id c = Some k) as (c & Hc & Hk).
    { unfold diff_entry. rewrite Hkv. cbn [mbind option_bind]. apply router_keys_read in Hkv as Hk.
      destruct (m !! k) as [v0|], (m' !! k) as [v|]; try done; [rewrite decide_False by congruence|..];
        (eexists; split; [done|]); cbn [change_key]; unfold data_key; by rewrite decide_True. }
    exists c. split; [|done]. apply list_elem_of_omap. exists k. split; [|done].
    rewrite elem_of_elements, elem_of_union, !elem_of_dom.
    destruct (m !! k), (m' !! k); try done; eauto.
Qed.

(** ** Ledgers *)

(** The transactions each ledger closed, with the changes it reported of them. *)
Definition history : Type := Z -> list (label * changes).
Definition ledger_of (h : history) (seq : Z) : changes := mjoin ((h seq).*2).
Definition txs_of (h : history) (first last : Z) : list (label * changes) :=
  mjoin (h <$> seqZ first (last - first + 1)).

Lemma committed_txs h first last : committed (ledger_of h) first last = mjoin ((txs_of h first last).*2).
Proof.
  unfold committed, txs_of. induction (seqZ first (last - first + 1)) as [|s l IH]; [done|].
  csimpl. rewrite fmap_app, join_app. by rewrite IH.
Qed.

Section Ledgers.
Context {X : Type} `{Sha256} `{LightClients X} `{IbcApps X}.
Implicit Types w : World X.

Definition tx_step (id : bytes) w (t : label * changes) w' : Prop :=
  Router.step w t.1 w' /\ reports id (rdata w) (rdata w') t.2.

Lemma tx_steps_steps id w txs w' : steps (tx_step id) w txs w' -> steps Router.step w txs.*1 w'.
Proof. induction 1 as [|w t w1 ts w2 [Ht _] _ IH]; [constructor|]. by econstructor. Qed.

Lemma txs_mirror id w txs w' s :
  steps (tx_step id) w txs w' -> router_inv w -> mirrors s (rdata w) ->
  mirrors (foldl store_write s (writes_of (Some id) (mjoin (txs.*2)))) (rdata w').
Proof.
  intros Hs. revert s. induction Hs as [w|w t w1 ts w2 [Ht Hr] _ IH]; intros s Hi Hm; [done|].
  csimpl. unfold writes_of. rewrite omap_app, foldl_app. apply IH.
  - by eapply step_inv.
  - apply (reports_mirror id (rdata w)); [|done|done]. eapply inv_typed, step_inv; [exact Hi|exact Ht].
Qed.

(** The router [id] was deployed, used without its unchecked writers, had no provable entry before the
    ledger [first], and is in the world [w] after the ledger [last]. *)
Definition runs_through (id : bytes) (h : history) (first last : Z) w : Prop :=
  exists admin x before w0,
    steps Router.step (deployed admin x) before w0 /\ (forall p, provable_entry (rdata w0) p = None) /\
    steps (tx_step id) w0 (txs_of h first last) w /\ protocol (before ++ (txs_of h first last).*1).

Lemma runs_through_steps id h first last w :
  runs_through id h first last w -> exists admin x ls, protocol ls /\ steps Router.step (deployed admin x) ls w.
Proof.
  intros (admin & x & before & w0 & Hb & _ & Hs & Hp). exists admin, x, (before ++ (txs_of h first last).*1).
  split; [done|]. eapply steps_app; [done|]. by eapply tx_steps_steps.
Qed.

Lemma runs_through_mirror id h first last w :
  runs_through id h first last w ->
  mirrors (store_after (writes_of (Some id) (committed (ledger_of h) first last))) (rdata w).
Proof.
  intros (admin & x & before & w0 & Hb & He & Hs & _). rewrite committed_txs.
  apply (txs_mirror id w0); [done| |].
  - eapply steps_inv; [apply deployed_inv|done].
  - intros p. by rewrite He, lookup_empty.
Qed.

(** *** What was published and what is stored *)

Definition resolved (evs : list Event) (cid : bytes) (n : Z) : Prop :=
  exists p, (exists acks, AckPacketEvent cid n p acks ∈ evs) \/ TimeoutPacketEvent cid n p ∈ evs.

(** A packet whose sending was published is committed to until it is resolved. *)
Definition pledged w (cid : bytes) (n : Z) (p : Packet) : Prop :=
  source_client p = cid /\ sequence p = n /\ in_u64 n /\ cid <> [] /\ n <= last_seq (rdata w) cid /\
  (rdata w !! commitment_key cid n = Some (RvBytes (core_packet_commitment p)) \/ resolved (revents w) cid n).
Definition pledges_kept w : Prop :=
  forall cid n p, SendPacketEvent cid n p ∈ revents w -> pledged w cid n p.

Lemma client_id_nonempty m id : registry m -> is_Some (m !! KData (CounterpartyKey id)) -> id <> [].
Proof.
  intros Hr Hc%(reg_counterparty _ Hr). apply (reg_minted _ Hr) in Hc as (ct & n & k & -> & _).
  unfold client_id_of. by intros [_ [[=] _]%app_nil]%app_nil.
Qed.

Lemma resolved_app evs evs' cid n : resolved evs cid n -> resolved (evs ++ evs') cid n.
Proof. intros (p & Hp). exists p. setoid_rewrite elem_of_app. naive_solver. Qed.

Lemma pledged_kept a w w' cid n p :
  raw_action a = false -> acts a w w' -> pledged w cid n p -> pledged w' cid n p.
Proof.
  intros Hraw (He & Hd & _ & Hev) (Hsrc & Hseq & Hn & Hne & Hl & Hst). unfold pledged.
  rewrite Hd, Hev, writes_last_seq, writes_commitment. split_and!; [done..| |].
  - destruct a; try done. case_decide as Hc; [|done]. destruct He as (_ & Hq%last_seq_of & _). rewrite Hc in Hq. lia.
  - destruct Hst as [Hst|Hst]; [|right; by apply resolved_app].
    destruct a as [| | | | | |q|q| |q acks|q| | | |]; try done; try (by left); case_decide as Hk; try (by left).
    + destruct He as (_ & Hq%last_seq_of & Hq' & _). apply commitment_key_inj in Hk as [Hc Hs]; [|done..].
      rewrite Hc in Hq. lia.
    + destruct He as (_ & Hq & _). apply commitment_key_inj in Hk as [<- <-]; [|done..]. right.
      exists q. left. exists acks. apply elem_of_app. right. by left.
    + destruct He as (_ & Hq & _). apply commitment_key_inj in Hk as [<- <-]; [|done..]. right.
      exists q. right. apply elem_of_app. right. by left.
Qed.

Lemma acts_pledges a w w' :
  router_inv w -> raw_action a = false -> acts a w w' -> pledges_kept w -> pledges_kept w'.
Proof.
  intros Hi Hraw Ha Hw cid n p Hp. pose proof Ha as (He & Hd & _ & Hev).
  rewrite Hev, elem_of_app in Hp. destruct Hp as [Hp|Hp].
  { by eapply pledged_kept, Hw. }
  destruct a as [| | | | | |q| | | | | | | |]; cbn [events] in Hp;
    repeat (apply elem_of_cons in Hp as [Hp|Hp]; [try discriminate Hp|]); try (by apply not_elem_of_nil in Hp).
  injection Hp as -> -> ->. destruct He as ((prefix & Hcp) & Hq%last_seq_of & Hn & _).
  unfold pledged. rewrite Hd, writes_last_seq, writes_commitment, !decide_True by done.
  split_and!; try done; [|by left]. apply (client_id_nonempty (rdata w)); [exact (inv_registry _ Hi)|by rewrite Hcp].
Qed.

Lemma run_pledges admin x ls w :
  protocol ls -> steps Router.step (deployed admin x) ls w -> pledges_kept w.
Proof.
  intros Hp Hs. refine (protocol_invariant pledges_kept _ _ _ _ (deployed_inv admin x) Hp _ Hs).
  - intros a v v' Hi Hraw Ha. by apply (acts_pledges a).
  - intros cid n p Hc. by apply not_elem_of_nil in Hc.
Qed.

Lemma run_provenance admin x ls w :
  protocol ls -> steps Router.step (deployed admin x) ls w -> provenance w.
Proof.
  intros Hp Hs. refine (protocol_invariant provenance _ _ _ _ (deployed_inv admin x) Hp _ Hs).
  - intros a v v' _ Hraw Ha. by apply (acts_provenance a).
  - intros cid n v _. unfold rdata. simpl. by rewrite lookup_empty.
Qed.

(** *** Acknowledgements *)

Lemma writes_ack : forall a m cid n,
  writes a m !! ack_key cid n =
  match a with
  | ARecv p acks => if decide (ack_key (dest_client p) (sequence p) = ack_key cid n)
                    then Some (RvBytes (Core.commit_v2_acknowledgement acks)) else m !! ack_key cid n
  | AWriteAck cid' n' acks => if decide (ack_key cid' n' = ack_key cid n)
                    then Some (RvBytes (Core.commit_v2_acknowledgement acks)) else m !! ack_key cid n
  | ARawAck cid' n' h => if decide (ack_key cid' n' = ack_key cid n) then Some (RvBytes h) else m !! ack_key cid n
  | _ => m !! ack_key cid n
  end.
Proof. solve_writes. Qed.

Lemma ack_key_inj c1 n1 c2 n2 :
  in_u64 n1 -> in_u64 n2 -> ack_key c1 n1 = ack_key c2 n2 -> c1 = c2 /\ n1 = n2.
Proof. intros ? ? [= Heq]. apply Core.v2_path_inj in Heq; naive_solver. Qed.

Lemma ack_key_decide {A} c k cid n (a b : A) :
  in_u64 k -> in_u64 n ->
  (if decide (ack_key c k = ack_key cid n) then a else b) = if decide ((c, k) = (cid, n)) then a else b.
Proof.
  intros Hk Hn. apply decide_ext. split; [by intros [-> ->]%ack_key_inj|by intros [= -> ->]].
Qed.

(** Receipts are of clients; an acknowledgement follows a receipt and is the one published. *)
Record acks_account w : Prop := {
  receipts_named : forall cid n, in_u64 n -> is_Some (rdata w !! receipt_key cid n) -> cid <> [];
  acks_received : forall cid n, in_u64 n -> is_Some (rdata w !! ack_key cid n) -> is_Some (rdata w !! receipt_key cid n);
  acks_stored : forall cid n acks, WriteAckEvent cid n acks ∈ revents w ->
    in_u64 n /\ rdata w !! ack_key cid n = Some (RvBytes (Core.commit_v2_acknowledgement acks));
  acks_published : forall cid n v, in_u64 n -> rdata w !! ack_key cid n = Some v ->
    exists acks, WriteAckEvent cid n acks ∈ revents w /\ v = RvBytes (Core.commit_v2_acknowledgement acks);
}.

(** What an action acknowledges. *)
Definition acknowledges (a : action) : option (bytes * Z * list bytes) :=
  match a with
  | ARecv p acks => Some (dest_client p, sequence p, acks)
  | AWriteAck cid n acks => Some (cid, n, acks)
  | _ => None
  end.

Lemma acknowledges_events a cid n acks :
  WriteAckEvent cid n acks ∈ events a <-> acknowledges a = Some (cid, n, acks).
Proof.
  destruct a; cbn [events acknowledges]; rewrite ?elem_of_cons, elem_of_nil; naive_solver.
Qed.

Lemma acknowledges_writes a m cid n :
  raw_action a = false -> enabled a m -> in_u64 n ->
  writes a m !! ack_key cid n =
    match acknowledges a with
    | Some (c, k, acks) => if decide ((c, k) = (cid, n)) then Some (RvBytes (Core.commit_v2_acknowledgement acks))
                           else m !! ack_key cid n
    | None => m !! ack_key cid n
    end.
Proof.
  intros Hraw He Hn. rewrite writes_ack. destruct a as [| | | | | | |p acks|c k acks| | | | | |]; try done; cbn [acknowledges];
    destruct He as (_ & _ & Hk); by rewrite ack_key_decide.
Qed.

(** An action acknowledges only what has no acknowledgement, of a client's packet. *)
Lemma acknowledges_fresh a w cid n acks :
  router_inv w -> acks_account w -> enabled a (rdata w) -> acknowledges a = Some (cid, n, acks) ->
  in_u64 n /\ cid <> [] /\ rdata w !! ack_key cid n = None /\ is_Some (writes a (rdata w) !! receipt_key cid n).
Proof.
  intros Hi Hw He Ha. destruct a as [| | | | | | |p acks'|c k acks'| | | | | |]; try done;
    injection Ha as <- <- <-; cbn [enabled] in He.
  - destruct He as ((prefix & Hcp) & Hr & Hn). split_and!; [done| | |].
    + apply (client_id_nonempty (rdata w)); [exact (inv_registry _ Hi)|by rewrite Hcp].
    + apply eq_None_not_Some. intros Hs%(acks_received _ Hw); [|done]. rewrite Hr in Hs. by destruct Hs.
    + rewrite writes_receipt, decide_True by done. by eexists.
  - destruct He as (Hr & Hk & Hn). split_and!; [done|by eapply (receipts_named _ Hw)|done|by rewrite writes_receipt].
Qed.

Lemma acts_acks a w w' :
  router_inv w -> raw_action a = false -> acts a w w' -> acks_account w -> acks_account w'.
Proof.
  intros Hi Hraw (He & Hd & _ & Hev) Hw.
  pose proof (fun cid n acks => acknowledges_fresh a w cid n acks Hi Hw He) as Hfresh.
  pose proof (fun cid n => acknowledges_writes a (rdata w) cid n Hraw He) as Hwr.
  constructor; rewrite Hd, ?Hev.
  - intros cid n Hn. rewrite writes_receipt. destruct a as [| | | | | | |p acks| | | | | | |];
      try done; try exact (receipts_named _ Hw cid n Hn).
    case_decide as Hk; [|exact (receipts_named _ Hw cid n Hn)]. intros _.
    destruct (Hfresh _ _ _ eq_refl) as (Hp & Hne & _). by apply receipt_key_inj in Hk as [<- _].
  - intros cid n Hn. rewrite Hwr by done. destruct (acknowledges a) as [[[c k] acks]|] eqn:Ha.
    + case_decide as Hk.
      * injection Hk as -> ->. intros _. by apply (Hfresh _ _ _ eq_refl).
      * intros Hs%(acks_received _ Hw); [|done]. by apply writes_keep_receipt.
    + intros Hs%(acks_received _ Hw); [|done]. by apply writes_keep_receipt.
  - intros cid n acks. rewrite elem_of_app, acknowledges_events. intros [Hin|Ha].
    + apply (acks_stored _ Hw) in Hin as [Hn Hs]. split; [done|]. rewrite Hwr by done.
      destruct (acknowledges a) as [[[c k] acks']|] eqn:Ha; [|done]. case_decide as Hk; [|done].
      injection Hk as -> ->. destruct (Hfresh _ _ _ eq_refl) as (_ & _ & Hnone & _). congruence.
    + destruct (Hfresh _ _ _ Ha) as (Hn & _). split; [done|]. by rewrite Hwr, Ha, decide_True by done.
  - intros cid n v Hn. rewrite Hwr by done. setoid_rewrite elem_of_app. setoid_rewrite acknowledges_events.
    destruct (acknowledges a) as [[[c k] acks]|] eqn:Ha; [case_decide as Hk|].
    + injection Hk as -> ->. intros [= <-]. exists acks. auto.
    + intros (acks' & ? & ?)%(acks_published _ Hw); [|done]. eauto.
    + intros (acks' & ? & ?)%(acks_published _ Hw); [|done]. eauto.
Qed.

Lemma run_acks admin x ls w :
  protocol ls -> steps Router.step (deployed admin x) ls w -> acks_account w.
Proof.
  intros Hp Hs. refine (protocol_invariant acks_account _ _ _ _ (deployed_inv admin x) Hp _ Hs).
  - intros a v v' Hi Hraw Ha. by apply (acts_acks a).
  - constructor; unfold rdata, revents; simpl.
    + intros cid n _ [? Hk]. by rewrite lookup_empty in Hk.
    + intros cid n _ [? Hk]. by rewrite lookup_empty in Hk.
    + intros cid n acks Hin. by apply not_elem_of_nil in Hin.
    + intros cid n v _. by rewrite lookup_empty.
Qed.

(** *** What the router promises the other chain *)

(** The commitment of a packet sent and not resolved yet, or of an acknowledgement written. *)
Inductive published (evs : list Event) : bytes -> bytes -> Prop :=
| published_packet cid n p :
    SendPacketEvent cid n p ∈ evs -> ~ resolved evs cid n ->
    published evs (Core.packet_commitment_path cid n) (core_packet_commitment p)
| published_ack cid n acks :
    WriteAckEvent cid n acks ∈ evs ->
    published evs (Core.ack_commitment_path cid n) (Core.commit_v2_acknowledgement acks).

Lemma provable_entry_path m cid d n b :
  cid <> [] -> in_u64 n -> d = Core.PACKET_COMMITMENT_DISCRIMINATOR \/ d = Core.ACK_COMMITMENT_DISCRIMINATOR ->
  m !! KPath (Core.v2_path cid d n) = Some (RvBytes b) -> provable_entry m (Core.v2_path cid d n) = Some b.
Proof.
  intros Hc Hn Hd Hm. unfold provable_entry. rewrite Hm, (proj2 (is_v2_provable_path_spec _)); [done|].
  exists cid, d, n. naive_solver.
Qed.

Lemma published_stored w path v :
  pledges_kept w -> acks_account w -> published (revents w) path v -> provable_entry (rdata w) path = Some v.
Proof.
  intros Hp Ha [cid n p Hs Hr|cid n acks Hk].
  - apply Hp in Hs as (_ & _ & Hn & Hne & _ & [Hst|]); [|done]. apply provable_entry_path; auto.
  - apply (acks_stored _ Ha) in Hk as [Hn Hst]. apply provable_entry_path; auto.
    eapply (receipts_named _ Ha); [done|]. apply (acks_received _ Ha); [done|by rewrite Hst].
Qed.

End Ledgers.

(** ** The gateway over the router's ledgers *)

Section Gateway.
Context {X : Type} `{Sha256} `{LightClients X} `{IbcApps X} `{ProstWire} `{Ics23Numbers}.
Variable meta_from_xdr : bytes -> option LedgerCloseMeta.
Variables (id : bytes) (h : history).

(** The store the gateway replays is the provable part of the router's storage. *)
Lemma replayed_is_router calls first last (w : World X) p :
  range_of calls = Some (first, last) -> runs_through id h first last w ->
  store_after (replayed_writes (Some id) (ledger_of h) calls) !! p = provable_entry (rdata w) p.
Proof. intros Hr Hw. unfold replayed_writes. rewrite Hr. by apply runs_through_mirror. Qed.

(** Its answer for a path: the value of the router's entry, or the absence of one. *)
Lemma gateway_answers_router calls g api seq key first last (w : World X) :
  steps (answers meta_from_xdr (ledger_of h)) (new (Some id)) calls g ->
  serves meta_from_xdr (ledger_of h) api ->
  (forall l, pending g seq l -> available meta_from_xdr api l) ->
  range_of (calls ++ [CallProof seq key]) = Some (first, last) -> runs_through id h first last w ->
  GatewayState.no_collision (key :: (replayed_writes (Some id) (ledger_of h) (calls ++ [CallProof seq key])).*1) ->
  exists g' b, proof_for_path meta_from_xdr api seq key g =
    (g', Ok (match provable_entry (rdata w) key with Some v => Found (sha256 v) b | None => Absent b end)).
Proof.
  intros Hrun Hs Hav Hr Hw Hnc. destruct (proof_for_path meta_from_xdr api seq key g) as [g' res] eqn:Hp.
  pose proof (proof_for_path_answers _ _ _ _ _ _ _ _ _ _ Hrun Hs Hp Hnc) as Ha.
  rewrite (replayed_is_router _ _ _ _ key Hr Hw) in Ha. exists g'. destruct res as [[vh b|b]|e].
  - destruct Ha as (v & pr & -> & -> & _). by exists b.
  - destruct Ha as (pr & -> & _). by exists b.
  - exfalso. destruct (root_at_complete meta_from_xdr api seq g Hav) as (g1 & r & Hroot). congruence.
Qed.
End Gateway.

(** C11: what the router publishes is proved on Cosmos: on a ledger that uses the packet protocol, once
    the gateway can replay the ledgers, it answers, for the path of a packet sent and not resolved yet
    and for the path of an acknowledgement written, with the hash of its commitment and a proof that the
    light client accepts, with that commitment as the value, at every height whose consensus state
    carries the root of the gateway's tree; provided the gateway's first height is not after the router's
    first provable entry, and no two paths share a position in the tree. *)
Theorem published_is_proved_on_cosmos `{ProstWireLaws} `{Ics23Published} `{Sha256} `{Ed25519}
    {X : Type} `{LightClients X} `{IbcApps X} meta_from_xdr id h calls g api seq key v first last (w : World X) :
  steps (answers meta_from_xdr (ledger_of h)) (new (Some id)) calls g ->
  serves meta_from_xdr (ledger_of h) api ->
  (forall l, pending g seq l -> available meta_from_xdr api l) ->
  range_of (calls ++ [CallProof seq key]) = Some (first, last) ->
  runs_through id h first last w ->
  GatewayState.no_collision
    (key :: (replayed_writes (Some id) (ledger_of h) (calls ++ [CallProof seq key])).*1) ->
  published (revents w) key v ->
  exists g' b, proof_for_path meta_from_xdr api seq key g = (g', Ok (Found (sha256 v) b)) /\
    forall st msg, trusts_root st (m_revision_height (vm_height msg)) (CoreSmt.root (smt g')) ->
      vm_proof msg = b -> vm_value msg = v -> mjoin (vm_key_path msg) = key ->
      verify_membership st msg = Ok tt.
Proof.
  intros Hrun Hs Hav Hr Hw Hnc Hpub.
  destruct (runs_through_steps _ _ _ _ _ Hw) as (admin & x & ls & Hp & Hls).
  pose proof (published_stored w key v (run_pledges _ _ _ _ Hp Hls) (run_acks _ _ _ _ Hp Hls) Hpub) as Hv.
  destruct (gateway_answers_router meta_from_xdr id h calls g api seq key first last w Hrun Hs Hav Hr Hw Hnc)
    as (g' & b & Hans). rewrite Hv in Hans. exists g', b. split; [done|]. intros st msg Ht Hb Hval Hkey.
  refine (gateway_proof_verifies_on_cosmos meta_from_xdr (ledger_of h) (Some id) calls g api seq key g' _ b
    st _ msg v Hrun Hs Hans Hnc _ Ht eq_refl Hb Hval Hkey).
  by rewrite (replayed_is_router id h _ _ _ w key Hr Hw).
Qed.

Lemma packet_eq (q p : Packet) :
  sequence q = sequence p -> source_client q = source_client p -> dest_client q = dest_client p ->
  timeout_timestamp q = timeout_timestamp p -> payloads q = payloads p -> q = p.
Proof. destruct p, q; simpl; intros; by subst. Qed.

(** C12: Cosmos accepts only what the router did: on a ledger that uses the packet protocol, if the light
    client accepts a packet's commitment at a height whose consensus state carries the root of the
    gateway's tree, the router had sent that packet; if it accepts an acknowledgement's commitment, the
    router had written that acknowledgement; unless SHA-256 collides on the messages hashed on the way.
    As above, the gateway's first height is not after the router's first provable entry, and no two paths
    share a position in the tree. *)
Theorem cosmos_accepts_only_published `{ProstWire} `{Ics23Numbers} `{Sha256} `{Ed25519}
    {X : Type} `{LightClients X} `{IbcApps X} meta_from_xdr id h calls g first last (w : World X) st msg :
  let key := mjoin (vm_key_path msg) in
  steps (answers meta_from_xdr (ledger_of h)) (new (Some id)) calls g ->
  range_of calls = Some (first, last) -> runs_through id h first last w ->
  GatewayState.no_collision (key :: (replayed_writes (Some id) (ledger_of h) calls).*1) ->
  trusts_root st (m_revision_height (vm_height msg)) (CoreSmt.root (smt g)) ->
  (forall k v siblings, decode_membership_proof (vm_proof msg) = Ok (k, v, siblings) ->
     sound_hashes (leaf_messages (smt g) key ++ [[Byte.x00] ++ sha256 key ++ sha256 (vm_value msg)] ++
       path_messages (smt g) key ++
       fold_messages (CoreSmt.key_index key)
         (CoreSmt.leaf_hash (sha256 key) (sha256 (vm_value msg))) siblings)) ->
  verify_membership st msg = Ok tt ->
  (forall p, in_u64 (sequence p) -> in_u64 (timeout_timestamp p) ->
     key = Core.packet_commitment_path (source_client p) (sequence p) -> vm_value msg = core_packet_commitment p ->
     exists q, SendPacketEvent (source_client p) (sequence p) q ∈ revents w /\
       (Core.no_collision (core_packet_commitment q :: core_packet_commitment p ::
          packet_commitment_messages q ++ packet_commitment_messages p) -> q = p)) /\
  (forall cid n acks, in_u64 n ->
     key = Core.ack_commitment_path cid n -> vm_value msg = Core.commit_v2_acknowledgement acks ->
     exists acks', WriteAckEvent cid n acks' ∈ revents w /\
       (Core.no_collision (Core.commit_v2_acknowledgement acks' :: Core.commit_v2_acknowledgement acks ::
          Core.ack_messages acks' ++ Core.ack_messages acks) -> acks' = acks)).
Proof.
  intros key Hrun Hr Hw Hnc Ht Hms Hok.
  destruct (cosmos_accepts_only_router_writes _ _ _ _ _ _ _ Hrun Hnc Ht Hms Hok) as (v & Hv & Hvh).
  fold key in Hv. rewrite (replayed_is_router id h _ _ _ w key Hr Hw) in Hv.
  assert (rdata w !! KPath key = Some (RvBytes v)) as Hst.
  { unfold provable_entry in Hv. destruct (is_v2_provable_path key); [|done].
    destruct (rdata w !! KPath key) as [[]|]; try done. by injection Hv as ->. }
  destruct (runs_through_steps _ _ _ _ _ Hw) as (admin & x & ls & Hp & Hls). split.
  - intros p Hn Hto Hkey Hval. rewrite Hkey in Hst.
    destruct (run_provenance _ _ _ _ Hp Hls _ _ _ Hn Hst) as (q & Hq & Hsrc & Hseq & [= ->] & Htq).
    exists q. split; [done|]. intros Hc. rewrite Hval in Hvh. apply Hc in Hvh; [|by left|by right; left].
    destruct (core_packet_commitment_binding q p) as (Hd & Ht' & Hpl); [done..| |done|].
    { eapply Core.no_collision_sub; [|exact Hc]. intros z Hz. by do 2 right. }
    by apply packet_eq.
  - intros cid n acks Hn Hkey Hval. rewrite Hkey in Hst.
    destruct (acks_published _ (run_acks _ _ _ _ Hp Hls) _ _ _ Hn Hst) as (acks' & Hin & [= ->]).
    exists acks'. split; [done|]. intros Hc. rewrite Hval in Hvh. apply Hc in Hvh; [|by left|by right; left].
    apply Core.commit_v2_acknowledgement_binding; [|done].
    eapply Core.no_collision_sub; [|exact Hc]. intros z Hz. by do 2 right.
Qed.

(** A gateway whose first request is for a later height does not know the entries written before: it
    answers [Absent], with a non-membership proof, for every path the ledger of that height does not
    write, whatever the router's store has for it. *)
Theorem late_gateway_denies_entries `{Sha256} `{ProstWire} `{Ics23Numbers} meta_from_xdr ledger id api seq key :
  serves meta_from_xdr ledger api -> available meta_from_xdr api seq ->
  let ws := writes_of id (ledger seq) in
  key ∉ ws.*1 -> GatewayState.no_collision (key :: ws.*1) ->
  exists g b, proof_for_path meta_from_xdr api seq key (new id) = (g, Ok (Absent b)).
Proof.
  intros Hs Hav ws Hkey Hnc.
  destruct (proof_for_path meta_from_xdr api seq key (new id)) as [g res] eqn:Hp.
  assert (replayed_writes id ledger ([] ++ [CallProof seq key]) = ws) as Hws.
  { unfold replayed_writes, range_of, committed. cbn. replace (seq - seq + 1) with 1 by lia.
    unfold seqZ. change (Z.to_nat 1) with 1%nat. csimpl. by rewrite Z.add_0_l, app_nil_r. }
  pose proof (proof_for_path_answers meta_from_xdr ledger id [] (new id) api seq key g res) as Ha.
  rewrite Hws in Ha. specialize (Ha ltac:(constructor) Hs Hp Hnc). exists g. destruct res as [[vh b|b]|e].
  - destruct Ha as (v & _ & Hv%store_after_dom & _). done.
  - by exists b.
  - exfalso. destruct (root_at_complete meta_from_xdr api seq (new id)) as (g1 & r & Hroot); [|congruence].
    intros l Hl. unfold pending in Hl. cbn in Hl. by subst.
Qed.
