(* ===== verification/BridgeDemo.v ===== *)
(** * The theorems of [Bridge] on a small ledger

    The ledger of [System]: the router is set up, ledger 20 closes with a packet received, ledger 21 is
    empty, ledger 22 closes with a packet sent.  The gateway is asked for ledger 20, then for a proof at
    22, which a small Cosmos client checks. *)

From Stdlib Require Import ZArith Lia Strings.Byte Strings.String.
From stdpp Require Import base option list gmap numbers.
From S2P Require Import Prelude Bytes Crypto Host RouterTypes CoreCommitment Ics24Host Interfaces IbcStore PacketHandler Router.
From S2P Require Import LcAttestation Smt Prost WasmTypes MerkleProof Conversion GatewayState WasmLightClient EndToEnd.
From S2P Require Import System LedgerEntries Bridge.
Open Scope Z_scope.

#[local] Existing Instances toy_sha256 Protobuf.wire Protobuf.wire_laws ics23_v0_12 ics23_v0_12_published
  WasmDemo.demo_ed25519.
#[local] Instance clients : LightClients Contracts :=
  @deployed_light_clients AttestationLightClient.sample_ed25519 AttestationLightClient.sample_xdr
    Ledger.tendermint_xdr.
#[local] Instance apps : IbcApps Contracts := @deployed_apps Ledger.transfer_xdr.

Definition router_id : bytes := replicate 32 Byte.x15.

(** The transactions with the entries they change. *)
Fixpoint close (w : World Contracts) (ls : list label) : list (label * changes) :=
  match ls with
  | [] => []
  | l :: ls =>
      let w' := replayed w [l] in (l, diff router_id (rdata w) (rdata w')) :: close w' ls
  end.

Lemma close_replay w ls w' : replay w ls = Some w' -> steps (tx_step router_id) w (close w ls) w'.
Proof.
  revert w. induction ls as [|l ls IH]; intros w; [by intros [= ->]; constructor|].
  destruct l as [env c r| |]; cbn [replay]; [|done..]. intros Hr.
  destruct (exec env c w) as [[w1 r1]|] eqn:Hx; [|done].
  destruct (decide (r1 = r /\ call_wf c)) as [[-> Hwf]|] eqn:Hd; [|done].
  assert (replayed w [LCall env c r] = w1) as Hw1.
  { unfold replayed. cbn [replay]. by rewrite Hx, Hd. }
  cbn [close]. rewrite Hw1. econstructor; [|by apply IH]. split; [by constructor|apply diff_reports].
Qed.

Lemma close_steps w ls : replays w ls = true -> steps (tx_step router_id) w (close w ls) (replayed w ls).
Proof.
  unfold replays, replayed. destruct (replay w ls) eqn:Hr; [|done]. intros _. by apply close_replay.
Qed.
Lemma close_labels w ls : (close w ls).*1 = ls.
Proof. revert w. induction ls as [|l ls IH]; intros w; [done|]. cbn [close]. csimpl. by rewrite IH. Qed.

Definition txs20 : list label := [Ledger.receive 1].
Definition txs22 : list label := [Ledger.send 1].
Definition w20 : World Contracts := replayed Ledger.ready txs20.
Definition w22 : World Contracts := replayed w20 txs22.
Definition closed : history := fun seq =>
  if seq =? 20 then close Ledger.ready txs20 else if seq =? 22 then close w20 txs22 else [].

(** The metadata of ledger [n] is the byte [n]: a transaction each, with its changes in one operation. *)
Definition close_meta (n : Z) : LedgerCloseMeta := CloseV1 ((fun t => TxV4 [] [t.2] []) <$> closed n).
Definition meta (x : bytes) : option LedgerCloseMeta :=
  match x with [b] => Some (close_meta (Z_of_byte b)) | _ => None end.
Definition api : ledger_api := fun seq =>
  if (seq <? 0) || (30 <? seq) then Err (LedgerUnavailable seq) else Ok (Some [byte_of_Z seq]).

Lemma close_meta_changes n : ledger_changes (close_meta n) = ledger_of closed n.
Proof.
  unfold ledger_of. cbn [ledger_changes close_meta]. induction (closed n) as [|t ts IH]; [done|].
  csimpl. by rewrite IH, !app_nil_r.
Qed.
Lemma service_serves : serves meta (ledger_of closed) api.
Proof.
  intros seq r. unfold api. destruct ((seq <? 0) || (30 <? seq)) eqn:Hr; [done|]. intros [= <-] m [= <-].
  apply orb_false_iff in Hr as [?%Z.ltb_ge ?%Z.ltb_ge].
  by rewrite Z_of_byte_of_Z, Z.mod_small, close_meta_changes by lia.
Qed.

Definition gateway20 : State := fst (root_at meta api 20 (new (Some router_id))).
Lemma gateway_run : steps (answers meta (ledger_of closed)) (new (Some router_id)) [CallRoot 20] gateway20.
Proof.
  econstructor; [|constructor].
  eapply (answers_root _ _ api _ _ _ _ service_serves).
  rewrite (surjective_pairing (root_at _ _ _ _)). f_equal.
Qed.

Lemma ready_steps : steps Router.step (deployed Ledger.admin Ledger.contracts) Ledger.setup Ledger.ready.
Proof. apply replayed_steps. vm_compute. reflexivity. Qed.

(** Nothing provable is stored by the set-up. *)
Definition unprovable (kv : RKey * RVal) : bool := match kv.1 with KPath _ => false | KData _ => true end.
Lemma ready_unprovable p : provable_entry (rdata Ledger.ready) p = None.
Proof.
  assert (forallb unprovable (map_to_list (rdata Ledger.ready)) = true) as Hall by (vm_compute; reflexivity).
  rewrite forallb_forall in Hall. unfold provable_entry. destruct (is_v2_provable_path p); [|done].
  destruct (rdata Ledger.ready !! KPath p) as [v|] eqn:Hv; [|done].
  apply elem_of_map_to_list, list_elem_of_In, Hall in Hv. done.
Qed.

Lemma router_run : runs_through router_id closed 20 22 w22.
Proof.
  assert (txs_of closed 20 22 = close Ledger.ready txs20 ++ close w20 txs22) as Htxs.
  { reflexivity. }
  exists Ledger.admin, Ledger.contracts, Ledger.setup, Ledger.ready. rewrite Htxs. split_and!.
  - exact ready_steps.
  - exact ready_unprovable.
  - eapply steps_app; apply close_steps; vm_compute; reflexivity.
  - rewrite fmap_app, !close_labels. repeat constructor.
Qed.

Lemma events22 : revents w22 =
  [RecvPacketEvent (bstr "mock-0") 1 (Ledger.incoming 1); WriteAckEvent (bstr "mock-0") 1 Ledger.success;
   SendPacketEvent (bstr "mock-0") 1 (Ledger.outgoing 1)].
Proof. vm_compute. reflexivity. Qed.

Definition packet_key : bytes := Core.packet_commitment_path (bstr "mock-0") 1.
Definition packet_value : bytes := core_packet_commitment (Ledger.outgoing 1).

Lemma packet_published : published (revents w22) packet_key packet_value.
Proof.
  rewrite events22. apply published_packet.
  - do 2 right. left.
  - intros (p & [(acks & Hin)|Hin]); repeat (apply elem_of_cons in Hin as [[=]|Hin]); by apply not_elem_of_nil in Hin.
Qed.

(** A Cosmos client that trusts a root at height 22. *)
Definition trusting (r : bytes) : Storage :=
  set_consensus_state 22 (MkConsensusState 5 [] r) (set_client_state WasmDemo.cs0 ∅).
Lemma trusting_trusts r : trusts_root (trusting r) 22 r.
Proof.
  exists WasmDemo.cs0, (MkConsensusState 5 [] r). unfold trusting.
  rewrite client_state_set_consensus, client_state_set, consensus_state_set_same; [done|..].
  - vm_compute. split; discriminate.
  - split; [reflexivity|]. split; [|intros h [=]]. intros h [= <-]. vm_compute. repeat split; discriminate.
Qed.
Definition message (b : bytes) : VerifyMembershipMsg :=
  MkVerifyMembershipMsg (MkMsgHeight 0 22) 0 0 b [packet_key] packet_value.
Lemma message_key b : mjoin (vm_key_path (message b)) = packet_key.
Proof. apply app_nil_r. Qed.

Lemma gateway_served l : pending gateway20 22 l -> available meta api l.
Proof.
  unfold pending. assert (last_processed gateway20 = Some 20) as -> by (vm_compute; reflexivity). intros Hl.
  assert (l = 21 \/ l = 22) as [->| ->] by lia; by eexists.
Qed.

Lemma paths_apart :
  GatewayState.no_collision (packet_key ::
    (replayed_writes (Some router_id) (ledger_of closed) ([CallRoot 20] ++ [CallProof 22 packet_key])).*1).
Proof. apply GatewayState.Demo.no_collision_check. vm_compute. reflexivity. Qed.

Lemma published_is_proved_on_cosmos_witness :
  exists g b, proof_for_path meta api 22 packet_key gateway20 = (g, Ok (Found (sha256 packet_value) b)) /\
    verify_membership (trusting (CoreSmt.root (smt g))) (message b) = Ok tt.
Proof.
  destruct (published_is_proved_on_cosmos meta router_id closed [CallRoot 20] gateway20 api 22 packet_key
    packet_value 20 22 w22 gateway_run service_serves gateway_served eq_refl router_run paths_apart packet_published)
    as (g & b & Hp & Hv).
  exists g, b. split; [exact Hp|].
  exact (Hv _ (message b) (trusting_trusts _) eq_refl eq_refl (message_key b)).
Defined.

Definition gateway22 : State := fst (root_at meta api 22 gateway20).
Lemma gateway_run22 :
  steps (answers meta (ledger_of closed)) (new (Some router_id)) [CallRoot 20; CallRoot 22] gateway22.
Proof.
  change [CallRoot 20; CallRoot 22] with ([CallRoot 20] ++ [CallRoot 22]).
  eapply steps_app; [exact gateway_run|]. econstructor; [|constructor].
  eapply (answers_root _ _ api _ _ _ _ service_serves).
  rewrite (surjective_pairing (root_at _ _ _ _)). f_equal.
Qed.
Definition proof_bytes : bytes :=
  match snd (proof_for_path meta api 22 packet_key gateway22) with Ok (Found _ b) => b | _ => [] end.

Lemma cosmos_accepts_only_published_witness :
  exists q, SendPacketEvent (bstr "mock-0") 1 q ∈ revents w22.
Proof.
  destruct (cosmos_accepts_only_published meta router_id closed [CallRoot 20; CallRoot 22] gateway22 20 22 w22
    (trusting (CoreSmt.root (smt gateway22))) (message proof_bytes) gateway_run22 eq_refl router_run)
    as [Hpacket _].
  - apply GatewayState.Demo.no_collision_check. vm_compute. reflexivity.
  - apply trusting_trusts.
  - intros k v ss Hdec. set (d := decode_membership_proof (vm_proof (message proof_bytes))) in Hdec.
    assert (ss = match d with Ok (_, _, s) => s | Err _ => [] end) as -> by by rewrite Hdec.
    subst d. apply sound_hashesb_spec. vm_compute. reflexivity.
  - vm_compute. reflexivity.
  - destruct (Hpacket (Ledger.outgoing 1)) as (q & Hq & _);
      [vm_compute; split; discriminate..|apply message_key|reflexivity|].
    exists q. exact Hq.
Defined.

(** The acknowledgement written in ledger 20, for a gateway that is first asked at 21. *)
Definition ack_path : bytes := Core.ack_commitment_path (bstr "mock-0") 1.
Lemma late_gateway_denies_entries_witness :
  is_Some (provable_entry (rdata w22) ack_path) /\
  exists g b, proof_for_path meta api 21 ack_path (new (Some router_id)) = (g, Ok (Absent b)).
Proof.
  split; [vm_compute; by eexists|].
  apply (late_gateway_denies_entries meta (ledger_of closed) (Some router_id) api 21 ack_path service_serves).
  - by eexists.
  - apply not_elem_of_nil.
  - apply GatewayState.Demo.no_collision_check. vm_compute. reflexivity.
Defined.
